(* ===== verification/_CoqProject ===== *)
-Q . S2P
Prelude.v
Types.v
Stream.v
StreamLE.v
Encoding.v
EncodingFacts.v
EncodingSpec.v
Noise.v
Channel.v
NoiseRef.v
ChannelSpec.v
Keypair.v
ServerConfig.v
ServerConfigFacts.v
Zlib.v
Prog.v
Sessions.v
SessionsFacts.v
SessionsSpec.v
Net.v
Server.v
ServerSystem.v
CommandLine.v
ServerFacts.v
ServerSafety.v
ServerRun.v
ServerRef.v
ServerSpec.v
ServerTasksSpec.v
CommandLineSpec.v
Client.v
ClientFacts.v
ClientRef.v
ClientSpec.v
EndToEnd.v
Web.v
WebSpec.v
Transport.v
Recorder.v
Round.v
Driver.v
DriverRef.v
SessionHandlers.v
GG20.v
GG20Run.v
Bindings.v
Network.v
NetworkFacts.v
RoundSpec.v
DriverFacts.v
DriverRun.v
DriverOutput.v
DriverSpec.v
SessionHandlersSpec.v
SessionRun.v
RelaySpec.v
GG20Facts.v
GG20Ref.v
GG20Spec.v
GG20Flow.v
GG20RunSpec.v
BindingsSpec.v
NetworkRun.v
NetworkSession.v
NetworkLines.v
NetworkOpening.v
NetworkDuo.v
NetworkDialogue.v
NetworkProtocol.v
NetworkSpec.v
