(* ===== verification/Prelude.v ===== *)
(** * Verification of the mpc-sdk framework

    The repository is a framework for multi-party computation over the
    network: clients of a relay server set up sessions, open end-to-end
    encrypted channels to each other through it, and run threshold signature
    protocols over these channels.  This development models its Rust crates
    under [src/protocol], [src/server], [src/client], [src/driver],
    [src/bindings] and the command line under [src/src], and proves what they
    promise to each other and to their callers.

    ** The program and the files that model it

    - [src/protocol] is the data and its wire format.  [Types]: messages,
      errors and constants ([protocol.rs], [error.rs], [constants.rs]).
      [Stream]: the interface of the binary stream crate, with [StreamLE] an
      implementation of it.  [Encoding]: every encoder and decoder of
      [encoding/v1/mod.rs].  [Noise]: the interface of the noise library, with
      [NoiseRef] an implementation.  [Channel]: chunks and the encrypted
      channels ([protocol.rs], [channel.rs], and the peer channel of the
      client's [lib.rs]).  [Keypair], [Zlib]: [keypair.rs], [zlib.rs].
      [Sessions]: sessions and meeting points ([protocol.rs]).
    - [src/server] is the relay.  [ServerConfig]: [config.rs], [error.rs].
      [Prog]: tasks as sequences of atomic sections.  [Server]: every handler,
      waiting loop and socket task of [server.rs], [service.rs] and
      [websocket.rs].  [ServerSystem]: their interleavings.
    - [src/src] is the program: [CommandLine] has [main.rs], both of
      [commands], and the listeners of the server's [server.rs].
    - [src/client] is the other end.  [Client]: [lib.rs], [error.rs],
      [client.rs], [event_loop.rs] and [native.rs].  [Web]: [web.rs], the
      client in a browser, which shares the loop of [Client] through the class
      [SocketPlatform].  [Transport]: [transport.rs], as an interface and its
      implementation by the client.
    - [src/driver] runs protocols.  [Round]: [round.rs].  [Driver]:
      [bridge.rs], [error.rs] and the traits of [lib.rs].  [SessionHandlers]:
      [session.rs].  [GG20], [GG20Run]: the drivers of [gg20/keygen.rs] and
      [gg20/sign.rs], the phases of [gg20/mod.rs], and the entry points of
      [lib.rs] with the options of [types.rs].
    - [src/bindings] is [Bindings]: the entry points on JavaScript values.
    - [Network] composes clients that wait in loops of the driver, their event
      loops and sockets, and the server's tasks, in any interleaving.
      [NetworkRun] has the steps of a schedule, [NetworkSession] and
      [NetworkLines] what they do to a party of a session and to the line
      between it and the server, [NetworkOpening] and [NetworkDuo] the phases
      in which two parties open a session, [NetworkDialogue] and
      [NetworkProtocol] the rounds in which they run a protocol.

    A file [XFacts] holds the lemmas on the definitions of [X], [XRef] concrete
    instances of its parameters, and [XSpec] the properties proved of it, each
    with a witness on the concrete instances.  A definition that translates
    code follows a comment that names the lines it translates.

    ** How code is modelled

    A fallible function returns [Res E A]: a value, an error, or [Panic] for
    [unwrap], [unreachable!], an index out of range and the like.  A method on
    [&mut self] is a state monad [SM].  Integers are [Z] with the wrap-around
    of the release profile written out where the code casts or subtracts
    ([as_u16], [wrap16], [wrap64]).  Bytes are [list Byte.byte].  Hash tables
    are [gmap] and [gset], and what iterates over them goes through
    [HashOrder], an arbitrary order.  Random identifiers and clock readings are
    arguments; the clock may be set back at any time.

    An [async fn] of the server is a [Prog]: one atomic section for each lock
    it takes, with the other tasks free to run in between.  Where the code
    holds one lock while it takes another ([notify_peers], and the relaying of
    a message to a peer), the model releases the first earlier and so has more
    interleavings than the code.  A connection is a reference into a heap, as
    the code shares it between the tables and three tasks.  A channel is a
    queue with a flag for its receiver.  The channel between the page and the
    loop of the client in a browser has its bound of 32 messages, since the
    tasks that send on it can outlive either end; the bound of the others, and
    so a sender that waits, is not modelled.  A client and its event loop share
    their state behind locks and are one record; a turn of the loop is one
    branch of its [select!].  What a driver waits on is the list of items the
    event stream yields, each with what the loop did to the shared client
    since the item before; waiting on a list that ends gives [Pending], so no
    fuel is needed, and a theorem that waiting ends gives its result.

    ** Parameters

    Libraries are type classes with laws that state their documentation:
    [BinaryStream] (binary_stream), [StatusCodes] (http), [Noise] and its
    handshake laws (snow), [Flate] (flate2), [Pem] (pem), [Files] (the file
    system and toml), [Hex], [Display], [SerdeJson], and [GG20Library] with
    [StateMachine] (the multi-party-ecdsa crates, of which no law is assumed:
    the theorems take what the library computes as given), the operating
    system, address parsing, axum and clap for the command line, the browser's
    answers for [Web], and [serde_wasm_bindgen] and hexadecimal decoding for
    [Bindings].  Two classes are
    interfaces inside the program, proved for the implementations and used by
    the clients: [Codec] for messages on the wire, and [NetworkTransport] with
    its laws for what protocols are written against.  [ProtocolDriver] is the
    trait of that name.

    ** What is proved

    - Wire format ([EncodingSpec]): every well-formed message round trips
      through its encoding; decoding never panics on any bytes and accepts only
      well-formed messages; foreign frames and versions are refused; a request
      for too many participants is truncated.
    - Channels ([ChannelSpec]): splitting and joining restore the payload and
      keep the two ends in step; what one end of the server channel encrypts
      the other opens; a chunk with a length beyond its contents panics.
    - Sessions ([SessionsSpec]): a session is active exactly when all its
      parties are linked, the connections prescribed to the parties link each
      pair once and suffice; party numbers and keys are inverse; the life of a
      meeting point.
    - Key pairs ([Keypair]): the PEM round trip.
    - Server ([ServerSpec], [ServerTasksSpec]): in every state reachable under
      every interleaving, whatever the configuration and the clock, the tables
      are consistent and a task panics only in the cases the theorem names;
      relaying delivers to the right connection stamped with
      the sender's key or is refused with the right error; requests on the
      encrypted channel are answered as the service says; only its owner closes
      a session; admission, notification, readiness, activation, timeout,
      expiry and disconnection; validation of the configuration.
    - Client ([ClientSpec]) and client with server ([EndToEnd]): the handshakes
      with the server and between peers leave both ends in step, a request is
      answered by the event of the server's answer, a message reaches its peer
      unchanged; the guards of the table of peers; what panics the loop, and
      that a linked client can do it to another through the server with one
      frame.  The client of the browser ([WebSpec]) takes the same turns as the
      native one on the same messages; when the tasks its callbacks spawn are
      safe, and when not.
    - The network ([NetworkSpec]): from a server without clients two of them
      can open a session that both have, with transports in step, and run any
      protocol of a message per round through it to the outputs of both.
    - Driver ([RoundSpec], [DriverSpec], [SessionHandlersSpec], [RelaySpec],
      [GG20Spec], [GG20RunSpec]): rounds are handed over complete and once,
      for every interleaving of the parties; the bridge runs a protocol to its
      end and refuses what is not of its session; the handlers of all parties
      make a session active; messages go to the peers they are for; signers
      agree on their order, and when their numbering matches the session's;
      key generation and signing run through all their phases, and a signature
      that is returned verifies.
    - The program ([CommandLineSpec]): what key generation does to the files,
      whatever the system answers, and that a server configured with the key
      pair starts, whose meeting points never expire when its interval is 0.
      The bindings ([BindingsSpec]): a promise settles as the
      driver returns, arguments that do not parse throw, and generated key
      pairs are read back.

    ** Not modelled

    The bound of 32 messages of the channels other than the browser's, and the
    waits it causes: there a sender always finds room.  Tracing and its initialisation, in the command line and
    in the bindings.  The grammar of the command line, which is clap's; TLS and
    HTTP, which are axum's; the scheduler, for which every interleaving stands.
    [src/tools] is a development server and a generator of fixtures.

    ** Plan

    Sessions of any number of parties on the network, whose event loops queue
    several requests at a time, and protocols whose rounds have several
    messages, for which [keygen_completes] takes the stream as given; the bound
    of the channels. *)

From stdpp Require Export base tactics option list list_numbers gmap fin_maps
  sets strings numbers.
From Stdlib Require Export ZArith Lia.
From Stdlib Require Import Strings.Byte.

#[global] Open Scope Z_scope.

(** ** Bytes, lengths and machine integers *)

Abbreviation byte := Byte.byte.
Abbreviation bytes := (list Byte.byte).

#[global] Instance byte_eq_dec : EqDecision Byte.byte := Byte.byte_eq_dec.

#[global] Instance byte_countable : Countable Byte.byte.
Proof. exact (inj_countable Byte.to_N Byte.of_N Byte.of_to_N). Defined.

#[global] Instance byte_inhabited : Inhabited Byte.byte := populate Byte.x00.

(** The value of a [u8]. *)
Definition byte_val (b : byte) : Z := Z.of_N (Byte.to_N b).

(** The [u8] whose value is [v mod 256]. *)
Definition byte_of (v : Z) : byte :=
  default Byte.x00 (Byte.of_N (Z.to_N (v mod 256))).

(** UTF-8 bytes of a Rust string literal or [String]. *)
Definition str_bytes (s : string) : bytes := String.list_byte_of_string s.
Definition bytes_str (b : bytes) : string := String.string_of_list_byte b.

(** [Vec::len] as a [usize]. *)
Definition len {A} (l : list A) : Z := Z.of_nat (length l).

(** [vec![0; n]]. *)
Definition zeros (n : Z) : bytes := replicate (Z.to_nat n) Byte.x00.

(** [&l[..n]] when it is in range. *)
Definition takeZ {A} (n : Z) (l : list A) : list A := take (Z.to_nat n) l.

(** [Vec::truncate]: no effect when [n] is not smaller than the length. *)
Definition truncate {A} (n : Z) (l : list A) : list A :=
  if n <? len l then takeZ n l else l.

(** [as u16], [as u32] and wrapping arithmetic on 64-bit words. *)
Definition as_u16 (n : Z) : Z := n mod 2 ^ 16.
Definition as_u32 (n : Z) : Z := n mod 2 ^ 32.
Definition wrap64 (n : Z) : Z := n mod 2 ^ 64.
Definition wrap16 (n : Z) : Z := n mod 2 ^ 16.

Definition is_u8 (n : Z) : Prop := 0 <= n < 2 ^ 8.
Definition is_u16 (n : Z) : Prop := 0 <= n < 2 ^ 16.
Definition is_u32 (n : Z) : Prop := 0 <= n < 2 ^ 32.
Definition is_u64 (n : Z) : Prop := 0 <= n < 2 ^ 64.

(** [std::num::NonZeroU16::new]. *)
Definition NonZeroU16_new (n : Z) : option Z :=
  if n =? 0 then None else Some n.

(** [Iterator::position]. *)
Fixpoint position {A} (p : A -> bool) (l : list A) : option Z :=
  match l with
  | [] => None
  | x :: l' => if p x then Some 0 else (fun n => n + 1) <$> position p l'
  end.

(** ** Results

    [Result<T, E>] together with the third outcome a Rust call can have: a
    panic ([unwrap] on [None], an out of range slice, [unreachable!]). *)
Inductive Res (E A : Type) : Type :=
| Ok (a : A)
| Err (e : E)
| Panic.
Arguments Ok {E A} a.
Arguments Err {E A} e.
Arguments Panic {E A}.

#[global] Instance Res_ret {E} : MRet (Res E) := fun A a => Ok a.
#[global] Instance Res_bind {E} : MBind (Res E) := fun A B f m =>
  match m with Ok a => f a | Err e => Err e | Panic => Panic end.
#[global] Instance Res_fmap {E} : FMap (Res E) := fun A B f m =>
  match m with Ok a => Ok (f a) | Err e => Err e | Panic => Panic end.

(** [Result::map_err], the conversion [?] performs. *)
Definition map_err {E F A} (f : E -> F) (m : Res E A) : Res F A :=
  match m with Ok a => Ok a | Err e => Err (f e) | Panic => Panic end.

(** [Option::ok_or] and [Option::unwrap]. *)
Definition ok_or {E A} (o : option A) (e : E) : Res E A :=
  match o with Some a => Ok a | None => Err e end.
Definition unwrap {E A} (o : option A) : Res E A :=
  match o with Some a => Ok a | None => Panic end.

(** Why something that waits has not produced its result. *)
Inductive Stop (E : Type) := Failed (e : E) | Pending.
Arguments Failed {E} e.
Arguments Pending {E}.

Definition is_ok {E A} (m : Res E A) : bool :=
  match m with Ok _ => true | _ => false end.

(** ** State with errors

    A computation that mutates a state [S] behind a [&mut] or a lock; the
    mutations made before an error stay, as they do in Rust. *)
Definition SM (S E A : Type) : Type := S -> S * Res E A.

#[global] Instance SM_ret {S E} : MRet (SM S E) := fun A a s => (s, Ok a).
#[global] Instance SM_bind {S E} : MBind (SM S E) := fun A B f m s =>
  match m s with
  | (s', Ok a) => f a s'
  | (s', Err e) => (s', Err e)
  | (s', Panic) => (s', Panic)
  end.

Definition sm_lift {S E A} (m : Res E A) : SM S E A := fun s => (s, m).
Definition sm_err {S E A} (e : E) : SM S E A := sm_lift (Err e).
Definition sm_panic {S E A} : SM S E A := sm_lift Panic.
Definition sm_gets {S E A} (f : S -> A) : SM S E A := fun s => (s, Ok (f s)).
Definition sm_modify {S E} (f : S -> S) : SM S E unit := fun s => (f s, Ok tt).

(** [for x in l { f(x)?; }]. *)
Fixpoint sm_for {S E A} (l : list A) (f : A -> SM S E unit) : SM S E unit :=
  match l with
  | [] => mret tt
  | x :: l' => f x ;; sm_for l' f
  end.

(** ** Iteration order of hash tables

    [HashSet] and [HashMap] iterate in an unspecified order: every definition
    that iterates one takes the order as a parameter. *)
Class HashOrder := {
  set_iter : forall {K} `{Countable K}, gset K -> list K;
  map_iter : forall {K V} `{Countable K}, gmap K V -> list (K * V);
}.

Class HashOrderLaws (H : HashOrder) : Prop := {
  set_iter_perm : forall {K} `{Countable K} (X : gset K), set_iter X ≡ₚ elements X;
  map_iter_perm : forall {K V} `{Countable K} (m : gmap K V),
    map_iter m ≡ₚ map_to_list m;
}.

(** The order of stdpp's own enumeration, the instance used in examples. *)
Definition ElementsOrder : HashOrder :=
  {| set_iter := fun K _ _ X => elements X;
     map_iter := fun K V _ _ m => map_to_list m |}.

#[global] Instance ElementsOrder_laws : HashOrderLaws ElementsOrder.
Proof. split; done. Qed.

(** ** Generic lemmas *)

Lemma len_nonneg {A} (l : list A) : 0 <= len l.
Proof. unfold len. lia. Qed.

Lemma len_nil {A} : len (@nil A) = 0.
Proof. done. Qed.

Lemma len_cons {A} (x : A) l : len (x :: l) = len l + 1.
Proof. unfold len. cbn. lia. Qed.

Lemma len_app {A} (l1 l2 : list A) : len (l1 ++ l2) = len l1 + len l2.
Proof. unfold len. rewrite length_app. lia. Qed.

Lemma len_zeros n : 0 <= n -> len (zeros n) = n.
Proof. unfold len, zeros. rewrite length_replicate. lia. Qed.

(** Pushing every element of a list rebuilds it. *)
Lemma foldl_push {A} (l acc : list A) : foldl (fun acc x => acc ++ [x]) acc l = acc ++ l.
Proof.
  revert acc. induction l as [|x l IH]; intros acc; simpl; [by rewrite app_nil_r |].
  by rewrite IH, <- app_assoc.
Qed.
