(* ===== verification/Types.v ===== *)
(** * Protocol types

    The data of [src/protocol/src/protocol.rs], [error.rs], [constants.rs] and
    the type identifiers of [encoding/mod.rs].  Rust enums are inductive types
    in a module of the enum's name, so that [HandshakeMessage.Initiator] here
    is [HandshakeMessage::Initiator] there.  A [StatusCode] is its [u16] code,
    a [String] its UTF-8 bytes. *)

From S2P Require Import Prelude.

(** ** Constants *)

(** src/protocol/src/constants.rs:3-4 PATTERN *)
Definition PATTERN : string := "Noise_NN_25519_ChaChaPoly_BLAKE2s".
(** src/protocol/src/constants.rs:6-7 PEM_PATTERN *)
Definition PEM_PATTERN : string := "NOISE PATTERN".
(** src/protocol/src/constants.rs:9-10 PEM_PRIVATE *)
Definition PEM_PRIVATE : string := "NOISE PRIVATE KEY".
(** src/protocol/src/constants.rs:12-13 PEM_PUBLIC *)
Definition PEM_PUBLIC : string := "NOISE PUBLIC KEY".
(** src/protocol/src/constants.rs:15-16 TAGLEN *)
Definition TAGLEN : Z := 16.

(** src/protocol/src/encoding/mod.rs:79-111 types *)
Module types.
Definition NOOP : Z := 0.
Definition ERROR : Z := 255.
Definition HANDSHAKE_INITIATOR : Z := 1.
Definition HANDSHAKE_RESPONDER : Z := 2.
Definition HANDSHAKE_SERVER : Z := 1.
Definition HANDSHAKE_PEER : Z := 2.
Definition TRANSPARENT : Z := 128.
Definition OPAQUE : Z := 129.
Definition OPAQUE_SERVER : Z := 1.
Definition OPAQUE_PEER : Z := 2.
Definition MEETING_NEW : Z := 1.
Definition MEETING_CREATED : Z := 2.
Definition MEETING_JOIN : Z := 3.
Definition MEETING_READY : Z := 4.
Definition SESSION_NEW : Z := 5.
Definition SESSION_CREATED : Z := 6.
Definition SESSION_READY : Z := 7.
Definition SESSION_CONNECTION : Z := 8.
Definition SESSION_ACTIVE : Z := 9.
Definition SESSION_TIMEOUT : Z := 10.
Definition SESSION_CLOSE : Z := 11.
Definition SESSION_FINISHED : Z := 12.
Definition ENCODING_BLOB : Z := 1.
Definition ENCODING_JSON : Z := 2.
End types.

(** ** Errors *)

(** An error of a third-party library, known to the code through its
    [Display] text only. *)
Abbreviation ExtError := string (only parsing).

(** Kinds of [std::io::Error] produced by reading and writing streams. *)
Inductive ErrorKind := UnexpectedEof | InvalidData | WriteZero | Other.

(** src/protocol/src/error.rs:3-48 Error *)
Inductive Error :=
| MaxBufferSize (size : Z)
| BadEncodingIdentity
| EncodingVersion (expected got : Z)
| EncodingKind (id : Z)
| PatternMismatch (pattern : string)
| BadKeypairPem
| NotTransportState
| Io (e : IoError)
| Snow (e : ExtError)
| Pem (e : ExtError)
(** [std::io::Error]: a stream error, or an error boxed by [encoding_error]. *)
with IoError :=
| IoStream (k : ErrorKind)
| IoOther (e : Error)
| IoTryFromSlice
| IoInvalidStatusCode.

(** ** Identifiers *)

(** [uuid::Uuid]: its 16 bytes ([as_bytes], [from_bytes]). *)
Abbreviation Uuid := bytes (only parsing).
(** src/protocol/src/protocol.rs:10-11 MeetingId *)
Definition MeetingId : Type := Uuid.
(** src/protocol/src/protocol.rs:13-14 SessionId *)
Definition SessionId : Type := Uuid.
(** src/protocol/src/protocol.rs:16-31 UserId *)
Definition UserId : Type := bytes.

Definition is_uuid (u : bytes) : Prop := len u = 16.
Definition is_user_id (u : bytes) : Prop := len u = 32.

(** src/protocol/src/protocol.rs:33-43 Parameters *)
Record Parameters := { parties : Z; threshold : Z }.

(** src/protocol/src/protocol.rs:45-52 Parameters::default *)
Definition Parameters_default : Parameters := {| parties := 3; threshold := 1 |}.

(** ** Messages *)

Module HandshakeMessage.
(** src/protocol/src/protocol.rs:62-72 HandshakeMessage *)
Inductive t :=
| Noop
| Initiator (length : Z) (buf : bytes)
| Responder (length : Z) (buf : bytes).

(** src/protocol/src/protocol.rs:74-86 u8::from *)
Definition into_u8 (m : t) : Z :=
  match m with
  | Noop => types.NOOP
  | Initiator _ _ => types.HANDSHAKE_INITIATOR
  | Responder _ _ => types.HANDSHAKE_RESPONDER
  end.
End HandshakeMessage.

Module TransparentMessage.
(** src/protocol/src/protocol.rs:88-105 TransparentMessage *)
Inductive t :=
| Noop
| Error (code : Z) (message : string)
| ServerHandshake (message : HandshakeMessage.t)
| PeerHandshake (public_key : bytes) (message : HandshakeMessage.t).

(** src/protocol/src/protocol.rs:107-120 u8::from *)
Definition into_u8 (m : t) : Z :=
  match m with
  | Noop => types.NOOP
  | Error _ _ => types.ERROR
  | ServerHandshake _ => types.HANDSHAKE_SERVER
  | PeerHandshake _ _ => types.HANDSHAKE_PEER
  end.
End TransparentMessage.

(** src/protocol/src/protocol.rs:650-657 MeetingState *)
Record MeetingState := {
  meeting_id : Uuid;
  registered_participants : list bytes;
}.

(** src/protocol/src/protocol.rs:659-667 SessionRequest *)
Record SessionRequest := { request_participant_keys : list bytes }.

(** src/protocol/src/protocol.rs:669-676 SessionState *)
Record SessionState := {
  session_id : Uuid;
  all_participants : list bytes;
}.

(** [Default::default()] of the three structures ([Uuid::nil] is zero). *)
Definition MeetingState_default : MeetingState :=
  {| meeting_id := zeros 16; registered_participants := [] |}.
Definition SessionRequest_default : SessionRequest :=
  {| request_participant_keys := [] |}.
Definition SessionState_default : SessionState :=
  {| session_id := zeros 16; all_participants := [] |}.

Module ServerMessage.
(** src/protocol/src/protocol.rs:122-174 ServerMessage *)
Inductive t :=
| Noop
| Error (code : Z) (message : string)
| NewMeeting (owner_id : bytes) (slots : gset bytes)
| MeetingCreated (state : MeetingState)
| JoinMeeting (meeting : Uuid) (user : bytes)
| MeetingReady (state : MeetingState)
| NewSession (request : SessionRequest)
| SessionConnection (session : Uuid) (peer_key : bytes)
| SessionCreated (state : SessionState)
| SessionReady (state : SessionState)
| SessionActive (state : SessionState)
| SessionTimeout (session : Uuid)
| CloseSession (session : Uuid)
| SessionFinished (session : Uuid).

(** src/protocol/src/protocol.rs:176-205 u8::from *)
Definition into_u8 (m : t) : Z :=
  match m with
  | Noop => types.NOOP
  | Error _ _ => types.ERROR
  | NewMeeting _ _ => types.MEETING_NEW
  | MeetingCreated _ => types.MEETING_CREATED
  | JoinMeeting _ _ => types.MEETING_JOIN
  | MeetingReady _ => types.MEETING_READY
  | NewSession _ => types.SESSION_NEW
  | SessionConnection _ _ => types.SESSION_CONNECTION
  | SessionCreated _ => types.SESSION_CREATED
  | SessionReady _ => types.SESSION_READY
  | SessionActive _ => types.SESSION_ACTIVE
  | SessionTimeout _ => types.SESSION_TIMEOUT
  | CloseSession _ => types.SESSION_CLOSE
  | SessionFinished _ => types.SESSION_FINISHED
  end.
End ServerMessage.

Module Encoding.
(** src/protocol/src/protocol.rs:288-298 Encoding *)
Inductive t := Noop | Blob | Json.

(** src/protocol/src/protocol.rs:300-308 u8::from *)
Definition into_u8 (e : t) : Z :=
  match e with
  | Noop => types.NOOP
  | Blob => types.ENCODING_BLOB
  | Json => types.ENCODING_JSON
  end.
End Encoding.

(** src/protocol/src/protocol.rs:310-322 Chunk *)
Record Chunk := { chunk_length : Z; chunk_contents : bytes }.
Definition Chunk_default : Chunk := {| chunk_length := 0; chunk_contents := [] |}.

(** src/protocol/src/protocol.rs:362-374 SealedEnvelope *)
Record SealedEnvelope := {
  encoding : Encoding.t;
  chunks : list Chunk;
  broadcast : bool;
}.
Definition SealedEnvelope_default : SealedEnvelope :=
  {| encoding := Encoding.Noop; chunks := []; broadcast := false |}.

Module OpaqueMessage.
(** src/protocol/src/protocol.rs:207-228 OpaqueMessage *)
Inductive t :=
| Noop
| ServerMessage (envelope : SealedEnvelope)
| PeerMessage (public_key : bytes) (session : option Uuid)
    (envelope : SealedEnvelope).

(** src/protocol/src/protocol.rs:230-238 u8::from *)
Definition into_u8 (m : t) : Z :=
  match m with
  | Noop => types.NOOP
  | ServerMessage _ => types.OPAQUE_SERVER
  | PeerMessage _ _ _ => types.OPAQUE_PEER
  end.
End OpaqueMessage.

Module RequestMessage.
(** src/protocol/src/protocol.rs:240-252 RequestMessage *)
Inductive t :=
| Noop
| Transparent (m : TransparentMessage.t)
| Opaque (m : OpaqueMessage.t).

(** src/protocol/src/protocol.rs:254-262 u8::from *)
Definition into_u8 (m : t) : Z :=
  match m with
  | Noop => types.NOOP
  | Transparent _ => types.TRANSPARENT
  | Opaque _ => types.OPAQUE
  end.
End RequestMessage.

Module ResponseMessage.
(** src/protocol/src/protocol.rs:264-276 ResponseMessage *)
Inductive t :=
| Noop
| Transparent (m : TransparentMessage.t)
| Opaque (m : OpaqueMessage.t).

(** src/protocol/src/protocol.rs:278-286 u8::from *)
Definition into_u8 (m : t) : Z :=
  match m with
  | Noop => types.NOOP
  | Transparent _ => types.TRANSPARENT
  | Opaque _ => types.OPAQUE
  end.
End ResponseMessage.
