(* ===== verification/Stream.v ===== *)
(** * Binary streams

    The interface of the [binary_stream] crate the encoding is written
    against: a class of primitive readers and writers and a class of the laws
    its documentation promises (fixed-width integers, booleans, raw bytes and
    length-prefixed strings read back as they were written, reads return what
    was asked for, neither reads nor writes panic).  The relations [Encodes] and [Decodes]
    and their composition lemmas carry every round trip proof of the
    encoding. *)

From S2P Require Import Prelude Types.

(** A stream computation: the bytes written so far (for a writer) or still to
    be read (for a reader) are threaded through; after an error the buffer is
    dropped by [encode] and [decode], so it is not part of the result. *)
Definition Stream (A : Type) : Type := bytes -> Res IoError (A * bytes).
Abbreviation Writer := (Stream unit).
Abbreviation Reader := Stream.

#[global] Instance Stream_ret : MRet Stream := fun A a s => Ok (a, s).
#[global] Instance Stream_bind : MBind Stream := fun A B f m s =>
  match m s with
  | Ok (a, s') => f a s'
  | Err e => Err e
  | Panic => Panic
  end.
#[global] Instance Stream_fmap : FMap Stream := fun A B f m s =>
  match m s with
  | Ok (a, s') => Ok (f a, s')
  | Err e => Err e
  | Panic => Panic
  end.

Definition st_lift {A} (m : Res IoError A) : Stream A := fun s => (., s) <$> m.
Definition st_err {A} (e : IoError) : Stream A := fun _ => Err e.
Definition st_panic {A} : Stream A := fun _ => Panic.

(** [for x in l { f(x).await?; }]. *)
Fixpoint st_for {A} (l : list A) (f : A -> Writer) : Writer :=
  match l with
  | [] => mret tt
  | x :: l' => f x ;; st_for l' f
  end.

(** [for _ in 0..n { acc = f(acc).await?; }]. *)
Fixpoint st_repeat {A} (n : nat) (f : A -> Reader A) (acc : A) : Reader A :=
  match n with
  | O => mret acc
  | S n' => acc' ← f acc; st_repeat n' f acc'
  end.

Inductive Endian := Little | Big.

Record Options := { endian : Endian; max_buffer_size : option Z }.

(** Whether a Rust [String] can have these bytes: UTF-8 as [str::from_utf8]
    accepts it (no overlong forms, no surrogates, at most U+10FFFF). *)
Definition cont (b : Z) : bool := (128 <=? b) && (b <=? 191).

Fixpoint utf8_valid (l : list Z) : bool :=
  match l with
  | [] => true
  | b0 :: l1 =>
    if b0 <=? 127 then utf8_valid l1
    else if (194 <=? b0) && (b0 <=? 223) then
      match l1 with
      | b1 :: l2 => cont b1 && utf8_valid l2
      | _ => false
      end
    else if (224 <=? b0) && (b0 <=? 239) then
      match l1 with
      | b1 :: b2 :: l3 =>
        cont b1 && cont b2
        && negb ((b0 =? 224) && (b1 <? 160)) && negb ((b0 =? 237) && (159 <? b1))
        && utf8_valid l3
      | _ => false
      end
    else if (240 <=? b0) && (b0 <=? 244) then
      match l1 with
      | b1 :: b2 :: b3 :: l4 =>
        cont b1 && cont b2 && cont b3
        && negb ((b0 =? 240) && (b1 <? 144)) && negb ((b0 =? 244) && (143 <? b1))
        && utf8_valid l4
      | _ => false
      end
    else false
  end.

Definition is_utf8 (s : string) : bool := utf8_valid (byte_val <$> str_bytes s).

(** ** Relating writers and readers *)

(** [w] succeeds and appends [bs]. *)
Definition Encodes (w : Writer) (bs : bytes) : Prop :=
  forall pre, w pre = Ok (tt, pre ++ bs).

(** [d] consumes exactly [bs] and returns [a]. *)
Definition Decodes {A} (d : Reader A) (bs : bytes) (a : A) : Prop :=
  forall rest, d (bs ++ rest) = Ok (a, rest).

(** What [w] writes, [d] reads back as [a]. *)
Definition RoundTrips {A} (w : Writer) (d : Reader A) (a : A) : Prop :=
  exists bs, Encodes w bs /\ Decodes d bs a.

(** Whatever the input, [d] does not panic and its results satisfy [P]. *)
Definition ReadsOnly {A} (d : Reader A) (P : A -> Prop) : Prop :=
  forall s, match d s with Ok (a, _) => P a | Err _ => True | Panic => False end.

(** ** The interface of [binary_stream] *)
Class BinaryStream (o : Options) := {
  write_u8 : Z -> Writer;
  write_u16 : Z -> Writer;
  write_u32 : Z -> Writer;
  write_bool : bool -> Writer;
  write_bytes : bytes -> Writer;
  write_string : string -> Writer;
  read_u8 : Reader Z;
  read_u16 : Reader Z;
  read_u32 : Reader Z;
  read_bool : Reader bool;
  read_bytes : Z -> Reader bytes;
  read_string : Reader string;
  run_encode : Writer -> Res IoError bytes;
  run_decode : forall {A}, Reader A -> bytes -> Res IoError A;
}.

(** The size [n] is accepted by the configured buffer limit. *)
Definition fits (o : Options) (n : Z) : Prop :=
  match max_buffer_size o with Some m => n <= m | None => True end.

Class BinaryStreamLaws (o : Options) (B : BinaryStream o) : Prop := {
  u8_round_trip : forall n, is_u8 n -> RoundTrips (write_u8 n) read_u8 n;
  u16_round_trip : forall n, is_u16 n -> RoundTrips (write_u16 n) read_u16 n;
  u32_round_trip : forall n, is_u32 n -> RoundTrips (write_u32 n) read_u32 n;
  bool_round_trip : forall b, RoundTrips (write_bool b) read_bool b;
  write_bytes_raw : forall b, fits o (len b) -> Encodes (write_bytes b) b;
  read_bytes_raw : forall b, fits o (len b) -> Decodes (read_bytes (len b)) b b;
  string_round_trip : forall s, fits o (len (str_bytes s)) -> is_utf8 s = true ->
    RoundTrips (write_string s) read_string s;
  read_u8_range : ReadsOnly read_u8 is_u8;
  read_u16_range : ReadsOnly read_u16 is_u16;
  read_u32_range : ReadsOnly read_u32 is_u32;
  read_bool_range : ReadsOnly read_bool (fun _ => True);
  read_bytes_range : forall n, 0 <= n -> ReadsOnly (read_bytes n) (fun b => len b = n);
  read_string_range : ReadsOnly read_string
    (fun s => fits o (len (str_bytes s)) /\ is_utf8 s = true);
  write_u8_total : forall n, ReadsOnly (write_u8 n) (fun _ => True);
  write_u16_total : forall n, ReadsOnly (write_u16 n) (fun _ => True);
  write_u32_total : forall n, ReadsOnly (write_u32 n) (fun _ => True);
  write_bool_total : forall b, ReadsOnly (write_bool b) (fun _ => True);
  write_bytes_total : forall b, ReadsOnly (write_bytes b) (fun _ => True);
  write_string_total : forall s, ReadsOnly (write_string s) (fun _ => True);
  run_encode_spec : forall w, run_encode w = snd <$> w [];
  run_decode_spec : forall A (d : Reader A) bs, run_decode d bs = fst <$> d bs;
}.

(** ** Composition *)

Lemma encodes_ret : Encodes (mret tt) [].
Proof. intros pre. by rewrite app_nil_r. Qed.

Lemma encodes_seq (w1 w2 : Writer) bs1 bs2 :
  Encodes w1 bs1 -> Encodes w2 bs2 -> Encodes (w1 ;; w2) (bs1 ++ bs2).
Proof.
  intros H1 H2 pre. unfold mbind, Stream_bind. rewrite H1, H2. by rewrite app_assoc.
Qed.

Lemma decodes_ret {A} (a : A) : Decodes (mret a) [] a.
Proof. by intros rest. Qed.

Lemma decodes_bind {A B} (d : Reader A) (k : A -> Reader B) bs1 bs2 a b :
  Decodes d bs1 a -> Decodes (k a) bs2 b -> Decodes (d ≫= k) (bs1 ++ bs2) b.
Proof.
  intros H1 H2 rest. unfold mbind, Stream_bind. rewrite <- app_assoc, H1. apply H2.
Qed.

Lemma decodes_fmap {A B} (d : Reader A) (f : A -> B) bs a :
  Decodes d bs a -> Decodes (f <$> d) bs (f a).
Proof. intros H rest. unfold fmap, Stream_fmap. by rewrite H. Qed.

Lemma roundtrips_ret {A} (a : A) : RoundTrips (mret tt) (mret a) a.
Proof. exists []. split; [apply encodes_ret | apply decodes_ret]. Qed.

(** The composition rule: a writer in sequence against a reader that binds. *)
Lemma roundtrips_bind {A B} (w1 w2 : Writer) (d : Reader A) (k : A -> Reader B) a b :
  RoundTrips w1 d a -> RoundTrips w2 (k a) b -> RoundTrips (w1 ;; w2) (d ≫= k) b.
Proof.
  intros (bs1 & ? & ?) (bs2 & ? & ?). exists (bs1 ++ bs2).
  split; [by apply encodes_seq | by eapply decodes_bind].
Qed.

(** The last field: the writer ends, the reader still builds its result. *)
Lemma roundtrips_fmap {A B} (w : Writer) (d : Reader A) (f : A -> B) a :
  RoundTrips w d a -> RoundTrips w (f <$> d) (f a).
Proof. intros (bs & ? & ?). exists bs. split; [done | by apply decodes_fmap]. Qed.

Lemma roundtrips_last {A B} (w : Writer) (d : Reader A) (k : A -> Reader B) a b :
  RoundTrips w d a -> k a = mret b -> RoundTrips w (d ≫= k) b.
Proof.
  intros (bs & ? & ?) Hk. exists bs. split; [done |].
  rewrite <- (app_nil_r bs). eapply decodes_bind; [done | rewrite Hk; apply decodes_ret].
Qed.

(** The reader computes a field without reading. *)
Lemma roundtrips_pure {A B} (w : Writer) (k : A -> Reader B) a b :
  RoundTrips w (k a) b -> RoundTrips w (mret a ≫= k) b.
Proof. done. Qed.

(** The writer skips an absent field. *)
Lemma roundtrips_skip {A} (w : Writer) (d : Reader A) a :
  RoundTrips w d a -> RoundTrips (mret tt ;; w) d a.
Proof. done. Qed.

(** A counted loop: the writer runs over a list, the reader pushes each
    element it decodes. *)
Lemma roundtrips_for {A S} (w : A -> Writer) (f : S -> Reader S) (push : S -> A -> S)
    (l : list A) (acc : S) :
  (forall acc x, x ∈ l -> RoundTrips (w x) (f acc) (push acc x)) ->
  RoundTrips (st_for l w) (st_repeat (length l) f acc) (foldl push acc l).
Proof.
  revert acc. induction l as [|x l IH]; intros acc H; [apply roundtrips_ret |].
  apply (roundtrips_bind _ _ _ _ (push acc x)).
  - apply H. by left.
  - apply IH. intros acc' y Hy. apply H. by right.
Qed.

Lemma st_for_app {A} (l1 l2 : list A) (w : A -> Writer) pre :
  st_for (l1 ++ l2) w pre = (st_for l1 w ;; st_for l2 w) pre.
Proof.
  revert pre. induction l1 as [|x l1 IH]; intros pre; [done |].
  cbn. unfold mbind, Stream_bind in *. destruct (w x pre) as [[[] s]| |]; [|done..].
  by rewrite IH.
Qed.

Lemma roundtrips_decodes {A} (w : Writer) (d : Reader A) bs a :
  Encodes w bs -> RoundTrips w d a -> Decodes d bs a.
Proof.
  intros He (bs' & He' & Hd). specialize (He []). specialize (He' []).
  rewrite He in He'. by simplify_eq.
Qed.

(** Fields of the result of a reader. *)
Lemma readsonly_ret {A} (a : A) (P : A -> Prop) : P a -> ReadsOnly (mret a) P.
Proof. by intros H s. Qed.

Lemma readsonly_err {A} (e : IoError) (P : A -> Prop) : ReadsOnly (st_err e) P.
Proof. by intros s. Qed.

Lemma readsonly_bind {A B} (d : Reader A) (k : A -> Reader B) P Q :
  ReadsOnly d P -> (forall a, P a -> ReadsOnly (k a) Q) -> ReadsOnly (d ≫= k) Q.
Proof.
  intros Hd Hk s. unfold mbind, Stream_bind. specialize (Hd s).
  destruct (d s) as [[a s'] | |]; [| done..]. by apply Hk.
Qed.

Lemma readsonly_weaken {A} (d : Reader A) (P Q : A -> Prop) :
  ReadsOnly d P -> (forall a, P a -> Q a) -> ReadsOnly d Q.
Proof. intros Hd HPQ s. specialize (Hd s). destruct (d s) as [[]| |]; auto. Qed.

Lemma readsonly_repeat {A} (n : nat) (f : A -> Reader A) (P : nat -> A -> Prop) :
  (forall i acc, (i < n)%nat -> P i acc -> ReadsOnly (f acc) (P (S i))) ->
  forall acc, P O acc -> ReadsOnly (st_repeat n f acc) (P n).
Proof.
  enough (forall m i acc, (i + m = n)%nat ->
    (forall j acc, (j < n)%nat -> P j acc -> ReadsOnly (f acc) (P (S j))) ->
    P i acc -> ReadsOnly (st_repeat m f acc) (P n)) as H.
  { intros Hf acc HP. by apply (H n O acc). }
  induction m as [|m IH]; intros i acc Hi Hf HP; simpl.
  - apply readsonly_ret. by replace n with i by lia.
  - eapply readsonly_bind; [apply (Hf i); [lia | done] |].
    intros acc' HP'. apply (IH (S i)); [lia | done | done].
Qed.

(** Writers that never panic, in sequence and in a loop. *)
Abbreviation NeverPanics := (fun w => ReadsOnly w (fun _ => True)) (only parsing).

Lemma writes_seq (w1 w2 : Writer) : NeverPanics w1 -> NeverPanics w2 -> NeverPanics (w1 ;; w2).
Proof. intros H1 H2. eapply readsonly_bind; [exact H1 | by intros]. Qed.

Lemma writes_for {A} (l : list A) (w : A -> Writer) :
  (forall x, NeverPanics (w x)) -> NeverPanics (st_for l w).
Proof.
  intros H. induction l as [|x l IH]; [by apply readsonly_ret |]. by apply writes_seq.
Qed.

Section run.
Context {o : Options} {B : BinaryStream o} {L : BinaryStreamLaws o B}.

(** A writer and a reader that round trip give [decode (encode a) = a]. *)
Lemma run_round_trip {A} (w : Writer) (d : Reader A) (a : A) :
  RoundTrips w d a -> exists bs, run_encode w = Ok bs /\ run_decode d bs = Ok a.
Proof.
  intros (bs & He & Hd). exists bs. rewrite run_encode_spec, run_decode_spec.
  rewrite He. split; [done |]. rewrite <- (app_nil_r bs). by rewrite Hd.
Qed.

Lemma bytes_round_trip (b : bytes) n :
  fits o (len b) -> n = len b -> RoundTrips (write_bytes b) (read_bytes n) b.
Proof. intros Hf ->. exists b. split; [by apply write_bytes_raw | by apply read_bytes_raw]. Qed.
End run.

Create HintDb stream.
#[export] Hint Resolve roundtrips_fmap : stream.
#[export] Hint Resolve u8_round_trip u16_round_trip u32_round_trip bool_round_trip
  string_round_trip bytes_round_trip : stream.
#[export] Hint Resolve read_u8_range read_u16_range read_u32_range read_bool_range
  read_bytes_range read_string_range : stream.
#[export] Hint Extern 1 (is_u8 _) => split; [by vm_compute | by vm_compute] : stream.
#[export] Hint Extern 1 (is_u16 _) => split; [by vm_compute | by vm_compute] : stream.
#[export] Hint Resolve write_u8_total write_u16_total write_u32_total write_bool_total
  write_bytes_total write_string_total writes_seq writes_for readsonly_err : stream.
