(* ===== verification/StreamLE.v ===== *)
(** * A reference binary stream

    A little-endian implementation of the [BinaryStream] interface over byte
    lists, with the proof that it satisfies [BinaryStreamLaws].  The theorems
    of the development hold for every implementation of the interface; this
    one is used to evaluate the definitions on concrete inputs and to show
    that the laws can hold. *)

From S2P Require Import Prelude Types Stream.

(** The [k] bytes of [n], least significant first. *)
Fixpoint le_bytes (k : nat) (n : Z) : bytes :=
  match k with
  | O => []
  | S k' => byte_of n :: le_bytes k' (n / 256)
  end.

Fixpoint le_value (b : bytes) : Z :=
  match b with
  | [] => 0
  | x :: b' => byte_val x + 256 * le_value b'
  end.

Lemma byte_val_range b : 0 <= byte_val b < 256.
Proof.
  unfold byte_val. pose proof (Byte.to_N_bounded b). lia.
Qed.

Lemma byte_val_of n : byte_val (byte_of n) = n mod 256.
Proof.
  unfold byte_val, byte_of.
  pose proof (Z.mod_pos_bound n 256 ltac:(lia)) as Hr.
  destruct (Byte.of_N (Z.to_N (n mod 256))) as [b|] eqn:E; simpl.
  - apply Byte.to_of_N in E. lia.
  - apply Byte.of_N_None_iff in E. lia.
Qed.

Lemma le_value_range b : 0 <= le_value b < 256 ^ len b.
Proof.
  unfold len. induction b as [|x b IH]; [cbn; lia |].
  cbn [le_value Datatypes.length]. pose proof (byte_val_range x).
  rewrite Nat2Z.inj_succ, Z.pow_succ_r by lia. lia.
Qed.

Lemma le_value_bytes k n : 0 <= n < 256 ^ Z.of_nat k -> le_value (le_bytes k n) = n.
Proof.
  revert n. induction k as [|k IH]; intros n Hn; cbn [le_bytes le_value]; [cbn in Hn; lia |].
  rewrite Nat2Z.inj_succ, Z.pow_succ_r in Hn by lia.
  rewrite byte_val_of, IH.
  - pose proof (Z.div_mod n 256 ltac:(lia)). lia.
  - split; [apply Z.div_pos; lia | apply Z.div_lt_upper_bound; lia].
Qed.

Lemma length_le_bytes k n : length (le_bytes k n) = k.
Proof. revert n. induction k; intros n; simpl; by f_equal. Qed.

Section le.
Context (o : Options).

Definition fits_bool (n : Z) : bool :=
  match max_buffer_size o with Some m => n <=? m | None => true end.

Lemma fits_bool_spec n : fits_bool n = true <-> fits o n.
Proof. unfold fits_bool, fits. destruct (max_buffer_size o); [lia | done]. Qed.

Definition le_put (b : bytes) : Writer := fun pre => Ok (tt, pre ++ b).

Definition le_get (n : Z) : Reader bytes := fun s =>
  if len s <? n then Err (IoStream UnexpectedEof)
  else Ok (take (Z.to_nat n) s, drop (Z.to_nat n) s).

Definition le_guard (n : Z) : Stream unit :=
  if fits_bool n then mret tt else st_err (IoStream InvalidData).

Definition le_get_int (k : Z) : Reader Z := le_value <$> le_get k.

Definition le_write_string (s : string) : Writer :=
  le_guard (len (str_bytes s)) ;;
  le_put (le_bytes 4 (len (str_bytes s))) ;; le_put (str_bytes s).

Definition le_read_string : Reader string :=
  n ← le_get_int 4;
  le_guard n ;;
  b ← le_get n;
  if utf8_valid (byte_val <$> b) then mret (bytes_str b)
  else st_err (IoStream InvalidData).

#[global] Instance LEStream : BinaryStream o := {|
  write_u8 n := le_put (le_bytes 1 n);
  write_u16 n := le_put (le_bytes 2 n);
  write_u32 n := le_put (le_bytes 4 n);
  write_bool b := le_put (le_bytes 1 (if b then 1 else 0));
  write_bytes b := le_guard (len b) ;; le_put b;
  write_string := le_write_string;
  read_u8 := le_get_int 1;
  read_u16 := le_get_int 2;
  read_u32 := le_get_int 4;
  read_bool := (fun n => negb (n =? 0)) <$> le_get_int 1;
  read_bytes n := le_guard n ;; le_get n;
  read_string := le_read_string;
  run_encode w := snd <$> w [];
  run_decode A d bs := fst <$> d bs;
|}.

Lemma le_put_encodes b : Encodes (le_put b) b.
Proof. by intros pre. Qed.

Lemma le_get_decodes b : Decodes (le_get (len b)) b b.
Proof.
  intros rest. unfold le_get. rewrite (proj2 (Z.ltb_ge _ _)).
  - unfold len. by rewrite Nat2Z.id, take_app_length, drop_app_length.
  - unfold len. rewrite length_app. lia.
Qed.

Lemma le_guard_encodes n : fits o n -> Encodes (le_guard n) [].
Proof.
  intros H pre. unfold le_guard. rewrite (proj2 (fits_bool_spec n) H).
  by rewrite app_nil_r.
Qed.

Lemma le_guard_decodes n : fits o n -> Decodes (le_guard n) [] tt.
Proof. intros H pre. unfold le_guard. by rewrite (proj2 (fits_bool_spec n) H). Qed.

Lemma le_int_round_trip k n :
  0 <= n < 256 ^ Z.of_nat k ->
  RoundTrips (le_put (le_bytes k n)) (le_get_int (Z.of_nat k)) n.
Proof.
  intros Hn. exists (le_bytes k n). split; [apply le_put_encodes |].
  rewrite <- (le_value_bytes k n Hn) at 2. unfold le_get_int. apply decodes_fmap.
  replace (Z.of_nat k) with (len (le_bytes k n)); [apply le_get_decodes |].
  unfold len. by rewrite length_le_bytes.
Qed.

Lemma le_get_range n : 0 <= n -> ReadsOnly (le_get n) (fun b => len b = n).
Proof.
  intros Hn s. unfold le_get. destruct (Z.ltb_spec (len s) n); [done |].
  unfold len in *. rewrite length_take. lia.
Qed.

Lemma le_get_int_range k : 0 <= k ->
  ReadsOnly (le_get_int k) (fun n => 0 <= n < 256 ^ k).
Proof.
  intros Hk s. unfold le_get_int, fmap, Stream_fmap.
  pose proof (le_get_range k Hk s) as H. destruct (le_get k s) as [[b r]| |]; [|done..].
  rewrite <- H. apply le_value_range.
Qed.

Lemma le_guard_range n : ReadsOnly (le_guard n) (fun _ => fits o n).
Proof.
  intros s. unfold le_guard. destruct (fits_bool n) eqn:E; [|done].
  by apply fits_bool_spec.
Qed.

Lemma byte_val_str_of (b : bytes) : str_bytes (bytes_str b) = b.
Proof. apply String.list_byte_of_string_of_list_byte. Qed.

Lemma str_of_bytes (s : string) : bytes_str (str_bytes s) = s.
Proof. apply String.string_of_list_byte_of_string. Qed.

Context (m : Z) (Hm : max_buffer_size o = Some m) (Hm32 : m < 2 ^ 32).

Lemma le_string_round_trip s :
  fits o (len (str_bytes s)) -> is_utf8 s = true ->
  RoundTrips (le_write_string s) le_read_string s.
Proof.
  intros Hf Hs. pose proof Hf as Hlen. unfold fits in Hlen. rewrite Hm in Hlen.
  remember (str_bytes s) as b eqn:Eb.
  exists ([] ++ le_bytes 4 (len b) ++ b). split.
  { unfold le_write_string. rewrite <- Eb.
    apply encodes_seq; [by apply le_guard_encodes |].
    apply encodes_seq; apply le_put_encodes. }
  unfold le_read_string. change ([] ++ ?l) with l.
  assert (0 <= len b < 256 ^ Z.of_nat 4) as Hb.
  { change (256 ^ Z.of_nat 4) with (2 ^ 32). unfold len in *. lia. }
  destruct (le_int_round_trip 4 (len b) Hb) as (bs & He & Hd).
  assert (bs = le_bytes 4 (len b)) as ->.
  { specialize (He []). by inversion He. }
  eapply decodes_bind; [exact Hd |].
  rewrite <- (app_nil_l b) at 2. eapply decodes_bind; [by apply le_guard_decodes |].
  rewrite <- (app_nil_r b) at 2. eapply decodes_bind; [apply le_get_decodes |].
  unfold is_utf8 in Hs. rewrite <- Eb in Hs. rewrite Hs, Eb at 1.
  rewrite str_of_bytes. apply decodes_ret.
Qed.

Lemma le_read_string_range :
  ReadsOnly le_read_string (fun s => fits o (len (str_bytes s)) /\ is_utf8 s = true).
Proof.
  unfold le_read_string.
  eapply readsonly_bind; [apply (le_get_int_range 4); lia |]. intros n Hn.
  eapply readsonly_bind; [apply le_guard_range |]. intros [] Hf.
  eapply readsonly_bind; [apply le_get_range; apply Hn |]. intros b Hb. simpl in *.
  destruct (utf8_valid _) eqn:E; [|apply readsonly_err].
  apply readsonly_ret. unfold is_utf8. rewrite byte_val_str_of. by rewrite Hb.
Qed.

Lemma LEStream_laws : BinaryStreamLaws o LEStream.
Proof.
  split.
  - intros n Hn. by apply (le_int_round_trip 1).
  - intros n Hn. by apply (le_int_round_trip 2).
  - intros n Hn. by apply (le_int_round_trip 4).
  - intros b. pose (n := if b then 1 else 0).
    replace b with (negb (n =? 0)) at 2 by by destruct b.
    apply (roundtrips_fmap _ (le_get_int 1) (fun n => negb (n =? 0))).
    apply (le_int_round_trip 1). destruct b; cbn; lia.
  - intros b Hb. rewrite <- (app_nil_l b) at 2.
    by apply encodes_seq; [apply le_guard_encodes | apply le_put_encodes].
  - intros b Hb. rewrite <- (app_nil_l b) at 2.
    eapply decodes_bind; [by apply le_guard_decodes | apply le_get_decodes].
  - apply le_string_round_trip.
  - by apply (le_get_int_range 1).
  - by apply (le_get_int_range 2).
  - by apply (le_get_int_range 4).
  - intros s. pose proof (le_get_int_range 1 ltac:(lia) s) as H. cbn [read_bool LEStream].
    unfold fmap, Stream_fmap. by destruct (le_get_int 1 s) as [[]| |].
  - intros n Hn. eapply readsonly_bind; [apply le_guard_range |]. intros [] _.
    by apply le_get_range.
  - apply le_read_string_range.
  - done.
  - done.
  - done.
  - done.
  - intros b. apply writes_seq; [|done]. by eapply readsonly_weaken; [apply le_guard_range |].
  - intros s. apply writes_seq; [by eapply readsonly_weaken; [apply le_guard_range |] |].
    by apply writes_seq.
  - done.
  - done.
Qed.
End le.
