(* ===== verification/Encoding.v ===== *)
(** * Binary encoding

    [src/protocol/src/encoding/mod.rs] and [encoding/v1/mod.rs]: one encoder
    and one decoder per message type, over the [BinaryStream] interface.
    [Noop] is [unreachable!] for an encoder (a panic here), an unknown type
    identifier is an [EncodingKind] error, and the fixed-size identifiers read
    with [try_into().unwrap()] panic on a wrong length. *)

From S2P Require Import Prelude Types Stream.

(** [http::StatusCode::try_from(u16)]. *)
Class StatusCodes := { status_try_from : Z -> option Z }.

Class StatusCodesLaws (H : StatusCodes) : Prop := {
  status_same_code : forall c c', status_try_from c = Some c' -> c' = c;
  status_accepted : forall c, 100 <= c < 1000 -> status_try_from c = Some c;
}.

(** src/protocol/src/encoding/v1/mod.rs:19-20 VERSION *)
Definition VERSION : Z := 1.

(** src/protocol/src/encoding/mod.rs:14-18 encoding_error *)
Definition encoding_error (e : Error) : IoError := IoOther e.

(** src/protocol/src/encoding/mod.rs:20-21 MAX_BUFFER_SIZE *)
Definition MAX_BUFFER_SIZE : Z := 65535.

(** src/protocol/src/encoding/mod.rs:23-24 IDENTITY *)
Definition IDENTITY : bytes := [Byte.x4d; Byte.x50; Byte.x43; Byte.x52].

(** src/protocol/src/encoding/mod.rs:54-60 encoding_options *)
Definition encoding_options : Options :=
  {| endian := Little; max_buffer_size := Some MAX_BUFFER_SIZE |}.

Section encoding.
Context {BS : BinaryStream encoding_options} {HO : HashOrder} {SC : StatusCodes}.

(** src/protocol/src/encoding/mod.rs:26-33 encode_preamble *)
Definition encode_preamble : Writer :=
  write_bytes IDENTITY ;;
  write_u16 VERSION.

(** src/protocol/src/encoding/mod.rs:35-52 decode_preamble *)
Definition decode_preamble : Reader unit :=
  identity ← read_bytes (len IDENTITY);
  if negb (bool_decide (identity = IDENTITY)) then
    st_err (encoding_error BadEncodingIdentity)
  else
    version ← read_u16;
    if negb (version =? VERSION) then
      st_err (encoding_error (EncodingVersion VERSION version))
    else mret tt.

(** src/protocol/src/encoding/v1/mod.rs:22-35 encode_buffer *)
Definition encode_buffer (buffer : bytes) : Writer :=
  if MAX_BUFFER_SIZE <? len buffer then
    st_err (encoding_error (MaxBufferSize MAX_BUFFER_SIZE))
  else
    write_u16 (as_u16 (len buffer)) ;;
    write_bytes buffer.

(** src/protocol/src/encoding/v1/mod.rs:37-44 decode_buffer *)
Definition decode_buffer : Reader bytes :=
  size ← read_u16;
  buf ← read_bytes size;
  mret buf.

(** src/protocol/src/encoding/v1/mod.rs:46-61 encode_payload *)
Definition encode_payload (length : Z) (buffer : bytes) : Writer :=
  if MAX_BUFFER_SIZE <? length then
    st_err (encoding_error (MaxBufferSize MAX_BUFFER_SIZE))
  else
    write_u16 (as_u16 length) ;;
    encode_buffer buffer.

(** src/protocol/src/encoding/v1/mod.rs:63-71 decode_payload *)
Definition decode_payload : Reader (Z * bytes) :=
  length ← read_u16;
  buffer ← decode_buffer;
  mret (length, buffer).

(** [read_bytes(16)], [try_into] and [from_bytes] of an identifier. *)
Definition read_uuid : Reader Uuid :=
  b ← read_bytes 16;
  if len b =? 16 then mret b else st_err IoTryFromSlice.

(** [read_bytes(32).try_into().unwrap()] of a user identifier. *)
Definition read_user_id : Reader bytes :=
  b ← read_bytes 32;
  if len b =? 32 then mret b else st_panic.

(** [read_u16().try_into().map_err(encoding_error)] of a status code. *)
Definition read_status : Reader Z :=
  n ← read_u16;
  match status_try_from n with
  | Some c => mret c
  | None => st_err IoInvalidStatusCode
  end.

(** src/protocol/src/encoding/v1/mod.rs:75-94 Encodable for HandshakeMessage *)
Definition HandshakeMessage_encode (self : HandshakeMessage.t) : Writer :=
  write_u8 (HandshakeMessage.into_u8 self) ;;
  match self with
  | HandshakeMessage.Initiator len buf => encode_payload len buf
  | HandshakeMessage.Responder len buf => encode_payload len buf
  | HandshakeMessage.Noop => st_panic
  end.

(** src/protocol/src/encoding/v1/mod.rs:99-123 Decodable for HandshakeMessage *)
Definition HandshakeMessage_decode : Reader HandshakeMessage.t :=
  id ← read_u8;
  if id =? types.HANDSHAKE_INITIATOR then
    '(len, buf) ← decode_payload;
    mret (HandshakeMessage.Initiator len buf)
  else if id =? types.HANDSHAKE_RESPONDER then
    '(len, buf) ← decode_payload;
    mret (HandshakeMessage.Responder len buf)
  else st_err (encoding_error (EncodingKind id)).

(** src/protocol/src/encoding/v1/mod.rs:128-156 Encodable for TransparentMessage *)
Definition TransparentMessage_encode (self : TransparentMessage.t) : Writer :=
  write_u8 (TransparentMessage.into_u8 self) ;;
  match self with
  | TransparentMessage.Error code message =>
      write_u16 code ;; write_string message
  | TransparentMessage.ServerHandshake message => HandshakeMessage_encode message
  | TransparentMessage.PeerHandshake public_key message =>
      encode_buffer public_key ;; HandshakeMessage_encode message
  | TransparentMessage.Noop => st_panic
  end.

(** src/protocol/src/encoding/v1/mod.rs:161-202 Decodable for TransparentMessage *)
Definition TransparentMessage_decode : Reader TransparentMessage.t :=
  id ← read_u8;
  if id =? types.ERROR then
    code ← read_status;
    message ← read_string;
    mret (TransparentMessage.Error code message)
  else if id =? types.HANDSHAKE_SERVER then
    message ← HandshakeMessage_decode;
    mret (TransparentMessage.ServerHandshake message)
  else if id =? types.HANDSHAKE_PEER then
    public_key ← decode_buffer;
    message ← HandshakeMessage_decode;
    mret (TransparentMessage.PeerHandshake public_key message)
  else st_err (encoding_error (EncodingKind id)).

(** src/protocol/src/encoding/v1/mod.rs:618-627 Encodable for Chunk *)
Definition Chunk_encode (self : Chunk) : Writer :=
  encode_payload (chunk_length self) (chunk_contents self).

(** src/protocol/src/encoding/v1/mod.rs:629-640 Decodable for Chunk *)
Definition Chunk_decode (self : Chunk) : Reader Chunk :=
  '(length, contents) ← decode_payload;
  mret {| chunk_length := length; chunk_contents := contents |}.

(** src/protocol/src/encoding/v1/mod.rs:642-658 Encodable for SealedEnvelope *)
Definition SealedEnvelope_encode (self : SealedEnvelope) : Writer :=
  write_u8 (Encoding.into_u8 (encoding self)) ;;
  write_bool (broadcast self) ;;
  write_u32 (as_u32 (len (chunks self))) ;;
  st_for (chunks self) Chunk_encode.

(** [self.chunks.push(chunk)]. *)
Definition push_chunk (self : SealedEnvelope) (chunk : Chunk) : SealedEnvelope :=
  {| encoding := encoding self; chunks := chunks self ++ [chunk];
     broadcast := broadcast self |}.

(** src/protocol/src/encoding/v1/mod.rs:660-691 Decodable for SealedEnvelope *)
Definition SealedEnvelope_decode (self : SealedEnvelope) : Reader SealedEnvelope :=
  id ← read_u8;
  enc ← (if id =? types.ENCODING_BLOB then mret Encoding.Blob
         else if id =? types.ENCODING_JSON then mret Encoding.Json
         else st_err (encoding_error (EncodingKind id)));
  bcast ← read_bool;
  num_chunks ← read_u32;
  st_repeat (Z.to_nat num_chunks)
    (fun self => chunk ← Chunk_decode Chunk_default; mret (push_chunk self chunk))
    {| encoding := enc; chunks := chunks self; broadcast := bcast |}.

(** A list of length-prefixed keys behind a [u16] count. *)
Definition encode_keys (keys : list bytes) : Writer :=
  write_u16 (as_u16 (len keys)) ;;
  st_for keys encode_buffer.

Definition decode_keys (keys : list bytes) : Reader (list bytes) :=
  size ← read_u16;
  st_repeat (Z.to_nat size)
    (fun keys => key ← decode_buffer; mret (keys ++ [key])) keys.

(** src/protocol/src/encoding/v1/mod.rs:693-706 Encodable for SessionRequest *)
Definition SessionRequest_encode (self : SessionRequest) : Writer :=
  encode_keys (request_participant_keys self).

(** src/protocol/src/encoding/v1/mod.rs:708-721 Decodable for SessionRequest *)
Definition SessionRequest_decode (self : SessionRequest) : Reader SessionRequest :=
  keys ← decode_keys (request_participant_keys self);
  mret {| request_participant_keys := keys |}.

(** src/protocol/src/encoding/v1/mod.rs:723-738 Encodable for MeetingState *)
Definition MeetingState_encode (self : MeetingState) : Writer :=
  write_bytes (meeting_id self) ;;
  encode_keys (registered_participants self).

(** src/protocol/src/encoding/v1/mod.rs:740-761 Decodable for MeetingState *)
Definition MeetingState_decode (self : MeetingState) : Reader MeetingState :=
  id ← read_uuid;
  keys ← decode_keys (registered_participants self);
  mret {| meeting_id := id; registered_participants := keys |}.

(** src/protocol/src/encoding/v1/mod.rs:763-776 Encodable for SessionState *)
Definition SessionState_encode (self : SessionState) : Writer :=
  write_bytes (session_id self) ;;
  encode_keys (all_participants self).

(** src/protocol/src/encoding/v1/mod.rs:778-799 Decodable for SessionState *)
Definition SessionState_decode (self : SessionState) : Reader SessionState :=
  id ← read_uuid;
  keys ← decode_keys (all_participants self);
  mret {| session_id := id; all_participants := keys |}.

(** src/protocol/src/encoding/v1/mod.rs:207-270 Encodable for ServerMessage *)
Definition ServerMessage_encode (self : ServerMessage.t) : Writer :=
  write_u8 (ServerMessage.into_u8 self) ;;
  match self with
  | ServerMessage.Error code message => write_u16 code ;; write_string message
  | ServerMessage.NewMeeting owner_id slots =>
      write_bytes owner_id ;;
      write_u32 (as_u32 (Z.of_nat (size slots))) ;;
      st_for (set_iter slots) write_bytes
  | ServerMessage.MeetingCreated response => MeetingState_encode response
  | ServerMessage.JoinMeeting meeting_id user_id =>
      write_bytes meeting_id ;; write_bytes user_id
  | ServerMessage.MeetingReady response => MeetingState_encode response
  | ServerMessage.NewSession request => SessionRequest_encode request
  | ServerMessage.SessionConnection session_id peer_key =>
      write_bytes session_id ;; encode_buffer peer_key
  | ServerMessage.SessionCreated response => SessionState_encode response
  | ServerMessage.SessionReady response => SessionState_encode response
  | ServerMessage.SessionActive response => SessionState_encode response
  | ServerMessage.SessionTimeout session_id => write_bytes session_id
  | ServerMessage.CloseSession session_id => write_bytes session_id
  | ServerMessage.SessionFinished session_id => write_bytes session_id
  | ServerMessage.Noop => st_panic
  end.

(** src/protocol/src/encoding/v1/mod.rs:275-415 Decodable for ServerMessage *)
Definition ServerMessage_decode : Reader ServerMessage.t :=
  id ← read_u8;
  if id =? types.ERROR then
    code ← read_status;
    message ← read_string;
    mret (ServerMessage.Error code message)
  else if id =? types.MEETING_NEW then
    owner_id ← read_user_id;
    num_slots ← read_u32;
    slots ← st_repeat (Z.to_nat num_slots)
      (fun slots => slot ← read_user_id; mret ({[slot]} ∪ slots)) ∅;
    mret (ServerMessage.NewMeeting owner_id slots)
  else if id =? types.MEETING_CREATED then
    meeting ← MeetingState_decode MeetingState_default;
    mret (ServerMessage.MeetingCreated meeting)
  else if id =? types.MEETING_JOIN then
    meeting_id ← read_uuid;
    user_id ← read_user_id;
    mret (ServerMessage.JoinMeeting meeting_id user_id)
  else if id =? types.MEETING_READY then
    meeting ← MeetingState_decode MeetingState_default;
    mret (ServerMessage.MeetingReady meeting)
  else if id =? types.SESSION_NEW then
    session ← SessionRequest_decode SessionRequest_default;
    mret (ServerMessage.NewSession session)
  else if id =? types.SESSION_CONNECTION then
    session_id ← read_uuid;
    peer_key ← decode_buffer;
    mret (ServerMessage.SessionConnection session_id peer_key)
  else if id =? types.SESSION_CREATED then
    session ← SessionState_decode SessionState_default;
    mret (ServerMessage.SessionCreated session)
  else if id =? types.SESSION_READY then
    session ← SessionState_decode SessionState_default;
    mret (ServerMessage.SessionReady session)
  else if id =? types.SESSION_ACTIVE then
    session ← SessionState_decode SessionState_default;
    mret (ServerMessage.SessionActive session)
  else if id =? types.SESSION_TIMEOUT then
    session_id ← read_uuid;
    mret (ServerMessage.SessionTimeout session_id)
  else if id =? types.SESSION_CLOSE then
    session_id ← read_uuid;
    mret (ServerMessage.CloseSession session_id)
  else if id =? types.SESSION_FINISHED then
    session_id ← read_uuid;
    mret (ServerMessage.SessionFinished session_id)
  else st_err (encoding_error (EncodingKind id)).

(** src/protocol/src/encoding/v1/mod.rs:420-448 Encodable for OpaqueMessage *)
Definition OpaqueMessage_encode (self : OpaqueMessage.t) : Writer :=
  write_u8 (OpaqueMessage.into_u8 self) ;;
  match self with
  | OpaqueMessage.ServerMessage envelope => SealedEnvelope_encode envelope
  | OpaqueMessage.PeerMessage public_key session_id envelope =>
      encode_buffer public_key ;;
      write_bool (bool_decide (is_Some session_id)) ;;
      match session_id with Some id => write_bytes id | None => mret tt end ;;
      SealedEnvelope_encode envelope
  | OpaqueMessage.Noop => st_panic
  end.

(** src/protocol/src/encoding/v1/mod.rs:453-500 Decodable for OpaqueMessage *)
Definition OpaqueMessage_decode : Reader OpaqueMessage.t :=
  id ← read_u8;
  if id =? types.OPAQUE_SERVER then
    envelope ← SealedEnvelope_decode SealedEnvelope_default;
    mret (OpaqueMessage.ServerMessage envelope)
  else if id =? types.OPAQUE_PEER then
    public_key ← decode_buffer;
    has_session_id ← read_bool;
    session_id ← (if has_session_id : bool then Some <$> read_uuid else mret None);
    envelope ← SealedEnvelope_decode SealedEnvelope_default;
    mret (OpaqueMessage.PeerMessage public_key session_id envelope)
  else st_err (encoding_error (EncodingKind id)).

(** src/protocol/src/encoding/v1/mod.rs:505-525 Encodable for RequestMessage *)
Definition RequestMessage_encode (self : RequestMessage.t) : Writer :=
  encode_preamble ;;
  write_u8 (RequestMessage.into_u8 self) ;;
  match self with
  | RequestMessage.Transparent message => TransparentMessage_encode message
  | RequestMessage.Opaque message => OpaqueMessage_encode message
  | RequestMessage.Noop => st_panic
  end.

(** src/protocol/src/encoding/v1/mod.rs:530-558 Decodable for RequestMessage *)
Definition RequestMessage_decode : Reader RequestMessage.t :=
  decode_preamble ;;
  id ← read_u8;
  if id =? types.TRANSPARENT then
    message ← TransparentMessage_decode;
    mret (RequestMessage.Transparent message)
  else if id =? types.OPAQUE then
    message ← OpaqueMessage_decode;
    mret (RequestMessage.Opaque message)
  else st_err (encoding_error (EncodingKind id)).

(** src/protocol/src/encoding/v1/mod.rs:563-583 Encodable for ResponseMessage *)
Definition ResponseMessage_encode (self : ResponseMessage.t) : Writer :=
  encode_preamble ;;
  write_u8 (ResponseMessage.into_u8 self) ;;
  match self with
  | ResponseMessage.Transparent message => TransparentMessage_encode message
  | ResponseMessage.Opaque message => OpaqueMessage_encode message
  | ResponseMessage.Noop => st_panic
  end.

(** src/protocol/src/encoding/v1/mod.rs:588-616 Decodable for ResponseMessage *)
Definition ResponseMessage_decode : Reader ResponseMessage.t :=
  decode_preamble ;;
  id ← read_u8;
  if id =? types.TRANSPARENT then
    message ← TransparentMessage_decode;
    mret (ResponseMessage.Transparent message)
  else if id =? types.OPAQUE then
    message ← OpaqueMessage_decode;
    mret (ResponseMessage.Opaque message)
  else st_err (encoding_error (EncodingKind id)).
End encoding.

(** ** [encode] and [decode]

    The [Encodable] and [Decodable] traits: a type's encoder and decoder with
    the function's [T: Default] folded into the decoder. *)
Class Encodable (BS : BinaryStream encoding_options) (A : Type) :=
  { encodable : A -> Writer }.
Class Decodable (BS : BinaryStream encoding_options) (A : Type) :=
  { decodable : Reader A }.

Section traits.
Context {BS : BinaryStream encoding_options} {HO : HashOrder} {SC : StatusCodes}.

#[global] Instance RequestMessage_Encodable : Encodable BS RequestMessage.t :=
  {| encodable := RequestMessage_encode |}.
#[global] Instance RequestMessage_Decodable : Decodable BS RequestMessage.t :=
  {| decodable := RequestMessage_decode |}.
#[global] Instance ResponseMessage_Encodable : Encodable BS ResponseMessage.t :=
  {| encodable := ResponseMessage_encode |}.
#[global] Instance ResponseMessage_Decodable : Decodable BS ResponseMessage.t :=
  {| decodable := ResponseMessage_decode |}.
#[global] Instance ServerMessage_Encodable : Encodable BS ServerMessage.t :=
  {| encodable := ServerMessage_encode |}.
#[global] Instance ServerMessage_Decodable : Decodable BS ServerMessage.t :=
  {| decodable := ServerMessage_decode |}.

(** src/protocol/src/encoding/mod.rs:62-66 encode *)
Definition encode {A} {E : Encodable BS A} (a : A) : Res IoError bytes :=
  run_encode (encodable a).

(** src/protocol/src/encoding/mod.rs:68-77 decode *)
Definition decode {A} {D : Decodable BS A} (buffer : bytes) : Res IoError A :=
  run_decode decodable buffer.
End traits.
