(* ===== verification/EncodingFacts.v ===== *)
(** * Correctness of the binary encoding

    Every well-formed message round trips; every decoder accepts only
    well-formed messages and never panics.  The [Codec] class packages the two
    facts for the three message types that cross the network: the server and
    the client are proved against it. *)

From S2P Require Import Prelude Types Stream StreamLE Encoding.

(** ** Well-formed messages: what the wire format can carry *)
Section wf.
Context {SC : StatusCodes}.

Definition wf_buffer (b : bytes) : Prop := len b <= MAX_BUFFER_SIZE.
Definition wf_keys (l : list bytes) : Prop := len l < 2 ^ 16 /\ Forall wf_buffer l.
Definition wf_payload (n : Z) (b : bytes) : Prop := is_u16 n /\ wf_buffer b.
Definition wf_status (c : Z) : Prop := is_u16 c /\ status_try_from c = Some c.
Definition wf_text (s : string) : Prop :=
  len (str_bytes s) <= MAX_BUFFER_SIZE /\ is_utf8 s = true.

Definition wf_handshake (m : HandshakeMessage.t) : Prop :=
  match m with
  | HandshakeMessage.Noop => False
  | HandshakeMessage.Initiator n b | HandshakeMessage.Responder n b => wf_payload n b
  end.

Definition wf_transparent (m : TransparentMessage.t) : Prop :=
  match m with
  | TransparentMessage.Noop => False
  | TransparentMessage.Error c s => wf_status c /\ wf_text s
  | TransparentMessage.ServerHandshake h => wf_handshake h
  | TransparentMessage.PeerHandshake k h => wf_buffer k /\ wf_handshake h
  end.

Definition wf_chunk (c : Chunk) : Prop := wf_payload (chunk_length c) (chunk_contents c).

Definition wf_envelope (e : SealedEnvelope) : Prop :=
  encoding e <> Encoding.Noop /\ len (chunks e) < 2 ^ 32 /\ Forall wf_chunk (chunks e).

Definition wf_meeting_state (s : MeetingState) : Prop :=
  is_uuid (meeting_id s) /\ wf_keys (registered_participants s).
Definition wf_session_state (s : SessionState) : Prop :=
  is_uuid (session_id s) /\ wf_keys (all_participants s).

Definition wf_server (m : ServerMessage.t) : Prop :=
  match m with
  | ServerMessage.Noop => False
  | ServerMessage.Error c s => wf_status c /\ wf_text s
  | ServerMessage.NewMeeting o slots =>
      is_user_id o /\ Z.of_nat (size slots) < 2 ^ 32 /\ set_Forall is_user_id slots
  | ServerMessage.MeetingCreated s | ServerMessage.MeetingReady s => wf_meeting_state s
  | ServerMessage.JoinMeeting m u => is_uuid m /\ is_user_id u
  | ServerMessage.NewSession r => wf_keys (request_participant_keys r)
  | ServerMessage.SessionConnection s k => is_uuid s /\ wf_buffer k
  | ServerMessage.SessionCreated s | ServerMessage.SessionReady s
  | ServerMessage.SessionActive s => wf_session_state s
  | ServerMessage.SessionTimeout s | ServerMessage.CloseSession s
  | ServerMessage.SessionFinished s => is_uuid s
  end.

Definition wf_opaque (m : OpaqueMessage.t) : Prop :=
  match m with
  | OpaqueMessage.Noop => False
  | OpaqueMessage.ServerMessage e => wf_envelope e
  | OpaqueMessage.PeerMessage k s e =>
      wf_buffer k /\ from_option is_uuid True s /\ wf_envelope e
  end.

Definition wf_request (m : RequestMessage.t) : Prop :=
  match m with
  | RequestMessage.Noop => False
  | RequestMessage.Transparent t => wf_transparent t
  | RequestMessage.Opaque o => wf_opaque o
  end.

Definition wf_response (m : ResponseMessage.t) : Prop :=
  match m with
  | ResponseMessage.Noop => False
  | ResponseMessage.Transparent t => wf_transparent t
  | ResponseMessage.Opaque o => wf_opaque o
  end.
End wf.

#[global] Instance is_u16_dec n : Decision (is_u16 n).
Proof. unfold is_u16. apply _. Defined.
#[global] Instance wf_buffer_dec b : Decision (wf_buffer b).
Proof. unfold wf_buffer. apply _. Defined.
#[global] Instance wf_payload_dec n b : Decision (wf_payload n b).
Proof. unfold wf_payload. apply _. Defined.

(** Reduce the identifier test of a decoder at a known message kind. *)
Ltac reduce_kind :=
  cbv beta iota zeta delta [HandshakeMessage.into_u8 TransparentMessage.into_u8
    ServerMessage.into_u8 OpaqueMessage.into_u8 RequestMessage.into_u8
    ResponseMessage.into_u8 Encoding.into_u8
    types.NOOP types.ERROR types.HANDSHAKE_INITIATOR types.HANDSHAKE_RESPONDER
    types.HANDSHAKE_SERVER types.HANDSHAKE_PEER types.TRANSPARENT types.OPAQUE
    types.OPAQUE_SERVER types.OPAQUE_PEER types.MEETING_NEW types.MEETING_CREATED
    types.MEETING_JOIN types.MEETING_READY types.SESSION_NEW types.SESSION_CREATED
    types.SESSION_READY types.SESSION_CONNECTION types.SESSION_ACTIVE
    types.SESSION_TIMEOUT types.SESSION_CLOSE types.SESSION_FINISHED
    types.ENCODING_BLOB types.ENCODING_JSON Z.eqb Pos.eqb].

(** Follow a writer and a reader field by field. *)
Ltac round_trip_fields :=
  repeat first
    [ match goal with
      | |- RoundTrips _ (mret _ ≫= _) _ => apply roundtrips_pure
      | |- RoundTrips (mret tt ≫= _) _ _ => apply roundtrips_skip
      end
    | eapply roundtrips_last; [solve [eauto with stream] | reflexivity]
    | eapply roundtrips_bind; [solve [eauto with stream] | reduce_kind] ];
  eauto with stream.

(** Follow a reader field by field, collecting what is known of the fields. *)
Ltac reads_fields :=
  repeat match goal with
  | |- ReadsOnly (st_err _) _ => apply readsonly_err
  | |- ReadsOnly (mret _) _ => apply readsonly_ret
  | |- ReadsOnly (_ ≫= _) _ =>
      eapply readsonly_bind; [solve [eauto with stream] | intros ? ?]
  | |- ReadsOnly (if ?b then _ else _) _ => destruct b
  | |- ReadsOnly (let '(_, _) := ?x in _) _ => destruct x
  end.

Section facts.
Context {BS : BinaryStream encoding_options} {BL : BinaryStreamLaws encoding_options BS}.
Context {HO : HashOrder} {HL : HashOrderLaws HO}.
Context {SC : StatusCodes} {SL : StatusCodesLaws SC}.

(** *** Round trips of the fields *)

Lemma buffer_round_trip b : wf_buffer b ->
  RoundTrips (encode_buffer b) decode_buffer b.
Proof.
  intros H. unfold encode_buffer, wf_buffer, MAX_BUFFER_SIZE in *.
  pose proof (len_nonneg b). rewrite (proj2 (Z.ltb_ge _ _)) by lia.
  unfold as_u16. rewrite Z.mod_small by lia. unfold decode_buffer.
  eapply roundtrips_bind; [apply u16_round_trip; unfold is_u16; lia |].
  eapply roundtrips_last; [by apply bytes_round_trip | done].
Qed.
Hint Resolve buffer_round_trip : stream.

Lemma payload_round_trip n b : wf_payload n b ->
  RoundTrips (encode_payload n b) decode_payload (n, b).
Proof.
  intros [Hn Hb]. unfold encode_payload, is_u16, MAX_BUFFER_SIZE in *.
  rewrite (proj2 (Z.ltb_ge _ _)) by lia.
  unfold as_u16. rewrite Z.mod_small by lia. unfold decode_payload. round_trip_fields.
Qed.
Hint Resolve payload_round_trip : stream.

Lemma fixed_round_trip (b : bytes) n (k : bytes -> Reader bytes) :
  len b = n -> n <= MAX_BUFFER_SIZE -> k b = mret b ->
  RoundTrips (write_bytes b) (read_bytes n ≫= k) b.
Proof.
  intros Hb Hn Hk. exists b. split; [apply write_bytes_raw; cbn; lia |].
  rewrite <- (app_nil_r b). eapply decodes_bind.
  - rewrite <- Hb. apply read_bytes_raw. cbn. lia.
  - rewrite app_nil_r, Hk. apply decodes_ret.
Qed.

Lemma uuid_round_trip u : is_uuid u -> RoundTrips (write_bytes u) read_uuid u.
Proof.
  intros H. apply fixed_round_trip; [done | by vm_compute |]. by rewrite H.
Qed.

Lemma user_id_round_trip u : is_user_id u -> RoundTrips (write_bytes u) read_user_id u.
Proof.
  intros H. apply fixed_round_trip; [done | by vm_compute |]. by rewrite H.
Qed.

Lemma status_round_trip c : wf_status c -> RoundTrips (write_u16 c) read_status c.
Proof.
  intros [Hc Hs]. destruct (u16_round_trip c Hc) as (bs & He & Hd).
  exists bs. split; [done |]. rewrite <- (app_nil_r bs).
  eapply decodes_bind; [done |]. rewrite Hs. apply decodes_ret.
Qed.

Lemma text_round_trip s : wf_text s -> RoundTrips (write_string s) read_string s.
Proof. intros []. by apply string_round_trip. Qed.
Hint Resolve uuid_round_trip user_id_round_trip status_round_trip
  text_round_trip : stream.

Lemma keys_round_trip l : wf_keys l -> RoundTrips (encode_keys l) (decode_keys []) l.
Proof.
  intros [Hl Hf]. pose proof (len_nonneg l). unfold encode_keys, decode_keys, as_u16.
  rewrite Z.mod_small by lia.
  eapply roundtrips_bind; [apply u16_round_trip; unfold is_u16; lia |].
  unfold len. rewrite Nat2Z.id.
  replace l with (foldl (fun acc x => acc ++ [x]) [] l) at 3.
  - apply roundtrips_for. intros acc x Hx.
    eapply roundtrips_last; [| done].
    rewrite list.Forall_forall in Hf. by apply buffer_round_trip, Hf.
  - apply foldl_push.
Qed.
Hint Resolve keys_round_trip : stream.

(** *** Round trips of the messages *)

Lemma handshake_round_trip m : wf_handshake m ->
  RoundTrips (HandshakeMessage_encode m) HandshakeMessage_decode m.
Proof.
  unfold HandshakeMessage_encode, HandshakeMessage_decode.
  destruct m; intros H; [done | |]; round_trip_fields.
Qed.
Hint Resolve handshake_round_trip : stream.

Lemma transparent_round_trip m : wf_transparent m ->
  RoundTrips (TransparentMessage_encode m) TransparentMessage_decode m.
Proof.
  unfold TransparentMessage_encode, TransparentMessage_decode.
  destruct m; cbn [wf_transparent]; intros H; try done; destruct_and?; round_trip_fields.
Qed.
Hint Resolve transparent_round_trip : stream.

Lemma chunk_round_trip c d : wf_chunk c -> RoundTrips (Chunk_encode c) (Chunk_decode d) c.
Proof.
  destruct c as [n b]. unfold wf_chunk, Chunk_encode, Chunk_decode. cbn.
  intros H. round_trip_fields.
Qed.

(** The decoder's loop rebuilds the chunks. *)
Lemma foldl_push_chunk l e :
  foldl push_chunk e l
  = {| encoding := encoding e; chunks := chunks e ++ l; broadcast := broadcast e |}.
Proof.
  revert e. induction l as [|c l IH]; intros [en cs br]; cbn; [by rewrite app_nil_r |].
  rewrite IH. cbn. by rewrite <- app_assoc.
Qed.

Lemma chunks_round_trip en br cs : Forall wf_chunk cs ->
  RoundTrips (st_for cs Chunk_encode)
    (st_repeat (Z.to_nat (len cs))
      (fun self => chunk ← Chunk_decode Chunk_default; mret (push_chunk self chunk))
      {| encoding := en; chunks := []; broadcast := br |})
    {| encoding := en; chunks := cs; broadcast := br |}.
Proof.
  intros Hcs.
  pose proof (foldl_push_chunk cs {| encoding := en; chunks := []; broadcast := br |}) as E.
  cbn in E. rewrite <- E. unfold len. rewrite Nat2Z.id.
  apply roundtrips_for. intros acc x Hx. eapply roundtrips_last; [|done].
  apply chunk_round_trip. by eapply list.Forall_forall in Hcs.
Qed.
Hint Resolve chunks_round_trip : stream.

Lemma envelope_round_trip e : wf_envelope e ->
  RoundTrips (SealedEnvelope_encode e) (SealedEnvelope_decode SealedEnvelope_default) e.
Proof.
  destruct e as [en cs br]. intros (Hne & Hlen & Hcs). cbn in *. pose proof (len_nonneg cs).
  unfold SealedEnvelope_encode, SealedEnvelope_decode, as_u32. cbn.
  rewrite Z.mod_small by done. assert (is_u32 (len cs)) by done.
  destruct en; [done | |]; round_trip_fields.
Qed.
Hint Resolve envelope_round_trip : stream.

Lemma opaque_round_trip m : wf_opaque m ->
  RoundTrips (OpaqueMessage_encode m) OpaqueMessage_decode m.
Proof.
  unfold OpaqueMessage_encode, OpaqueMessage_decode.
  destruct m as [|e|k [u|] e]; cbn [wf_opaque from_option]; intros H; try done;
    destruct_and?; [| rewrite bool_decide_true by done | rewrite bool_decide_false
                      by apply is_Some_None]; round_trip_fields.
Qed.
Hint Resolve opaque_round_trip : stream.

Lemma meeting_state_round_trip m : wf_meeting_state m ->
  RoundTrips (MeetingState_encode m) (MeetingState_decode MeetingState_default) m.
Proof.
  destruct m as [u l]. intros [Hu Hl]. cbn in *.
  unfold MeetingState_encode, MeetingState_decode. cbn. round_trip_fields.
Qed.

Lemma session_request_round_trip r : wf_keys (request_participant_keys r) ->
  RoundTrips (SessionRequest_encode r) (SessionRequest_decode SessionRequest_default) r.
Proof.
  destruct r as [l]. intros Hl. cbn in *.
  unfold SessionRequest_encode, SessionRequest_decode. cbn. round_trip_fields.
Qed.

Lemma session_state_round_trip m : wf_session_state m ->
  RoundTrips (SessionState_encode m) (SessionState_decode SessionState_default) m.
Proof.
  destruct m as [u l]. intros [Hu Hl]. cbn in *.
  unfold SessionState_encode, SessionState_decode. cbn. round_trip_fields.
Qed.
Hint Resolve meeting_state_round_trip session_request_round_trip
  session_state_round_trip : stream.

(** The set decoded from the slots in any iteration order is the set. *)
Lemma foldl_union_slots (l : list bytes) (X : gset bytes) :
  foldl (fun X x => {[x]} ∪ X) X l = list_to_set l ∪ X.
Proof.
  revert X. induction l as [|x l IH]; intros X; cbn; [set_solver |].
  rewrite IH. set_solver.
Qed.

Lemma slots_round_trip (slots : gset bytes) : set_Forall is_user_id slots ->
  RoundTrips (st_for (set_iter slots) write_bytes)
    (st_repeat (Z.to_nat (Z.of_nat (size slots)))
      (fun slots => slot ← read_user_id; mret ({[slot]} ∪ slots)) ∅) slots.
Proof.
  rewrite Nat2Z.id. intros Hf. pose proof (roundtrips_for write_bytes
    (fun slots : gset bytes => slot ← read_user_id; mret ({[slot]} ∪ slots))
    (fun X x => {[x]} ∪ X) (set_iter slots) ∅) as Hloop.
  rewrite foldl_union_slots in Hloop.
  replace (list_to_set (set_iter slots) ∪ ∅) with slots in Hloop.
  - replace (size slots) with (length (set_iter slots))
      by (unfold size, set_size; cbn; by rewrite set_iter_perm).
    apply Hloop. intros acc x Hx. eapply roundtrips_last; [|done].
    apply user_id_round_trip, Hf. by rewrite set_iter_perm, elem_of_elements in Hx.
  - apply set_eq. intros x. rewrite elem_of_union, elem_of_list_to_set.
    rewrite set_iter_perm, elem_of_elements. set_solver.
Qed.

Hint Resolve slots_round_trip : stream.

Lemma u32_count_round_trip (n : nat) : Z.of_nat n < 2 ^ 32 ->
  RoundTrips (write_u32 (as_u32 (Z.of_nat n))) read_u32 (Z.of_nat n).
Proof.
  intros H. unfold as_u32. rewrite Z.mod_small by lia.
  apply u32_round_trip. unfold is_u32. lia.
Qed.
Hint Resolve u32_count_round_trip : stream.

Lemma server_round_trip m : wf_server m ->
  RoundTrips (ServerMessage_encode m) ServerMessage_decode m.
Proof.
  unfold ServerMessage_encode, ServerMessage_decode.
  destruct m; cbn [wf_server]; intros H; try done; destruct_and?; round_trip_fields.
Qed.

Lemma preamble_round_trip : RoundTrips encode_preamble decode_preamble tt.
Proof.
  unfold encode_preamble, decode_preamble.
  eapply roundtrips_bind; [by apply bytes_round_trip |].
  rewrite bool_decide_true by done. cbn [negb].
  by eapply roundtrips_last; [apply u16_round_trip; by vm_compute |].
Qed.
Hint Resolve preamble_round_trip : stream.

Lemma request_round_trip m : wf_request m ->
  RoundTrips (RequestMessage_encode m) RequestMessage_decode m.
Proof.
  unfold RequestMessage_encode, RequestMessage_decode.
  destruct m; cbn [wf_request]; intros H; try done; round_trip_fields.
Qed.

Lemma response_round_trip m : wf_response m ->
  RoundTrips (ResponseMessage_encode m) ResponseMessage_decode m.
Proof.
  unfold ResponseMessage_encode, ResponseMessage_decode.
  destruct m; cbn [wf_response]; intros H; try done; round_trip_fields.
Qed.

(** *** What the decoders return *)

Lemma buffer_reads : ReadsOnly decode_buffer wf_buffer.
Proof.
  unfold decode_buffer. eapply readsonly_bind; [apply read_u16_range |]. intros n Hn.
  eapply readsonly_bind; [apply read_bytes_range; apply Hn |]. intros b Hb.
  apply readsonly_ret. unfold wf_buffer, MAX_BUFFER_SIZE, is_u16 in *. lia.
Qed.
Hint Resolve buffer_reads : stream.

Lemma payload_reads : ReadsOnly decode_payload (fun '(n, b) => wf_payload n b).
Proof. unfold decode_payload. reads_fields. by split. Qed.
Hint Resolve payload_reads : stream.

Lemma uuid_reads : ReadsOnly read_uuid is_uuid.
Proof.
  unfold read_uuid. eapply readsonly_bind; [by apply read_bytes_range |].
  intros b Hb. rewrite Hb. by apply readsonly_ret.
Qed.

(** The [unwrap] on the 32 bytes of a user identifier never fails. *)
Lemma user_id_reads : ReadsOnly read_user_id is_user_id.
Proof.
  unfold read_user_id. eapply readsonly_bind; [by apply read_bytes_range |].
  intros b Hb. rewrite Hb. by apply readsonly_ret.
Qed.

Lemma status_reads : ReadsOnly read_status wf_status.
Proof.
  unfold read_status. eapply readsonly_bind; [apply read_u16_range |]. intros n Hn.
  destruct (status_try_from n) as [c|] eqn:E; [|apply readsonly_err].
  apply readsonly_ret. pose proof (status_same_code _ _ E) as ->. by split.
Qed.

Lemma text_reads : ReadsOnly read_string wf_text.
Proof. eapply readsonly_weaken; [apply read_string_range | done]. Qed.
Hint Resolve uuid_reads user_id_reads status_reads text_reads : stream.

Lemma keys_reads : ReadsOnly (decode_keys []) wf_keys.
Proof.
  unfold decode_keys. eapply readsonly_bind; [apply read_u16_range |]. intros n Hn.
  apply (readsonly_weaken _ (fun l => length l = Z.to_nat n /\ Forall wf_buffer l)).
  - apply (readsonly_repeat _ _ (fun i l => length l = i /\ Forall wf_buffer l)); [|done].
    intros i acc Hi [Hl Hf]. reads_fields. rewrite length_app. cbn.
    split; [lia | by apply Forall_app_2; [| constructor]].
  - intros l [Hl Hf]. split; [|done]. unfold len, is_u16 in *. lia.
Qed.
Hint Resolve keys_reads : stream.

Lemma handshake_reads : ReadsOnly HandshakeMessage_decode wf_handshake.
Proof. unfold HandshakeMessage_decode. reads_fields; done. Qed.
Hint Resolve handshake_reads : stream.

Lemma transparent_reads : ReadsOnly TransparentMessage_decode wf_transparent.
Proof. unfold TransparentMessage_decode. reads_fields; split_and?; done. Qed.

Lemma chunk_reads c : ReadsOnly (Chunk_decode c) wf_chunk.
Proof. unfold Chunk_decode. reads_fields; done. Qed.

Lemma envelope_reads : ReadsOnly (SealedEnvelope_decode SealedEnvelope_default) wf_envelope.
Proof.
  unfold SealedEnvelope_decode.
  eapply readsonly_bind; [apply read_u8_range |]. intros id _.
  apply (readsonly_bind _ _ (fun en => en <> Encoding.Noop)); [by reads_fields |].
  intros en Hen. eapply readsonly_bind; [apply read_bool_range |]. intros br _.
  eapply readsonly_bind; [apply read_u32_range |]. intros n Hn.
  apply (readsonly_weaken _ (fun e => encoding e = en /\ length (chunks e) = Z.to_nat n
    /\ Forall wf_chunk (chunks e))).
  - apply (readsonly_repeat _ _ (fun i e => encoding e = en /\ length (chunks e) = i
      /\ Forall wf_chunk (chunks e))); [|done].
    intros i e Hi (He & Hl & Hf).
    eapply readsonly_bind; [apply chunk_reads |]. intros c Hc.
    apply readsonly_ret. cbn. rewrite length_app. cbn.
    split_and!; [done | lia | by apply Forall_app_2; [| constructor]].
  - intros e (He & Hl & Hf). split_and!; [by rewrite He | | done].
    unfold len, is_u32 in *. lia.
Qed.
Hint Resolve transparent_reads envelope_reads : stream.

Lemma opaque_reads : ReadsOnly OpaqueMessage_decode wf_opaque.
Proof.
  assert (forall b : bool, ReadsOnly (if b then Some <$> read_uuid else mret None)
    (from_option is_uuid True)) as Hopt.
  { intros [|] s; [| done]. pose proof (uuid_reads s) as Hu.
    unfold fmap, Stream_fmap. by destruct (read_uuid s) as [[]| |]. }
  unfold OpaqueMessage_decode. reads_fields; split_and?; done.
Qed.
Hint Resolve opaque_reads : stream.

Lemma meeting_state_reads :
  ReadsOnly (MeetingState_decode MeetingState_default) wf_meeting_state.
Proof. unfold MeetingState_decode. cbn [registered_participants]. reads_fields; by split. Qed.

Lemma session_state_reads :
  ReadsOnly (SessionState_decode SessionState_default) wf_session_state.
Proof. unfold SessionState_decode. cbn [all_participants]. reads_fields; by split. Qed.

Lemma session_request_reads :
  ReadsOnly (SessionRequest_decode SessionRequest_default)
    (fun r => wf_keys (request_participant_keys r)).
Proof. unfold SessionRequest_decode. reads_fields; done. Qed.
Hint Resolve meeting_state_reads session_state_reads session_request_reads : stream.

Lemma slots_reads n : is_u32 n ->
  ReadsOnly (st_repeat (Z.to_nat n)
      (fun slots : gset bytes => slot ← read_user_id; mret ({[slot]} ∪ slots)) ∅)
    (fun slots => Z.of_nat (size slots) < 2 ^ 32 /\ set_Forall is_user_id slots).
Proof.
  intros Hn. apply (readsonly_weaken _
    (fun X : gset bytes => (size X <= Z.to_nat n)%nat /\ set_Forall is_user_id X)).
  - apply (readsonly_repeat _ _
      (fun i (X : gset bytes) => (size X <= i)%nat /\ set_Forall is_user_id X));
      [|by rewrite size_empty].
    intros i X Hi [Hs Hf]. eapply readsonly_bind; [apply user_id_reads |].
    intros u Hu. apply readsonly_ret. split.
    + pose proof (size_union_alt {[u]} X) as E. rewrite E, size_singleton.
      pose proof (subseteq_size (X ∖ {[u]}) X ltac:(set_solver)). lia.
    + by apply set_Forall_union; [apply set_Forall_singleton |].
  - intros X [Hs Hf]. split; [unfold is_u32 in Hn; lia | done].
Qed.
Hint Resolve slots_reads : stream.

Lemma server_reads : ReadsOnly ServerMessage_decode wf_server.
Proof. unfold ServerMessage_decode. reads_fields; split_and?; done. Qed.

Lemma preamble_reads : ReadsOnly decode_preamble (fun _ => True).
Proof.
  unfold decode_preamble. eapply readsonly_bind; [by apply read_bytes_range |].
  intros b _. reads_fields; done.
Qed.
Hint Resolve preamble_reads : stream.

Lemma request_reads : ReadsOnly RequestMessage_decode wf_request.
Proof. unfold RequestMessage_decode. reads_fields; done. Qed.

Lemma response_reads : ReadsOnly ResponseMessage_decode wf_response.
Proof. unfold ResponseMessage_decode. reads_fields; done. Qed.

(** *** Counts that do not fit

    The number of keys is written [as u16]: of a longer list all keys are
    written, but only the first [len mod 2^16] are read back. *)
Lemma keys_encodes l : Forall wf_buffer l -> exists bs, Encodes (st_for l encode_buffer) bs.
Proof.
  induction 1 as [|b l Hb _ [bs IH]]; [exists []; apply encodes_ret |].
  destruct (buffer_round_trip b Hb) as (bb & He & _).
  exists (bb ++ bs). by apply encodes_seq.
Qed.

Hint Resolve encodes_seq : stream.

Lemma keys_truncated l : Forall wf_buffer l ->
  exists bs bs', Encodes (encode_keys l) (bs ++ bs') /\
    Decodes (decode_keys []) bs (take (Z.to_nat (len l mod 2 ^ 16)) l).
Proof.
  intros Hf. set (n := Z.to_nat (len l mod 2 ^ 16)).
  pose proof (Z.mod_pos_bound (len l) (2 ^ 16) ltac:(lia)) as Hr.
  pose proof (len_nonneg l).
  assert (Z.of_nat n <= len l) as Hn by (subst n; rewrite Z2Nat.id by lia; apply Z.mod_le; lia).
  assert (wf_keys (take n l)) as Hwf.
  { split; [unfold len; rewrite length_take; lia | by apply Forall_take]. }
  destruct (keys_round_trip _ Hwf) as (bs & He & Hd).
  destruct (keys_encodes (drop n l) ltac:(by apply Forall_drop)) as (bs' & He').
  exists bs, bs'. split; [|exact Hd]. intros pre.
  unfold encode_keys in *. rewrite app_assoc, <- (He' (pre ++ bs)).
  assert (len (take n l) = len l mod 2 ^ 16) as Hlen.
  { unfold len in *. rewrite length_take. lia. }
  specialize (He pre). unfold as_u16 in *. rewrite Hlen, Z.mod_mod in He by lia.
  unfold mbind, Stream_bind in *.
  destruct (write_u16 (len l mod 2 ^ 16) pre) as [[[] s]| |]; [|done..].
  rewrite <- (take_drop n l) at 1. rewrite st_for_app.
  unfold mbind, Stream_bind. by rewrite He.
Qed.

(** *** Encoders never panic on a message without [Noop] *)

Ltac never_panics :=
  repeat match goal with
  | |- ReadsOnly (_ ;; _) _ => apply writes_seq
  | |- ReadsOnly (mret _) _ => by apply readsonly_ret
  | |- ReadsOnly (if ?b then _ else _) _ => destruct b
  | |- ReadsOnly (st_for _ _) _ => apply writes_for; intros ?
  | |- ReadsOnly (match ?x with _ => _ end) _ => destruct x
  end; auto with stream.

Definition real_handshake (m : HandshakeMessage.t) : Prop := m <> HandshakeMessage.Noop.
Definition real_transparent (m : TransparentMessage.t) : Prop :=
  match m with
  | TransparentMessage.Noop => False
  | TransparentMessage.Error _ _ => True
  | TransparentMessage.ServerHandshake h | TransparentMessage.PeerHandshake _ h =>
      real_handshake h
  end.
Definition real_opaque (m : OpaqueMessage.t) : Prop := m <> OpaqueMessage.Noop.
Definition real_request (m : RequestMessage.t) : Prop :=
  match m with
  | RequestMessage.Noop => False
  | RequestMessage.Transparent t => real_transparent t
  | RequestMessage.Opaque o => real_opaque o
  end.
Definition real_response (m : ResponseMessage.t) : Prop :=
  match m with
  | ResponseMessage.Noop => False
  | ResponseMessage.Transparent t => real_transparent t
  | ResponseMessage.Opaque o => real_opaque o
  end.

Lemma buffer_writes b : NeverPanics (encode_buffer b).
Proof. unfold encode_buffer. never_panics. Qed.
Hint Resolve buffer_writes : stream.

Lemma payload_writes n b : NeverPanics (encode_payload n b).
Proof. unfold encode_payload. never_panics. Qed.
Hint Resolve payload_writes : stream.

Lemma keys_writes l : NeverPanics (encode_keys l).
Proof. unfold encode_keys. never_panics. Qed.
Hint Resolve keys_writes : stream.

Lemma handshake_writes m : real_handshake m -> NeverPanics (HandshakeMessage_encode m).
Proof. intros H. unfold HandshakeMessage_encode. never_panics. by destruct H. Qed.
Hint Resolve handshake_writes : stream.

Lemma transparent_writes m : real_transparent m -> NeverPanics (TransparentMessage_encode m).
Proof. intros H. unfold TransparentMessage_encode. never_panics; destruct H. Qed.
Hint Resolve transparent_writes : stream.

Lemma envelope_writes e : NeverPanics (SealedEnvelope_encode e).
Proof. unfold SealedEnvelope_encode, Chunk_encode. never_panics. Qed.
Hint Resolve envelope_writes : stream.

Lemma opaque_writes m : real_opaque m -> NeverPanics (OpaqueMessage_encode m).
Proof. intros H. unfold OpaqueMessage_encode. never_panics. by destruct H. Qed.
Hint Resolve opaque_writes : stream.

Lemma request_writes m : real_request m -> NeverPanics (RequestMessage_encode m).
Proof. intros H. unfold RequestMessage_encode, encode_preamble. never_panics; destruct H. Qed.

Lemma response_writes m : real_response m -> NeverPanics (ResponseMessage_encode m).
Proof. intros H. unfold ResponseMessage_encode, encode_preamble. never_panics; destruct H. Qed.

Lemma server_writes m : m <> ServerMessage.Noop -> NeverPanics (ServerMessage_encode m).
Proof.
  intros H. unfold ServerMessage_encode, SessionState_encode, MeetingState_encode,
    SessionRequest_encode. never_panics. by destruct H.
Qed.

(** *** The codec of a message type *)

Class Codec (A : Type) {E : Encodable BS A} {D : Decodable BS A} := {
  codec_wf : A -> Prop;
  codec_round_trips : forall a, codec_wf a -> RoundTrips (encodable a) decodable a;
  codec_reads : ReadsOnly decodable codec_wf;
  codec_real : A -> Prop;
  codec_writes : forall a, codec_real a -> NeverPanics (encodable a);
}.

#[global] Instance RequestMessage_Codec : Codec RequestMessage.t :=
  {| codec_wf := wf_request; codec_round_trips := request_round_trip;
     codec_reads := request_reads;
     codec_real := real_request; codec_writes := request_writes |}.
#[global] Instance ResponseMessage_Codec : Codec ResponseMessage.t :=
  {| codec_wf := wf_response; codec_round_trips := response_round_trip;
     codec_reads := response_reads;
     codec_real := real_response; codec_writes := response_writes |}.
#[global] Instance ServerMessage_Codec : Codec ServerMessage.t :=
  {| codec_wf := wf_server; codec_round_trips := server_round_trip;
     codec_reads := server_reads;
     codec_real := fun m => m <> ServerMessage.Noop; codec_writes := server_writes |}.

(** What a client of the encoding relies on. *)
Lemma codec_encode_decode {A} `{C : Codec A} (a : A) : codec_wf a ->
  exists bs, encode a = Ok bs /\ decode bs = Ok a.
Proof. intros H. by apply run_round_trip, codec_round_trips. Qed.

Lemma codec_decode_wf {A} `{C : Codec A} (bs : bytes) :
  match decode (A := A) bs with Ok a => codec_wf a | Err _ => True | Panic => False end.
Proof.
  unfold decode. rewrite run_decode_spec. pose proof (codec_reads bs) as H.
  by destruct (decodable bs) as [[]| |].
Qed.

Lemma codec_encode_no_panic {A} `{C : Codec A} (a : A) : codec_real a -> encode a <> Panic.
Proof.
  intros H. unfold encode. rewrite run_encode_spec. pose proof (codec_writes a H []) as Hw.
  by destruct (encodable a []) as [[]| |].
Qed.

Lemma codec_reencode {A} `{C : Codec A} (bs : bytes) (a : A) :
  decode bs = Ok a -> exists bs', encode a = Ok bs' /\ decode bs' = Ok a.
Proof.
  intros H. apply codec_encode_decode. pose proof (codec_decode_wf (A := A) bs) as Hw.
  by rewrite H in Hw.
Qed.
End facts.
