(* ===== verification/EncodingSpec.v ===== *)
(** * Properties of the binary encoding

    The guarantees the encoding gives to the code that uses it, each with an
    evaluation on the reference stream of [StreamLE]. *)

From S2P Require Import Prelude Types Stream StreamLE Encoding EncodingFacts.

(** The reference parameters: little-endian streams and the documented range
    of [http::StatusCode]. *)
Definition RefStream : BinaryStream encoding_options := LEStream encoding_options.
Definition RefStatus : StatusCodes :=
  {| status_try_from := fun c => if (100 <=? c) && (c <? 1000) then Some c else None |}.

Lemma RefStream_laws : BinaryStreamLaws encoding_options RefStream.
Proof. by apply (LEStream_laws _ 65535). Qed.

Lemma RefStatus_laws : StatusCodesLaws RefStatus.
Proof.
  split; cbn; intros c; [intros c' H; by case_match; simplify_eq |].
  intros H. by rewrite (proj2 (Z.leb_le _ _)), (proj2 (Z.ltb_lt _ _)) by lia.
Qed.

Section spec.
Context {BS : BinaryStream encoding_options} {BL : BinaryStreamLaws encoding_options BS}.
Context {HO : HashOrder} {HL : HashOrderLaws HO}.
Context {SC : StatusCodes} {SL : StatusCodesLaws SC}.

(** C1. Every message a client and the server exchange on their encrypted
    channel survives the wire: decoding what [encode] produced for a
    well-formed [ServerMessage] gives the message back, whatever the order
    in which the hash set of meeting slots is iterated. *)
Theorem server_message_round_trip (m : ServerMessage.t) :
  wf_server m -> exists bs, encode m = Ok bs /\ decode bs = Ok m.
Proof. apply (codec_encode_decode (C := ServerMessage_Codec)). Qed.

(** C2. The outer frames round trip too: [encode] followed by [decode] is the
    identity on every well-formed request and on every well-formed
    response. *)
Theorem frame_round_trip (q : RequestMessage.t) (r : ResponseMessage.t) :
  wf_request q -> wf_response r ->
  (exists bs, encode q = Ok bs /\ decode bs = Ok q) /\
  (exists bs, encode r = Ok bs /\ decode bs = Ok r).
Proof.
  intros Hq Hr. split; [by apply (codec_encode_decode (C := RequestMessage_Codec))
    | by apply (codec_encode_decode (C := ResponseMessage_Codec))].
Qed.

(** C12. Decoding is total: whatever bytes arrive, decoding a request, a
    response or a server message never panics (in particular the [unwrap]s
    on 32-byte identifiers never fail), and what it accepts is well formed:
    no hidden [Noop], identifiers of the right size, payload lengths and
    key sizes within the buffer limit. *)
Theorem decode_total (bs : bytes) :
  match decode (A := RequestMessage.t) bs with
  | Ok q => wf_request q | Err _ => True | Panic => False end /\
  match decode (A := ResponseMessage.t) bs with
  | Ok r => wf_response r | Err _ => True | Panic => False end /\
  match decode (A := ServerMessage.t) bs with
  | Ok m => wf_server m | Err _ => True | Panic => False end.
Proof.
  split_and!; [apply (codec_decode_wf (C := RequestMessage_Codec))
    | apply (codec_decode_wf (C := ResponseMessage_Codec))
    | apply (codec_decode_wf (C := ServerMessage_Codec))].
Qed.

(** The preamble guards every frame: of the first four bytes and the
    version that follows, any identity other than MPCR is refused with
    [BadEncodingIdentity] and any version other than 1 with
    [EncodingVersion], for requests and for responses, before anything else
    of the frame is read. *)
Theorem preamble_guards (identity rest : bytes) (version : Z) (vb : bytes) :
  len identity = 4 -> is_u16 version -> Encodes (write_u16 version) vb ->
  (identity <> IDENTITY ->
    decode (A := RequestMessage.t) (identity ++ vb ++ rest)
      = Err (IoOther BadEncodingIdentity) /\
    decode (A := ResponseMessage.t) (identity ++ vb ++ rest)
      = Err (IoOther BadEncodingIdentity)) /\
  (identity = IDENTITY -> version <> VERSION ->
    decode (A := RequestMessage.t) (identity ++ vb ++ rest)
      = Err (IoOther (EncodingVersion VERSION version)) /\
    decode (A := ResponseMessage.t) (identity ++ vb ++ rest)
      = Err (IoOther (EncodingVersion VERSION version))).
Proof.
  intros Hlen Hv Hvb.
  assert (Decodes (read_bytes (len IDENTITY)) identity identity) as Hid.
  { change (len IDENTITY) with 4. rewrite <- Hlen. apply read_bytes_raw. by rewrite Hlen. }
  assert (Decodes read_u16 vb version) as Hdv.
  { eapply roundtrips_decodes; [done | by apply u16_round_trip]. }
  unfold decode. rewrite !run_decode_spec. cbn [decodable RequestMessage_Decodable
    ResponseMessage_Decodable]. unfold RequestMessage_decode, ResponseMessage_decode,
    decode_preamble, mbind, Stream_bind. rewrite !Hid. split.
  - intros Hne. by rewrite bool_decide_false by done.
  - intros He Hve. rewrite bool_decide_true by done. cbn [negb]. rewrite Hdv.
    by rewrite (proj2 (Z.eqb_neq _ _)).
Qed.

(** C13. A list of more than 65535 participants is encoded without an error
    but loses participants: the count is truncated to 16 bits, so the peer
    decodes a [NewSession] request with only the first [len mod 65536]
    keys. *)
Theorem session_request_truncated (keys : list bytes) :
  Forall wf_buffer keys -> 2 ^ 16 <= len keys ->
  exists bs keys',
    encode (ServerMessage.NewSession {| request_participant_keys := keys |}) = Ok bs /\
    decode bs = Ok (ServerMessage.NewSession {| request_participant_keys := keys' |}) /\
    keys' = take (Z.to_nat (len keys mod 2 ^ 16)) keys /\ len keys' < len keys.
Proof.
  intros Hf Hlen. destruct (keys_truncated keys Hf) as (bs & bs' & He & Hd).
  destruct (u8_round_trip types.SESSION_NEW ltac:(split; by vm_compute)) as (b8 & He8 & Hd8).
  exists (b8 ++ bs ++ bs'). eexists. split_and!; [| | reflexivity |].
  - unfold encode. rewrite run_encode_spec. cbn [encodable ServerMessage_Encodable].
    unfold ServerMessage_encode, mbind, Stream_bind. cbn [ServerMessage.into_u8].
    rewrite He8. unfold SessionRequest_encode. cbn [request_participant_keys].
    by rewrite He.
  - unfold decode. rewrite run_decode_spec. cbn [decodable ServerMessage_Decodable].
    unfold ServerMessage_decode, mbind, Stream_bind. rewrite Hd8. reduce_kind.
    unfold SessionRequest_decode, mbind, Stream_bind. cbn [request_participant_keys
      SessionRequest_default]. by rewrite Hd.
  - pose proof (Z.mod_pos_bound (len keys) (2 ^ 16) ltac:(lia)).
    unfold len in *. rewrite length_take. lia.
Qed.

(** The size guards of the encoder are exact: a peer handshake frame is
    encoded if and only if its key, its payload and the payload's declared
    length are within the 65535 byte limit; otherwise [encode] reports
    [MaxBufferSize]. *)
Theorem peer_handshake_size_guard (key buf : bytes) (n : Z) :
  0 <= n ->
  let m := RequestMessage.Transparent
    (TransparentMessage.PeerHandshake key (HandshakeMessage.Initiator n buf)) in
  (is_ok (encode m) = true <-> wf_request m) /\
  (~ wf_request m -> encode m = Err (IoOther (MaxBufferSize MAX_BUFFER_SIZE))).
Proof.
  intros Hn m.
  assert (~ wf_request m -> encode m = Err (IoOther (MaxBufferSize MAX_BUFFER_SIZE))) as Herr.
  { intros Hnw. unfold encode. rewrite run_encode_spec.
    destruct preamble_round_trip as (b0 & He0 & _).
    destruct (u8_round_trip types.TRANSPARENT ltac:(split; by vm_compute)) as (b1 & He1 & _).
    destruct (u8_round_trip types.HANDSHAKE_PEER ltac:(split; by vm_compute)) as (b2 & He2 & _).
    destruct (u8_round_trip types.HANDSHAKE_INITIATOR ltac:(split; by vm_compute))
      as (b3 & He3 & _).
    cbn [encodable RequestMessage_Encodable]. unfold RequestMessage_encode, mbind, Stream_bind.
    rewrite He0. cbn [RequestMessage.into_u8 m]. rewrite He1.
    unfold TransparentMessage_encode, mbind, Stream_bind. cbn [TransparentMessage.into_u8].
    rewrite He2.
    destruct (decide (wf_buffer key)) as [Hk|Hk].
    - destruct (buffer_round_trip key Hk) as (b4 & He4 & _). rewrite He4.
      unfold HandshakeMessage_encode, mbind, Stream_bind. cbn [HandshakeMessage.into_u8].
      rewrite He3. unfold encode_payload.
      destruct (Z.ltb_spec MAX_BUFFER_SIZE n) as [Hl|Hl]; [done |].
      unfold mbind, Stream_bind, encode_buffer.
      destruct (u16_round_trip (as_u16 n)) as (b5 & He5 & _).
      { unfold as_u16, is_u16. apply Z.mod_pos_bound. lia. }
      rewrite He5.
      destruct (Z.ltb_spec MAX_BUFFER_SIZE (len buf)); [done |].
      exfalso. apply Hnw. unfold MAX_BUFFER_SIZE in *. cbn. split; [done |].
      split; [unfold is_u16; lia | done].
    - unfold encode_buffer, wf_buffer in *. by rewrite (proj2 (Z.ltb_lt _ _)) by lia. }
  split; [|done]. split.
  - intros Hok. assert (Decision (wf_request m)) as Hdec by (cbn; apply _).
    destruct Hdec as [|Hnw]; [done |].
    by rewrite (Herr Hnw) in Hok.
  - intros Hwf. destruct (codec_encode_decode (C := RequestMessage_Codec) m Hwf) as (bs & -> & _). done.
Qed.
End spec.

(** ** Evaluations on the reference stream *)

#[local] Existing Instance RefStream.
#[local] Existing Instance RefStream_laws.
#[local] Existing Instance RefStatus.
#[local] Existing Instance RefStatus_laws.
#[local] Existing Instance ElementsOrder.

Definition user1 : bytes := replicate 32 Byte.x01.
Definition user2 : bytes := replicate 32 Byte.x02.
Definition meeting : ServerMessage.t := ServerMessage.NewMeeting user1 {[user1; user2]}.

Lemma server_message_round_trip_witness :
  wf_server meeting /\ exists bs, encode meeting = Ok bs /\ decode bs = Ok meeting.
Proof.
  assert (wf_server meeting) as H.
  { split_and!; [done | by vm_compute |].
    apply set_Forall_union; by apply set_Forall_singleton. }
  split; [exact H | exact (server_message_round_trip meeting H)].
Defined.

Definition error_frame : ResponseMessage.t :=
  ResponseMessage.Transparent (TransparentMessage.Error 500 "permission denied").
Definition relay_frame : RequestMessage.t :=
  RequestMessage.Opaque (OpaqueMessage.PeerMessage user1 (Some (zeros 16))
    {| encoding := Encoding.Json; broadcast := true;
       chunks := [{| chunk_length := 2; chunk_contents := [Byte.x05; Byte.x06] |}] |}).

Lemma frame_round_trip_witness :
  wf_request relay_frame /\ wf_response error_frame /\
  (exists bs, encode relay_frame = Ok bs /\ decode bs = Ok relay_frame) /\
  (exists bs, encode error_frame = Ok bs /\ decode bs = Ok error_frame).
Proof.
  assert (wf_request relay_frame) as Hq.
  { repeat split; try discriminate; try (by vm_compute).
    repeat constructor; by vm_compute. }
  assert (wf_response error_frame) as Hr by (repeat split; by vm_compute).
  split; [exact Hq |]. split; [exact Hr |].
  exact (frame_round_trip relay_frame error_frame Hq Hr).
Defined.

Lemma decode_total_witness :
  (forall b, len b <= 3 -> decode (A := RequestMessage.t) b <> Panic) /\
  match decode (A := ServerMessage.t) [Byte.x03] with Panic => False | _ => True end.
Proof.
  split.
  - intros b _ E. pose proof (decode_total b) as (H & _). by rewrite E in H.
  - pose proof (decode_total [Byte.x03]) as (_ & _ & H). by destruct (decode _).
Defined.

Lemma preamble_guards_witness :
  let vb := le_bytes 2 2 in
  decode (A := RequestMessage.t) (IDENTITY ++ vb ++ [Byte.x80])
    = Err (IoOther (EncodingVersion 1 2)).
Proof.
  intros vb.
  pose proof (preamble_guards IDENTITY [Byte.x80] 2 vb eq_refl
    ltac:(split; by vm_compute) (fun pre => eq_refl)) as [_ H].
  apply H; [reflexivity | discriminate].
Defined.

Lemma session_request_truncated_witness :
  let keys := replicate (Z.to_nat (2 ^ 16)) user1 in
  exists bs keys',
    encode (ServerMessage.NewSession {| request_participant_keys := keys |}) = Ok bs /\
    decode bs = Ok (ServerMessage.NewSession {| request_participant_keys := keys' |}) /\
    keys' = take (Z.to_nat (len keys mod 2 ^ 16)) keys /\ len keys' < len keys.
Proof.
  intros keys. apply (session_request_truncated keys).
  - apply Forall_replicate. by vm_compute.
  - unfold keys, len. rewrite length_replicate. lia.
Defined.

Lemma peer_handshake_size_guard_witness :
  let m := RequestMessage.Transparent
    (TransparentMessage.PeerHandshake user1 (HandshakeMessage.Initiator 65536 [])) in
  encode m = Err (IoOther (MaxBufferSize 65535)).
Proof.
  intros m. apply (peer_handshake_size_guard user1 [] 65536); [lia |].
  cbn. intros [_ [[_ H] _]]. revert H. vm_compute. discriminate.
Defined.
