(* ===== verification/Noise.v ===== *)
(** * The noise protocol library

    The interface of the [snow] crate: handshake and transport states, and
    the operations the code calls on them.  A call that takes a buffer
    [&mut [u8]] takes the buffer's contents and returns the new contents with
    the length [snow] reports; a state behind [&mut self] is returned even
    when the call fails.  [NoiseLaws] states the documented behaviour the code
    relies on. *)

From S2P Require Import Prelude Types.

Class Noise := {
  NoiseParams : Type;
  HandshakeState : Type;
  TransportState : Type;
  (** [str::parse::<NoiseParams>]. *)
  parse_params : string -> Res ExtError NoiseParams;
  (** [Builder::new(params).local_private_key(k).remote_public_key(p)]
      followed by [build_initiator] or [build_responder]. *)
  build_initiator : NoiseParams -> bytes -> bytes -> Res ExtError HandshakeState;
  build_responder : NoiseParams -> bytes -> bytes -> Res ExtError HandshakeState;
  (** [HandshakeState::write_message(payload, &mut buffer)]. *)
  hs_write_message : HandshakeState -> bytes -> bytes ->
    HandshakeState * Res ExtError (Z * bytes);
  (** [HandshakeState::read_message(message, &mut buffer)]. *)
  hs_read_message : HandshakeState -> bytes -> bytes ->
    HandshakeState * Res ExtError (Z * bytes);
  into_transport_mode : HandshakeState -> Res ExtError TransportState;
  (** [TransportState::write_message] and [read_message]. *)
  ts_write_message : TransportState -> bytes -> bytes ->
    TransportState * Res ExtError (Z * bytes);
  ts_read_message : TransportState -> bytes -> bytes ->
    TransportState * Res ExtError (Z * bytes);
}.

(** The longest message of the noise protocol. *)
Definition MAXMSGLEN : Z := 65535.

Class NoiseLaws (N : Noise) := {
  (** [sends a b]: what [a] writes next, [b] reads next. *)
  sends : TransportState -> TransportState -> Prop;
  (** A payload that fits is encrypted into the payload's length and a tag. *)
  ts_write_ok : forall a b payload buf,
    sends a b -> len payload + TAGLEN <= MAXMSGLEN -> len payload + TAGLEN <= len buf ->
    exists a' buf', ts_write_message a payload buf = (a', Ok (len payload + TAGLEN, buf')) /\
      len buf' = len buf /\
      (forall rbuf, len payload <= len rbuf -> exists b' rbuf',
        ts_read_message b (takeZ (len payload + TAGLEN) buf') rbuf
          = (b', Ok (len payload, rbuf')) /\
        len rbuf' = len rbuf /\ takeZ (len payload) rbuf' = payload /\ sends a' b');
  (** The two directions of a transport are independent. *)
  sends_read : forall a b msg buf, sends a b -> sends (ts_read_message a msg buf).1 b;
  sends_write : forall a b payload buf, sends a b ->
    sends a (ts_write_message b payload buf).1;
  (** The snow library reports errors, it does not panic. *)
  ts_write_no_panic : forall a payload buf, (ts_write_message a payload buf).2 <> Panic;
  ts_read_no_panic : forall a msg buf, (ts_read_message a msg buf).2 <> Panic;
  hs_write_no_panic : forall h payload buf, (hs_write_message h payload buf).2 <> Panic;
  hs_read_no_panic : forall h msg buf, (hs_read_message h msg buf).2 <> Panic;
  into_transport_no_panic : forall h, into_transport_mode h <> Panic;
  parse_params_no_panic : forall s, parse_params s <> Panic;
  build_responder_no_panic : forall p k r, build_responder p k r <> Panic;
  build_initiator_no_panic : forall p k r, build_initiator p k r <> Panic;
  (** The buffer is a slice: it keeps its length, and what is written fits. *)
  hs_write_len : forall h payload buf n buf',
    (hs_write_message h payload buf).2 = Ok (n, buf') -> 0 <= n <= len buf' /\ len buf' = len buf;
  ts_read_len : forall a msg buf n buf',
    (ts_read_message a msg buf).2 = Ok (n, buf') -> len buf' = len buf;
}.

(** The two-message handshake of the standard pattern (NN): the initiator
    writes, the responder reads and replies, the initiator reads; both sides
    then enter transport mode with channels in both directions.  Buffers are
    the 1024 zero bytes the code allocates. *)
Class NoiseHandshakeLaws (N : Noise) {NL : NoiseLaws N} : Prop := {
  nn_handshake : forall params ik rk ipub rpub i r,
    parse_params PATTERN = Ok params ->
    build_initiator params ik rpub = Ok i -> build_responder params rk ipub = Ok r ->
    exists i1 n1 m1 r1 l1 r2 n2 m2 i2 l2 ti tr,
      hs_write_message i [] (zeros 1024) = (i1, Ok (n1, m1)) /\ 0 <= n1 <= len m1 /\
      len m1 = 1024 /\
      hs_read_message r (takeZ n1 m1) (zeros 1024) = (r1, Ok l1) /\
      hs_write_message r1 [] (zeros 1024) = (r2, Ok (n2, m2)) /\ 0 <= n2 <= len m2 /\
      len m2 = 1024 /\
      hs_read_message i1 (takeZ n2 m2) (zeros 1024) = (i2, Ok l2) /\
      into_transport_mode i2 = Ok ti /\ into_transport_mode r2 = Ok tr /\
      sends ti tr /\ sends tr ti;
}.

Section protocol.
Context {N : Noise}.

(** src/protocol/src/protocol.rs:54-60 ProtocolState *)
Inductive ProtocolState :=
| Handshake (state : HandshakeState)
| Transport (state : TransportState).

(** [matches!(state, Some(ProtocolState::Transport(_)))]. *)
Definition is_transport (s : option ProtocolState) : bool :=
  match s with Some (Transport _) => true | _ => false end.
End protocol.
