(* ===== verification/Channel.v ===== *)
(** * Chunks and encrypted channels

    [Chunk::split] and [Chunk::join] of [src/protocol/src/protocol.rs], the
    server channel of [src/protocol/src/channel.rs] and the peer channel of
    [src/client/src/lib.rs].  A payload is cut into pieces the noise protocol
    can carry, each is encrypted, and the envelope of the pieces is decrypted
    and joined by the receiver. *)

From S2P Require Import Prelude Types Noise.

(** [slice::chunks(n)]: pieces of [n] elements, the last one shorter.  The
    fuel is the number of elements, each piece taking at least one. *)
Fixpoint slice_chunks {A} (fuel : nat) (n : Z) (l : list A) : list (list A) :=
  match fuel, l with
  | S fuel', _ :: _ => takeZ n l :: slice_chunks fuel' n (drop (Z.to_nat n) l)
  | _, _ => []
  end.
Definition chunks_of {A} (n : Z) (l : list A) : list (list A) :=
  slice_chunks (Datatypes.length l) n l.

Section channel.
Context {N : Noise}.

(** src/protocol/src/protocol.rs:325-325 Chunk::CHUNK_SIZE *)
Definition CHUNK_SIZE : Z := 65535 - TAGLEN.

(** A step on a transport state that may fail. *)
Definition TS (A : Type) : Type := SM TransportState Error A.

(** The loop of [Chunk::split]. *)
(** src/protocol/src/protocol.rs:332-339 Chunk::split *)
Fixpoint split_loop (pieces : list bytes) (acc : list Chunk) : TS (list Chunk) :=
  match pieces with
  | [] => mret acc
  | chunk :: pieces' =>
    '(length, contents) ← (fun t =>
        let '(t', r) := ts_write_message t chunk (zeros (len chunk + TAGLEN)) in
        (t', map_err Snow r)) : TS (Z * bytes);
    split_loop pieces' (acc ++ [{| chunk_length := length; chunk_contents := contents |}])
  end.

(** src/protocol/src/protocol.rs:327-340 Chunk::split *)
Definition split (payload : bytes) : TS (list Chunk) :=
  split_loop (chunks_of CHUNK_SIZE payload) [].

(** The loop of [Chunk::join]: [&chunk.contents[..chunk.length]] panics when
    the declared length exceeds the contents, and [contents.len() - TAGLEN]
    wraps around below the tag length. *)
(** src/protocol/src/protocol.rs:347-358 Chunk::join *)
Fixpoint join_loop (chunks : list Chunk) (payload : bytes) : TS bytes :=
  match chunks with
  | [] => mret payload
  | chunk :: chunks' =>
    let n := chunk_length chunk in
    if len (chunk_contents chunk) <? n then sm_panic
    else
      '(_, contents) ← (fun t =>
          let '(t', r) := ts_read_message t (takeZ n (chunk_contents chunk)) (zeros n) in
          (t', map_err Snow r)) : TS (Z * bytes);
      let new_length := wrap64 (len contents - TAGLEN) in
      join_loop chunks' (payload ++ truncate new_length contents)
  end.

(** src/protocol/src/protocol.rs:342-359 Chunk::join *)
Definition join (chunks : list Chunk) : TS bytes := join_loop chunks [].

(** A step on a protocol state that must be in transport mode. *)
Definition with_transport {A E} (e : E) (f : Error -> E) (k : TS A) :
    SM ProtocolState E A := fun s =>
  match s with
  | Transport t => let '(t', r) := k t in (Transport t', map_err f r)
  | Handshake _ => (s, Err e)
  end.

(** src/protocol/src/channel.rs:9-30 encrypt_server_channel *)
Definition encrypt_server_channel (payload : bytes) (bcast : bool) :
    SM ProtocolState Error SealedEnvelope :=
  with_transport NotTransportState id
    (chunks ← split payload;
     mret {| encoding := Encoding.Blob; chunks := chunks; broadcast := bcast |}).

(** src/protocol/src/channel.rs:32-47 decrypt_server_channel *)
Definition decrypt_server_channel (envelope : SealedEnvelope) :
    SM ProtocolState Error (Encoding.t * bytes) :=
  with_transport NotTransportState id
    (contents ← join (chunks envelope); mret (encoding envelope, contents)).
End channel.

(** ** Cutting a payload *)

Lemma length_takeZ {A} n (l : list A) : 0 <= n -> len (takeZ n l) = Z.min n (len l).
Proof. intros H. unfold len, takeZ. rewrite length_take. lia. Qed.

Lemma slice_chunks_concat {A} fuel n (l : list A) :
  0 < n -> (Datatypes.length l <= fuel)%nat -> concat (slice_chunks fuel n l) = l.
Proof.
  intros Hn. revert l. induction fuel as [|fuel IH]; intros [|x l] Hf; cbn in *; try done; [lia|].
  destruct (Z.to_nat n) as [|k] eqn:E; [lia |].
  unfold takeZ. rewrite E, IH, take_drop; [done |]. rewrite length_drop. cbn. lia.
Qed.

Lemma slice_chunks_bounds {A} fuel n (l : list A) :
  0 < n -> Forall (fun c => 0 < len c <= n) (slice_chunks fuel n l).
Proof.
  intros Hn. revert l. induction fuel as [|fuel IH]; intros [|x l]; cbn; constructor; [|done].
  rewrite length_takeZ by lia. rewrite len_cons. pose proof (len_nonneg l). lia.
Qed.

Lemma slice_chunks_count {A} fuel n (l : list A) :
  0 < n -> (Datatypes.length l <= fuel)%nat ->
  len (slice_chunks fuel n l) = (len l + n - 1) / n.
Proof.
  intros Hn. revert l. induction fuel as [|fuel IH]; intros [|x l] Hf; cbn [slice_chunks] in *.
  - symmetry. apply Z.div_small. unfold len. cbn. lia.
  - cbn in Hf. lia.
  - symmetry. apply Z.div_small. unfold len. cbn. lia.
  - rewrite len_cons, IH by (rewrite length_drop; cbn in *; lia).
    unfold len. rewrite length_drop. set (m := Datatypes.length (x :: l)).
    destruct (Z.le_gt_cases (Z.of_nat m) n) as [Hm|Hm].
    + replace (m - Z.to_nat n)%nat with O by lia.
      rewrite (Z.div_small (Z.of_nat 0 + n - 1)) by lia.
      apply Z.div_unique with (Z.of_nat m - 1); subst m; cbn in *; lia.
    + replace (Z.of_nat m + n - 1) with (Z.of_nat (m - Z.to_nat n) + n - 1 + 1 * n) by lia.
      by rewrite Z.div_add by lia.
Qed.

Section facts.
Context {N : Noise} {NL : NoiseLaws N}.

(** A chunk the encoder accepts and the receiver can slice. *)
Definition chunk_ok (c : Chunk) : Prop :=
  TAGLEN < chunk_length c <= MAXMSGLEN /\ chunk_length c = len (chunk_contents c).

Definition pieces_ok (pieces : list bytes) : Prop :=
  Forall (fun c => 0 < len c <= CHUNK_SIZE) pieces.

(** Encrypting one piece and decrypting it at the other end. *)
Lemma piece_round_trip a b piece :
  sends a b -> 0 < len piece <= CHUNK_SIZE ->
  exists a' buf b' rbuf,
    ts_write_message a piece (zeros (len piece + TAGLEN))
      = (a', Ok (len piece + TAGLEN, buf)) /\
    len buf = len piece + TAGLEN /\
    ts_read_message b (takeZ (len piece + TAGLEN) buf) (zeros (len piece + TAGLEN))
      = (b', Ok (len piece, rbuf)) /\
    len rbuf = len piece + TAGLEN /\ truncate (len piece) rbuf = piece /\ sends a' b'.
Proof.
  intros Hab Hp. unfold CHUNK_SIZE, TAGLEN in *.
  assert (len (zeros (len piece + 16)) = len piece + 16) as Hz by (apply len_zeros; lia).
  destruct (ts_write_ok a b piece (zeros (len piece + 16)) Hab) as (a' & buf & Hw & Hl & Hr);
    unfold TAGLEN, MAXMSGLEN in *; [lia | lia |].
  destruct (Hr (zeros (len piece + 16))) as (b' & rbuf & Hr' & Hl' & Ht & Hs); [lia |].
  exists a', buf, b', rbuf. split_and!; try done; try lia.
  unfold truncate. by rewrite (proj2 (Z.ltb_lt _ _)) by lia.
Qed.

Lemma split_join_loop pieces : pieces_ok pieces -> forall a b acc out, sends a b ->
  exists a' b' cs, split_loop pieces acc a = (a', Ok (acc ++ cs)) /\
    join_loop cs out b = (b', Ok (out ++ concat pieces)) /\
    len cs = len pieces /\ Forall chunk_ok cs /\ sends a' b'.
Proof.
  induction 1 as [|p ps Hp Hps IH]; intros a b acc out Hab.
  { exists a, b, []. cbn. rewrite !app_nil_r. split_and!; done || constructor. }
  destruct (piece_round_trip a b p Hab Hp) as (a1 & buf & b1 & rbuf & Hw & Hl & Hr & Hrl & Ht & Hs).
  set (c := {| chunk_length := len p + TAGLEN; chunk_contents := buf |}).
  destruct (IH a1 b1 (acc ++ [c]) (out ++ p) Hs) as (a2 & b2 & cs & H1 & H2 & H3 & H4 & H5).
  exists a2, b2, (c :: cs). split_and!.
  - cbn [split_loop]. unfold mbind, SM_bind. rewrite Hw. cbn [map_err].
    fold c. rewrite H1. by rewrite <- app_assoc.
  - cbn [join_loop]. subst c. cbn [chunk_length chunk_contents]. rewrite Hl, Z.ltb_irrefl.
    unfold mbind, SM_bind. rewrite Hr. cbn [map_err]. rewrite Hrl.
    replace (len p + TAGLEN - TAGLEN) with (len p) by lia.
    unfold wrap64, CHUNK_SIZE, TAGLEN in *. rewrite Z.mod_small by lia.
    rewrite Ht, H2. cbn. by rewrite app_assoc.
  - rewrite !len_cons. lia.
  - constructor; [|done]. unfold chunk_ok, c, CHUNK_SIZE, TAGLEN, MAXMSGLEN in *. cbn. lia.
  - done.
Qed.

Lemma split_join_ok payload a b : sends a b ->
  exists a' b' cs, split payload a = (a', Ok cs) /\ join cs b = (b', Ok payload) /\
    len cs = (len payload + CHUNK_SIZE - 1) / CHUNK_SIZE /\
    Forall chunk_ok cs /\ sends a' b'.
Proof.
  intros Hab.
  destruct (split_join_loop (chunks_of CHUNK_SIZE payload)
    (slice_chunks_bounds _ CHUNK_SIZE payload ltac:(by vm_compute)) a b [] [] Hab)
    as (a' & b' & cs & H1 & H2 & H3 & H4 & H5).
  exists a', b', cs. split_and!; try done.
  - unfold join. rewrite H2. unfold chunks_of. by rewrite slice_chunks_concat.
  - rewrite H3. unfold chunks_of. by apply slice_chunks_count.
Qed.

(** Encrypting does not disturb what the other side sends, nor does
    decrypting what this side sends. *)
Lemma split_loop_keeps pieces acc a b : sends b a -> sends b (split_loop pieces acc a).1.
Proof.
  revert acc a. induction pieces as [|p ps IH]; intros acc a H; [done |].
  cbn [split_loop]. unfold mbind, SM_bind.
  pose proof (sends_write b a p (zeros (len p + TAGLEN)) H) as Hw.
  by destruct (ts_write_message a p _) as [a' [[n buf]| |]]; cbn in *; [apply IH | |].
Qed.

Lemma join_loop_keeps cs out a b : sends a b -> sends (join_loop cs out a).1 b.
Proof.
  revert out a. induction cs as [|c cs IH]; intros out a H; [done |].
  cbn [join_loop]. destruct (_ <? _); [done |]. unfold mbind, SM_bind.
  pose proof (sends_read a b (takeZ (chunk_length c) (chunk_contents c))
    (zeros (chunk_length c)) H) as Hr.
  by destruct (ts_read_message a _ _) as [a' [[n buf]| |]]; cbn in *; [apply IH | |].
Qed.

(** Two transports in step in both directions. *)
Definition in_step (a b : TransportState) : Prop := sends a b /\ sends b a.

Lemma in_step_sym a b : in_step a b -> in_step b a.
Proof. by intros []. Qed.

Lemma split_join_in_step payload a b : in_step a b ->
  exists a' b' cs, split payload a = (a', Ok cs) /\ join cs b = (b', Ok payload) /\
    len cs = (len payload + CHUNK_SIZE - 1) / CHUNK_SIZE /\
    Forall chunk_ok cs /\ in_step a' b'.
Proof.
  intros [Hab Hba]. destruct (split_join_ok payload a b Hab) as (a' & b' & cs & H1 & H2 & H3 & H4 & H5).
  exists a', b', cs. split_and!; try done. split; [done |].
  pose proof (split_loop_keeps (chunks_of CHUNK_SIZE payload) [] a b Hba) as K1.
  unfold split in H1. rewrite H1 in K1. cbn in K1.
  pose proof (join_loop_keeps cs [] b a' K1) as K2. unfold join in H2. by rewrite H2 in K2.
Qed.

Lemma join_loop_no_panic cs : Forall (fun c => chunk_length c <= len (chunk_contents c)) cs ->
  forall out t, (join_loop cs out t).2 <> Panic.
Proof.
  induction 1 as [|c cs Hc _ IH]; intros out t; [done |].
  cbn [join_loop]. rewrite (proj2 (Z.ltb_ge _ _)) by lia.
  unfold mbind, SM_bind.
  pose proof (ts_read_no_panic t (takeZ (chunk_length c) (chunk_contents c))
    (zeros (chunk_length c))) as Hnp.
  destruct (ts_read_message _ _ _) as [t' [[n buf]|e|]]; cbn in *; [apply IH | done | done].
Qed.

(** The payload and the room left for tags stay within the encoding limits. *)
Lemma chunk_ok_encodable c : chunk_ok c ->
  0 <= chunk_length c < 2 ^ 16 /\ len (chunk_contents c) <= 65535.
Proof. unfold chunk_ok, TAGLEN, MAXMSGLEN. lia. Qed.
End facts.
