(* ===== verification/NoiseRef.v ===== *)
(** * A reference noise library

    A transparent stand-in for [snow] that satisfies [NoiseLaws] and
    [NoiseHandshakeLaws]: a message carries its payload in clear and a tag of
    sixteen copies of a counter both ends advance.  It shows that the laws can
    hold and evaluates the definitions on concrete inputs; no theorem of the
    development depends on it. *)

From S2P Require Import Prelude Types Noise Channel.

Record RefHandshake := { initiator : bool; stage : Z }.
Record RefTransport := { sent : Z; received : Z }.

Definition ref_tag (n : Z) : bytes := replicate 16 (byte_of n).

(** Overwrite the start of a buffer. *)
Definition overwrite (buf data : bytes) : bytes := data ++ drop (Datatypes.length data) buf.

Definition ref_ts_write (t : RefTransport) (payload buf : bytes) :
    RefTransport * Res ExtError (Z * bytes) :=
  if (MAXMSGLEN <? len payload + TAGLEN) || (len buf <? len payload + TAGLEN)
  then (t, Err "input error"%string)
  else ({| sent := sent t + 1; received := received t |},
        Ok (len payload + TAGLEN, overwrite buf (payload ++ ref_tag (sent t)))).

Definition ref_ts_read (t : RefTransport) (msg buf : bytes) :
    RefTransport * Res ExtError (Z * bytes) :=
  let n := len msg - TAGLEN in
  if (n <? 0) || (len buf <? n) then (t, Err "input error"%string)
  else if bool_decide (drop (Z.to_nat n) msg = ref_tag (received t)) then
    ({| sent := sent t; received := received t + 1 |}, Ok (n, overwrite buf (takeZ n msg)))
  else (t, Err "decrypt error"%string).

Definition ref_hs_write (h : RefHandshake) (payload buf : bytes) :
    RefHandshake * Res ExtError (Z * bytes) :=
  if len buf <? len payload then (h, Err "input error"%string) else
  ({| initiator := initiator h; stage := stage h + 1 |}, Ok (len payload, overwrite buf payload)).

Definition ref_hs_read (h : RefHandshake) (msg buf : bytes) :
    RefHandshake * Res ExtError (Z * bytes) :=
  ({| initiator := initiator h; stage := stage h + 1 |}, Ok (len msg, overwrite buf msg)).

Definition ref_into_transport (h : RefHandshake) : Res ExtError RefTransport :=
  if stage h =? 2 then Ok {| sent := 0; received := 0 |}
  else Err "handshake not finished"%string.

Definition RefNoise : Noise := {|
  NoiseParams := string;
  HandshakeState := RefHandshake;
  TransportState := RefTransport;
  parse_params := fun s => Ok s;
  build_initiator := fun _ _ _ => Ok {| initiator := true; stage := 0 |};
  build_responder := fun _ _ _ => Ok {| initiator := false; stage := 0 |};
  hs_write_message := ref_hs_write;
  hs_read_message := ref_hs_read;
  into_transport_mode := ref_into_transport;
  ts_write_message := ref_ts_write;
  ts_read_message := ref_ts_read;
|}.

Lemma len_overwrite buf data : len data <= len buf -> len (overwrite buf data) = len buf.
Proof. unfold len, overwrite. rewrite length_app, length_drop. lia. Qed.

Lemma takeZ_overwrite buf data n : n = len data -> takeZ n (overwrite buf data) = data.
Proof. intros ->. unfold takeZ, overwrite, len. by rewrite Nat2Z.id, take_app_length. Qed.

Lemma len_ref_tag n : len (ref_tag n) = TAGLEN.
Proof. done. Qed.

Lemma ref_write_ok a b payload buf :
  sent a = received b -> len payload + TAGLEN <= MAXMSGLEN -> len payload + TAGLEN <= len buf ->
  exists a' buf', ref_ts_write a payload buf = (a', Ok (len payload + TAGLEN, buf')) /\
    len buf' = len buf /\
    (forall rbuf, len payload <= len rbuf -> exists b' rbuf',
      ref_ts_read b (takeZ (len payload + TAGLEN) buf') rbuf = (b', Ok (len payload, rbuf')) /\
      len rbuf' = len rbuf /\ takeZ (len payload) rbuf' = payload /\ sent a' = received b').
Proof.
  intros Hab Hm Hb. pose proof (len_nonneg payload).
  assert (len (payload ++ ref_tag (sent a)) = len payload + TAGLEN) as Hlen.
  { by rewrite len_app, len_ref_tag. }
  unfold ref_ts_write. rewrite (proj2 (Z.ltb_ge MAXMSGLEN _)) by done.
  rewrite (proj2 (Z.ltb_ge (len buf) _)) by done. cbn [orb].
  do 2 eexists. split; [done |]. split; [by apply len_overwrite; rewrite Hlen |].
  intros rbuf Hr. rewrite takeZ_overwrite by done. unfold ref_ts_read. rewrite Hlen.
  replace (len payload + TAGLEN - TAGLEN) with (len payload) by lia.
  rewrite (proj2 (Z.ltb_ge (len payload) 0)) by done.
  rewrite (proj2 (Z.ltb_ge (len rbuf) _)) by done. cbn [orb].
  unfold takeZ. replace (Z.to_nat (len payload)) with (Datatypes.length payload)
    by (unfold len; lia).
  rewrite drop_app_length, take_app_length.
  rewrite bool_decide_true by by rewrite Hab.
  do 2 eexists. split; [done |]. split; [by apply len_overwrite |].
  split; [|cbn; lia]. unfold overwrite. by rewrite take_app_length.
Qed.

#[refine] Definition RefNoise_laws : NoiseLaws RefNoise := {|
  sends := fun (a b : @TransportState RefNoise) => sent a = received b |}.
Proof.
  - exact ref_write_ok.
  - intros a b msg buf H. cbn. unfold ref_ts_read.
    repeat case_match; cbn; done.
  - intros a b payload buf H. cbn. unfold ref_ts_write. repeat case_match; cbn; done.
  - intros a payload buf. cbn. unfold ref_ts_write. by repeat case_match.
  - intros a msg buf. cbn. unfold ref_ts_read. by repeat case_match.
  - intros h payload buf. cbn. unfold ref_hs_write. by case_match.
  - done.
  - intros h. cbn. unfold ref_into_transport. by case_match.
  - done.
  - done.
  - done.
  - intros h payload buf n buf'. cbn. unfold ref_hs_write. case_match eqn:E; [done |].
    cbn. intros [= <- <-]. pose proof (len_nonneg payload). rewrite len_overwrite; lia.
  - intros a msg buf n buf'. cbn. unfold ref_ts_read.
    case_match eqn:E; [done |]. case_bool_decide; [|done].
    cbn. intros [= _ <-]. apply len_overwrite. apply orb_false_iff in E as [E1 E2].
    rewrite length_takeZ by lia. pose proof (len_nonneg msg). lia.
Defined.

Lemma RefNoise_handshake_laws : @NoiseHandshakeLaws RefNoise RefNoise_laws.
Proof.
  split. intros params ik rk ipub rpub i r _ [= <-] [= <-].
  do 12 eexists. cbn. split_and!; reflexivity || by vm_compute.
Qed.
