(* ===== verification/ChannelSpec.v ===== *)
(** * Properties of chunks and encrypted channels *)

From S2P Require Import Prelude Types Stream Encoding EncodingFacts EncodingSpec Noise Channel NoiseRef.

Section spec.
Context {BS : BinaryStream encoding_options} {BL : BinaryStreamLaws encoding_options BS}.
Context {HO : HashOrder} {HL : HashOrderLaws HO}.
Context {SC : StatusCodes} {SL : StatusCodesLaws SC}.
Context {N : Noise} {NL : NoiseLaws N}.

(** Chunks produced by [split] can be put on the wire. *)
Lemma chunks_wf cs : Forall chunk_ok cs -> Forall wf_chunk cs.
Proof.
  apply Forall_impl. intros c Hc. destruct (chunk_ok_encodable c Hc).
  split; [done | unfold wf_buffer, MAX_BUFFER_SIZE; lia].
Qed.

(** The payloads whose chunks an envelope can count. *)
Definition fits_envelope (payload : bytes) : Prop := len payload < CHUNK_SIZE * (2 ^ 32 - 1).

(** Sealing a payload at one end of a channel and opening it at the other. *)
Lemma channel_in_step payload bcast a b : in_step a b -> fits_envelope payload ->
  exists a' b' env,
    encrypt_server_channel payload bcast (Transport a) = (Transport a', Ok env) /\
    decrypt_server_channel env (Transport b) = (Transport b', Ok (Encoding.Blob, payload)) /\
    wf_envelope env /\ encoding env = Encoding.Blob /\ broadcast env = bcast /\ in_step a' b'.
Proof.
  intros Hab Hlen. unfold fits_envelope in Hlen.
  destruct (split_join_in_step payload a b Hab) as (a' & b' & cs & H1 & H2 & H3 & H4 & H5).
  exists a', b', {| encoding := Encoding.Blob; chunks := cs; broadcast := bcast |}.
  split_and!; try done.
  - unfold encrypt_server_channel, with_transport, mbind, SM_bind. by rewrite H1.
  - unfold decrypt_server_channel, with_transport, mbind, SM_bind. cbn [chunks]. by rewrite H2.
  - split_and!; [done | | by apply chunks_wf]. cbn [chunks]. rewrite H3.
    apply Z.div_lt_upper_bound; unfold CHUNK_SIZE, TAGLEN in *; lia.
Qed.

(** Splitting a payload of any size into encrypted chunks and joining
    the decrypted chunks at the other end gives the payload back; the number
    of chunks is the payload's size over the chunk size rounded up, every
    chunk respects the 65535 byte limit of the noise protocol, and the two
    transports stay in step for the next message. *)
Theorem split_join_round_trip (payload : bytes) (a b : TransportState) :
  sends a b ->
  exists a' b' cs,
    split payload a = (a', Ok cs) /\ join cs b = (b', Ok payload) /\
    len cs = (len payload + CHUNK_SIZE - 1) / CHUNK_SIZE /\
    Forall (fun c => chunk_length c <= MAXMSGLEN /\ wf_chunk c) cs /\ sends a' b'.
Proof.
  intros Hab. destruct (split_join_ok payload a b Hab) as (a' & b' & cs & H1 & H2 & H3 & H4 & H5).
  exists a', b', cs. split_and!; try done.
  pose proof (chunks_wf cs H4) as Hw. rewrite !list.Forall_forall in *.
  intros c Hc. split; [| by apply Hw]. by destruct (H4 c Hc) as [[_ ?] _].
Qed.

(** A chunk whose declared length exceeds its contents makes [join]
    panic, whatever the state of the channel: nothing between the decoder,
    which accepts such a chunk, and the slice checks it.  When no chunk is
    malformed in this way, [join] does not panic. *)
Theorem join_panics_on_bad_length (c : Chunk) (cs : list Chunk) (t : TransportState) :
  (wf_chunk c -> len (chunk_contents c) < chunk_length c ->
    (exists bs, Encodes (Chunk_encode c) bs /\ Decodes (Chunk_decode Chunk_default) bs c) /\
    join (c :: cs) t = (t, Panic)) /\
  (Forall (fun c => chunk_length c <= len (chunk_contents c)) cs ->
    (join cs t).2 <> Panic).
Proof.
  split.
  - intros Hw Hl. split; [by apply chunk_round_trip |].
    unfold join. cbn [join_loop]. by rewrite (proj2 (Z.ltb_lt _ _)).
  - intros Hcs. by apply join_loop_no_panic.
Qed.

(** C10. A message handed to the encrypted server channel arrives: the
    sealed envelope is encodable in a response frame, the frame decodes to
    the same envelope, and decrypting it at the other end of the channel
    yields the payload, the blob encoding and the broadcast flag; both ends
    remain in transport mode and in step.  Outside transport mode both
    operations fail with [NotTransportState] and leave the state alone. *)
Theorem server_channel_delivers (payload : bytes) (bcast : bool) (a b : TransportState) :
  in_step a b -> fits_envelope payload ->
  (exists a' b' env bs,
    encrypt_server_channel payload bcast (Transport a) = (Transport a', Ok env) /\
    encode (ResponseMessage.Opaque (OpaqueMessage.ServerMessage env)) = Ok bs /\
    decode bs = Ok (ResponseMessage.Opaque (OpaqueMessage.ServerMessage env)) /\
    decrypt_server_channel env (Transport b) = (Transport b', Ok (Encoding.Blob, payload)) /\
    broadcast env = bcast /\ in_step a' b') /\
  (forall h env,
    encrypt_server_channel payload bcast (Handshake h) = (Handshake h, Err NotTransportState) /\
    decrypt_server_channel env (Handshake h) = (Handshake h, Err NotTransportState)).
Proof.
  intros Hab Hlen. split; [|done].
  destruct (channel_in_step payload bcast a b Hab Hlen) as (a' & b' & env & H1 & H2 & H3 & _ & H5 & H6).
  destruct (codec_encode_decode (C := ResponseMessage_Codec)
    (ResponseMessage.Opaque (OpaqueMessage.ServerMessage env)) H3) as (bs & He & Hd).
  by exists a', b', env, bs.
Qed.
End spec.

(** ** Evaluations on the reference libraries *)

#[local] Existing Instance RefStream.
#[local] Existing Instance RefStream_laws.
#[local] Existing Instance RefStatus.
#[local] Existing Instance RefStatus_laws.
#[local] Existing Instance ElementsOrder.
#[local] Existing Instance RefNoise.
#[local] Existing Instance RefNoise_laws.

Definition fresh_transport : RefTransport := {| sent := 0; received := 0 |}.

Lemma split_join_round_trip_witness :
  exists a' b' cs,
    split [Byte.x01; Byte.x02] (fresh_transport : TransportState) = (a', Ok cs) /\
    join cs (fresh_transport : TransportState) = (b', Ok [Byte.x01; Byte.x02]) /\
    len cs = (2 + CHUNK_SIZE - 1) / CHUNK_SIZE /\
    Forall (fun c => chunk_length c <= MAXMSGLEN /\ wf_chunk c) cs /\ sends a' b'.
Proof. exact (split_join_round_trip [Byte.x01; Byte.x02] fresh_transport fresh_transport eq_refl). Defined.

Lemma join_panics_on_bad_length_witness :
  let c := {| chunk_length := 3; chunk_contents := [Byte.x00] |} in
  join [c] (fresh_transport : TransportState) = (fresh_transport, Panic) /\
  (join [] (fresh_transport : TransportState)).2 <> Panic.
Proof.
  intros c. destruct (join_panics_on_bad_length (N := RefNoise) c [] fresh_transport) as [H1 H2]. split.
  - apply H1; [repeat split; by vm_compute | by vm_compute].
  - by apply H2.
Defined.

Lemma server_channel_delivers_witness :
  exists a' b' env bs,
    encrypt_server_channel [Byte.x07] true (Transport (fresh_transport : TransportState))
      = (Transport a', Ok env) /\
    encode (ResponseMessage.Opaque (OpaqueMessage.ServerMessage env)) = Ok bs /\
    decode bs = Ok (ResponseMessage.Opaque (OpaqueMessage.ServerMessage env)) /\
    decrypt_server_channel env (Transport (fresh_transport : TransportState))
      = (Transport b', Ok (Encoding.Blob, [Byte.x07])) /\
    broadcast env = true /\ in_step a' b'.
Proof.
  exact (proj1 (server_channel_delivers [Byte.x07] true fresh_transport fresh_transport
    (conj eq_refl eq_refl) ltac:(by vm_compute))).
Defined.
