(* ===== verification/Keypair.v ===== *)
(** * Key pairs and their PEM encoding

    [src/protocol/src/keypair.rs].  The [pem] crate and key generation by the
    [snow] builder are parameters; the reference instance at the end shows that
    the law assumed of [pem] can hold. *)

From S2P Require Import Prelude Types Noise.

(** A PEM section of the [pem] crate. *)
Record PemSection := { pem_tag : string; pem_contents : bytes }.

#[global] Instance PemSection_eq_dec : EqDecision PemSection.
Proof. solve_decision. Defined.

Class Pem := {
  encode_many : list PemSection -> string;
  parse_many : bytes -> Res ExtError (list PemSection);
}.

(** Sections with plain tags survive: [parse_many] inverts [encode_many], and
    reports an error rather than panic. *)
Class PemLaws (P : Pem) : Prop := {
  parse_encode : forall l, Forall (fun s => pem_tag s ∈ [PEM_PATTERN; PEM_PUBLIC; PEM_PRIVATE]) l ->
    parse_many (str_bytes (encode_many l)) = Ok l;
  parse_no_panic : forall b, parse_many b <> Panic;
}.

(** [snow::Keypair], and [Builder::generate_keypair] as a function of the
    randomness it draws. *)
Record SnowKeypair := { public : bytes; private : bytes }.
Class KeyGen {N : Noise} := {
  builder_generate_keypair : NoiseParams -> bytes -> Res ExtError SnowKeypair;
}.

Module Keypair.
(** src/protocol/src/keypair.rs:15-18 Keypair *)
Record t := { inner : SnowKeypair }.

Section ops.
Context {N : Noise} {G : KeyGen}.

(** src/protocol/src/keypair.rs:21-27 Keypair::new *)
Definition new (params : NoiseParams) (entropy : bytes) : Res Error t :=
  k ← map_err Snow (builder_generate_keypair params entropy); mret {| inner := k |}.
End ops.

(** src/protocol/src/keypair.rs:29-32 Keypair::public_key *)
Definition public_key (self : t) : bytes := public (inner self).

(** src/protocol/src/keypair.rs:34-37 Keypair::private_key *)
Definition private_key (self : t) : bytes := private (inner self).
End Keypair.

Section keypair.
Context {N : Noise} {G : KeyGen} {P : Pem}.

(** src/protocol/src/keypair.rs:100-104 generate_keypair *)
Definition generate_keypair (entropy : bytes) : Res Error Keypair.t :=
  params ← map_err Snow (parse_params PATTERN); Keypair.new params entropy.

(** src/protocol/src/keypair.rs:106-114 encode_keypair *)
Definition encode_keypair (keypair : Keypair.t) : string :=
  let pattern_pem := {| pem_tag := PEM_PATTERN; pem_contents := str_bytes PATTERN |} in
  let public_pem := {| pem_tag := PEM_PUBLIC; pem_contents := Keypair.public_key keypair |} in
  let private_pem := {| pem_tag := PEM_PRIVATE; pem_contents := Keypair.private_key keypair |} in
  encode_many [pattern_pem; public_pem; private_pem].

(** src/protocol/src/keypair.rs:116-143 decode_keypair *)
Definition decode_keypair (keypair : bytes) : Res Error Keypair.t :=
  pems ← map_err Types.Pem (parse_many keypair);
  match pems with
  | [first; second; third] =>
    if bool_decide ((PEM_PATTERN, PEM_PUBLIC, PEM_PRIVATE)
                    = (pem_tag first, pem_tag second, pem_tag third)) then
      if bool_decide (pem_contents first <> str_bytes PATTERN)
      then Err (PatternMismatch PATTERN)
      else Ok {| Keypair.inner := {| public := pem_contents second;
                                     private := pem_contents third |} |}
    else Err BadKeypairPem
  | _ => Err BadKeypairPem
  end.

(** src/protocol/src/keypair.rs:51-62 Keypair::serialize *)
Definition serialize {A} (serialize_str : string -> A) (self : Keypair.t) : A :=
  serialize_str (encode_keypair self).

(** src/protocol/src/keypair.rs:87-97 KeypairVisitor::visit_str *)
Definition visit_str {E} (custom : Error -> E) (value : string) : Res E Keypair.t :=
  decoded ← map_err custom (decode_keypair (str_bytes value)); mret decoded.
End keypair.

(** ** Properties *)

Section spec.
Context {P : Pem} {PL : PemLaws P}.

Lemma parse_encode_keypair kp : parse_many (str_bytes (encode_keypair kp)) =
  Ok [{| pem_tag := PEM_PATTERN; pem_contents := str_bytes PATTERN |};
      {| pem_tag := PEM_PUBLIC; pem_contents := Keypair.public_key kp |};
      {| pem_tag := PEM_PRIVATE; pem_contents := Keypair.private_key kp |}].
Proof. apply parse_encode. repeat constructor; cbn; set_solver. Qed.

Lemma decode_encode_keypair kp : decode_keypair (str_bytes (encode_keypair kp)) = Ok kp.
Proof.
  unfold decode_keypair, mbind, Res_bind. rewrite parse_encode_keypair. cbn [map_err].
  rewrite bool_decide_true, bool_decide_false by naive_solver. by destruct kp as [[]].
Qed.

(** C17. The PEM file of a key pair is read back exactly: [decode_keypair]
    inverts [encode_keypair], and accepts nothing but the three sections it
    writes, in that order, with the standard noise pattern.  Three sections
    with the right tags and another pattern are a [PatternMismatch] with the
    standard pattern, and nothing else is; any other list of sections is
    [BadKeypairPem], and nothing else is; a file that is not PEM is the error
    of the parser; it never panics. *)
Theorem keypair_pem_round_trip (kp : Keypair.t) (file : bytes) :
  decode_keypair (str_bytes (encode_keypair kp)) = Ok kp /\
  (decode_keypair file = Ok kp <->
    parse_many file = Ok [{| pem_tag := PEM_PATTERN; pem_contents := str_bytes PATTERN |};
                          {| pem_tag := PEM_PUBLIC; pem_contents := Keypair.public_key kp |};
                          {| pem_tag := PEM_PRIVATE; pem_contents := Keypair.private_key kp |}]) /\
  (decode_keypair file = Err (PatternMismatch PATTERN) <->
    exists first second third, parse_many file = Ok [first; second; third] /\
      pem_tag <$> [first; second; third] = [PEM_PATTERN; PEM_PUBLIC; PEM_PRIVATE] /\
      pem_contents first <> str_bytes PATTERN) /\
  (decode_keypair file = Err BadKeypairPem <->
    exists pems, parse_many file = Ok pems /\ pem_tag <$> pems <> [PEM_PATTERN; PEM_PUBLIC; PEM_PRIVATE]) /\
  (forall e, parse_many file = Err e -> decode_keypair file = Err (Types.Pem e)) /\
  decode_keypair file <> Panic.
Proof.
  split; [apply decode_encode_keypair |]. unfold decode_keypair, mbind, Res_bind. split_and!.
  - destruct (parse_many file) as [pems|e|]; cbn; [|done..].
    split; [|intros [= ->]; rewrite bool_decide_true, bool_decide_false by naive_solver;
      by destruct kp as [[]]].
    destruct pems as [|[] [|[] [|[] []]]]; try done. cbn.
    case_bool_decide as Ht; [|done]. case_bool_decide as Hc; [done |].
    intros [= <-]. by simplify_eq.
  - split.
    + destruct (parse_many file) as [pems|e|]; cbn; [|done..].
      destruct pems as [|x [|y [|z []]]]; try done.
      case_bool_decide as Ht; [|done]. case_bool_decide as Hc; [|done]. intros _.
      exists x, y, z. injection Ht as Hx Hy Hz. cbn [fmap list_fmap]. by rewrite <- Hx, <- Hy, <- Hz.
    + intros (x & y & z & -> & Ht & Hc). injection Ht as Hx Hy Hz. cbn [map_err].
      by rewrite Hx, Hy, Hz, !bool_decide_true.
  - split.
    + destruct (parse_many file) as [pems|e|]; cbn; [|done..]. intros H. exists pems. split; [done |].
      destruct pems as [|x [|y [|z []]]]; try done. intros Ht. injection Ht as Hx Hy Hz.
      rewrite Hx, Hy, Hz, bool_decide_true in H by done. by case_bool_decide.
    + intros (pems & -> & Hn). cbn. destruct pems as [|x [|y [|z []]]]; try done.
      cbn [map_err]. rewrite bool_decide_false; [done |]. intros Ht. injection Ht as Hx Hy Hz.
      apply Hn. cbn [fmap list_fmap]. by rewrite <- Hx, <- Hy, <- Hz.
  - by intros e ->.
  - pose proof (parse_no_panic file). destruct (parse_many file) as [pems| |]; cbn; [|done..].
    destruct pems as [|? [|? [|? []]]]; try done. repeat case_bool_decide; done.
Qed.
End spec.

(** ** A reference PEM library: the sections as bits *)

Fixpoint pos_bytes (p : positive) : bytes :=
  match p with
  | xH => []
  | xO p' => Byte.x00 :: pos_bytes p'
  | xI p' => Byte.x01 :: pos_bytes p'
  end.

Fixpoint bytes_pos (b : bytes) : positive :=
  match b with
  | [] => xH
  | x :: b' => if bool_decide (x = Byte.x00) then xO (bytes_pos b') else xI (bytes_pos b')
  end.

Lemma bytes_pos_bytes p : bytes_pos (pos_bytes p) = p.
Proof. induction p as [p IH|p IH|]; cbn; by rewrite ?IH. Qed.

Definition RefPem : Pem := {|
  encode_many := fun l => bytes_str (pos_bytes (encode ((fun s => (pem_tag s, pem_contents s)) <$> l)));
  parse_many := fun b =>
    match decode (A := list (string * bytes)) (bytes_pos b) with
    | Some l => Ok ((fun '(t, c) => {| pem_tag := t; pem_contents := c |}) <$> l)
    | None => Err "malformed framing"%string
    end;
|}.

Lemma RefPem_laws : PemLaws RefPem.
Proof.
  split.
  - intros l _. unfold parse_many, encode_many, RefPem, str_bytes, bytes_str.
    rewrite String.list_byte_of_string_of_list_byte.
    rewrite bytes_pos_bytes, decode_encode. f_equal. rewrite <- list_fmap_compose.
    induction l as [|[] l IH]; cbn; by rewrite ?IH.
  - intros b. cbn. by destruct (decode _).
Qed.

(** Keys that are the randomness they are drawn from. *)
Definition RefKeyGen {N : Noise} : KeyGen :=
  {| builder_generate_keypair := fun _ entropy => Ok {| public := entropy; private := entropy |} |}.

#[local] Existing Instance RefPem.
#[local] Existing Instance RefPem_laws.

Lemma keypair_pem_round_trip_witness :
  let kp := {| Keypair.inner := {| public := [Byte.x01; Byte.x02]; private := [Byte.x03] |} |} in
  decode_keypair (str_bytes (encode_keypair kp)) = Ok kp /\ decode_keypair [] <> Panic.
Proof. intros kp. split; apply (keypair_pem_round_trip kp []). Defined.
