(* ===== verification/ServerConfig.v ===== *)
(** * Errors and configuration of the relay server

    [src/server/src/error.rs] and [src/server/src/config.rs].  A path is its
    components, as [std::path] compares paths; the file system and the TOML
    parser are parameters. *)

From S2P Require Import Prelude Types Noise Keypair.

(** ** Paths *)

(** A path without prefix: absolute or relative, and its components. *)
Record Path := { absolute : bool; components : list string }.

#[global] Instance Path_eq_dec : EqDecision Path.
Proof. solve_decision. Defined.

(** [PathBuf::default()], [is_relative], [parent] and [join]. *)
Definition Path_default : Path := {| absolute := false; components := [] |}.
Definition is_relative (p : Path) : bool := negb (absolute p).
Definition parent (p : Path) : option Path :=
  if bool_decide (components p = []) then None
  else Some {| absolute := absolute p; components := removelast (components p) |}.
Definition path_join (d p : Path) : Path :=
  if absolute p then p
  else {| absolute := absolute d; components := components d ++ components p |}.

(** ** Errors *)

Module ServerError.
(** src/server/src/error.rs:6-108 Error *)
Inductive t :=
| NotFile (p : Path)
| PermissionDenied
| KeyFileRequired
| KeyNotFound (p : Path)
| PeerAlreadyExists
| PeerNotFound (key : string)
| NoParentDir
| NotHandshakeState
| MeetingNotFound (id : bytes)
| MeetingFull (id : bytes)
| SessionNotFound (id : bytes)
| NotSessionParticipant (id : bytes) (key : string)
| SessionTimeoutConfig
| SessionWaitConfig
| Io (e : IoError)
| Protocol (e : Types.Error)
| Axum (e : ExtError)
| Snow (e : ExtError)
| Toml (e : ExtError)
| HeaderValue (e : ExtError)
| BufferMpscSend
| MessageMpscSend.
End ServerError.

(** [Display] of the values of other libraries that appear in messages. *)
Class Display := {
  uuid_string : bytes -> string;
  path_string : Path -> string;
  number_string : Z -> string;
  kind_string : ErrorKind -> string;
  (** The text of errors of the standard library and of tokio without data. *)
  slice_error_string : string;
  status_error_string : string;
  send_error_string : string;
}.

Section display.
Context {D : Display}.

Open Scope string_scope.

(** src/protocol/src/error.rs:5-47 Error::fmt *)
Fixpoint Error_to_string (e : Error) : string :=
  match e with
  | MaxBufferSize n => "buffer exceeds maximum size " +:+ number_string n
  | BadEncodingIdentity => "encoding identity bytes are invalid"
  | EncodingVersion e g =>
      "encoding version is not supported, expecting version " +:+ number_string e
        +:+ " but got version " +:+ number_string g
  | EncodingKind n => "invalid encoding kind identifier " +:+ number_string n
  | PatternMismatch p =>
      "noise protocol pattern mismatch, expecting " +:+ String.String (Ascii.ascii_of_nat 34)
        (p +:+ String.String (Ascii.ascii_of_nat 34) EmptyString)
  | BadKeypairPem => "encoding in PEM is invalid"
  | NotTransportState => "not transport protocol state"
  | Io e => IoError_to_string e
  | Snow e | Types.Pem e => e
  end
with IoError_to_string (e : IoError) : string :=
  match e with
  | IoStream k => kind_string k
  | IoOther e => Error_to_string e
  | IoTryFromSlice => slice_error_string
  | IoInvalidStatusCode => status_error_string
  end.

(** A text between double quotes. *)
Definition quoted (s : string) : string :=
  String.String (Ascii.ascii_of_nat 34) (s +:+ String.String (Ascii.ascii_of_nat 34) EmptyString).

(** src/server/src/error.rs:8-107 Error::to_string *)
Definition ServerError_to_string (e : ServerError.t) : string :=
  match e with
  | ServerError.NotFile p =>
      "not a file " +:+ quoted (path_string p)
  | ServerError.PermissionDenied => "permission denied"
  | ServerError.KeyFileRequired => "server config requires path to a key file"
  | ServerError.KeyNotFound p => "key file " +:+ quoted (path_string p) +:+ " not found"
  | ServerError.PeerAlreadyExists => "peer already exists"
  | ServerError.PeerNotFound k => "peer " +:+ quoted k +:+ " not found "
  | ServerError.NoParentDir => "no parent directory"
  | ServerError.NotHandshakeState => "not handshake protocol state"
  | ServerError.MeetingNotFound id => "meeting " +:+ quoted (uuid_string id) +:+ " not found"
  | ServerError.MeetingFull id => "meeting " +:+ quoted (uuid_string id) +:+ " is full"
  | ServerError.SessionNotFound id => "session " +:+ quoted (uuid_string id) +:+ " not found"
  | ServerError.NotSessionParticipant id k =>
      "session " +:+ quoted (uuid_string id) +:+ " does not have participant " +:+ quoted k
  | ServerError.SessionTimeoutConfig => "session timeout must be greater than the interval"
  | ServerError.SessionWaitConfig =>
      "session wait timeout must be greater than the wait interval"
  | ServerError.Io e => IoError_to_string e
  | ServerError.Protocol e => Error_to_string e
  | ServerError.Axum e | ServerError.Snow e | ServerError.Toml e
  | ServerError.HeaderValue e => e
  | ServerError.BufferMpscSend | ServerError.MessageMpscSend => send_error_string
  end.
End display.

(** ** Configuration *)

(** src/server/src/config.rs:56-60 AccessKey *)
Record AccessKey := { access_public_key : bytes }.

(** src/server/src/config.rs:62-69 TlsConfig *)
Record TlsConfig := { tls_cert : Path; tls_key : Path }.

(** src/server/src/config.rs:71-103 SessionConfig *)
Record SessionConfig := {
  timeout : Z;
  interval : Z;
  wait_interval : Z;
  wait_timeout : Z;
}.

(** src/server/src/config.rs:105-114 SessionConfig::default *)
Definition SessionConfig_default : SessionConfig :=
  {| timeout := 300; interval := 900; wait_interval := 15; wait_timeout := 300 |}.

Module ServerConfig.
(** src/server/src/config.rs:9-32 ServerConfig *)
Record t := {
  key : Path;
  pattern : option string;
  session : SessionConfig;
  tls : option TlsConfig;
  allow : option (list AccessKey);
  deny : option (list AccessKey);
}.

(** [ServerConfig::default()]. *)
Definition default : t :=
  {| key := Path_default; pattern := None; session := SessionConfig_default;
     tls := None; allow := None; deny := None |}.

(** src/server/src/config.rs:34-54 ServerConfig::is_allowed_access *)
Definition is_allowed_access (self : t) (k : bytes) : bool :=
  let listed l := existsb (fun a => bool_decide (access_public_key a = k)) l in
  if match deny self with Some d => listed d | None => false end then false
  else match allow self with Some a => listed a | None => true end.

(** src/server/src/config.rs:166-172 ServerConfig::directory *)
Definition directory (file : Path) : Res ServerError.t Path :=
  ok_or (parent file) ServerError.NoParentDir.
End ServerConfig.

(** The file system and the TOML parser as [load] uses them. *)
Class Files := {
  try_exists : Path -> Res IoError bool;
  read_to_string : Path -> Res IoError string;
  canonicalize : Path -> Res IoError Path;
  toml_from_str : string -> Res ExtError ServerConfig.t;
}.

Section load.
Context {F : Files} {P : Pem}.

(** [if p.is_relative() { p = dir.join(p).canonicalize()?; }]. *)
Definition resolve (dir p : Path) : Res ServerError.t Path :=
  if is_relative p then map_err ServerError.Io (canonicalize (path_join dir p)) else Ok p.

Definition set_key (k : Path) (c : ServerConfig.t) : ServerConfig.t :=
  {| ServerConfig.key := k; ServerConfig.pattern := ServerConfig.pattern c;
     ServerConfig.session := ServerConfig.session c; ServerConfig.tls := ServerConfig.tls c;
     ServerConfig.allow := ServerConfig.allow c; ServerConfig.deny := ServerConfig.deny c |}.
Definition set_tls (o : option TlsConfig) (c : ServerConfig.t) : ServerConfig.t :=
  {| ServerConfig.key := ServerConfig.key c; ServerConfig.pattern := ServerConfig.pattern c;
     ServerConfig.session := ServerConfig.session c; ServerConfig.tls := o;
     ServerConfig.allow := ServerConfig.allow c; ServerConfig.deny := ServerConfig.deny c |}.

(** src/server/src/config.rs:117-164 ServerConfig::load *)
Definition load (path : Path) : Res ServerError.t (ServerConfig.t * Keypair.t) :=
  exists_ ← map_err ServerError.Io (try_exists path);
  if negb exists_ then Err (ServerError.NotFile path) else
  contents ← map_err ServerError.Io (read_to_string path);
  config ← map_err ServerError.Toml (toml_from_str contents);
  let s := ServerConfig.session config in
  if interval s <=? timeout s then Err ServerError.SessionTimeoutConfig else
  if wait_timeout s <=? wait_interval s then Err ServerError.SessionWaitConfig else
  if bool_decide (ServerConfig.key config = Path_default)
  then Err ServerError.KeyFileRequired else
  dir ← ServerConfig.directory path;
  key ← resolve dir (ServerConfig.key config);
  let config := set_key key config in
  exists_ ← map_err ServerError.Io (try_exists key);
  if negb exists_ then Err (ServerError.KeyNotFound key) else
  contents ← map_err ServerError.Io (read_to_string key);
  keypair ← map_err ServerError.Protocol (decode_keypair (str_bytes contents));
  match ServerConfig.tls config with
  | Some tls =>
      cert ← resolve dir (tls_cert tls);
      tkey ← resolve dir (tls_key tls);
      Ok (set_tls (Some {| tls_cert := cert; tls_key := tkey |}) config, keypair)
  | None => Ok (config, keypair)
  end.
End load.
