(* ===== verification/ServerConfigFacts.v ===== *)
(** * Facts about the configuration of the server

    [load], in two parts: what it checks of the text of the file, and what it
    reads besides. *)

From S2P Require Import Prelude Types Noise Keypair ServerConfig.

Section facts.
Context {F : Files} {P : Pem}.

(** What [load] does once the text of the file has parsed. *)
Definition load_rest (path : Path) (raw : ServerConfig.t) :
    Res ServerError.t (ServerConfig.t * Keypair.t) :=
  dir ← ServerConfig.directory path;
  key ← resolve dir (ServerConfig.key raw);
  exists_ ← map_err ServerError.Io (try_exists key);
  if negb exists_ then Err (ServerError.KeyNotFound key) else
  contents ← map_err ServerError.Io (read_to_string key);
  keypair ← map_err ServerError.Protocol (decode_keypair (str_bytes contents));
  match ServerConfig.tls raw with
  | Some tls =>
      cert ← resolve dir (tls_cert tls);
      tkey ← resolve dir (tls_key tls);
      Ok (set_tls (Some {| tls_cert := cert; tls_key := tkey |}) (set_key key raw), keypair)
  | None => Ok (set_key key raw, keypair)
  end.

Lemma load_validated (path : Path) (contents : string) (raw : ServerConfig.t) :
  try_exists path = Ok true -> read_to_string path = Ok contents -> toml_from_str contents = Ok raw ->
  let s := ServerConfig.session raw in
  load path =
    if interval s <=? timeout s then Err ServerError.SessionTimeoutConfig else
    if wait_timeout s <=? wait_interval s then Err ServerError.SessionWaitConfig else
    if bool_decide (ServerConfig.key raw = Path_default) then Err ServerError.KeyFileRequired
    else load_rest path raw.
Proof.
  intros He Hc Ht s. unfold load, mbind, Res_bind. rewrite He. cbn [map_err negb].
  rewrite Hc. cbn [map_err]. by rewrite Ht.
Qed.

Lemma load_rest_ok (path : Path) (raw cfg : ServerConfig.t) (kp : Keypair.t) :
  load_rest path raw = Ok (cfg, kp) <->
  exists dir file pem, parent path = Some dir /\ resolve dir (ServerConfig.key raw) = Ok file /\
    try_exists file = Ok true /\ read_to_string file = Ok pem /\
    decode_keypair (str_bytes pem) = Ok kp /\
    match ServerConfig.tls raw with
    | None => cfg = set_key file raw
    | Some tls => exists cert key, resolve dir (tls_cert tls) = Ok cert /\ resolve dir (tls_key tls) = Ok key /\
        cfg = set_tls (Some {| tls_cert := cert; tls_key := key |}) (set_key file raw)
    end.
Proof.
  unfold load_rest, mbind, Res_bind, ServerConfig.directory. split.
  - destruct (parent path) as [dir|]; cbn [ok_or]; [|done].
    destruct (resolve dir (ServerConfig.key raw)) as [key| |] eqn:Hr; [|done..].
    destruct (try_exists key) as [[]| |] eqn:Hx; cbn [map_err negb]; [|done..].
    destruct (read_to_string key) as [pem| |] eqn:Hpem; cbn [map_err]; [|done..].
    destruct (decode_keypair (str_bytes pem)) as [kp'| |] eqn:Hkp; cbn [map_err]; [|done..].
    intros H. exists dir, key, pem. destruct (ServerConfig.tls raw) as [tls|].
    + destruct (resolve dir (tls_cert tls)) as [cert| |]; [|done..].
      destruct (resolve dir (tls_key tls)) as [tk| |]; [|done..].
      injection H as <- <-. split_and!; try done. by exists cert, tk.
    + by injection H as <- <-.
  - intros (dir & key & pem & -> & Hr & Hx & Hpem & Hkp & Htls). cbn [ok_or].
    rewrite Hr, Hx. cbn [map_err negb]. rewrite Hpem. cbn [map_err]. rewrite Hkp. cbn [map_err].
    destruct (ServerConfig.tls raw) as [tls|]; [|by subst].
    by destruct Htls as (cert & tk & -> & -> & ->).
Qed.

(** The key pair is the one in the file the key path resolved to. *)
Lemma load_reads_key (path : Path) (cfg : ServerConfig.t) (kp : Keypair.t) : load path = Ok (cfg, kp) ->
  exists pem, read_to_string (ServerConfig.key cfg) = Ok pem /\ decode_keypair (str_bytes pem) = Ok kp.
Proof.
  intros Hl. assert (exists raw, load_rest path raw = Ok (cfg, kp)) as [raw Hr].
  { unfold load, mbind, Res_bind in Hl. destruct (try_exists path) as [[]| |]; cbn [map_err negb] in Hl; [|done..].
    destruct (read_to_string path) as [text| |]; cbn [map_err] in Hl; [|done..].
    destruct (toml_from_str text) as [raw| |]; cbn [map_err] in Hl; [|done..].
    destruct (_ <=? _); [done |]. destruct (_ <=? _); [done |]. case_bool_decide; [done |]. by exists raw. }
  apply load_rest_ok in Hr as (dir & file & pem & _ & _ & _ & Hpem & Hkp & Htls). exists pem.
  destruct (ServerConfig.tls raw) as [tls|]; [destruct Htls as (cert & tk & _ & _ & ->) | subst]; done.
Qed.
End facts.
