(* ===== verification/Zlib.v ===== *)
(** * Compression

    [src/protocol/src/zlib.rs] over the streaming interface of the [flate2]
    crate, whose law is that a decoder fed with a finished encoder's output
    finishes with what was written. *)

From S2P Require Import Prelude Types.

Class Flate := {
  ZlibEncoder : Type;
  ZlibDecoder : Type;
  (** [ZlibEncoder::new(Vec::new(), Compression::fast())], [ZlibDecoder::new]. *)
  encoder_new : ZlibEncoder;
  decoder_new : ZlibDecoder;
  encoder_write_all : ZlibEncoder -> bytes -> Res IoError ZlibEncoder;
  decoder_write_all : ZlibDecoder -> bytes -> Res IoError ZlibDecoder;
  encoder_finish : ZlibEncoder -> Res IoError bytes;
  decoder_finish : ZlibDecoder -> Res IoError bytes;
}.

Section zlib.
Context {F : Flate}.

(** src/protocol/src/zlib.rs:7-12 deflate *)
Definition deflate (packet : bytes) : Res Error bytes :=
  encoder ← map_err Io (encoder_write_all encoder_new packet);
  map_err Io (encoder_finish encoder).

(** src/protocol/src/zlib.rs:14-19 inflate *)
Definition inflate (packet : bytes) : Res Error bytes :=
  z ← map_err Io (decoder_write_all decoder_new packet);
  map_err Io (decoder_finish z).
End zlib.

Class FlateLaws (F : Flate) : Prop := {
  (** Writing to memory succeeds, and what was compressed decompresses. *)
  encoder_decoder : forall packet, exists e out z,
    encoder_write_all encoder_new packet = Ok e /\ encoder_finish e = Ok out /\
    decoder_write_all decoder_new out = Ok z /\ decoder_finish z = Ok packet;
  decoder_no_panic : forall d packet, decoder_write_all d packet <> Panic;
  decoder_finish_no_panic : forall d, decoder_finish d <> Panic;
}.

Section facts.
Context {F : Flate} {FL : FlateLaws F}.

Lemma deflate_inflate packet : exists out, deflate packet = Ok out /\ inflate out = Ok packet.
Proof.
  destruct (encoder_decoder packet) as (e & out & z & H1 & H2 & H3 & H4). exists out.
  unfold deflate, inflate, mbind, Res_bind. by rewrite H1, H3; cbn; rewrite H2, H4.
Qed.

Lemma inflate_no_panic packet : inflate packet <> Panic.
Proof.
  unfold inflate, mbind, Res_bind. pose proof (decoder_no_panic decoder_new packet).
  destruct (decoder_write_all _ _) as [z| |]; cbn; [|done..].
  pose proof (decoder_finish_no_panic z). by destruct (decoder_finish z).
Qed.
End facts.

(** A reference [flate2] that stores its input. *)
Definition RefFlate : Flate := {|
  ZlibEncoder := bytes; ZlibDecoder := bytes;
  encoder_new := []; decoder_new := [];
  encoder_write_all := fun e b => Ok (e ++ b); decoder_write_all := fun d b => Ok (d ++ b);
  encoder_finish := fun e => Ok (Byte.x78 :: e);
  decoder_finish := fun d => match d with
    | x :: b => if bool_decide (x = Byte.x78) then Ok b else Err (IoStream InvalidData)
    | [] => Err (IoStream UnexpectedEof)
    end;
|}.

Lemma RefFlate_laws : FlateLaws RefFlate.
Proof.
  split; cbn.
  - intros packet. by repeat eexists.
  - done.
  - intros [|x b]; [done |]. by case_bool_decide.
Qed.
