(* ===== verification/Prog.v ===== *)
(** * Asynchronous tasks

    An [async fn] that shares state behind locks is a [Prog]: a sequence of
    atomic sections, one for each lock it holds, ending in a result.  Other
    tasks run between two sections.  [run] executes a task alone; [ok] is a
    rely-guarantee judgement: the task keeps an invariant and only moves the
    world to its future, whatever the other tasks do between its sections
    under the same discipline. *)

From S2P Require Import Prelude.

#[warnings="-register-all"]
Inductive Prog (W E A : Type) : Type :=
| Done (r : Res E A)
| Atomic (m : W -> W * Prog W E A).
Arguments Done {W E A} r.
Arguments Atomic {W E A} m.

(** The induction principle: the hypothesis holds of what each section
    continues with. *)
Definition Prog_induction {W E A} (P : Prog W E A -> Prop)
    (HDone : forall r, P (Done r))
    (HAtomic : forall m, (forall w, P (m w).2) -> P (Atomic m)) : forall p, P p :=
  fix go p := match p with
  | Done r => HDone r
  | Atomic m => HAtomic m (fun w => match m w as x return P x.2 with (_, p') => go p' end)
  end.

Section prog.
Context {W E : Type}.

(** One section: a lock is taken, [m] runs, the lock is released. *)
Definition atomically {A} (m : SM W E A) : Prog W E A :=
  Atomic (fun w => let '(w', r) := m w in (w', Done r)).

(** [run_result k p] continues with the result of [p], errors included. *)
Fixpoint run_result {F A B} (k : Res E A -> Prog W F B) (p : Prog W E A) : Prog W F B :=
  match p with
  | Done r => k r
  | Atomic m => Atomic (fun w => let '(w', p') := m w in (w', run_result k p'))
  end.

#[global] Instance Prog_ret : MRet (Prog W E) := fun A a => Done (Ok a).
#[global] Instance Prog_bind : MBind (Prog W E) := fun A B k p =>
  run_result (fun r => match r with Ok a => k a | Err e => Done (Err e) | Panic => Done Panic end) p.

(** A pure step of the function, between the sections. *)
Definition pure_step {A} (r : Res E A) : Prog W E A := Done r.

(** [if let Err(e) = p { h(e) }]. *)
Definition on_err (p : Prog W E unit) (h : E -> Prog W E unit) : Prog W E unit :=
  run_result (fun r => match r with Err e => h e | r => Done r end) p.

(** [for x in l { f(x)?; }] with sections in the body. *)
Fixpoint prog_for {A} (l : list A) (f : A -> Prog W E unit) : Prog W E unit :=
  match l with
  | [] => mret tt
  | x :: l' => f x ;; prog_for l' f
  end.

(** Run a task alone to its end. *)
Fixpoint run {A} (p : Prog W E A) (w : W) : W * Res E A :=
  match p with
  | Done r => (w, r)
  | Atomic m => let '(w', p') := m w in run p' w'
  end.

Lemma run_atomically {A} (m : SM W E A) w : run (atomically m) w = m w.
Proof. unfold atomically. cbn. by destruct (m w). Qed.

Lemma run_run_result {A B} (k : Res E A -> Prog W E B) p w :
  run (run_result k p) w = let '(w', r) := run p w in run (k r) w'.
Proof.
  revert w. induction p as [r|m IH] using Prog_induction; intros w; cbn; [done |].
  specialize (IH w). destruct (m w) as [w' p']. cbn in IH. apply IH.
Qed.

Lemma run_bind {A B} (k : A -> Prog W E B) (p : Prog W E A) w :
  run (p ≫= k) w =
  match run p w with
  | (w', Ok a) => run (k a) w'
  | (w', Err e) => (w', Err e)
  | (w', Panic) => (w', Panic)
  end.
Proof.
  unfold mbind, Prog_bind. rewrite run_run_result. by destruct (run p w) as [w' []].
Qed.
Lemma run_bind_atomically {A B} (k : A -> Prog W E B) (m : SM W E A) w :
  run (atomically m ≫= k) w =
  match m w with
  | (w', Ok a) => run (k a) w'
  | (w', Err e) => (w', Err e)
  | (w', Panic) => (w', Panic)
  end.
Proof. by rewrite run_bind, run_atomically. Qed.
End prog.

(** ** Rely and guarantee *)

Section ok.
Context {W : Type} (Inv : W -> Prop) (future : W -> W -> Prop) `{!PreOrder future}.

(** [ok post p w]: from [w] on, whenever the others have kept [Inv] and moved
    to a future world, each section of [p] does the same; and the result
    satisfies [post] in the world it is reached in. *)
Fixpoint ok {E A} (post : W -> Res E A -> Prop) (p : Prog W E A) (w : W) : Prop :=
  match p with
  | Done r => forall w1, future w w1 -> post w1 r
  | Atomic m => forall w1, future w w1 -> Inv w1 ->
      let '(w2, p') := m w1 in Inv w2 /\ future w1 w2 /\ ok post p' w2
  end.

Lemma ok_future {E A} (post : W -> Res E A -> Prop) p w w' :
  future w w' -> ok post p w -> ok post p w'.
Proof.
  destruct p as [r|m]; cbn; intros Hf H w1 Hf1; apply H; by transitivity w'.
Qed.

Lemma ok_done {E A} (post : W -> Res E A -> Prop) r w :
  (forall w1, future w w1 -> post w1 r) -> ok post (Done r) w.
Proof. done. Qed.

Lemma ok_result {E F A B} (Q : W -> Res E A -> Prop) (post : W -> Res F B -> Prop)
    (k : Res E A -> Prog W F B) p w :
  ok Q p w -> (forall w1 r, future w w1 -> Q w1 r -> ok post (k r) w1) ->
  ok post (run_result k p) w.
Proof.
  revert w. induction p as [r|m IH] using Prog_induction; intros w Hp Hk.
  - cbn in Hp |- *. apply Hk; [done | by apply Hp].
  - intros w1 Hf Hi. specialize (Hp w1 Hf Hi). specialize (IH w1).
    destruct (m w1) as [w2 p'] eqn:Em. destruct Hp as (Hi2 & Hf2 & Hp).
    split_and!; [done | done |]. apply IH; [done |].
    intros w3 r Hf3. apply Hk. transitivity w1; [done |]. by transitivity w2.
Qed.

Lemma ok_bind {E A B} (Q : W -> A -> Prop) (post : W -> Res E B -> Prop)
    (k : A -> Prog W E B) (p : Prog W E A) w :
  ok (fun w r => match r with Ok a => Q w a | Err e => post w (Err e) | Panic => post w Panic end)
    p w ->
  (forall w1 w2 r, future w1 w2 -> post w1 r -> post w2 r) ->
  (forall w1 a, future w w1 -> Q w1 a -> ok post (k a) w1) ->
  ok post (p ≫= k) w.
Proof.
  intros Hp Hs Hk. eapply ok_result; [exact Hp |].
  intros w1 [a|e|] Hf Hq; [by apply Hk | |]; intros w2 Hf2; by eapply Hs.
Qed.

Lemma ok_atomically {E A} (post : W -> Res E A -> Prop) (m : SM W E A) w :
  (forall w1 w2 r, future w1 w2 -> post w1 r -> post w2 r) ->
  (forall w1, future w w1 -> Inv w1 ->
    let '(w2, r) := m w1 in Inv w2 /\ future w1 w2 /\ post w2 r) ->
  ok post (atomically m) w.
Proof.
  intros Hs Hm w1 Hf Hi. specialize (Hm w1 Hf Hi). destruct (m w1) as [w2 r].
  destruct Hm as (Hi2 & Hf2 & Hp). split_and!; [done | done |].
  intros w3 Hf3. by eapply Hs.
Qed.

Lemma ok_run {E A} (post : W -> Res E A -> Prop) p w : Inv w -> ok post p w ->
  let '(w', r) := run p w in Inv w' /\ future w w' /\ post w' r.
Proof.
  revert w. induction p as [r|m IH] using Prog_induction; intros w Hi Hp; cbn in *.
  - split_and!; [done | done | by apply Hp].
  - specialize (Hp w ltac:(done) Hi). specialize (IH w).
    destruct (m w) as [w1 p'] eqn:Em. destruct Hp as (Hi1 & Hf1 & Hp).
    specialize (IH w1 Hi1 Hp). cbn in IH. destruct (run p' w1) as [w2 r].
    destruct IH as (? & ? & ?). split_and!; [done | by transitivity w1 | done].
Qed.
End ok.
