(* ===== verification/Sessions.v ===== *)
(** * Sessions and meeting points

    The session and meeting data of [src/protocol/src/protocol.rs]: [Session],
    [SessionManager], [SessionState], [Meeting] and [MeetingManager].  A method
    on [&mut self] returns the new value.  The two sources of nondeterminism of
    the operations are arguments: the identifier [Uuid::new_v4] returned and the
    time [SystemTime::now] returned (one reading per operation). *)

From S2P Require Import Prelude Types.

(** ** Time *)

(** [SystemTime]: nanoseconds since the epoch, bounded as on 64-bit Unix by
    [i64::MAX] seconds.  [Duration]: nanoseconds. *)
Abbreviation SystemTime := Z (only parsing).
Definition nanos_per_sec : Z := 1000000000.

(** [SystemTime::checked_add]. *)
Definition checked_add (t d : Z) : option Z :=
  if t + d <? 2 ^ 63 * nanos_per_sec then Some (t + d) else None.

(** [Duration::from_millis(n)] and [Duration::from_secs(n)]. *)
Definition from_millis (n : Z) : Z := n * 1000000.
Definition from_secs (n : Z) : Z := n * nanos_per_sec.

(** The expiry test of both managers: [Duration::from_millis(timeout * 1000)]
    with the product in a [u64]. *)
(** src/protocol/src/protocol.rs:559-566 expired_keys *)
Definition expired (now timeout last_access : Z) : bool :=
  let ttl := from_millis (wrap64 (timeout * 1000)) in
  match checked_add last_access ttl with
  | Some current => current <? now
  | None => false
  end.

(** ** Sessions *)

Module Session.
(** src/protocol/src/protocol.rs:376-398 Session *)
Record t := {
  owner_key : bytes;
  participant_keys : gset bytes;
  connections : gset (bytes * bytes);
  last_access : SystemTime;
}.

Section ops.
Context {HO : HashOrder}.

(** src/protocol/src/protocol.rs:406-416 Session::public_keys *)
Definition public_keys (self : t) : list bytes :=
  owner_key self :: set_iter (participant_keys self).

(** src/protocol/src/protocol.rs:418-425 Session::register_connection *)
Definition register_connection (self : t) (peer other : bytes) : t :=
  {| owner_key := owner_key self; participant_keys := participant_keys self;
     connections := {[(peer, other)]} ∪ connections self;
     last_access := last_access self |}.

(** src/protocol/src/protocol.rs:434-455 check_connection *)
Fixpoint check_connection (connections : gset (bytes * bytes)) (peer : bytes)
    (all : list bytes) : bool :=
  match all with
  | [] => true
  | key :: all' =>
    if bool_decide (key = peer) then check_connection connections peer all'
    else
      let left := bool_decide ((peer, key) ∈ connections) in
      let right := bool_decide ((key, peer) ∈ connections) in
      if negb (left || right) then false
      else check_connection connections peer all'
  end.

(** The outer loop of [is_active]. *)
(** src/protocol/src/protocol.rs:457-468 Session::is_active *)
Fixpoint all_connected (connections : gset (bytes * bytes)) (keys all : list bytes) :
    bool :=
  match keys with
  | [] => true
  | key :: keys' =>
    if negb (check_connection connections key all) then false
    else all_connected connections keys' all
  end.

(** src/protocol/src/protocol.rs:427-469 Session::is_active *)
Definition is_active (self : t) : bool :=
  all_connected (connections self) (public_keys self) (public_keys self).
End ops.
End Session.

Module SessionManager.
(** src/protocol/src/protocol.rs:573-577 SessionManager *)
Record t := { sessions : gmap bytes Session.t }.

Definition default : t := {| sessions := ∅ |}.

(** src/protocol/src/protocol.rs:580-595 SessionManager::new_session *)
Definition new_session (self : t) (session_id : Uuid) (now : SystemTime)
    (owner_key : bytes) (participant_keys : list bytes) : t * Uuid :=
  let session := {| Session.owner_key := owner_key;
                    Session.participant_keys := list_to_set participant_keys;
                    Session.connections := ∅;
                    Session.last_access := now |} in
  ({| sessions := <[session_id := session]> (sessions self) |}, session_id).

(** src/protocol/src/protocol.rs:597-600 SessionManager::get_session *)
Definition get_session (self : t) (id : Uuid) : option Session.t := sessions self !! id.

(** src/protocol/src/protocol.rs:602-608 SessionManager::get_session_mut *)
Definition get_session_mut (self : t) (id : Uuid) (f : Session.t -> Session.t) :
    option t :=
  match sessions self !! id with
  | Some s => Some {| sessions := <[id := f s]> (sessions self) |}
  | None => None
  end.

(** src/protocol/src/protocol.rs:610-616 SessionManager::remove_session *)
Definition remove_session (self : t) (id : Uuid) : t :=
  {| sessions := delete id (sessions self) |}.

(** src/protocol/src/protocol.rs:618-629 SessionManager::touch_session *)
Definition touch_session (self : t) (now : SystemTime) (id : Uuid) :
    t * option Session.t :=
  match sessions self !! id with
  | Some s =>
      let s' := {| Session.owner_key := Session.owner_key s;
                   Session.participant_keys := Session.participant_keys s;
                   Session.connections := Session.connections s;
                   Session.last_access := now |} in
      ({| sessions := <[id := s']> (sessions self) |}, Some s')
  | None => (self, None)
  end.

(** src/protocol/src/protocol.rs:631-647 SessionManager::expired_keys *)
Definition expired_keys {HO : HashOrder} (self : t) (now : SystemTime) (timeout : Z) :
    list Uuid :=
  fst <$> filter (fun '(_, v) => expired now timeout (Session.last_access v) = true)
            (map_iter (sessions self)).
End SessionManager.

Module SessionStates.
(** src/protocol/src/protocol.rs:679-682 SessionState::len *)
Definition len (self : SessionState) : Z := Prelude.len (all_participants self).

(** src/protocol/src/protocol.rs:684-693 SessionState::party_number *)
Definition party_number {E} (self : SessionState) (public_key : bytes) :
    Res E (option Z) :=
  match position (fun k => bool_decide (k = public_key)) (all_participants self) with
  | Some pos => Some <$> unwrap (NonZeroU16_new (as_u16 (pos + 1)))
  | None => Ok None
  end.

(** The loop of [peer_key] over the enumerated participants. *)
(** src/protocol/src/protocol.rs:700-705 SessionState::peer_key *)
Fixpoint find_peer (l : list bytes) (index party_number : Z) : option bytes :=
  match l with
  | [] => None
  | key :: l' => if index + 1 =? party_number then Some key
                 else find_peer l' (index + 1) party_number
  end.

(** src/protocol/src/protocol.rs:695-706 SessionState::peer_key *)
Definition peer_key (self : SessionState) (party_number : Z) : option bytes :=
  find_peer (all_participants self) 0 party_number.

(** src/protocol/src/protocol.rs:708-725 SessionState::connections *)
Definition connections (self : SessionState) (own_key : bytes) : list bytes :=
  if bool_decide (all_participants self = []) then []
  else
    match position (fun k => bool_decide (k = own_key)) (all_participants self) with
    | Some pos =>
      if pos <? Prelude.len (all_participants self) - 1
      then drop (Z.to_nat (pos + 1)) (all_participants self)
      else []
    | None => []
    end.

(** src/protocol/src/protocol.rs:727-734 SessionState::recipients *)
Definition recipients (self : SessionState) (own_key : bytes) : list bytes :=
  filter (fun k => k <> own_key) (all_participants self).
End SessionStates.

(** ** Meeting points *)

Module Meeting.
(** src/protocol/src/protocol.rs:472-481 Meeting *)
Record t := { slots : gmap bytes (option bytes); last_access : SystemTime }.

(** src/protocol/src/protocol.rs:484-488 Meeting::join *)
Definition join (self : t) (now : SystemTime) (user_id public_key : bytes) : t :=
  {| slots := <[user_id := Some public_key]> (slots self); last_access := now |}.

(** src/protocol/src/protocol.rs:490-493 Meeting::is_full *)
Definition is_full {HO : HashOrder} (self : t) : bool :=
  forallb (fun '(_, s) => bool_decide (is_Some s)) (map_iter (slots self)).

(** src/protocol/src/protocol.rs:495-502 Meeting::participants *)
Definition participants {HO : HashOrder} (self : t) : list bytes :=
  omap snd (map_iter (slots self)).
End Meeting.

Module MeetingManager.
(** src/protocol/src/protocol.rs:505-509 MeetingManager *)
Record t := { meetings : gmap bytes Meeting.t }.

Definition default : t := {| meetings := ∅ |}.

(** src/protocol/src/protocol.rs:512-531 MeetingManager::new_meeting *)
Definition new_meeting (self : t) (meeting_id : Uuid) (now : SystemTime)
    (owner_key owner_id : bytes) (slots : gset bytes) : t * Uuid :=
  let meeting := {| Meeting.slots := gset_to_gmap None slots;
                    Meeting.last_access := now |} in
  let meeting := Meeting.join meeting now owner_id owner_key in
  ({| meetings := <[meeting_id := meeting]> (meetings self) |}, meeting_id).

(** src/protocol/src/protocol.rs:533-539 MeetingManager::remove_meeting *)
Definition remove_meeting (self : t) (id : Uuid) : t :=
  {| meetings := delete id (meetings self) |}.

(** src/protocol/src/protocol.rs:541-544 MeetingManager::get_meeting *)
Definition get_meeting (self : t) (id : Uuid) : option Meeting.t := meetings self !! id.

(** src/protocol/src/protocol.rs:546-552 MeetingManager::get_meeting_mut *)
Definition get_meeting_mut (self : t) (id : Uuid) (f : Meeting.t -> Meeting.t) : option t :=
  match meetings self !! id with
  | Some m => Some {| meetings := <[id := f m]> (meetings self) |}
  | None => None
  end.

(** src/protocol/src/protocol.rs:554-570 MeetingManager::expired_keys *)
Definition expired_keys {HO : HashOrder} (self : t) (now : SystemTime) (timeout : Z) :
    list Uuid :=
  fst <$> filter (fun '(_, v) => expired now timeout (Meeting.last_access v) = true)
            (map_iter (meetings self)).
End MeetingManager.
