(* ===== verification/SessionsFacts.v ===== *)
(** * Lemmas on sessions and meeting points *)

From S2P Require Import Prelude Types Sessions.

(** ** Positions in a list *)

Lemma position_Some {A} (p : A -> bool) (l : list A) n :
  position p l = Some n ->
  0 <= n < len l /\ exists x, l !! Z.to_nat n = Some x /\ p x = true.
Proof.
  revert n. induction l as [|x l IH]; intros n H; cbn in H; [done |].
  rewrite len_cons. pose proof (len_nonneg l). destruct (p x) eqn:E.
  - simplify_eq. split; [lia | by exists x].
  - destruct (position p l) as [m|]; cbn in H; [|done]. simplify_eq.
    destruct (IH m eq_refl) as (Hm & y & Hy & Hp). split; [lia |]. exists y. split; [|done].
    replace (Z.to_nat (m + 1)) with (S (Z.to_nat m)) by lia. done.
Qed.

Lemma position_None {A} (p : A -> bool) (l : list A) :
  position p l = None -> forall x, x ∈ l -> p x = false.
Proof.
  induction l as [|y l IH]; cbn; [set_solver |].
  destruct (p y) eqn:E; [done |]. destruct (position p l); [done |].
  intros _ x [->|Hx]%elem_of_cons; [done | by apply IH].
Qed.

(** The position of a key. *)
Definition key_position (l : list bytes) (k : bytes) : option Z :=
  position (fun x => bool_decide (x = k)) l.

Lemma key_position_Some l k n :
  key_position l k = Some n -> 0 <= n < len l /\ l !! Z.to_nat n = Some k.
Proof.
  intros H. destruct (position_Some _ _ _ H) as (Hn & x & Hx & Hp).
  apply bool_decide_eq_true in Hp. by subst.
Qed.

Lemma key_position_elem l k : k ∈ l -> exists n, key_position l k = Some n.
Proof.
  intros Hk. destruct (key_position l k) as [n|] eqn:E; [by exists n |].
  pose proof (position_None _ _ E k Hk) as H. by rewrite bool_decide_eq_false in H.
Qed.

Lemma key_position_lookup l k (i : nat) : NoDup l -> l !! i = Some k ->
  key_position l k = Some (Z.of_nat i).
Proof.
  intros Hnd Hi. destruct (key_position_elem l k) as [n Hn]; [by eapply list_elem_of_lookup_2 |].
  rewrite Hn. destruct (key_position_Some _ _ _ Hn) as [Hr Hl]. f_equal.
  pose proof (NoDup_lookup _ _ _ _ Hnd Hi Hl). lia.
Qed.

Lemma key_position_not_elem l k : k ∉ l -> key_position l k = None.
Proof.
  intros Hk. destruct (key_position l k) as [n|] eqn:E; [|done].
  destruct (key_position_Some _ _ _ E) as [_ Hl]. exfalso. apply Hk.
  by eapply list_elem_of_lookup_2.
Qed.

(** ** Party numbers *)

Lemma find_peer_spec l i n : 0 <= i ->
  SessionStates.find_peer l i n = if i <? n then l !! Z.to_nat (n - i - 1) else None.
Proof.
  revert i. induction l as [|x l IH]; intros i Hi; cbn [SessionStates.find_peer].
  - rewrite lookup_nil. by destruct (i <? n).
  - destruct (Z.eqb_spec (i + 1) n) as [<-|Hne].
    + rewrite (proj2 (Z.ltb_lt _ _)) by lia. by replace (i + 1 - i - 1) with 0 by lia.
    + rewrite IH by lia. destruct (Z.ltb_spec i n), (Z.ltb_spec (i + 1) n); try lia; try done.
      replace (Z.to_nat (n - i - 1)) with (S (Z.to_nat (n - (i + 1) - 1))) by lia. done.
Qed.

(** A number and the key that has it. *)
Lemma party_number_iff {E} (st : SessionState) k n :
  NoDup (all_participants st) -> SessionStates.len st < 2 ^ 16 ->
  (SessionStates.party_number (E := E) st k = Ok (Some n) <-> SessionStates.peer_key st n = Some k) /\
  (SessionStates.peer_key st n = Some k -> 1 <= n <= SessionStates.len st).
Proof.
  intros Hnd Hlen. unfold SessionStates.party_number, SessionStates.peer_key, SessionStates.len in *.
  rewrite find_peer_spec by lia.
  fold (key_position (all_participants st) k).
  assert ((if 0 <? n then all_participants st !! Z.to_nat (n - 0 - 1) else None) = Some k ->
    1 <= n <= len (all_participants st)) as Hrange.
  { destruct (Z.ltb_spec 0 n); [|done]. intros Hl%lookup_lt_Some. unfold len. lia. }
  split; [|exact Hrange]. split.
  + destruct (key_position _ k) as [p|] eqn:Hp; [|done].
    destruct (key_position_Some _ _ _ Hp) as [Hr Hl]. unfold as_u16.
    rewrite Z.mod_small by lia. unfold NonZeroU16_new.
    rewrite (proj2 (Z.eqb_neq _ _)) by lia. cbn. intros [= <-].
    rewrite (proj2 (Z.ltb_lt _ _)) by lia. by replace (p + 1 - 0 - 1) with p by lia.
  + intros Hl. pose proof (Hrange Hl) as Hn. rewrite (proj2 (Z.ltb_lt _ _)) in Hl by lia.
    rewrite (key_position_lookup _ _ _ Hnd Hl), Z2Nat.id by lia. unfold as_u16.
    rewrite Z.mod_small by lia. unfold NonZeroU16_new.
    rewrite (proj2 (Z.eqb_neq _ _)) by lia. cbn. do 2 f_equal. lia.
Qed.

Lemma connections_spec st k n :
  key_position (all_participants st) k = Some n ->
  SessionStates.connections st k = drop (Z.to_nat (n + 1)) (all_participants st).
Proof.
  intros Hn. destruct (key_position_Some _ _ _ Hn) as [Hr _].
  unfold SessionStates.connections. destruct (all_participants st) as [|x l] eqn:E; [done |].
  rewrite bool_decide_false by done. unfold key_position in Hn. rewrite Hn.
  destruct (Z.ltb_spec n (len (x :: l) - 1)); [done |].
  rewrite drop_ge; [done | unfold len in *; lia].
Qed.

Lemma elem_of_drop_lookup {A} (l : list A) n x :
  x ∈ drop n l <-> exists i, (n <= i)%nat /\ l !! i = Some x.
Proof.
  rewrite list_elem_of_lookup. split.
  - intros [i Hi]. rewrite lookup_drop in Hi. exists (n + i)%nat. split; [lia | done].
  - intros (i & Hn & Hi). exists (i - n)%nat. rewrite lookup_drop.
    by replace (n + (i - n))%nat with i by lia.
Qed.

(** A peer connects to exactly the participants listed after it. *)
Lemma elem_of_connections st a b (i : nat) :
  NoDup (all_participants st) -> all_participants st !! i = Some a ->
  b ∈ SessionStates.connections st a <->
  exists j, (i < j)%nat /\ all_participants st !! j = Some b.
Proof.
  intros Hnd Hi. rewrite (connections_spec st a (Z.of_nat i)) by by apply key_position_lookup.
  rewrite elem_of_drop_lookup. split; intros (j & Hj & Hl); exists j; (split; [lia | done]).
Qed.

(** ** Active sessions *)

(** Of two participants exactly one finds the other in its connections. *)
Lemma connections_one_way (st : SessionState) :
  NoDup (all_participants st) ->
  (forall a b, a ∈ all_participants st -> b ∈ all_participants st -> a <> b ->
    (b ∈ SessionStates.connections st a /\ a ∉ SessionStates.connections st b) \/
    (a ∈ SessionStates.connections st b /\ b ∉ SessionStates.connections st a)) /\
  (forall a, a ∉ SessionStates.connections st a) /\
  (forall a, a ∉ all_participants st -> SessionStates.connections st a = []).
Proof.
  intros Hnd.
  assert (forall a b (i j : nat), all_participants st !! i = Some a ->
    all_participants st !! j = Some b -> (i < j)%nat ->
    b ∈ SessionStates.connections st a /\ a ∉ SessionStates.connections st b) as Hlt.
  { intros a b i j Hi Hj Hij. rewrite !elem_of_connections by done. split; [by exists j |].
    intros (k & Hk & Hl). pose proof (NoDup_lookup _ _ _ _ Hnd Hi Hl). lia. }
  split_and!.
  - intros a b [i Hi]%list_elem_of_lookup [j Hj]%list_elem_of_lookup Hne.
    destruct (Nat.lt_trichotomy i j) as [Hl|[->|Hl]]; [left; by apply (Hlt a b i j) | | right].
    + by rewrite Hi in Hj; simplify_eq.
    + by apply (Hlt b a j i).
  - intros a Ha. destruct (decide (a ∈ all_participants st)) as [[i Hi]%list_elem_of_lookup|Hn].
    + rewrite elem_of_connections in Ha by done. destruct Ha as (j & Hj & Hl).
      pose proof (NoDup_lookup _ _ _ _ Hnd Hi Hl). lia.
    + unfold SessionStates.connections in Ha. fold (key_position (all_participants st) a) in Ha.
      rewrite key_position_not_elem in Ha by done. case_bool_decide; set_solver.
  - intros a Hn. unfold SessionStates.connections.
    fold (key_position (all_participants st) a). rewrite key_position_not_elem by done.
    by case_bool_decide.
Qed.

Definition linked (conns : gset (bytes * bytes)) (a b : bytes) : Prop :=
  (a, b) ∈ conns \/ (b, a) ∈ conns.

Lemma linked_sym conns a b : linked conns a b -> linked conns b a.
Proof. intros [|]; [by right | by left]. Qed.

Lemma check_connection_spec conns peer all :
  Session.check_connection conns peer all = true <->
  forall k, k ∈ all -> k <> peer -> linked conns peer k.
Proof.
  induction all as [|key all IH]; cbn [Session.check_connection]; [set_solver |].
  destruct (bool_decide (key = peer)) eqn:E.
  - apply bool_decide_eq_true in E as ->. rewrite IH. split.
    + intros H k [->|Hk]%elem_of_cons Hne; [done | by apply H].
    + intros H k Hk Hne. apply H; [by right | done].
  - apply bool_decide_eq_false in E.
    destruct (bool_decide ((peer, key) ∈ conns) || bool_decide ((key, peer) ∈ conns)) eqn:El;
      cbn [negb].
    + rewrite IH. split.
      * intros H k [->|Hk]%elem_of_cons Hne; [|by apply H].
        apply orb_true_iff in El as [El|El]; apply bool_decide_eq_true in El; [by left | by right].
      * intros H k Hk Hne. apply H; [by right | done].
    + split; [done |]. intros H. apply orb_false_iff in El as [E1 E2].
      apply bool_decide_eq_false in E1. apply bool_decide_eq_false in E2.
      by destruct (H key ltac:(by left) E).
Qed.

Lemma all_connected_spec conns keys all :
  Session.all_connected conns keys all = true <->
  forall a b, a ∈ keys -> b ∈ all -> b <> a -> linked conns a b.
Proof.
  induction keys as [|key keys IH]; cbn [Session.all_connected]; [set_solver |].
  destruct (Session.check_connection conns key all) eqn:E; cbn [negb].
  - rewrite IH. split.
    + intros H a b [->|Ha]%elem_of_cons Hb Hne; [by eapply check_connection_spec | by apply H].
    + intros H a b Ha Hb Hne. apply H; [by right | done | done].
  - split; [done |]. intros H. assert (Session.check_connection conns key all = true) as E'.
    { apply check_connection_spec. intros k Hk Hne. apply H; [by left | done | done]. }
    by rewrite E' in E.
Qed.

Section active.
Context {HO : HashOrder} {HL : HashOrderLaws HO}.

Lemma elem_of_public_keys s k :
  k ∈ Session.public_keys s <->
  k = Session.owner_key s \/ k ∈ Session.participant_keys s.
Proof.
  unfold Session.public_keys. by rewrite elem_of_cons, set_iter_perm, elem_of_elements.
Qed.

Lemma is_active_spec s :
  Session.is_active s = true <->
  forall a b, a ∈ Session.public_keys s -> b ∈ Session.public_keys s -> b <> a ->
    linked (Session.connections s) a b.
Proof. apply all_connected_spec. Qed.

Lemma is_active_members (s : Session.t) :
  Session.is_active s = true <->
  forall a b, a <> b ->
    (a = Session.owner_key s \/ a ∈ Session.participant_keys s) ->
    (b = Session.owner_key s \/ b ∈ Session.participant_keys s) ->
    (a, b) ∈ Session.connections s \/ (b, a) ∈ Session.connections s.
Proof.
  rewrite is_active_spec. setoid_rewrite elem_of_public_keys. split.
  - intros H a b Hne Ha Hb. by apply (H a b).
  - intros H a b Ha Hb Hne. by apply (H a b).
Qed.
End active.

(** Registering a list of connections, in any order. *)
Definition register_all (s : Session.t) (regs : list (bytes * bytes)) : Session.t :=
  foldl (fun s '(a, b) => Session.register_connection s a b) s regs.

Lemma register_all_spec s regs :
  Session.owner_key (register_all s regs) = Session.owner_key s /\
  Session.participant_keys (register_all s regs) = Session.participant_keys s /\
  Session.connections (register_all s regs) = list_to_set regs ∪ Session.connections s.
Proof.
  revert s. induction regs as [|[a b] regs IH]; intros s.
  { cbn. split_and!; [done | done | set_solver]. }
  change (register_all s ((a, b) :: regs))
    with (register_all (Session.register_connection s a b) regs).
  destruct (IH (Session.register_connection s a b)) as (-> & -> & ->).
  cbn. split_and!; [done | done | set_solver].
Qed.

(** ** Expiry *)

(** Without overflow of the products the test compares exact times. *)
Lemma expired_spec now timeout last :
  0 <= timeout -> timeout * 1000 < 2 ^ 64 -> last + from_secs timeout < 2 ^ 63 * nanos_per_sec ->
  expired now timeout last = true <-> last + from_secs timeout < now.
Proof.
  intros Ht Ho Hb. unfold expired, wrap64. rewrite Z.mod_small by lia.
  replace (from_millis (timeout * 1000)) with (from_secs timeout)
    by (unfold from_millis, from_secs, nanos_per_sec; lia).
  unfold checked_add. rewrite (proj2 (Z.ltb_lt _ _)) by done. apply Z.ltb_lt.
Qed.

(** A new session is active once every prescribed connection, and no other,
    is registered. *)
Lemma activate_iff {HO : HashOrder} {HL : HashOrderLaws HO} (m : SessionManager.t) (id : Uuid) (now : SystemTime)
    (owner : bytes) (keys : list bytes) (regs : list (bytes * bytes)) (s : Session.t) :
  let st := {| session_id := id; all_participants := owner :: keys |} in
  NoDup (owner :: keys) ->
  SessionManager.get_session (SessionManager.new_session m id now owner keys).1 id = Some s ->
  (forall a b, (a, b) ∈ regs -> b ∈ SessionStates.connections st a) ->
  Session.is_active (register_all s regs) = true <->
  forall a b, b ∈ SessionStates.connections st a -> (a, b) ∈ regs.
Proof.
  intros st Hnd Hs Hregs. unfold SessionManager.get_session in Hs. cbn in Hs.
  rewrite lookup_insert_eq in Hs. simplify_eq.
  destruct (connections_one_way st Hnd) as (Hone & Hself & Hout).
  assert (forall a b, b ∈ SessionStates.connections st a ->
    a ∈ owner :: keys /\ b ∈ owner :: keys) as Hmem.
  { intros a b Hb. destruct (decide (a ∈ owner :: keys)) as [Ha|Ha].
    - split; [done |]. apply list_elem_of_lookup in Ha as [i Hi].
      rewrite (elem_of_connections st a b i) in Hb by done. destruct Hb as (j & _ & Hj).
      by eapply list_elem_of_lookup_2.
    - rewrite Hout in Hb by done. set_solver. }
  rewrite is_active_members.
  destruct (register_all_spec {| Session.owner_key := owner;
    Session.participant_keys := list_to_set keys; Session.connections := ∅;
    Session.last_access := now |} regs) as (-> & -> & ->).
  cbn [Session.owner_key Session.participant_keys Session.connections].
  setoid_rewrite elem_of_list_to_set. setoid_rewrite elem_of_union.
  setoid_rewrite elem_of_list_to_set. split.
  - intros H a b Hb. destruct (Hmem a b Hb) as [Ha%elem_of_cons Hb'%elem_of_cons].
    assert (a <> b) as Hne by (intros ->; by apply (Hself b)).
    destruct (H a b Hne Ha Hb') as [[Hr|Hr]|[Hr|Hr]];
      [done | by apply not_elem_of_empty in Hr | | by apply not_elem_of_empty in Hr].
    apply Hregs in Hr. exfalso.
    destruct (Hone a b ltac:(by apply elem_of_cons) ltac:(by apply elem_of_cons) Hne); tauto.
  - intros H a b Hne Ha%elem_of_cons Hb%elem_of_cons.
    destruct (Hone a b Ha Hb Hne) as [[Hc _]|[Hc _]]; apply H in Hc; auto.
Qed.

Section expiry.
Context {HO : HashOrder} {HL : HashOrderLaws HO}.

Lemma elem_of_expired_sessions m now timeout id :
  id ∈ SessionManager.expired_keys m now timeout <->
  exists s, SessionManager.sessions m !! id = Some s /\
    expired now timeout (Session.last_access s) = true.
Proof.
  unfold SessionManager.expired_keys. rewrite list_elem_of_fmap. split.
  - intros ([k v] & -> & [He Hin]%list_elem_of_filter).
    rewrite map_iter_perm, elem_of_map_to_list in Hin. by exists v.
  - intros (s & Hs & He). exists (id, s). split; [done |].
    apply list_elem_of_filter. split; [done |].
    by rewrite map_iter_perm, elem_of_map_to_list.
Qed.

Lemma elem_of_expired_meetings m now timeout id :
  id ∈ MeetingManager.expired_keys m now timeout <->
  exists s, MeetingManager.meetings m !! id = Some s /\
    expired now timeout (Meeting.last_access s) = true.
Proof.
  unfold MeetingManager.expired_keys. rewrite list_elem_of_fmap. split.
  - intros ([k v] & -> & [He Hin]%list_elem_of_filter).
    rewrite map_iter_perm, elem_of_map_to_list in Hin. by exists v.
  - intros (s & Hs & He). exists (id, s). split; [done |].
    apply list_elem_of_filter. split; [done |].
    by rewrite map_iter_perm, elem_of_map_to_list.
Qed.

(** *** Meetings *)

Lemma is_full_spec m :
  Meeting.is_full m = true <-> forall u, Meeting.slots m !! u <> Some None.
Proof.
  unfold Meeting.is_full. rewrite forallb_forall. split.
  - intros H u Hu. specialize (H (u, None)). cbn in H.
    rewrite <- list_elem_of_In, map_iter_perm, elem_of_map_to_list in H.
    by specialize (H Hu).
  - intros H [u o]. rewrite <- list_elem_of_In, map_iter_perm, elem_of_map_to_list.
    intros Hu. apply bool_decide_eq_true. destruct o; [by eexists | by apply H in Hu].
Qed.

Lemma elem_of_participants m k :
  k ∈ Meeting.participants m <-> exists u, Meeting.slots m !! u = Some (Some k).
Proof.
  unfold Meeting.participants. rewrite list_elem_of_omap. split.
  - intros ([u o] & Hin & Ho). rewrite map_iter_perm, elem_of_map_to_list in Hin.
    cbn in Ho. subst. by exists u.
  - intros (u & Hu). exists (u, Some k). by rewrite map_iter_perm, elem_of_map_to_list.
Qed.
End expiry.

(** Joining a list of users, one after the other. *)
Definition join_all (m : Meeting.t) (now : SystemTime) (js : list (bytes * bytes)) : Meeting.t :=
  foldl (fun m '(u, k) => Meeting.join m now u k) m js.

Lemma join_all_slots m now js u :
  Meeting.slots (join_all m now js) !! u =
  match (list_to_map (reverse js) : gmap bytes bytes) !! u with
  | Some k => Some (Some k)
  | None => Meeting.slots m !! u
  end.
Proof.
  induction js as [|[v k] js IH] using rev_ind; [done |].
  unfold join_all in *. rewrite foldl_app. cbn [foldl Meeting.join Meeting.slots].
  rewrite reverse_app. cbn. destruct (decide (v = u)) as [->|Hne].
  - by rewrite !lookup_insert_eq.
  - by rewrite !lookup_insert_ne by done.
Qed.
