(* ===== verification/SessionsSpec.v ===== *)
(** * Properties of sessions and meeting points *)

From S2P Require Import Prelude Types Sessions SessionsFacts.

Section spec.
Context {HO : HashOrder} {HL : HashOrderLaws HO}.

(** C11. [Session::is_active] decides exactly its documented meaning,
    independently of hash iteration order: the session is active if and only
    if every two different members (the owner and the participants) have a
    registered connection in one direction or the other.  Connections of
    keys that are not members play no role. *)
Theorem session_active_iff_all_linked (s : Session.t) :
  Session.is_active s = true <->
  forall a b, a <> b ->
    (a = Session.owner_key s \/ a ∈ Session.participant_keys s) ->
    (b = Session.owner_key s \/ b ∈ Session.participant_keys s) ->
    (a, b) ∈ Session.connections s \/ (b, a) ∈ Session.connections s.
Proof. apply is_active_members. Qed.

(** The peer handshakes of a session are race free: when the
    participants are distinct, of any two of them exactly one finds the other
    in its [connections] and initiates, nobody connects to itself, and a key
    that is not a participant has no connections to make. *)
Theorem one_initiator_per_pair (st : SessionState) :
  NoDup (all_participants st) ->
  (forall a b, a ∈ all_participants st -> b ∈ all_participants st -> a <> b ->
    (b ∈ SessionStates.connections st a /\ a ∉ SessionStates.connections st b) \/
    (a ∈ SessionStates.connections st b /\ b ∉ SessionStates.connections st a)) /\
  (forall a, a ∉ SessionStates.connections st a) /\
  (forall a, a ∉ all_participants st -> SessionStates.connections st a = []).
Proof. apply connections_one_way. Qed.

(** C14. Client and server agree on when a session is complete.  The server
    creates a session for an owner and its request's keys and sends the
    participants the list with the owner first.  When only participants
    register connections that [connections] told them to make, in any order
    and any number of times, the session is active exactly when all of those
    connections have been registered. *)
Theorem prescribed_connections_activate (m : SessionManager.t) (id : Uuid) (now : SystemTime)
    (owner : bytes) (keys : list bytes) (regs : list (bytes * bytes)) (s : Session.t) :
  let st := {| session_id := id; all_participants := owner :: keys |} in
  NoDup (owner :: keys) ->
  SessionManager.get_session (SessionManager.new_session m id now owner keys).1 id = Some s ->
  (forall a b, (a, b) ∈ regs -> b ∈ SessionStates.connections st a) ->
  Session.is_active (register_all s regs) = true <->
  forall a b, b ∈ SessionStates.connections st a -> (a, b) ∈ regs.
Proof. apply activate_iff. Qed.

(** C15. Party numbers and peer keys are inverse to each other: for a
    session of distinct participants that fits 16-bit numbering,
    [party_number] gives a key the number [n] if and only if [peer_key] gives
    [n] that key; the numbers are 1 to the number of participants, a stranger
    has none; and the participant at position 65535, whose number would be 0
    in 16 bits, makes [party_number] panic. *)
Theorem party_number_peer_key (st : SessionState) :
  NoDup (all_participants st) ->
  (SessionStates.len st < 2 ^ 16 -> forall (E : Type) k n,
    (SessionStates.party_number (E := E) st k = Ok (Some n)
      <-> SessionStates.peer_key st n = Some k) /\
    (SessionStates.peer_key st n = Some k -> 1 <= n <= SessionStates.len st)) /\
  (forall E k, k ∉ all_participants st ->
    SessionStates.party_number (E := E) st k = Ok None) /\
  (forall E k, all_participants st !! Z.to_nat (2 ^ 16 - 1) = Some k ->
    SessionStates.party_number (E := E) st k = Panic).
Proof.
  intros Hnd. split_and!; [ | unfold SessionStates.party_number..].
  - intros Hlen E k n. by apply party_number_iff.
  - intros E k Hk. fold (key_position (all_participants st) k).
    by rewrite key_position_not_elem.
  - intros E k Hl. fold (key_position (all_participants st) k).
    by rewrite (key_position_lookup _ _ _ Hnd Hl).
Qed.

(** C16. The life of a meeting point: after a user who owns one of the slots
    creates it and users of the slots join, the slots are the requested
    ones, the meeting is full exactly when every user of the slots is the
    owner or has joined, and its participants are the owner's key and the
    keys of the last join of each user. *)
Theorem meeting_life_cycle (mm : MeetingManager.t) (id : Uuid) (now : SystemTime)
    (owner_key owner : bytes) (slots : gset bytes) (js : list (bytes * bytes)) (m : Meeting.t) :
  owner ∈ slots -> (forall u k, (u, k) ∈ js -> u ∈ slots) ->
  MeetingManager.get_meeting
    (MeetingManager.new_meeting mm id now owner_key owner slots).1 id = Some m ->
  let m' := join_all m now js in
  dom (Meeting.slots m') = slots /\
  (Meeting.is_full m' = true <-> forall u, u ∈ slots -> u = owner \/ exists k, (u, k) ∈ js) /\
  (forall k, k ∈ Meeting.participants m' <->
    exists u, (list_to_map (reverse ((owner, owner_key) :: js)) : gmap bytes bytes) !! u = Some k).
Proof.
  intros Ho Hjs Hm m'. unfold MeetingManager.get_meeting in Hm. cbn in Hm.
  rewrite lookup_insert_eq in Hm. simplify_eq.
  set (m0 := {| Meeting.slots := gset_to_gmap None slots; Meeting.last_access := now |}).
  assert (forall u, Meeting.slots m' !! u =
    match (list_to_map (reverse ((owner, owner_key) :: js)) : gmap bytes bytes) !! u with
    | Some k => Some (Some k)
    | None => gset_to_gmap None slots !! u
    end) as Hslots.
  { intros u. by rewrite <- (join_all_slots m0 now ((owner, owner_key) :: js)). }
  assert (forall u, (list_to_map (reverse ((owner, owner_key) :: js)) : gmap bytes bytes) !! u
    = None <-> u <> owner /\ forall k, (u, k) ∉ js) as Hnone.
  { intros u. rewrite <- not_elem_of_list_to_map, list_elem_of_fmap. split.
    - intros H. split; [|intros k Hk]; [intros -> |]; apply H.
      + exists (owner, owner_key). split; [done |]. rewrite elem_of_reverse. by left.
      + exists (u, k). split; [done |]. rewrite elem_of_reverse. by right.
    - intros [Hne Hk] ([v k] & -> & Hin). rewrite elem_of_reverse in Hin.
      apply elem_of_cons in Hin as [[= -> ->]|Hin]; [done | by apply (Hk k)]. }
  split_and!.
  - apply set_eq. intros u. rewrite elem_of_dom, Hslots.
    destruct (list_to_map _ !! u) as [k|] eqn:E.
    + split; [intros _ | by eexists].
      apply elem_of_list_to_map_2 in E. rewrite elem_of_reverse in E.
      apply elem_of_cons in E as [[= -> _]|E]; [done | by eapply Hjs].
    + split; [intros [o Hu]; by apply lookup_gset_to_gmap_Some in Hu as [? _] |].
      intros Hu. exists None. by apply lookup_gset_to_gmap_Some.
  - rewrite is_full_spec. setoid_rewrite Hslots. split.
    + intros H u Hu. specialize (H u). destruct (list_to_map _ !! u) as [k|] eqn:E.
      * apply elem_of_list_to_map_2 in E. rewrite elem_of_reverse in E.
        apply elem_of_cons in E as [[= -> _]|E]; [by left | right; by exists k].
      * rewrite lookup_gset_to_gmap in H. by rewrite option_guard_True in H.
    + intros H u. destruct (list_to_map _ !! u) as [k|] eqn:E; [done |].
      intros Hu. apply lookup_gset_to_gmap_Some in Hu as [Hu _].
      apply Hnone in E as [Hne Hk]. destruct (H u Hu) as [|[k Hin]]; [done | by apply (Hk k)].
  - intros k. rewrite elem_of_participants. setoid_rewrite Hslots. split; intros [u Hu]; exists u.
    + destruct (list_to_map _ !! u); [by simplify_eq |].
      by apply lookup_gset_to_gmap_Some in Hu as [_ ?].
    + by rewrite Hu.
Qed.

(** Joining does not check the slots: a user identifier that has no
    slot is given one, the meeting has one more participant and is exactly
    as full as before; and a user identifier that has already joined is
    taken over, the earlier key being replaced. *)
Theorem meeting_join_unchecked (m : Meeting.t) (now : SystemTime) (u key : bytes) :
  let m' := Meeting.join m now u key in
  (Meeting.slots m !! u = None ->
    size (Meeting.slots m') = S (size (Meeting.slots m)) /\
    Meeting.is_full m' = Meeting.is_full m /\ key ∈ Meeting.participants m') /\
  (forall old, Meeting.slots m !! u = Some (Some old) ->
    Meeting.slots m' !! u = Some (Some key) /\ size (Meeting.slots m') = size (Meeting.slots m)).
Proof.
  intros m'. split.
  - intros Hu. split_and!.
    + by apply map_size_insert_None.
    + apply eq_true_iff_eq. rewrite !is_full_spec. cbn. split.
      * intros H v Hv. destruct (decide (u = v)) as [->|Hne]; [congruence |].
        apply (H v). by rewrite lookup_insert_ne.
      * intros H v. destruct (decide (u = v)) as [->|Hne];
          [by rewrite lookup_insert_eq | by rewrite lookup_insert_ne].
    + rewrite elem_of_participants. exists u. apply lookup_insert_eq.
  - intros old Hu. split; [apply lookup_insert_eq |]. cbn.
    by apply map_size_insert_Some.
Qed.
End spec.

(** ** Evaluations on a concrete session and meeting *)

#[local] Existing Instance ElementsOrder.

Definition k1 : bytes := [Byte.x01].
Definition k2 : bytes := [Byte.x02].
Definition k3 : bytes := [Byte.x03].
Definition three : SessionState := {| session_id := zeros 16; all_participants := [k1; k2; k3] |}.
Definition two_links : Session.t :=
  {| Session.owner_key := k1; Session.participant_keys := {[k2; k3]};
     Session.connections := {[(k1, k2); (k3, k1)]}; Session.last_access := 0 |}.

Lemma three_nodup : NoDup (all_participants three).
Proof. apply (bool_decide_unpack _). by vm_compute. Qed.

Lemma session_active_iff_all_linked_witness :
  Session.is_active two_links = false /\
  ((k2, k3) ∈ Session.connections (Session.register_connection two_links k3 k2) \/
   (k3, k2) ∈ Session.connections (Session.register_connection two_links k3 k2)).
Proof.
  split; [by vm_compute |].
  apply (proj1 (session_active_iff_all_linked (Session.register_connection two_links k3 k2)));
    [by vm_compute | done | right | right]; apply (bool_decide_unpack _); by vm_compute.
Defined.

Lemma one_initiator_per_pair_witness :
  SessionStates.connections three k2 = [k3] /\ k1 ∉ SessionStates.connections three k1.
Proof. split; [by vm_compute | by apply (one_initiator_per_pair three three_nodup)]. Defined.

Lemma in_k (a b : bytes) (l : list (bytes * bytes)) :
  bool_decide ((a, b) ∈ l) = true -> (a, b) ∈ l.
Proof. apply bool_decide_eq_true. Qed.

Lemma prescribed_connections_activate_witness :
  Session.is_active (register_all
    {| Session.owner_key := k1; Session.participant_keys := list_to_set [k2; k3];
       Session.connections := ∅; Session.last_access := 0 |}
    [(k2, k3); (k1, k3); (k1, k2)]) = true.
Proof.
  apply (prescribed_connections_activate SessionManager.default (zeros 16) 0 k1 [k2; k3]
    [(k2, k3); (k1, k3); (k1, k2)]).
  - exact three_nodup.
  - apply lookup_insert_eq.
  - intros a b. rewrite !elem_of_cons, elem_of_nil.
    intros [[= -> ->]|[[= -> ->]|[[= -> ->]|[]]]]; by apply (bool_decide_unpack _); vm_compute.
  - intros a b Hb.
    destruct (decide (a = k1)) as [->|H1]; [|destruct (decide (a = k2)) as [->|H2];
      [|destruct (decide (a = k3)) as [->|H3]]].
    + change (b ∈ [k2; k3]) in Hb. rewrite !elem_of_cons, elem_of_nil in Hb.
      destruct Hb as [->|[->|[]]]; by apply in_k.
    + change (b ∈ [k3]) in Hb. rewrite !elem_of_cons, elem_of_nil in Hb.
      destruct Hb as [->|[]]; by apply in_k.
    + by change (b ∈ @nil bytes) in Hb; rewrite elem_of_nil in Hb.
    + change (b ∈ SessionStates.connections three a) in Hb.
      unfold SessionStates.connections in Hb. cbn [three all_participants position] in Hb.
      rewrite !bool_decide_eq_false_2 in Hb by done. cbn in Hb. by rewrite elem_of_nil in Hb.
Defined.

Lemma party_number_peer_key_witness :
  SessionStates.party_number (E := Error) three k3 = Ok (Some 3) /\
  SessionStates.peer_key three 3 = Some k3.
Proof.
  assert (SessionStates.peer_key three 3 = Some k3) as H by (by vm_compute).
  split; [|exact H].
  by apply (proj1 (party_number_peer_key three three_nodup) ltac:(by vm_compute)).
Defined.

Lemma meeting_life_cycle_witness :
  let m := Meeting.join {| Meeting.slots := gset_to_gmap None {[k1; k2]};
                           Meeting.last_access := 0 |} 0 k1 [Byte.x0a] in
  dom (Meeting.slots (join_all m 0 [(k2, [Byte.x0b])])) = {[k1; k2]}.
Proof.
  intros m.
  apply (meeting_life_cycle MeetingManager.default (zeros 16) 0 [Byte.x0a] k1 {[k1; k2]}
    [(k2, [Byte.x0b])]).
  - set_solver.
  - intros u k. rewrite list_elem_of_singleton. intros [= -> ->]. set_solver.
  - apply lookup_insert_eq.
Defined.

Lemma meeting_join_unchecked_witness :
  let m := {| Meeting.slots := {[k1 := Some [Byte.x0a]; k2 := None]}; Meeting.last_access := 0 |} in
  Meeting.is_full (Meeting.join m 5 k3 [Byte.x0c]) = Meeting.is_full m.
Proof.
  intros m. apply (meeting_join_unchecked m 5 k3 [Byte.x0c]). by vm_compute.
Defined.
