(* ===== verification/Net.v ===== *)
(** * Channels and sockets

    What the server and the client share of the libraries around them: the
    sending half of a tokio [mpsc] channel, websocket messages and [hex]. *)

From S2P Require Import Prelude.

(** [hex::encode]. *)
Class Hex := { hex_encode : bytes -> string }.

(** The sending half of an [mpsc] channel, with what is in it. *)
Record Chan (A : Type) := { queue : list A; receiver_open : bool }.
Arguments queue {A} _.
Arguments receiver_open {A} _.
Definition chan_new {A} : Chan A := {| queue := []; receiver_open := true |}.
Definition chan_push {A} (x : A) (c : Chan A) : Chan A :=
  {| queue := queue c ++ [x]; receiver_open := receiver_open c |}.
Definition chan_close {A} (c : Chan A) : Chan A :=
  {| queue := queue c; receiver_open := false |}.

(** A websocket message of axum. *)
Inductive WsMessage :=
| Text (s : string)
| Binary (b : bytes)
| Ping (b : bytes)
| Pong (b : bytes)
| Close (frame : option (Z * string)).
