(* ===== verification/Server.v ===== *)
(** * The relay server

    [src/server/src/websocket.rs], [server.rs] and [service.rs].  A
    [Connection] is a reference into a heap of connections, shared by the
    server's tables and the tasks of the socket as an [Arc<RwLock<..>>] is.
    Every handler is a task ([Prog]) with one atomic section per lock it takes;
    an [mpsc] channel is a queue with a flag for its receiver.  A waiting loop
    is one iteration that tells whether to go on. *)

From S2P Require Import Prelude Types Stream Encoding Noise Channel Keypair ServerConfig Zlib Prog Sessions Net.

Definition FORBIDDEN : Z := 403.
Definition INTERNAL_SERVER_ERROR : Z := 500.

(** src/server/src/websocket.rs:33-33 Connection *)
Definition Connection : Type := nat.

Section server.
Context {BS : BinaryStream encoding_options} {SC : StatusCodes} {HO : HashOrder}.
Context {N : Noise} {FL : Flate} {HX : Hex} {DI : Display}.

(** src/server/src/websocket.rs:43-61 WebSocketConnection *)
Record WebSocketConnection := {
  conn_id : Uuid;
  conn_public_key : bytes;
  outgoing : Chan WsMessage;
  incoming : Chan bytes;
  conn_state : option ProtocolState;
}.

Definition set_conn_state (s : option ProtocolState) (c : WebSocketConnection) :=
  {| conn_id := conn_id c; conn_public_key := conn_public_key c; outgoing := outgoing c;
     incoming := incoming c; conn_state := s |}.
Definition set_outgoing (o : Chan WsMessage) (c : WebSocketConnection) :=
  {| conn_id := conn_id c; conn_public_key := conn_public_key c; outgoing := o;
     incoming := incoming c; conn_state := conn_state c |}.
Definition set_incoming (i : Chan bytes) (c : WebSocketConnection) :=
  {| conn_id := conn_id c; conn_public_key := conn_public_key c; outgoing := outgoing c;
     incoming := i; conn_state := conn_state c |}.

(** src/server/src/server.rs:53-73 ServerState *)
Record ServerState := {
  keypair : Keypair.t;
  config : ServerConfig.t;
  pending : gmap bytes Connection;
  active : gmap bytes Connection;
  meetings : MeetingManager.t;
  sessions : SessionManager.t;
}.

Definition set_tables (p : gmap bytes Connection) (a : gmap bytes Connection) (s : ServerState) :=
  {| keypair := keypair s; config := config s; pending := p; active := a;
     meetings := meetings s; sessions := sessions s |}.
Definition set_meetings (m : MeetingManager.t) (s : ServerState) :=
  {| keypair := keypair s; config := config s; pending := pending s; active := active s;
     meetings := m; sessions := sessions s |}.
Definition set_sessions (m : SessionManager.t) (s : ServerState) :=
  {| keypair := keypair s; config := config s; pending := pending s; active := active s;
     meetings := meetings s; sessions := m |}.

(** src/server/src/server.rs:81-92 RelayServer::new *)
Definition RelayServer_new (config : ServerConfig.t) (keypair : Keypair.t) : ServerState :=
  {| keypair := keypair; config := config; pending := ∅; active := ∅;
     meetings := MeetingManager.default; sessions := SessionManager.default |}.

(** The spawned tasks. *)
Inductive Task :=
| Listen (conn : Connection)
| Read (conn : Connection)
| Write (conn : Connection)
| WaitMeetingReady (interval_secs : Z) (owner : Connection) (start_time : SystemTime)
    (meeting : MeetingState)
| WaitSessionReady (interval_secs : Z) (owner : Connection) (start_time : SystemTime)
    (session : SessionState)
| WaitSessionActive (interval_secs : Z) (owner : Connection) (start_time : SystemTime)
    (session : SessionState)
| PurgeExpired (interval_secs : Z).

(** What the tasks share, the clock and the next random identifier. *)
Record World := {
  server : ServerState;
  heap : gmap Connection WebSocketConnection;
  spawned : list Task;
  clock : SystemTime;
  next_uuid : Uuid;
}.

Definition set_server (s : ServerState) (w : World) : World :=
  {| server := s; heap := heap w; spawned := spawned w; clock := clock w;
     next_uuid := next_uuid w |}.
Definition set_heap (h : gmap Connection WebSocketConnection) (w : World) : World :=
  {| server := server w; heap := h; spawned := spawned w; clock := clock w;
     next_uuid := next_uuid w |}.
Definition set_spawned (l : list Task) (w : World) : World :=
  {| server := server w; heap := heap w; spawned := l; clock := clock w;
     next_uuid := next_uuid w |}.

(** [Result<A>] of an [async fn] of the server. *)
Abbreviation Async := (Prog World ServerError.t).
(** A computation on one connection, its lock held. *)
Abbreviation ConnM := (SM WebSocketConnection ServerError.t).

(** ** Locks *)

(** Run [m] on the connection behind a reference. *)
Definition with_conn {E A} (c : Connection) (m : SM WebSocketConnection E A) : SM World E A :=
  fun w =>
    match heap w !! c with
    | Some conn => let '(conn', r) := m conn in (set_heap (<[c := conn']> (heap w)) w, r)
    | None => (w, Panic)
    end.

(** [let mut writer = conn.write().await; ...] and [conn.read().await]. *)
Definition write_conn {A} (c : Connection) (m : ConnM A) : Async A :=
  atomically (with_conn c m).
Definition read_conn {A} (c : Connection) (f : WebSocketConnection -> A) : Async A :=
  atomically (with_conn c (sm_gets f)).

(** [state.read().await] and [state.write().await]; a writer may read the clock
    and draw an identifier. *)
Definition read_state {A} (f : ServerState -> A) : Async A :=
  atomically (sm_gets (fun w => f (server w))).
Definition write_state {A} (m : SystemTime -> Uuid -> SM ServerState ServerError.t A) : Async A :=
  atomically (fun w =>
    let '(s, r) := m (clock w) (next_uuid w) (server w) in (set_server s w, r)).

(** [tokio::spawn], the task's arguments evaluated with the current time. *)
Definition spawn (t : SystemTime -> Task) : Async unit :=
  atomically (sm_modify (fun w => set_spawned (spawned w ++ [t (clock w)]) w)).

(** [SystemTime::now()] outside of any lock. *)
Definition now : Async SystemTime := atomically (sm_gets clock).

Definition lift_io {A} (r : Res IoError A) : Res ServerError.t A := map_err ServerError.Io r.

(** ** Connections *)

(** [outgoing.send(m)] and [incoming.send(b)]. *)
Definition outgoing_send (m : WsMessage) : ConnM unit := fun c =>
  if receiver_open (outgoing c)
  then (set_outgoing (chan_push m (outgoing c)) c, Ok tt)
  else (c, Err ServerError.MessageMpscSend).
Definition incoming_send (b : bytes) : ConnM unit := fun c =>
  if receiver_open (incoming c)
  then (set_incoming (chan_push b (incoming c)) c, Ok tt)
  else (c, Err ServerError.BufferMpscSend).

(** src/server/src/websocket.rs:72-79 WebSocketConnection::send *)
Definition send (buffer : bytes) : ConnM unit :=
  deflated ← sm_lift (map_err ServerError.Protocol (deflate buffer));
  outgoing_send (Binary deflated).

(** [let buffer = encode(&response).await?; writer.send(buffer).await?;] *)
Definition send_response (response : ResponseMessage.t) : ConnM unit :=
  buffer ← sm_lift (lift_io (encode response)); send buffer.

(** [writer.state.as_mut().unwrap()] passed to a channel operation. *)
Definition on_state {A} (m : SM ProtocolState Error A) : ConnM A := fun c =>
  match conn_state c with
  | Some s => let '(s', r) := m s in (set_conn_state (Some s') c, map_err ServerError.Protocol r)
  | None => (c, Panic)
  end.

(** src/server/src/service.rs:639-661 send_message *)
Definition send_message (conn : Connection) (message : ServerMessage.t) (bcast : bool) :
    Async unit :=
  write_conn conn
    (payload ← sm_lift (lift_io (encode message));
     envelope ← on_state (encrypt_server_channel payload bcast);
     send_response (ResponseMessage.Opaque (OpaqueMessage.ServerMessage envelope))).

(** src/server/src/service.rs:595-608 notify_peers *)
Definition notify_peers (public_keys : list bytes) (message : ServerMessage.t) : Async unit :=
  table ← read_state active;
  prog_for public_keys (fun key =>
    match table !! key with
    | Some conn => send_message conn message true
    | None => mret tt
    end).

(** src/server/src/service.rs:610-637 handle_error *)
Definition handle_error (conn : Connection) (error : ServerError.t) : Async unit :=
  transport ← read_conn conn (fun reader => is_transport (conn_state reader));
  if (transport : bool)
  then send_message conn
         (ServerMessage.Error INTERNAL_SERVER_ERROR (ServerError_to_string error)) false
  else write_conn conn
         (send_response (ResponseMessage.Transparent
            (TransparentMessage.Error INTERNAL_SERVER_ERROR (ServerError_to_string error)))).

(** src/server/src/service.rs:663-674 promote_connection *)
Definition promote_connection (conn : Connection) : Async unit :=
  '(id, public_key) ← read_conn conn (fun reader => (conn_id reader, conn_public_key reader));
  write_state (fun _ _ => sm_modify (fun s =>
    set_tables (delete id (pending s)) (<[public_key := conn]> (active s)) s)).

(** src/server/src/websocket.rs:147-156 disconnect *)
Definition disconnect (conn : Connection) : Async unit :=
  '(id, public_key) ← read_conn conn (fun reader => (conn_id reader, conn_public_key reader));
  write_state (fun _ _ => sm_modify (fun s =>
    set_tables (delete id (pending s)) (delete public_key (active s)) s)).

(** ** Waiting tasks *)

(** [tokio::time::interval(Duration::from_secs(n))] panics for a zero period. *)
Definition tokio_interval (secs : Z) : Async unit :=
  pure_step (if secs =? 0 then Panic else Ok tt).

(** [if let Err(e) = p { tracing::error!(..) }]. *)
Definition log_err (p : Async unit) : Async unit := on_err p (fun _ => mret tt).

(** [start_time.elapsed().unwrap()]. *)
Definition elapsed (start_time current : SystemTime) : Res ServerError.t Z :=
  if current <? start_time then Panic else Ok (current - start_time).

(** src/server/src/service.rs:359-371 notify_meeting_ready *)
Definition notify_meeting_ready (meeting : MeetingState) : Async unit :=
  notify_peers (registered_participants meeting) (ServerMessage.MeetingReady meeting).

(** src/server/src/service.rs:373-385 notify_session_ready *)
Definition notify_session_ready (session : SessionState) : Async unit :=
  notify_peers (all_participants session) (ServerMessage.SessionReady session).

(** src/server/src/service.rs:435-447 notify_session_active *)
Definition notify_session_active (session : SessionState) : Async unit :=
  notify_peers (all_participants session) (ServerMessage.SessionActive session).

(** src/server/src/service.rs:449-462 notify_session_timeout *)
Definition notify_session_timeout (session : SessionState) : Async unit :=
  notify_peers (all_participants session) (ServerMessage.SessionTimeout (session_id session)).

(** src/server/src/service.rs:264-303 wait_for_meeting_ready *)
Definition wait_for_meeting_ready (interval_secs : Z) (meeting : MeetingState) : Async bool :=
  tokio_interval interval_secs ;;
  found ← read_state (fun s =>
    match MeetingManager.get_meeting (meetings s) (meeting_id meeting) with
    | Some target =>
        Some (Meeting.is_full target,
              {| meeting_id := meeting_id meeting;
                 registered_participants := Meeting.participants target |})
    | None => None
    end);
  match found with
  | None => mret false
  | Some (true, target) => log_err (notify_meeting_ready target) ;; mret false
  | Some (false, _) => mret true
  end.

(** The end of an iteration that found the session not yet there. *)
(** src/server/src/service.rs:346-354 wait_for_session_ready *)
Definition check_timeout (start_time : SystemTime) (wait_secs : Z) (session : SessionState) :
    Async bool :=
  current ← now;
  duration ← pure_step (elapsed start_time current);
  if from_secs wait_secs <? duration
  then log_err (notify_session_timeout session) ;; mret false
  else mret true.

(** src/server/src/service.rs:305-357 wait_for_session_ready *)
Definition wait_for_session_ready (interval_secs : Z) (owner : Connection)
    (start_time : SystemTime) (session : SessionState) : Async bool :=
  tokio_interval interval_secs ;;
  '(ready, wait_secs) ← read_state (fun s =>
    (forallb (fun k => bool_decide (is_Some (active s !! k))) (all_participants session),
     wait_timeout (ServerConfig.session (config s))));
  if (ready : bool) then
    log_err (notify_session_ready session) ;;
    spawn (fun current => WaitSessionActive interval_secs owner current session) ;;
    mret false
  else check_timeout start_time wait_secs session.

(** src/server/src/service.rs:387-433 wait_for_session_active *)
Definition wait_for_session_active (interval_secs : Z) (start_time : SystemTime)
    (session : SessionState) : Async bool :=
  tokio_interval interval_secs ;;
  found ← read_state (fun s =>
    match SessionManager.get_session (sessions s) (session_id session) with
    | Some target => Some (Session.is_active target, wait_timeout (ServerConfig.session (config s)))
    | None => None
    end);
  match found with
  | None => mret false
  | Some (true, _) => log_err (notify_session_active session) ;; mret false
  | Some (false, wait_secs) => check_timeout start_time wait_secs session
  end.

(** src/server/src/server.rs:27-51 purge_expired *)
Definition purge_expired (interval_secs : Z) : Async bool :=
  tokio_interval interval_secs ;;
  write_state (fun current _ => sm_modify (fun s =>
    let secs := timeout (ServerConfig.session (config s)) in
    let ms := foldl MeetingManager.remove_meeting (meetings s)
                (MeetingManager.expired_keys (meetings s) current secs) in
    let ss := foldl SessionManager.remove_session (sessions s)
                (SessionManager.expired_keys (sessions s) current secs) in
    set_sessions ss (set_meetings ms s))) ;;
  mret true.

(** ** Requests on the server channel *)

(** src/server/src/service.rs:464-593 service *)
Definition service (conn : Connection) (public_key : bytes) (message : ServerMessage.t) :
    Async (option ServerMessage.t) :=
  match message with
  | ServerMessage.NewMeeting owner_id slots =>
      '(id, wait) ← write_state (fun current uuid s =>
        let '(ms, id) := MeetingManager.new_meeting (meetings s) uuid current public_key
                           owner_id slots in
        (set_meetings ms s, Ok (id, wait_interval (ServerConfig.session (config s)))));
      let response := {| meeting_id := id; registered_participants := [public_key] |} in
      spawn (fun current => WaitMeetingReady wait conn current response) ;;
      mret (Some (ServerMessage.MeetingCreated response))
  | ServerMessage.JoinMeeting id user_id =>
      from_public_key ← read_conn conn conn_public_key;
      write_state (fun current _ s =>
        match MeetingManager.get_meeting (meetings s) id with
        | Some meeting =>
            if Meeting.is_full meeting then (s, Err (ServerError.MeetingFull id))
            else (default s ((fun ms => set_meetings ms s) <$>
                    MeetingManager.get_meeting_mut (meetings s) id
                      (fun m => Meeting.join m current user_id from_public_key)), Ok None)
        | None => (s, Err (ServerError.MeetingNotFound id))
        end)
  | ServerMessage.NewSession request =>
      let participants := [public_key] ++ request_participant_keys request in
      '(id, wait) ← write_state (fun current uuid s =>
        let '(ss, id) := SessionManager.new_session (sessions s) uuid current public_key
                           (request_participant_keys request) in
        (set_sessions ss s, Ok (id, wait_interval (ServerConfig.session (config s)))));
      let response := {| session_id := id; all_participants := participants |} in
      spawn (fun current => WaitSessionReady wait conn current response) ;;
      mret (Some (ServerMessage.SessionCreated response))
  | ServerMessage.SessionConnection id peer_key =>
      from_public_key ← read_conn conn conn_public_key;
      write_state (fun _ _ s =>
        match SessionManager.get_session_mut (sessions s) id
                (fun session => Session.register_connection session from_public_key peer_key) with
        | Some ss => (set_sessions ss s, Ok None)
        | None => (s, Err (ServerError.SessionNotFound id))
        end)
  | ServerMessage.CloseSession id =>
      found ← read_state (fun s => SessionManager.get_session (sessions s) id);
      pure_step match found with
        | Some session =>
            if bool_decide (public_key <> Session.owner_key session)
            then Err ServerError.PermissionDenied else Ok tt
        | None => Err (ServerError.SessionNotFound id)
        end ;;
      write_state (fun _ _ => sm_modify (fun s =>
        set_sessions (SessionManager.remove_session (sessions s) id) s)) ;;
      mret (Some (ServerMessage.SessionFinished id))
  | _ => mret None
  end.

(** ** Requests *)

(** Read the initiator's message and write the reply. *)
(** src/server/src/service.rs:76-88 handle_request *)
Definition respond (length : Z) (buf : bytes) : ConnM (Z * bytes) := fun writer =>
  match conn_state writer with
  | Some (Handshake responder) =>
      if len buf <? length then (writer, Panic)
      else
        let '(responder, r) := hs_read_message responder (takeZ length buf) (zeros 1024) in
        let writer := set_conn_state (Some (Handshake responder)) writer in
        match map_err ServerError.Snow r with
        | Ok _ =>
            let '(responder, r) := hs_write_message responder [] (zeros 1024) in
            (set_conn_state (Some (Handshake responder)) writer, map_err ServerError.Snow r)
        | Err e => (writer, Err e)
        | Panic => (writer, Panic)
        end
  | _ => (writer, Err ServerError.NotHandshakeState)
  end.

(** Take the handshake state out and put the transport state back. *)
(** src/server/src/service.rs:98-106 handle_request *)
Definition enter_transport : ConnM unit := fun writer =>
  let taken := conn_state writer in
  let writer := set_conn_state None writer in
  match taken with
  | Some (Handshake state) =>
      match map_err ServerError.Snow (into_transport_mode state) with
      | Ok transport => (set_conn_state (Some (Transport transport)) writer, Ok tt)
      | Err e => (writer, Err e)
      | Panic => (writer, Panic)
      end
  | _ => (writer, Panic)
  end.

(** The section of the server handshake that holds the connection's lock. *)
(** src/server/src/service.rs:75-108 handle_request *)
Definition server_handshake (length : Z) (buf : bytes) : ConnM unit :=
  '(n, payload) ← respond length buf;
  send_response (ResponseMessage.Transparent
    (TransparentMessage.ServerHandshake (HandshakeMessage.Responder n payload))) ;;
  enter_transport.

(** Forward a frame, stamped with the sender's key, to an active peer. *)
(** src/server/src/service.rs:182-215 handle_request *)
Definition relay (conn : Connection) (public_key : bytes)
    (frame : bytes -> ResponseMessage.t) : Async unit :=
  from_public_key ← read_conn conn conn_public_key;
  peer ← read_state (fun s => active s !! public_key);
  match peer with
  | Some peer => write_conn peer (send_response (frame from_public_key))
  | None => pure_step (Err (ServerError.PeerNotFound (hex_encode public_key)))
  end.

(** src/server/src/service.rs:114-153 handle_request *)
Definition relay_peer_handshake (conn : Connection) (public_key : bytes)
    (message : HandshakeMessage.t) : Async unit :=
  relay conn public_key (fun from =>
    ResponseMessage.Transparent (TransparentMessage.PeerHandshake from message)).

(** src/server/src/service.rs:161-180 handle_request *)
Definition check_session (id : Uuid) (public_key : bytes) : Async unit :=
  write_state (fun current _ s =>
    let '(ss, touched) := SessionManager.touch_session (sessions s) current id in
    let s := set_sessions ss s in
    match touched with
    | Some session =>
        if existsb (fun k => bool_decide (k = public_key)) (Session.public_keys session)
        then (s, Ok tt)
        else (s, Err (ServerError.NotSessionParticipant id (hex_encode public_key)))
    | None => (s, Err (ServerError.SessionNotFound id))
    end).

(** src/server/src/service.rs:154-216 handle_request *)
Definition relay_peer_message (conn : Connection) (public_key : bytes) (session : option Uuid)
    (envelope : SealedEnvelope) : Async unit :=
  match session with
  | Some id => check_session id public_key
  | None => mret tt
  end ;;
  relay conn public_key (fun from =>
    ResponseMessage.Opaque (OpaqueMessage.PeerMessage from session envelope)).

(** src/server/src/service.rs:217-258 handle_request *)
Definition server_channel_request (conn : Connection) (envelope : SealedEnvelope) : Async unit :=
  from_public_key ← read_conn conn conn_public_key;
  peer ← read_state (fun s => active s !! from_public_key);
  match peer with
  | Some peer =>
      '(enc, contents) ← write_conn peer (on_state (decrypt_server_channel envelope));
      match enc with
      | Encoding.Blob =>
          request ← pure_step (lift_io (decode (A := ServerMessage.t) contents));
          response ← service conn from_public_key request;
          match response with
          | Some response => send_message conn response false
          | None => mret tt
          end
      | _ => mret tt
      end
  | None => pure_step (Err (ServerError.PeerNotFound (hex_encode from_public_key)))
  end.

(** src/server/src/service.rs:64-262 handle_request *)
Definition handle_request (conn : Connection) (message : RequestMessage.t) : Async unit :=
  match message with
  | RequestMessage.Transparent
      (TransparentMessage.ServerHandshake (HandshakeMessage.Initiator length buf)) =>
      write_conn conn (server_handshake length buf) ;; promote_connection conn
  | RequestMessage.Transparent (TransparentMessage.PeerHandshake public_key message) =>
      relay_peer_handshake conn public_key message
  | RequestMessage.Opaque (OpaqueMessage.PeerMessage public_key session envelope) =>
      relay_peer_message conn public_key session envelope
  | RequestMessage.Opaque (OpaqueMessage.ServerMessage envelope) =>
      server_channel_request conn envelope
  | _ => mret tt
  end.

(** The body of the loop of [listen]: an error of [decode] ends the task, an
    error of the request is reported to the client. *)
(** src/server/src/service.rs:42-62 listen *)
Definition listen (conn : Connection) (buffer : bytes) : Async unit :=
  message ← pure_step (lift_io (decode (A := RequestMessage.t) buffer));
  on_err (handle_request conn message) (fun e => log_err (handle_error conn e)).

(** ** Sockets *)

(** src/server/src/websocket.rs:81-131 upgrade *)
Definition upgrade (query_public_key : bytes) : SM World Z Connection := fun w =>
  let s := server w in
  let cfg := config s in
  if (bool_decide (is_Some (ServerConfig.allow cfg)) || bool_decide (is_Some (ServerConfig.deny cfg)))
     && negb (ServerConfig.is_allowed_access cfg query_public_key)
  then (w, Err FORBIDDEN)
  else
    let pat := default PATTERN (ServerConfig.pattern cfg) in
    let r :=
      params ← map_err (fun _ => INTERNAL_SERVER_ERROR) (parse_params pat);
      map_err (fun _ => INTERNAL_SERVER_ERROR)
        (build_responder params (Keypair.private_key (keypair s)) query_public_key) in
    match r with
    | Ok responder =>
        let id := next_uuid w in
        let c : Connection := fresh (dom (heap w)) in
        let conn := {| conn_id := id; conn_public_key := query_public_key;
                       outgoing := chan_new; incoming := chan_new;
                       conn_state := Some (Handshake responder) |} in
        (set_server (set_tables (<[id := c]> (pending s)) (active s) s)
           (set_heap (<[c := conn]> (heap w)) w), Ok c)
    | Err e => (w, Err e)
    | Panic => (w, Panic)
    end.

(** The continuation of the upgraded socket: [listen_socket] and
    [handle_socket] spawn the three tasks of the connection. *)
(** src/server/src/websocket.rs:158-179 handle_socket *)
Definition handle_socket (conn : Connection) : Async unit :=
  spawn (fun _ => Listen conn) ;; spawn (fun _ => Write conn) ;; spawn (fun _ => Read conn).

(** What the socket gives the reader: a message, an error or its end. *)
Inductive SocketEvent := Received (m : WsMessage) | SocketError (e : ExtError) | SocketEnd.

(** src/server/src/websocket.rs:181-218 read *)
Definition read (conn : Connection) (event : SocketEvent) : Async bool :=
  match event with
  | Received (Binary buffer) =>
      match inflate buffer with
      | Ok inflated =>
          write_conn conn (incoming_send inflated) ;; mret true
      | Err _ => mret true
      | Panic => pure_step Panic
      end
  | Received (Close frame) =>
      log_err (write_conn conn (outgoing_send (Close frame))) ;; mret false
  | Received _ => mret true
  | SocketError e => disconnect conn ;; pure_step (Err (ServerError.Axum e))
  | SocketEnd => mret false
  end.

(** The body of the loop of [write], for a message taken from the queue and
    the outcome of sending it on the socket. *)
(** src/server/src/websocket.rs:220-233 write *)
Definition write (conn : Connection) (sent : bool) : Async bool :=
  if sent then mret true else disconnect conn ;; mret false.
End server.
