(* ===== verification/ServerSystem.v ===== *)
(** * The running server

    The tasks of [Server] as a transition system: connections are upgraded,
    the sockets deliver and take messages, every running task executes one
    atomic section at a time in any interleaving, and a waiting loop starts
    over while its iterations say so.  The clock is the system's, which may be
    set back at any time. *)

From S2P Require Import Prelude Types Stream Encoding Noise Channel Keypair ServerConfig Zlib Prog Sessions Net Server.

Section system.
Context {BS : BinaryStream encoding_options} {SC : StatusCodes} {HO : HashOrder}.
Context {N : Noise} {FL : Flate} {HX : Hex} {DI : Display}.

(** A running task: the spawned task it is an iteration of, if any, and the
    buffer it was started with, if it is a [Listen] task. *)
Record Thread := {
  thread_task : option Task;
  thread_input : option bytes;
  thread_prog : Prog World ServerError.t bool;
}.

Record System := { world : World; running : list Thread }.

(** The iteration a task starts with in a world; a task waiting on an empty
    channel has none. *)
Inductive starts (w : World) : Task -> World -> Thread -> Prop :=
| StartListen c conn buffer rest :
    heap w !! c = Some conn -> queue (incoming conn) = buffer :: rest ->
    starts w (Listen c)
      (set_heap (<[c := set_incoming {| queue := rest; receiver_open := receiver_open (incoming conn) |}
                          conn]> (heap w)) w)
      {| thread_task := Some (Listen c); thread_input := Some buffer;
         thread_prog := (listen c buffer ;; mret true) |}
| StartRead c event :
    starts w (Read c) w
      {| thread_task := Some (Read c); thread_input := None; thread_prog := read c event |}
| StartWrite c conn message rest sent :
    heap w !! c = Some conn -> queue (outgoing conn) = message :: rest ->
    starts w (Write c)
      (set_heap (<[c := set_outgoing {| queue := rest; receiver_open := receiver_open (outgoing conn) |}
                          conn]> (heap w)) w)
      {| thread_task := Some (Write c); thread_input := None; thread_prog := write c sent |}
| StartMeetingReady i owner start m :
    starts w (WaitMeetingReady i owner start m) w
      {| thread_task := Some (WaitMeetingReady i owner start m); thread_input := None;
         thread_prog := wait_for_meeting_ready i m |}
| StartSessionReady i owner start s :
    starts w (WaitSessionReady i owner start s) w
      {| thread_task := Some (WaitSessionReady i owner start s); thread_input := None;
         thread_prog := wait_for_session_ready i owner start s |}
| StartSessionActive i owner start s :
    starts w (WaitSessionActive i owner start s) w
      {| thread_task := Some (WaitSessionActive i owner start s); thread_input := None;
         thread_prog := wait_for_session_active i start s |}
| StartPurge i :
    starts w (PurgeExpired i) w
      {| thread_task := Some (PurgeExpired i); thread_input := None;
         thread_prog := purge_expired i |}.

(** What the end of an iteration leaves behind: the loop goes on, or the task
    ends and drops the receiver it owns. *)
Definition finish (t : option Task) (r : Res ServerError.t bool) (w : World) : World :=
  let close f c := match heap w !! c with
    | Some conn => set_heap (<[c := f conn]> (heap w)) w
    | None => w
    end in
  match t, r with
  | Some t, Ok true => set_spawned (spawned w ++ [t]) w
  | Some (Listen c), _ => close (fun conn => set_incoming (chan_close (incoming conn)) conn) c
  | Some (Write c), _ => close (fun conn => set_outgoing (chan_close (outgoing conn)) conn) c
  | _, _ => w
  end.

Definition set_env (t : SystemTime) (u : Uuid) (w : World) : World :=
  {| server := server w; heap := heap w; spawned := spawned w; clock := t; next_uuid := u |}.

Inductive step : System -> System -> Prop :=
| StepEnv s t u :
    step s {| world := set_env t u (world s); running := running s |}
| StepUpgrade s public_key w' c :
    upgrade public_key (world s) = (w', Ok c) ->
    step s {| world := w';
              running := running s ++ [{| thread_task := None; thread_input := None;
                                          thread_prog := (handle_socket c ;; mret false) |}] |}
| StepStart s i t w' th :
    spawned (world s) !! i = Some t ->
    starts (set_spawned (delete i (spawned (world s))) (world s)) t w' th ->
    step s {| world := w'; running := running s ++ [th] |}
| StepSection s i th m w' p :
    running s !! i = Some th -> thread_prog th = Atomic m -> m (world s) = (w', p) ->
    step s {| world := w';
              running := <[i := {| thread_task := thread_task th; thread_input := thread_input th;
                                   thread_prog := p |}]> (running s) |}
| StepFinish s i th r :
    running s !! i = Some th -> thread_prog th = Done r ->
    step s {| world := finish (thread_task th) r (world s); running := delete i (running s) |}.

(** src/server/src/server.rs:95-117 RelayServer::start *)
Definition start (w : World) : World :=
  set_spawned (spawned w ++ [PurgeExpired (interval (ServerConfig.session (config (server w))))]) w.

(** A server at the time [t], before any connection. *)
Definition initial (cfg : ServerConfig.t) (kp : Keypair.t) (t : SystemTime) (u : Uuid) : System :=
  {| world := start {| server := RelayServer_new cfg kp; heap := ∅; spawned := [];
                       clock := t; next_uuid := u |};
     running := [] |}.

Inductive reachable (s0 : System) : System -> Prop :=
| reach_init : reachable s0 s0
| reach_step s s' : reachable s0 s -> step s s' -> reachable s0 s'.

(** The clock has been set back in a run from [s0] to [s], from [t] or later to
    before [t]. *)
Definition set_back (s0 s : System) (t : SystemTime) : Prop :=
  exists s1 s2, reachable s0 s1 /\ reachable s1 s2 /\ reachable s2 s /\
    clock (world s2) < t <= clock (world s1).
End system.
