(* ===== verification/CommandLine.v ===== *)
(** * The command line

    [src/src/main.rs] and [src/src/commands]: [generate-keypair] and [server]
    on a file system, with what the operating system answers as a parameter.
    The listeners of [src/server/src/server.rs] are here too: what axum does
    with a router is a parameter. *)

From S2P Require Import Prelude Types Stream Encoding Noise Channel Keypair ServerConfig.
From S2P Require Import Zlib Prog Sessions Net Server ServerSystem.

(** ** The file system

    What each path holds.  An operation the system refuses leaves a part of
    what was written. *)

#[global] Instance Path_countable : Countable Path :=
  inj_countable' (fun p => (absolute p, components p))
    (fun '(a, c) => {| absolute := a; components := c |}) (fun p => match p with
      {| absolute := _; components := _ |} => eq_refl end).

Abbreviation Disk := (gmap Path bytes).

Inductive FileOp := OpExists | OpCreate | OpWrite | OpFlush | OpRead | OpCanonicalize.

Class OperatingSystem := {
  (** The error of an operation on a path, if the system refuses it, and how
      much of the contents was written when it did. *)
  os_error : FileOp -> Path -> option IoError;
  os_written : Path -> nat;
  (** The absolute path without symbolic links. *)
  os_canonical : Path -> Path;
}.

(** [SocketAddr], and its [FromStr]. *)
Class SocketAddresses := { SocketAddr : Type; addr_from_str : string -> Res ExtError SocketAddr }.

(** [RelayServer::router]: the routes, each with its handler. *)
Inductive RouteHandler := WebsocketUpgrade.
Abbreviation Router := (list (string * RouteHandler)).

(** axum: the certificate it reads, and serving a router until it is shut
    down, which leaves the server in some state. *)
Class Axum {SA : SocketAddresses} := {
  RustlsConfig : Type;
  rustls_from_pem_file : bytes -> bytes -> Res IoError RustlsConfig;
  serve : option RustlsConfig -> SocketAddr -> Router -> forall W : Type, W -> W * Res IoError unit;
}.

Section files.
Context {OS : OperatingSystem}.

Definition guarded {A} (op : FileOp) (p : Path) (m : SM Disk IoError A) : SM Disk IoError A := fun d =>
  match os_error op p with Some e => (d, Err e) | None => m d end.

(** [fs::try_exists], [fs::read] and [fs::read_to_string]. *)
Definition fs_try_exists (p : Path) : SM Disk IoError bool :=
  guarded OpExists p (sm_gets (fun d => bool_decide (is_Some (d !! p)))).
Definition fs_read (p : Path) : SM Disk IoError bytes :=
  guarded OpRead p (fun d => (d, ok_or (d !! p) (IoStream Other))).
Definition fs_read_to_string (p : Path) : SM Disk IoError string :=
  b ← fs_read p;
  if is_utf8 (bytes_str b) then mret (bytes_str b) else sm_err (IoStream InvalidData).
Definition fs_canonicalize (p : Path) : SM Disk IoError Path :=
  guarded OpCanonicalize p (fun d =>
    (d, if bool_decide (is_Some (d !! os_canonical p)) then Ok (os_canonical p)
        else Err (IoStream Other))).

(** [File::create] empties the file; [write_all] and [flush] of a file just
    created, and [fs::write], the three of them. *)
Definition file_create (p : Path) : SM Disk IoError Path :=
  guarded OpCreate p (fun d => (<[p := []]> d, Ok p)).
Definition file_write_all (file : Path) (b : bytes) : SM Disk IoError unit := fun d =>
  let old := default [] (d !! file) in
  match os_error OpWrite file with
  | Some e => (<[file := old ++ take (os_written file) b]> d, Err e)
  | None => (<[file := old ++ b]> d, Ok tt)
  end.
Definition file_flush (file : Path) : SM Disk IoError unit := fun d =>
  match os_error OpFlush file with
  | Some e => (<[file := take (os_written file) (default [] (d !! file))]> d, Err e)
  | None => (d, Ok tt)
  end.
Definition fs_write (p : Path) (b : bytes) : SM Disk IoError unit :=
  file ← file_create p; file_write_all file b ;; file_flush file.

(** The files as [ServerConfig::load] reads them. *)
Definition disk_files (toml : string -> Res ExtError ServerConfig.t) (d : Disk) : Files := {|
  try_exists := fun p => (fs_try_exists p d).2;
  read_to_string := fun p => (fs_read_to_string p d).2;
  canonicalize := fun p => (fs_canonicalize p d).2;
  toml_from_str := toml;
|}.
End files.

(** ** The commands *)

(** src/src/main.rs:57-89 Command *)
Inductive Command :=
| GenerateKeypair (force : bool) (public_key : option Path) (file : Path)
| ServerCommand (session_interval session_timeout : option Z) (bind : string) (config : Path).

(** [anyhow::Error], by where it comes from. *)
Module CliError.
Inductive t :=
| FileExists (p : Path)
| Io (e : IoError)
| Protocol (e : Types.Error)
| Server (e : ServerError.t)
| AddrParse (e : ExtError).
End CliError.

(** What a command acts on: the files, the lines it prints, and the errors it
    logs. *)
Record Process := { disk : Disk; stdout : list string; log : list string }.
Abbreviation CliM := (SM Process CliError.t).

Definition on_disk {A} (m : SM Disk IoError A) : CliM A := fun p =>
  let '(d, r) := m (disk p) in
  ({| disk := d; stdout := stdout p; log := log p |}, map_err CliError.Io r).
Definition println (line : string) : CliM unit :=
  sm_modify (fun p => {| disk := disk p; stdout := stdout p ++ [line]; log := log p |}).

Section commands.
Context {OS : OperatingSystem} {N : Noise} {G : KeyGen} {P : Pem} {HX : Hex}.

(** src/src/commands/generate_keypair.rs:9-36 run *)
Definition generate_keypair_run (entropy : bytes) (path : Path) (force : bool)
    (public_key : option Path) : CliM unit :=
  exists_ ← on_disk (fs_try_exists path);
  if exists_ && negb force then sm_err (CliError.FileExists path) else
  keypair ← sm_lift (map_err CliError.Protocol (generate_keypair entropy));
  let pem := encode_keypair keypair in
  file ← on_disk (file_create path);
  on_disk (file_write_all file (str_bytes pem)) ;;
  on_disk (file_flush file) ;;
  println (hex_encode (Keypair.public_key keypair)) ;;
  match public_key with
  | Some public_key =>
      let public_key_hex := hex_encode (Keypair.public_key keypair) in
      on_disk (fs_write public_key (str_bytes public_key_hex))
  | None => mret tt
  end.

Context {SA : SocketAddresses} {AX : Axum}.
Context (toml : string -> Res ExtError ServerConfig.t).

Definition set_session (s : SessionConfig) (c : ServerConfig.t) : ServerConfig.t :=
  {| ServerConfig.key := ServerConfig.key c; ServerConfig.pattern := ServerConfig.pattern c;
     ServerConfig.session := s; ServerConfig.tls := ServerConfig.tls c;
     ServerConfig.allow := ServerConfig.allow c; ServerConfig.deny := ServerConfig.deny c |}.

(** The configuration with the options of the command line. *)
(** src/src/commands/server.rs:16-22 run *)
Definition override (interval_ session_timeout : option Z) (c : ServerConfig.t) : ServerConfig.t :=
  let s := ServerConfig.session c in
  set_session {| timeout := default (timeout s) session_timeout;
                 interval := default (interval s) interval_;
                 wait_interval := wait_interval s; wait_timeout := wait_timeout s |} c.

(** src/server/src/server.rs:162-171 RelayServer::router *)
Definition router : Router := [("/"%string, WebsocketUpgrade)].

(** src/server/src/server.rs:119-141 RelayServer::run_tls *)
Definition run_tls (d : Disk) (addr : SocketAddr) (tls : TlsConfig) (w : World) :
    World * Res ServerError.t unit :=
  match
    cert ← (fs_read (tls_cert tls) d).2; key ← (fs_read (tls_key tls) d).2;
    rustls_from_pem_file cert key
  with
  | Ok tls => let '(w, r) := serve (Some tls) addr router World w in (w, map_err ServerError.Io r)
  | Err e => (w, Err (ServerError.Io e))
  | Panic => (w, Panic)
  end.

(** src/server/src/server.rs:143-160 RelayServer::run *)
Definition run_http (addr : SocketAddr) (w : World) : World * Res ServerError.t unit :=
  let '(w, r) := serve None addr router World w in (w, map_err ServerError.Io r).

(** The purge task is spawned, then the listener runs. *)
(** src/server/src/server.rs:95-117 RelayServer::start *)
Definition RelayServer_start (d : Disk) (addr : SocketAddr) (w : World) :
    World * Res ServerError.t unit :=
  let tls := ServerConfig.tls (config (server w)) in
  let w := start w in
  match tls with Some tls => run_tls d addr tls w | None => run_http addr w end.

(** The server that the command starts, and where it listens. *)
(** src/src/commands/server.rs:14-26 run *)
Definition configure (d : Disk) (bind : string) (config : Path)
    (interval_ session_timeout : option Z) : Res CliError.t (SocketAddr * ServerState) :=
  '(config, keypair) ← map_err CliError.Server (load (F := disk_files toml d) config);
  let config := override interval_ session_timeout config in
  addr ← map_err CliError.AddrParse (addr_from_str bind);
  mret (addr, RelayServer_new config keypair).

(** The world a server starts in. *)
Definition started (t : SystemTime) (u : Uuid) (s : ServerState) : World :=
  {| server := s; heap := ∅; spawned := []; clock := t; next_uuid := u |}.

(** src/src/commands/server.rs:8-29 run *)
Definition server_run (t : SystemTime) (u : Uuid) (bind : string) (config : Path)
    (interval_ session_timeout : option Z) : CliM unit := fun p =>
  (p, '(addr, s) ← configure (disk p) bind config interval_ session_timeout;
      map_err CliError.Server (RelayServer_start (disk p) addr (started t u s)).2).

(** ** The program *)

(** src/src/main.rs:91-120 run *)
Definition cli_run (entropy : bytes) (t : SystemTime) (u : Uuid) (cmd : Command) : CliM unit :=
  match cmd with
  | GenerateKeypair force public_key file => generate_keypair_run entropy file force public_key
  | ServerCommand session_interval session_timeout bind config =>
      server_run t u bind config session_interval session_timeout
  end.

Context {DI : Display}.

(** The message of an [anyhow::Error]. *)
Definition CliError_to_string (e : CliError.t) : string :=
  match e with
  | CliError.FileExists p =>
      ("file " +:+ path_string p +:+ " already exists, use --force to overwrite")%string
  | CliError.Io e => IoError_to_string e
  | CliError.Protocol e => Error_to_string e
  | CliError.Server e => ServerError_to_string e
  | CliError.AddrParse e => e
  end.

(** The process and its exit status: an error of the command is logged, and
    the one of a panic is 101. *)
(** src/src/main.rs:126-143 main *)
Definition main (entropy : bytes) (t : SystemTime) (u : Uuid) (cmd : Command) (p : Process) :
    Process * Z :=
  let '(p, r) := cli_run entropy t u cmd p in
  match r with
  | Ok _ => (p, 0)
  | Err e => ({| disk := disk p; stdout := stdout p;
                 log := log p ++ [CliError_to_string e] |}, 0)
  | Panic => (p, 101)
  end.
End commands.
