(* ===== verification/ServerFacts.v ===== *)
(** * Safety of the server's tasks

    The invariant of the server's tables, the future relation of its world,
    and the judgement [safe]: a task keeps the invariant, only moves the world
    to its future, and panics only if [bad] holds.  Rules for the locks and
    for computations on one connection reduce every handler to its steps. *)

From S2P Require Import Prelude Types Stream Encoding EncodingFacts Noise Channel Keypair ServerConfig Zlib Prog Sessions Net Server ServerSystem.

(** A server that runs: its configuration and its key pair, and the times the
    clock has passed and was then set back before. *)
Class Setting := {
  run_config : ServerConfig.t;
  run_keypair : Keypair.t;
  run_back : SystemTime -> Prop;
}.

Section facts.
Context {BS : BinaryStream encoding_options} {BL : BinaryStreamLaws encoding_options BS}.
Context {SC : StatusCodes} {SL : StatusCodesLaws SC} {HO : HashOrder} {HL : HashOrderLaws HO}.
Context {N : Noise} {NL : NoiseLaws N} {FL : Flate} {FLL : FlateLaws FL} {HX : Hex} {DI : Display}.

(** The connection [c] exists and satisfies [P]. *)
Definition holds (P : WebSocketConnection -> Prop) (c : Connection) (w : World) : Prop :=
  exists conn, heap w !! c = Some conn /\ P conn.

Definition in_transport (conn : WebSocketConnection) : Prop :=
  is_transport (conn_state conn) = true.

(** Every active entry is a connection in transport mode with the key it is
    filed under, every pending entry is filed under its identifier. *)
Record filed (w : World) : Prop := {
  filed_active : forall k c, active (server w) !! k = Some c ->
    holds (fun conn => conn_public_key conn = k /\ in_transport conn) c w;
  filed_pending : forall id c, pending (server w) !! id = Some c ->
    holds (fun conn => conn_id conn = id) c w;
}.

Context {RS : Setting}.

(** ** The invariant and the future *)

(** A state of the handshake of the configured pattern, with the server's key:
    as it is built for a client, and after messages read and written. *)
Inductive configured : HandshakeState -> Prop :=
| configured_built params key h :
    parse_params (default PATTERN (ServerConfig.pattern run_config)) = Ok params ->
    build_responder params (Keypair.private_key run_keypair) key = Ok h -> configured h
| configured_read h msg buf : configured h -> configured (hs_read_message h msg buf).1
| configured_write h payload buf : configured h -> configured (hs_write_message h payload buf).1.

(** A state of that handshake that has just read a message and written one. *)
Definition responded (h2 : HandshakeState) : Prop :=
  exists h h1 msg buf l payload buf' l', configured h /\
    hs_read_message h msg buf = (h1, Ok l) /\ hs_write_message h1 payload buf' = (h2, Ok l').

(** The configured pattern's handshake takes more than the two messages the
    code exchanges: entering transport mode fails, and the connection is left
    without a protocol state. *)
Definition incomplete : Prop := exists h e, responded h /\ into_transport_mode h = Err e.

(** A handshake in progress is one of the configured pattern. *)
Definition handshakes (conn : WebSocketConnection) : Prop :=
  forall h, conn_state conn = Some (Handshake h) -> configured h.

(** A connection keeps its identity and its handshake's pattern, once in
    transport mode stays so, and only loses its state to an incomplete
    handshake. *)
Definition grows (c c' : WebSocketConnection) : Prop :=
  conn_id c' = conn_id c /\ conn_public_key c' = conn_public_key c /\
  (is_transport (conn_state c) = true -> is_transport (conn_state c') = true) /\
  (conn_state c' = None -> conn_state c = None \/ incomplete) /\ (handshakes c -> handshakes c').

(** Connections are never freed while referenced, a time the clock has reached
    it stays past unless it is set back, and a meeting point only goes away
    when there is an interval to purge at. *)
Definition future (w w' : World) : Prop :=
  (forall c conn, heap w !! c = Some conn ->
    exists conn', heap w' !! c = Some conn' /\ grows conn conn') /\
  (forall t, t <= clock w -> t <= clock w' \/ run_back t) /\
  (interval (ServerConfig.session run_config) = 0 -> forall id,
    is_Some (MeetingManager.meetings (meetings (server w)) !! id) ->
    is_Some (MeetingManager.meetings (meetings (server w')) !! id)).

#[global] Instance grows_preorder : PreOrder grows.
Proof.
  split; [intros c; unfold grows; tauto | intros c1 c2 c3; unfold grows; naive_solver congruence].
Qed.

#[global] Instance future_preorder : PreOrder future.
Proof.
  split.
  - intros w. split; [intros c conn Hc; by exists conn | split; auto].
  - intros w1 w2 w3 (H1 & H2 & H3) (H4 & H5 & H6). split; [|split; [|auto]].
    + intros c conn Hc. destruct (H1 c conn Hc) as (conn2 & Hc2 & Hg2).
      destruct (H4 c conn2 Hc2) as (conn3 & Hc3 & Hg3). exists conn3.
      split; [done | by transitivity conn2].
    + intros t [Ht|Ht]%H2; [by apply H5 | by right].
Qed.

(** A world with the same clock and meeting points. *)
Lemma future_heap w w' : clock w' = clock w -> meetings (server w') = meetings (server w) ->
  (forall c conn, heap w !! c = Some conn ->
    exists conn', heap w' !! c = Some conn' /\ grows conn conn') -> future w w'.
Proof. intros Hc Hm Hh. split; [done |]. rewrite Hc, Hm. auto. Qed.

Lemma future_same w w' : clock w' = clock w -> meetings (server w') = meetings (server w) ->
  heap w' = heap w -> future w w'.
Proof. intros Hc Hm Hh. apply future_heap; [done..|]. rewrite Hh. intros c conn H. by exists conn. Qed.

(** The connection has a protocol state, unless it lost it as [grows] says, and
    the handshake of the configured pattern. *)
Definition has_state (conn : WebSocketConnection) : Prop :=
  (conn_state conn = None -> incomplete) /\ handshakes conn.
Definition exists_conn : Connection -> World -> Prop := holds has_state.
(** A property that [grows] preserves. *)
Definition stable (P : WebSocketConnection -> Prop) : Prop :=
  forall c c', grows c c' -> P c -> P c'.

Lemma holds_future P c w w' : stable P -> future w w' -> holds P c w -> holds P c w'.
Proof.
  intros HP (Hh & _) (conn & Hc & Hp). destruct (Hh c conn Hc) as (conn' & Hc' & Hg).
  exists conn'. split; [done | by eapply HP].
Qed.

Lemma stable_true : stable (fun _ => True).
Proof. done. Qed.
Lemma stable_transport : stable in_transport.
Proof. intros c c' (_ & _ & H & _). exact H. Qed.
Lemma stable_state : stable has_state.
Proof.
  intros c c' (_ & _ & _ & H & Ho) [Hs Hh]. split; [|by apply Ho]. intros Hn. destruct (H Hn); auto.
Qed.
Lemma stable_key k : stable (fun conn => conn_public_key conn = k).
Proof. intros c c' (_ & H & _) Hk. by rewrite H. Qed.
Lemma stable_id k : stable (fun conn => conn_id conn = k).
Proof. intros c c' (H & _) Hk. by rewrite H. Qed.
Lemma stable_and P Q : stable P -> stable Q -> stable (fun conn => P conn /\ Q conn).
Proof. intros HP HQ c c' Hg [H1 H2]. split; [by eapply HP | by eapply HQ]. Qed.
Hint Resolve stable_true stable_state stable_transport stable_key stable_id stable_and : core.

(** A spawned task refers to existing connections and was given the configured
    interval and a start time that has passed. *)
Definition task_ok (w : World) (t : Task) : Prop :=
  match t with
  | Listen c | Read c | Write c => exists_conn c w
  | WaitMeetingReady i c _ _ => i = wait_interval (ServerConfig.session run_config) /\ exists_conn c w
  | WaitSessionReady i c start _ | WaitSessionActive i c start _ =>
      i = wait_interval (ServerConfig.session run_config) /\ (start <= clock w \/ run_back start) /\ exists_conn c w
  | PurgeExpired i => i = interval (ServerConfig.session run_config)
  end.

Lemma task_ok_future w w' t : future w w' -> task_ok w t -> task_ok w' t.
Proof.
  intros Hf. pose proof Hf as (_ & Hc & _). destruct t; cbn; intros H;
    repeat match goal with H : _ /\ _ |- _ => destruct H end;
    split_and?; try done; try (by eapply holds_future);
    match goal with H : _ \/ _ |- _ => destruct H as [?%Hc|]; auto end.
Qed.

(** The tables are consistent, the tasks are as they were spawned, and the
    configuration is fixed. *)
Record Inv (w : World) : Prop := {
  inv_filed : filed w;
  inv_spawned : Forall (task_ok w) (spawned w);
  inv_config : config (server w) = run_config;
  inv_keypair : keypair (server w) = run_keypair;
}.

Lemma inv_active w : Inv w -> forall k c, active (server w) !! k = Some c ->
  holds (fun conn => conn_public_key conn = k /\ in_transport conn) c w.
Proof. intros [[H _]]. exact H. Qed.

(** ** Judgements *)

Definition result_ok {A} (bad : Prop) (Q : A -> Prop) (r : Res ServerError.t A) : Prop :=
  match r with Ok a => Q a | Err _ => True | Panic => bad end.

Definition safe {A} (bad : Prop) (Q : World -> A -> Prop) (p : Prog World ServerError.t A)
    (w : World) : Prop :=
  ok Inv future (fun w' r => result_ok bad (Q w') r) p w.

(** A computation on a connection with [P] lets it grow. *)
Definition good {A} (bad : Prop) (P : WebSocketConnection -> Prop)
    (Q : A -> WebSocketConnection -> Prop) (m : SM WebSocketConnection ServerError.t A) : Prop :=
  forall conn, P conn -> let '(conn', r) := m conn in
    grows conn conn' /\ result_ok bad (fun a => Q a conn') r.

(** ** Rules for tasks *)

Lemma safe_ret {A} bad (Q : World -> A -> Prop) a w :
  (forall w1, future w w1 -> Q w1 a) -> safe bad Q (mret a) w.
Proof. intros H w1 Hf. by apply H. Qed.

Lemma safe_pure {A} bad (Q : World -> A -> Prop) r w :
  (forall w1, future w w1 -> result_ok bad (Q w1) r) -> safe bad Q (pure_step r) w.
Proof. done. Qed.

Lemma safe_bind {A B} bad (Q : World -> A -> Prop) (R : World -> B -> Prop) p k w :
  safe bad Q p w ->
  (forall w1 a, future w w1 -> Q w1 a -> safe bad R (k a) w1) ->
  safe bad R (p ≫= k) w.
Proof.
  intros Hp Hk. eapply ok_result; [apply _ | exact Hp |].
  intros w1 [a|e|] Hf Hq; [by apply Hk | by intros w2 | by intros w2].
Qed.

Lemma safe_on_err bad p h w :
  safe bad (fun _ _ => True) p w ->
  (forall w1 e, future w w1 -> safe bad (fun _ _ => True) (h e) w1) ->
  safe bad (fun _ _ => True) (on_err p h) w.
Proof.
  intros Hp Hh. eapply ok_result; [apply _ | exact Hp |].
  intros w1 [[]|e|] Hf Hq; [by intros w2 | by apply Hh | by intros w2].
Qed.

Lemma safe_log_err bad p w : safe bad (fun _ _ => True) p w ->
  safe bad (fun _ _ => True) (log_err p) w.
Proof. intros Hp. apply safe_on_err; [done |]. intros. by apply safe_ret. Qed.

Lemma safe_for {A} bad (l : list A) (f : A -> Prog World ServerError.t unit) w :
  (forall x w1, x ∈ l -> future w w1 -> safe bad (fun _ _ => True) (f x) w1) ->
  safe bad (fun _ _ => True) (prog_for l f) w.
Proof.
  revert w. induction l as [|x l IH]; intros w H; [by apply safe_ret |].
  eapply safe_bind; [apply H; [by left | done] |].
  intros w1 _ Hf _. apply IH. intros y w2 Hy Hf2. apply H; [by right | by transitivity w1].
Qed.
(** ** Rules for the locks *)

Lemma inv_future w w' : future w w' -> Inv w ->
  (forall k c, active (server w') !! k = Some c -> active (server w) !! k = Some c \/
    holds (fun conn => conn_public_key conn = k /\ in_transport conn) c w') ->
  (forall id c, pending (server w') !! id = Some c -> pending (server w) !! id = Some c \/
    holds (fun conn => conn_id conn = id) c w') ->
  Forall (task_ok w') (spawned w') ->
  config (server w') = config (server w) -> keypair (server w') = keypair (server w) -> Inv w'.
Proof.
  intros Hf [[Ha Hp] Hs Hc Hk] Ha' Hp' Hs' Hc' Hk'. split; [split | done | congruence..].
  - intros k c [Hl|Hl]%Ha'; [|done]. eapply holds_future; [|done | by apply Ha]. auto.
  - intros k c [Hl|Hl]%Hp'; [|done]. eapply holds_future; [|done | by apply Hp]. auto.
Qed.

Lemma spawned_future w w' : future w w' -> Forall (task_ok w) (spawned w) ->
  Forall (task_ok w') (spawned w).
Proof. intros Hf. apply Forall_impl. intros t. by apply task_ok_future. Qed.

Lemma update_conn_ok w c conn conn' : heap w !! c = Some conn -> grows conn conn' -> Inv w ->
  let w' := set_heap (<[c := conn']> (heap w)) w in Inv w' /\ future w w'.
Proof.
  intros Hc Hg Hi w'. assert (future w w') as Hf.
  { apply future_heap; [done..|]. intros d conn1 Hd. cbn.
    destruct (decide (c = d)) as [->|Hne].
    - exists conn'. rewrite lookup_insert_eq. by simplify_eq.
    - exists conn1. by rewrite lookup_insert_ne. }
  split; [|done]. apply (inv_future w w' Hf Hi); [by left.. | | done | done].
  apply (spawned_future w w' Hf), Hi.
Qed.

Lemma safe_write_conn {A} bad P (Q : A -> Prop) c m w :
  stable P -> holds P c w -> good bad P (fun a _ => Q a) m ->
  safe bad (fun _ => Q) (write_conn c m) w.
Proof.
  intros HP Hc Hm. apply ok_atomically; [by intros w1 w2 [] | intros w1 Hf Hi].
  destruct (holds_future _ _ _ _ HP Hf Hc) as (conn & Hconn & Hp).
  unfold with_conn. rewrite Hconn. specialize (Hm conn Hp).
  destruct (m conn) as [conn' r]. destruct Hm as [Hg Hr].
  by destruct (update_conn_ok w1 c conn conn' Hconn Hg Hi).
Qed.

Lemma safe_read_conn {A} bad P (Q : World -> A -> Prop) c f w :
  stable P -> holds P c w ->
  (forall w1 w2 a, future w1 w2 -> Q w1 a -> Q w2 a) ->
  (forall w1 conn, future w w1 -> heap w1 !! c = Some conn -> P conn -> Q w1 (f conn)) ->
  safe bad Q (read_conn c f) w.
Proof.
  intros HP Hc HQ Hq. apply ok_atomically.
  { intros w1 w2 [a| |] Hf; cbn; [by apply HQ | done..]. }
  intros w1 Hf Hi. destruct (holds_future _ _ _ _ HP Hf Hc) as (conn & Hconn & Hp).
  unfold with_conn. rewrite Hconn. cbn.
  destruct (update_conn_ok w1 c conn conn Hconn ltac:(done) Hi) as [Hi' Hf'].
  split_and!; [done | done |]. eapply HQ; [exact Hf' | by apply Hq].
Qed.

Lemma safe_read_state {A} bad (Q : World -> A -> Prop) f w :
  (forall w1 w2 a, future w1 w2 -> Q w1 a -> Q w2 a) ->
  (forall w1, future w w1 -> Inv w1 -> Q w1 (f (server w1))) ->
  safe bad Q (read_state f) w.
Proof.
  intros HQ Hq. apply ok_atomically.
  { intros w1 w2 [a| |] Hf; cbn; [by apply HQ | done..]. }
  intros w1 Hf Hi. cbn. split_and!; [done | done | by apply Hq].
Qed.

(** Meeting points that only go away when there is an interval to purge at. *)
Definition meetings_ok (m m' : MeetingManager.t) : Prop :=
  interval (ServerConfig.session run_config) = 0 -> forall id,
    is_Some (MeetingManager.meetings m !! id) -> is_Some (MeetingManager.meetings m' !! id).

(** A section on the server's state that leaves the configuration alone, keeps
    the meeting points and files only connections that belong. *)
Definition tables_ok (w : World) (s : ServerState) : Prop :=
  config s = config (server w) /\ keypair s = keypair (server w) /\
  meetings_ok (meetings (server w)) (meetings s) /\
  (forall k c, active s !! k = Some c -> active (server w) !! k = Some c \/
    holds (fun conn => conn_public_key conn = k /\ in_transport conn) c w) /\
  (forall id c, pending s !! id = Some c -> pending (server w) !! id = Some c \/
    holds (fun conn => conn_id conn = id) c w).

Lemma set_server_ok w s : Inv w -> tables_ok w s ->
  Inv (set_server s w) /\ future w (set_server s w).
Proof.
  intros Hi (Hc & Hk & Hm & Ha & Hp). assert (future w (set_server s w)) as Hf.
  { split; [intros c conn H; by exists conn | split; [by left | exact Hm]]. }
  split; [|done]. apply (inv_future w _ Hf Hi); [done | done | | done | done].
  apply (spawned_future w _ Hf), Hi.
Qed.

Lemma safe_write_state {A} bad (Q : A -> Prop) (m : SystemTime -> Uuid -> SM ServerState _ A) w :
  (forall w1, future w w1 -> Inv w1 ->
    let '(s, r) := m (clock w1) (next_uuid w1) (server w1) in
    tables_ok w1 s /\ result_ok bad Q r) ->
  safe bad (fun _ => Q) (write_state m) w.
Proof.
  intros Hm. apply ok_atomically; [by intros w1 w2 [] | intros w1 Hf Hi].
  specialize (Hm w1 Hf Hi). destruct (m _ _ _) as [s r]. destruct Hm as [Ht Hr].
  by destruct (set_server_ok w1 s Hi Ht).
Qed.

Lemma tables_meetings w s : config s = config (server w) -> keypair s = keypair (server w) ->
  meetings_ok (meetings (server w)) (meetings s) ->
  active s = active (server w) -> pending s = pending (server w) -> tables_ok w s.
Proof. intros H1 H2 H3 H4 H5. unfold tables_ok. rewrite H4, H5. auto 6. Qed.

Lemma tables_same w s : config s = config (server w) -> keypair s = keypair (server w) ->
  meetings s = meetings (server w) ->
  active s = active (server w) -> pending s = pending (server w) -> tables_ok w s.
Proof. intros H1 H2 H3. apply tables_meetings; [done..|]. rewrite H3. by intros _. Qed.

Lemma meetings_insert m id x : meetings_ok m {| MeetingManager.meetings := <[id := x]> (MeetingManager.meetings m) |}.
Proof.
  intros _ id' Hid. cbn. apply lookup_insert_is_Some. destruct (decide (id = id')); auto.
Qed.

Lemma safe_spawn bad (t : SystemTime -> Task) w :
  (forall w1, future w w1 -> Inv w1 -> task_ok w1 (t (clock w1))) ->
  safe bad (fun _ _ => True) (spawn t) w.
Proof.
  intros Ht. apply ok_atomically; [by intros w1 w2 [] | intros w1 Hf Hi]. cbn.
  set (w2 := set_spawned (spawned w1 ++ [t (clock w1)]) w1).
  assert (future w1 w2) as Hf2 by by apply future_same.
  split_and!; [|done | done]. apply (inv_future w1 w2 Hf2 Hi); [by left.. | | done | done].
  apply Forall_app. split; [apply (spawned_future w1 w2 Hf2), Hi |].
  apply Forall_singleton. eapply task_ok_future; [done | by apply Ht].
Qed.

Lemma safe_now bad w : safe bad (fun _ a => forall t, t <= clock w -> t <= a \/ run_back t) now w.
Proof.
  apply ok_atomically; [by intros w1 w2 [] |].
  intros w1 (_ & Hc & _) Hi. cbn. split_and!; [done | done | exact Hc].
Qed.
End facts.
