(* ===== verification/ServerSafety.v ===== *)
(** * Safety of every handler

    Each handler, waiting loop and socket task of [Server] is [safe], and so
    the invariant holds in every reachable state of [ServerSystem]. *)

From S2P Require Import Prelude Types Stream Encoding EncodingFacts Noise Channel Keypair ServerConfig Zlib Prog Sessions Net Server ServerSystem ServerFacts.

Section safety.
Context {BS : BinaryStream encoding_options} {BL : BinaryStreamLaws encoding_options BS}.
Context {SC : StatusCodes} {SL : StatusCodesLaws SC} {HO : HashOrder} {HL : HashOrderLaws HO}.
Context {N : Noise} {NL : NoiseLaws N} {FL : Flate} {FLL : FlateLaws FL} {HX : Hex} {DI : Display}.
Context {RS : Setting}.

Hint Resolve stable_true stable_state stable_transport stable_key stable_id stable_and : core.

(** ** Computations on a connection *)

Lemma good_bind {A B} bad P Q R (m : SM WebSocketConnection ServerError.t A)
    (k : A -> SM WebSocketConnection ServerError.t B) :
  good bad P Q m -> (forall a, good bad (Q a) R (k a)) -> good bad P R (m ≫= k).
Proof.
  intros Hm Hk conn Hp. unfold mbind, SM_bind. specialize (Hm conn Hp).
  destruct (m conn) as [c1 [a| |]]; [|done..]. destruct Hm as [Hg1 Hq].
  specialize (Hk a c1 Hq). destruct (k a c1) as [c2 r]. destruct Hk as [Hg2 Hr].
  split; [by transitivity c1 | done].
Qed.

Lemma good_weaken {A} (bad bad' : Prop) (P P' : WebSocketConnection -> Prop)
    (Q Q' : A -> WebSocketConnection -> Prop) m :
  (bad -> bad') -> (forall c, P' c -> P c) -> (forall a c, Q a c -> Q' a c) ->
  good bad P Q m -> good bad' P' Q' m.
Proof.
  intros Hb HP HQ Hm conn Hp. specialize (Hm conn (HP _ Hp)).
  destruct (m conn) as [c [a| |]]; cbn in *; intuition.
Qed.

Lemma good_lift {A} bad P (r : Res ServerError.t A) : (r = Panic -> bad) ->
  good bad P (fun _ => P) (sm_lift r).
Proof. intros Hr conn Hp. cbn. split; [done |]. destruct r; cbn; auto. Qed.

Lemma grows_same_state c c' : conn_id c' = conn_id c ->
  conn_public_key c' = conn_public_key c -> conn_state c' = conn_state c -> grows c c'.
Proof.
  intros H1 H2 H3. unfold grows, handshakes. rewrite H3. split_and!; [done | done | done | by left | done].
Qed.

(** A connection in transport mode whose state is replaced by another such. *)
Lemma grows_transport c t t' : conn_state c = Some (Transport t) ->
  grows c (set_conn_state (Some (Transport t')) c).
Proof. intros E. unfold grows, handshakes. cbn. rewrite E. by split_and!; [..|intros _ h]. Qed.


Lemma good_outgoing_send (P : option ProtocolState -> Prop) m :
  good False (fun c => P (conn_state c)) (fun _ c => P (conn_state c)) (outgoing_send m).
Proof.
  intros c Hp. unfold outgoing_send.
  destruct (receiver_open _); (split; [by apply grows_same_state | done]).
Qed.

Lemma deflate_no_panic b : deflate b <> Panic.
Proof. by destruct (deflate_inflate b) as (out & -> & _). Qed.

Lemma good_send (P : option ProtocolState -> Prop) b :
  good False (fun c => P (conn_state c)) (fun _ c => P (conn_state c)) (send b).
Proof.
  unfold send. eapply good_bind; [|intros; apply good_outgoing_send].
  apply good_lift. pose proof (deflate_no_panic b). by destruct (deflate b).
Qed.

Lemma lift_encode_no_panic {A} {E : Encodable BS A} {D : Decodable BS A} {C : Codec A} (a : A) : codec_real a ->
  lift_io (encode a) <> Panic.
Proof. intros H. pose proof (codec_encode_no_panic a H). by destruct (encode a). Qed.

Lemma good_send_response (P : option ProtocolState -> Prop) m : real_response m ->
  good False (fun c => P (conn_state c)) (fun _ c => P (conn_state c)) (send_response m).
Proof.
  intros H. unfold send_response. eapply good_bind; [|intros; apply good_send].
  apply good_lift. intros Hp. by apply (lift_encode_no_panic (C := ResponseMessage_Codec) m) in Hp.
Qed.

(** The chunk whose declared length exceeds its contents. *)
Definition malformed_envelope (e : SealedEnvelope) : Prop :=
  exists c, c ∈ chunks e /\ len (chunk_contents c) < chunk_length c.

#[global] Instance malformed_envelope_dec e : Decision (malformed_envelope e).
Proof.
  destruct (decide (Exists (fun c => len (chunk_contents c) < chunk_length c) (chunks e)))
    as [H|H]; [left | right]; unfold malformed_envelope; by rewrite <- list.Exists_exists.
Defined.

(** A channel operation on a connection in transport mode. *)
Lemma good_on_state {A} (bad : Prop) (m : SM ProtocolState Error A) :
  (forall t, exists t' r, m (Transport t) = (Transport t', r) /\ (r = Panic -> bad)) ->
  good bad in_transport (fun _ => in_transport) (on_state m).
Proof.
  intros Hm c Hc. unfold in_transport, on_state in *.
  destruct (conn_state c) as [[h|t]|] eqn:E; [done | | done].
  destruct (Hm t) as (t' & r & -> & Hr). cbn. split; [by apply (grows_transport c t) |].
  destruct r; cbn; auto.
Qed.

Lemma split_loop_no_panic pieces acc t : (split_loop pieces acc t).2 <> Panic.
Proof.
  revert acc t. induction pieces as [|p ps IH]; intros acc t; [done |].
  cbn [split_loop]. unfold mbind, SM_bind.
  pose proof (ts_write_no_panic t p (zeros (len p + TAGLEN))) as H.
  by destruct (ts_write_message t p _) as [t' [[n b]| |]]; cbn in *; [apply IH | |].
Qed.

Lemma with_transport_run {A} (bad : Prop) (k : TS A) t : ((k t).2 = Panic -> bad) ->
  exists t' r, with_transport NotTransportState id k (Transport t) = (Transport t', r) /\
    (r = Panic -> bad).
Proof.
  intros Hk. unfold with_transport. destruct (k t) as [t' r]. exists t', (map_err id r).
  split; [done |]. by destruct r.
Qed.

Lemma encrypt_transport payload bcast t : exists t' r,
  encrypt_server_channel payload bcast (Transport t) = (Transport t', r) /\ (r = Panic -> False).
Proof.
  apply with_transport_run. unfold mbind, SM_bind, split.
  pose proof (split_loop_no_panic (chunks_of CHUNK_SIZE payload) [] t) as H.
  by destruct (split_loop _ [] t) as [t' [cs| |]].
Qed.

Lemma decrypt_transport env t : exists t' r,
  decrypt_server_channel env (Transport t) = (Transport t', r) /\
  (r = Panic -> malformed_envelope env).
Proof.
  apply with_transport_run. intros Hp.
  destruct (decide (malformed_envelope env)) as [|Hn]; [done | exfalso].
  assert (Forall (fun c => chunk_length c <= len (chunk_contents c)) (chunks env)) as Hall.
  { apply list.Forall_forall. intros c Hc. apply Z.nlt_ge. intros Hl. apply Hn. by exists c. }
  pose proof (join_loop_no_panic _ Hall [] t) as H.
  unfold mbind, SM_bind, join in Hp. by destruct (join_loop _ [] t) as [t' [cs| |]].
Qed.

(** ** Tasks that send *)

Lemma safe_bad_weaken {A} (bad bad' : Prop) (Q : World -> A -> Prop) p w :
  (bad -> bad') -> safe bad Q p w -> safe bad' Q p w.
Proof.
  intros Hb. revert w. induction p as [r|m IH] using Prog_induction; intros w Hp.
  - intros w1 Hf. specialize (Hp w1 Hf). destruct r; cbn in *; auto.
  - intros w1 Hf Hi. specialize (Hp w1 Hf Hi). specialize (IH w1).
    destruct (m w1) as [w2 p']. destruct Hp as (? & ? & ?).
    split_and!; [done | done | by apply IH].
Qed.

Lemma safe_bad {A} (bad : Prop) (Q : World -> A -> Prop) p w : safe False Q p w -> safe bad Q p w.
Proof. by apply safe_bad_weaken. Qed.

Lemma good_send_message message bcast : message <> ServerMessage.Noop ->
  good False in_transport (fun _ _ => True)
    (payload ← sm_lift (lift_io (encode message));
     envelope ← on_state (encrypt_server_channel payload bcast);
     send_response (ResponseMessage.Opaque (OpaqueMessage.ServerMessage envelope))).
Proof.
  intros Hm. eapply good_bind.
  { apply good_lift. intros H.
    by apply (lift_encode_no_panic (C := ServerMessage_Codec) message Hm) in H. }
  intros payload. eapply good_bind; [apply good_on_state, encrypt_transport |].
  intros env. eapply (good_weaken False False);
    [| | | by apply (good_send_response (fun s => is_transport s = true))]; done.
Qed.

Lemma safe_send_message c message bcast w : message <> ServerMessage.Noop ->
  holds in_transport c w -> safe False (fun _ _ => True) (send_message c message bcast) w.
Proof.
  intros Hm Hc. apply (safe_write_conn False in_transport (fun _ => True)); [auto | done |].
  by apply good_send_message.
Qed.

(** The connections filed under keys of a table. *)
Definition table_ok (a : gmap bytes Connection) (w : World) : Prop :=
  forall k c, a !! k = Some c ->
    holds (fun conn => conn_public_key conn = k /\ in_transport conn) c w.

Lemma table_ok_future a w w' : future w w' -> table_ok a w -> table_ok a w'.
Proof. intros Hf Ha k c Hk. eapply holds_future; [|done | by apply Ha]. auto. Qed.

Lemma holds_weaken (P Q : WebSocketConnection -> Prop) c w :
  (forall conn, P conn -> Q conn) -> holds P c w -> holds Q c w.
Proof. intros H (conn & Hc & Hp). exists conn. auto. Qed.

Lemma safe_notify_peers keys message w : message <> ServerMessage.Noop ->
  safe False (fun _ _ => True) (notify_peers keys message) w.
Proof.
  intros Hm. eapply (safe_bind _ (fun w1 a => table_ok a w1)).
  - apply safe_read_state; [intros; by eapply table_ok_future |].
    intros w1 _ Hi. exact (inv_active _ Hi).
  - intros w1 table _ Ht. apply safe_for. intros k w2 _ Hf.
    destruct (table !! k) as [c|] eqn:Hk; [|by apply safe_ret].
    apply safe_send_message; [done |].
    pose proof (table_ok_future _ _ _ Hf Ht k c Hk) as Hc.
    eapply holds_weaken; [|exact Hc]. by intros conn [_ ?].
Qed.

Lemma safe_handle_error c e w : exists_conn c w ->
  safe False (fun _ _ => True) (handle_error c e) w.
Proof.
  intros Hc. eapply (safe_bind _ (fun w1 t => exists_conn c w1 /\
    (t = true -> holds in_transport c w1))).
  - eapply (safe_read_conn _ has_state); [auto | exact Hc | |].
    + intros w1 w2 t Hf [H1 H2]. split; [by eapply holds_future |].
      intros Ht. eapply holds_future; [auto | done | by apply H2].
    + intros w1 conn _ Hconn Hs. split; [by exists conn |]. intros Ht. by exists conn.
  - intros w1 t _ [H1 H2]. destruct t.
    + by apply safe_send_message; [| apply H2].
    + apply (safe_write_conn False has_state (fun _ => True)); [auto | done |].
      eapply (good_weaken False False); [| | | by apply (good_send_response (fun _ => True))];
        done.
Qed.

(** Filing a connection that belongs, and removing entries. *)
Lemma safe_promote c w : holds in_transport c w ->
  safe False (fun _ _ => True) (promote_connection c) w.
Proof.
  intros Hc. eapply (safe_bind _ (fun w1 p =>
    holds (fun conn => conn_public_key conn = p.2 /\ in_transport conn) c w1)).
  - eapply (safe_read_conn _ in_transport); [auto | exact Hc | |].
    + intros w1 w2 p Hf. apply holds_future; auto.
    + intros w1 conn _ Hconn Ht. by exists conn.
  - intros w1 [id k] _ Hk. apply (safe_write_state False (fun _ => True)).
    intros w2 Hf Hi. cbn. split; [|done]. split_and!; [done | done | by intros _ | |].
    + intros k' c'. cbn. intros [[<- <-]|[_ H]]%lookup_insert_Some; [right | by left].
      eapply holds_future; [|done | exact Hk]. auto.
    + intros id' c' H. cbn in H. apply lookup_delete_Some in H as [_ H]. by left.
Qed.

Lemma safe_disconnect c w : exists_conn c w ->
  safe False (fun _ _ => True) (disconnect c) w.
Proof.
  intros Hc. eapply (safe_bind _ (fun _ _ => True)).
  - by eapply (safe_read_conn _ has_state); [auto | exact Hc | |].
  - intros w1 [id k] _ _. apply (safe_write_state False (fun _ => True)).
    intros w2 Hf Hi. cbn. split; [|done]. split_and!; [done | done | by intros _ | |];
      intros k' c' H; cbn in H; apply lookup_delete_Some in H as [_ H]; by left.
Qed.
(** ** Waiting loops *)

(** A zero period, and a start that the clock was set back before. *)
Definition no_period (i : Z) : Prop := i = 0.
Definition unwaitable (i : Z) (start : SystemTime) : Prop := no_period i \/ run_back start.

Lemma safe_interval bad (Q : World -> bool -> Prop) i k w : (i = 0 -> bad) ->
  (forall w1, future w w1 -> safe bad Q (k tt) w1) ->
  safe bad Q (tokio_interval i ≫= k) w.
Proof.
  intros Hi Hk. eapply (safe_bind _ (fun _ _ => True)); [|intros w1 []; auto].
  apply safe_pure. intros w1 _. by destruct (Z.eqb_spec i 0); [apply Hi |].
Qed.

Lemma safe_announce bad l m w : m <> ServerMessage.Noop ->
  safe bad (fun _ _ => True) (log_err (notify_peers l m) ;; mret false) w.
Proof.
  intros Hm. eapply safe_bind; [by apply safe_log_err, safe_bad, safe_notify_peers |].
  intros. by apply safe_ret.
Qed.

Lemma safe_check_timeout start wait session w : start <= clock w \/ run_back start ->
  safe (run_back start) (fun _ _ => True) (check_timeout start wait session) w.
Proof.
  intros Hs. eapply safe_bind; [apply safe_now |]. intros w1 t _ Ht.
  eapply (safe_bind _ (fun _ _ => True)).
  - apply safe_pure. intros w2 _. unfold elapsed.
    destruct (Z.ltb_spec t start); [|done]. destruct Hs as [[]%Ht|]; [lia | done..].
  - intros w2 d _ _. destruct (_ <? _); [by apply safe_announce | by apply safe_ret].
Qed.

Lemma safe_meeting_ready i m w : safe (no_period i) (fun _ _ => True) (wait_for_meeting_ready i m) w.
Proof.
  apply safe_interval; [done |]. intros w1 _.
  eapply (safe_bind _ (fun _ _ => True)); [by apply safe_read_state |].
  intros w2 [[[] target]|] _ _; [by apply safe_announce | by apply safe_ret..].
Qed.

Lemma started_future start w w' : future w w' ->
  start <= clock w \/ run_back start -> start <= clock w' \/ run_back start.
Proof. intros (_ & Hc & _) [?%Hc|]; auto. Qed.

Lemma safe_session_active i start session w : start <= clock w \/ run_back start ->
  safe (unwaitable i start) (fun _ _ => True) (wait_for_session_active i start session) w.
Proof.
  intros Hs. apply safe_interval; [by left |]. intros w1 Hf1.
  eapply (safe_bind _ (fun _ _ => True)); [by apply safe_read_state |].
  intros w2 [[[] target]|] Hf2 _; [by apply safe_announce | | by apply safe_ret].
  eapply safe_bad_weaken; [|apply safe_check_timeout]; [by right |].
  eapply started_future; [|exact Hs]. by transitivity w1.
Qed.

Lemma safe_session_ready i c start session w :
  i = wait_interval (ServerConfig.session run_config) ->
  start <= clock w \/ run_back start -> exists_conn c w ->
  safe (unwaitable i start) (fun _ _ => True) (wait_for_session_ready i c start session) w.
Proof.
  intros Hi Hs Hc. apply safe_interval; [by left |]. intros w1 Hf1.
  eapply (safe_bind _ (fun _ _ => True)); [by apply safe_read_state |].
  intros w2 [ready wait] Hf2 _. assert (future w w2) as Hf by by transitivity w1.
  destruct ready.
  - eapply safe_bind; [by apply safe_log_err, safe_bad, safe_notify_peers |]. intros w3 _ Hf3 _.
    eapply safe_bind; [|intros; by apply safe_ret].
    apply safe_spawn. intros w4 Hf4 _. cbn. split_and!; [done | by left |].
    eapply holds_future; [auto | | exact Hc]. transitivity w2; [done |]. by transitivity w3.
  - eapply safe_bad_weaken; [|apply safe_check_timeout]; [by right | by eapply started_future].
Qed.

Lemma safe_purge i w : i = interval (ServerConfig.session run_config) ->
  safe (no_period i) (fun _ _ => True) (purge_expired i) w.
Proof.
  intros Hi. unfold purge_expired. destruct (decide (i = 0)) as [->|Hne]; [by intros w1 _ |].
  apply safe_interval; [done |]. intros w1 _.
  eapply safe_bind; [|intros; by apply safe_ret].
  apply (safe_write_state _ (fun _ => True)). intros w2 _ _. cbn.
  split; [|done]. apply tables_meetings; [done..| | done | done]. intros H0. congruence.
Qed.

(** ** Requests *)

Lemma safe_service c k message w : exists_conn c w ->
  safe False (fun _ r => r <> Some ServerMessage.Noop) (service c k message) w.
Proof.
  intros Hc. destruct message as [ |code text|owner slots|st|id user|st|req|id peer|st|st|st|id|id|id];
    try (by apply safe_ret).
  - (* NewMeeting *)
    eapply (safe_bind _ (fun w1 p => p.2 = wait_interval (ServerConfig.session run_config))).
    + apply (safe_write_state False (fun p => p.2 = wait_interval (ServerConfig.session run_config))).
      intros w1 _ Hi. cbn. rewrite (inv_config _ Hi). split; [|done].
      apply tables_meetings; [done | done | apply meetings_insert | done | done].
    + intros w1 [id wait] Hf1 Hw. eapply safe_bind; [|intros; by apply safe_ret].
      apply safe_spawn. intros w2 Hf2 _. split; [done |].
      eapply holds_future; [auto | | exact Hc]. by transitivity w1.
  - (* JoinMeeting *)
    eapply (safe_bind _ (fun _ _ => True)).
    { by eapply (safe_read_conn _ has_state); [auto | exact Hc | |]. }
    intros w1 from _ _. apply (safe_write_state False (fun r => r <> Some ServerMessage.Noop)).
    intros w2 _ _. unfold MeetingManager.get_meeting, MeetingManager.get_meeting_mut.
    destruct (MeetingManager.meetings _ !! id) as [m|]; [destruct (Meeting.is_full m) |]; cbn;
      (split; [|done]); first [by apply tables_same | by apply tables_meetings; try apply meetings_insert].
  - (* NewSession *)
    eapply (safe_bind _ (fun w1 p => p.2 = wait_interval (ServerConfig.session run_config))).
    + apply (safe_write_state False (fun p => p.2 = wait_interval (ServerConfig.session run_config))).
      intros w1 _ Hi. cbn. rewrite (inv_config _ Hi).
      by split; [apply tables_same |].
    + intros w1 [id wait] Hf1 Hw. eapply safe_bind; [|intros; by apply safe_ret].
      apply safe_spawn. intros w2 Hf2 _. cbn. split_and!; [done | by left |].
      eapply holds_future; [auto | | exact Hc]. by transitivity w1.
  - (* SessionConnection *)
    eapply (safe_bind _ (fun _ _ => True)).
    { by eapply (safe_read_conn _ has_state); [auto | exact Hc | |]. }
    intros w1 from _ _. apply (safe_write_state False (fun r => r <> Some ServerMessage.Noop)).
    intros w2 _ _. destruct (SessionManager.get_session_mut _ _ _); cbn;
      by split; [apply tables_same |].
  - (* CloseSession *)
    eapply (safe_bind _ (fun _ _ => True)); [by apply safe_read_state |].
    intros w1 found _ _. eapply (safe_bind _ (fun _ _ => True)).
    { apply safe_pure. intros w2 _. destruct found; [|done]. by case_bool_decide. }
    intros w2 _ _ _. eapply safe_bind; [|intros; by apply safe_ret].
    apply (safe_write_state False (fun _ => True)). intros w3 _ _. cbn.
    split; [by apply tables_same | done].
Qed.
(** A request with a slice bound out of range. *)
Definition malformed (m : RequestMessage.t) : Prop :=
  match m with
  | RequestMessage.Transparent
      (TransparentMessage.ServerHandshake (HandshakeMessage.Initiator n buf)) => len buf < n
  | RequestMessage.Opaque (OpaqueMessage.ServerMessage e) => malformed_envelope e
  | _ => False
  end.

Definition in_handshake (s : option ProtocolState) : Prop :=
  exists h, s = Some (Handshake h) /\ responded h.

Lemma grows_handshake c h h' : conn_state c = Some (Handshake h) -> (configured h -> configured h') ->
  grows c (set_conn_state (Some (Handshake h')) c).
Proof.
  intros E Hc. unfold grows, handshakes. cbn. rewrite E. split_and!; [done.. |].
  intros H h1 [= <-]. by apply Hc, H.
Qed.

Lemma good_respond n buf :
  good (len buf < n) handshakes (fun _ c => in_handshake (conn_state c)) (respond n buf).
Proof.
  intros c Hc. unfold respond. destruct (conn_state c) as [[h|t]|] eqn:E; [| done | done].
  specialize (Hc h E).
  destruct (Z.ltb_spec (len buf) n); [done |].
  pose proof (hs_read_no_panic h (takeZ n buf) (zeros 1024)) as Hr.
  pose proof (configured_read h (takeZ n buf) (zeros 1024) Hc) as Hc1.
  destruct (hs_read_message _ _ _) as [h1 [a|e|]] eqn:E1; cbn in *;
    [| by split; [apply (grows_handshake c h) |] | done].
  pose proof (hs_write_no_panic h1 [] (zeros 1024)) as Hw.
  pose proof (configured_write h1 [] (zeros 1024) Hc1) as Hc2.
  destruct (hs_write_message _ _ _) as [h2 [b|e|]] eqn:E2; cbn in *;
    [| by split; [apply (grows_handshake c h) |] | done].
  split; [by apply (grows_handshake c h) |]. exists h2. split; [done |]. by exists h; do 7 eexists.
Qed.

Lemma good_enter_transport :
  good False (fun c => in_handshake (conn_state c)) (fun _ => in_transport) enter_transport.
Proof.
  intros c (h & E & Hr). unfold enter_transport. rewrite E.
  pose proof (into_transport_no_panic h) as Hn.
  destruct (into_transport_mode h) as [t|e|] eqn:Et; cbn; [| | done];
    (split; [unfold grows, handshakes; cbn; rewrite E; split_and!; [done.. | | done] | done]); [done |].
  intros _. right. by exists h, e.
Qed.

Lemma good_server_handshake n buf :
  good (len buf < n) has_state (fun _ => in_transport) (server_handshake n buf).
Proof.
  unfold server_handshake. eapply good_bind.
  { eapply good_weaken; [| | | apply good_respond]; [done | by intros c [] | done]. }
  intros [k payload]. eapply (good_bind _ _ (fun _ c => in_handshake (conn_state c))).
  - eapply (good_weaken False); [| | | by apply (good_send_response in_handshake)]; done.
  - intros _. eapply (good_weaken False); [| | | apply good_enter_transport]; done.
Qed.

(** A section whose effect on the connection is remembered. *)
Lemma safe_write_conn_to bad P R c m w :
  stable P -> stable R -> holds P c w -> good bad P (fun (_ : unit) => R) m ->
  safe bad (fun w1 _ => holds R c w1) (write_conn c m) w.
Proof.
  intros HP HR Hc Hm. apply ok_atomically.
  { intros w1 w2 [[]| |] Hf; cbn; [by apply holds_future | done..]. }
  intros w1 Hf Hi. destruct (holds_future _ _ _ _ HP Hf Hc) as (conn & Hconn & Hp).
  unfold with_conn. rewrite Hconn. specialize (Hm conn Hp).
  destruct (m conn) as [conn' r]. destruct Hm as [Hg Hr].
  destruct (update_conn_ok w1 c conn conn' Hconn Hg Hi) as [H1 H2].
  split_and!; [done | done |]. destruct r; [|done|done]. cbn in *.
  exists conn'. cbn. by rewrite lookup_insert_eq.
Qed.

Lemma transport_has_state conn : in_transport conn -> has_state conn.
Proof.
  unfold in_transport, has_state, handshakes. intros H.
  by split; [intros Hn | intros h Hn]; rewrite Hn in H.
Qed.

Lemma safe_relay c k frame w : exists_conn c w -> (forall from, real_response (frame from)) ->
  safe False (fun _ _ => True) (relay c k frame) w.
Proof.
  intros Hc Hr. eapply (safe_bind _ (fun _ _ => True)).
  { by eapply (safe_read_conn _ has_state); [auto | exact Hc | |]. }
  intros w1 from _ _.
  eapply (safe_bind _ (fun w2 peer => forall p, peer = Some p -> exists_conn p w2)).
  - apply safe_read_state.
    + intros w2 w3 peer Hf H p Hp. eapply holds_future; [auto | done | by apply H].
    + intros w2 _ Hi p Hp. eapply holds_weaken; [|by apply (inv_active _ Hi k)].
      intros conn [_ Ht]. by apply transport_has_state.
  - intros w2 [p|] _ Hp; [|by apply safe_pure].
    apply (safe_write_conn False has_state (fun _ => True)); [auto | by apply Hp |].
    eapply (good_weaken False False); [| | | by apply (good_send_response (fun _ => True))]; done.
Qed.

Lemma safe_check_session id k w : safe False (fun _ _ => True) (check_session id k) w.
Proof.
  apply (safe_write_state False (fun _ => True)). intros w1 _ _.
  destruct (SessionManager.touch_session _ _ _) as [ss [session|]]; [destruct (existsb _ _) |];
    cbn; by split; [apply tables_same |].
Qed.

(** The reply goes through the sender's own connection, whatever connection
    its key is filed under. *)
Lemma safe_reply c message bcast w : message <> ServerMessage.Noop -> exists_conn c w ->
  safe incomplete (fun _ _ => True) (send_message c message bcast) w.
Proof.
  intros Hm Hc. apply (safe_write_conn incomplete has_state (fun _ => True)); [auto | done |].
  eapply good_bind.
  { apply good_lift. intros H.
    by apply (lift_encode_no_panic (C := ServerMessage_Codec) message Hm) in H. }
  intros payload. eapply (good_bind _ _ (fun _ _ => True)).
  - intros conn Hs. unfold on_state. destruct (conn_state conn) as [[h|t]|] eqn:E; cbn.
    + split; [by apply (grows_handshake conn h) | done].
    + destruct (encrypt_transport payload bcast t) as (t' & r & Hr & Hp).
      unfold encrypt_server_channel, with_transport in Hr |- *. rewrite Hr. cbn.
      split; [by apply (grows_transport conn t) | by destruct r].
    + split; [done | by apply (proj1 Hs)].
  - intros env.
    eapply (good_weaken False); [| | | by apply (good_send_response (fun _ => True))]; done.
Qed.

Lemma safe_server_channel c e w : exists_conn c w ->
  safe (malformed_envelope e \/ incomplete) (fun _ _ => True) (server_channel_request c e) w.
Proof.
  intros Hc. eapply (safe_bind _ (fun _ _ => True)).
  { by eapply (safe_read_conn _ has_state); [auto | exact Hc | |]. }
  intros w1 from Hf1 _.
  eapply (safe_bind _ (fun w2 peer => forall p, peer = Some p ->
    holds (fun conn => conn_public_key conn = from /\ in_transport conn) p w2)).
  { apply safe_read_state.
    - intros w2 w3 peer Hf H p Hp. eapply holds_future; [|done | by apply H]. auto.
    - intros w2 _ Hi p Hp. by apply (inv_active _ Hi). }
  intros w2 [p|] Hf2 Hp; [|by apply safe_pure].
  eapply (safe_bind _ (fun _ _ => True)).
  { apply (safe_write_conn _ in_transport (fun _ => True)); [auto | |].
    - eapply holds_weaken; [|by apply Hp]. by intros conn [_ ?].
    - eapply good_weaken; [| | | apply good_on_state, decrypt_transport]; [by left | done..]. }
  intros w3 [enc contents] Hf3 _. destruct enc; [by apply safe_ret | | by apply safe_ret].
  eapply (safe_bind _ (fun _ _ => True)).
  { apply safe_pure. intros w4 _.
    pose proof (codec_decode_wf (C := ServerMessage_Codec) contents) as H.
    by destruct (decode contents). }
  intros w4 request Hf4 _. assert (future w w4) as Hf by (by repeat (etransitivity; [done |])).
  eapply safe_bind; [apply safe_bad, safe_service; by eapply holds_future |].
  intros w5 [response|] Hf5 Hr; [|by apply safe_ret].
  eapply safe_bad_weaken; [|apply safe_reply]; [by right | congruence |].
  eapply holds_future; [auto | | exact Hc]. by transitivity w4.
Qed.
Lemma wf_handshake_real h : wf_handshake h -> real_handshake h.
Proof. by intros H ->. Qed.

Lemma safe_handle_request c m w : wf_request m -> exists_conn c w ->
  safe (malformed m \/ incomplete) (fun _ _ => True) (handle_request c m) w.
Proof.
  intros Hm Hc. destruct m as [ |t|o]; [by apply safe_ret | |].
  - destruct t as [ |code text|h|k h]; [by apply safe_ret.. | |].
    + destruct h as [ |n buf|n buf]; [by apply safe_ret | |by apply safe_ret].
      eapply (safe_bind _ (fun w1 _ => holds in_transport c w1)).
      * eapply (safe_write_conn_to _ has_state); [auto.. | exact Hc |].
        eapply good_weaken; [| | | apply good_server_handshake]; [by left | done..].
      * intros w1 _ _ Ht. by apply safe_bad, safe_promote.
    + apply safe_bad, safe_relay; [done |]. intros from. apply wf_handshake_real, Hm.
  - destruct o as [ |e|k s e]; [by apply safe_ret | |].
    + by apply safe_server_channel.
    + eapply (safe_bind _ (fun _ _ => True)).
      * destruct s; [apply safe_bad, safe_check_session | by apply safe_ret].
      * intros w1 _ Hf _. apply safe_bad, safe_relay; [by eapply holds_future | done].
Qed.

(** A frame that decodes to a malformed request. *)
Definition malformed_frame (buffer : bytes) : Prop :=
  exists m, decode (A := RequestMessage.t) buffer = Ok m /\ malformed m.

Lemma safe_listen c buffer w : exists_conn c w ->
  safe (malformed_frame buffer \/ incomplete) (fun _ _ => True) (listen c buffer) w.
Proof.
  intros Hc. pose proof (codec_decode_wf (C := RequestMessage_Codec) buffer) as Hwf.
  unfold listen. destruct (decode buffer) as [m|e|] eqn:Hd; cbn [lift_io map_err].
  - eapply (safe_bind _ (fun w1 a => a = m)); [by apply safe_pure |].
    intros w1 a Hf ->. assert (exists_conn c w1) as Hc1 by by eapply holds_future.
    apply safe_on_err.
    + eapply safe_bad_weaken; [|by apply safe_handle_request].
      intros [Hm|]; [left; by exists m | by right].
    + intros w2 e Hf2. apply safe_bad, safe_log_err, safe_handle_error. by eapply holds_future.
  - eapply (safe_bind _ (fun _ _ => False)); [by apply safe_pure | done].
  - done.
Qed.

(** ** Sockets *)

Lemma good_incoming_send b : good False has_state (fun _ _ => True) (incoming_send b).
Proof.
  intros c Hp. unfold incoming_send.
  destruct (receiver_open _); (split; [by apply grows_same_state | done]).
Qed.

Lemma safe_read c event w : exists_conn c w ->
  safe False (fun _ _ => True) (read c event) w.
Proof.
  intros Hc. destruct event as [[s|b|b|b|frame]|e|]; try by apply safe_ret.
  - unfold read. pose proof (inflate_no_panic b). destruct (inflate b) as [x| |]; [|by apply safe_ret|done].
    eapply safe_bind; [|intros; by apply safe_ret].
    apply (safe_write_conn False has_state (fun _ => True)); [auto | done |].
    apply good_incoming_send.
  - eapply safe_bind; [|intros; by apply safe_ret]. apply safe_log_err.
    apply (safe_write_conn False has_state (fun _ => True)); [auto | done |].
    eapply (good_weaken False False); [| | | by apply (good_outgoing_send (fun _ => True))]; done.
  - eapply safe_bind; [by apply safe_disconnect |]. intros. by apply safe_pure.
Qed.

Lemma safe_write c sent w : exists_conn c w -> safe False (fun _ _ => True) (write c sent) w.
Proof.
  intros Hc. destruct sent; [by apply safe_ret |].
  eapply safe_bind; [by apply safe_disconnect | intros; by apply safe_ret].
Qed.

Lemma safe_handle_socket c w : exists_conn c w ->
  safe False (fun _ _ => True) (handle_socket c) w.
Proof.
  intros Hc. eapply safe_bind.
  { apply safe_spawn. intros w1 Hf _. by eapply holds_future. }
  intros w1 _ Hf1 _. eapply safe_bind.
  { apply safe_spawn. intros w2 Hf2 _. eapply holds_future; [auto | | exact Hc].
    by transitivity w1. }
  intros w2 _ Hf2 _. apply safe_spawn. intros w3 Hf3 _. eapply holds_future; [auto | | exact Hc].
  transitivity w1; [done | by transitivity w2].
Qed.

(** ** The system *)

(** The excuse a running thread has for a panic. *)
Definition thread_bad (th : Thread) : Prop :=
  match thread_task th with
  | Some (Listen _) => exists buffer, thread_input th = Some buffer /\ (malformed_frame buffer \/ incomplete)
  | Some (WaitSessionReady i _ start _) | Some (WaitSessionActive i _ start _) => unwaitable i start
  | Some (WaitMeetingReady i _ _ _) | Some (PurgeExpired i) => no_period i
  | _ => False
  end.

Definition thread_ok (w : World) (th : Thread) : Prop :=
  safe (thread_bad th) (fun _ _ => True) (thread_prog th) w /\
  (forall t, thread_task th = Some t -> task_ok w t).

Definition system_ok (s : System) : Prop :=
  Inv (world s) /\ Forall (thread_ok (world s)) (running s).

Lemma thread_ok_future w w' th : future w w' -> thread_ok w th -> thread_ok w' th.
Proof.
  intros Hf [H1 H2]. split; [by eapply ok_future; [apply _ |..] |].
  intros t Ht. eapply task_ok_future; [done | by apply H2].
Qed.

Lemma threads_future w w' l : future w w' -> Forall (thread_ok w) l -> Forall (thread_ok w') l.
Proof. intros Hf. apply Forall_impl. intros th. by apply thread_ok_future. Qed.

Lemma starts_ok w t w' th : Inv w -> task_ok w t -> starts w t w' th ->
  Inv w' /\ future w w' /\ thread_ok w' th.
Proof.
  intros Hi Ht Hs. destruct Hs as [c conn b rest Hc Hq|c e|c conn m rest sent Hc Hq|i o st m
    |i o st s|i o st s|i]; cbn in Ht.
  - destruct (update_conn_ok w c conn (set_incoming {| queue := rest;
      receiver_open := receiver_open (incoming conn) |} conn) Hc) as [H1 H2];
      [by apply grows_same_state | done |].
    split_and!; [done | done |]. split; cbn.
    + eapply safe_bind; [|intros; by apply safe_ret].
      eapply safe_bad_weaken; [|apply safe_listen; by eapply holds_future]. by exists b.
    + intros t [= <-]. by eapply task_ok_future.
  - split_and!; [done | done |]. split; [by apply safe_read | by intros t [= <-]].
  - destruct (update_conn_ok w c conn (set_outgoing {| queue := rest;
      receiver_open := receiver_open (outgoing conn) |} conn) Hc) as [H1 H2];
      [by apply grows_same_state | done |].
    split_and!; [done | done |].
    split; [apply safe_write; by eapply holds_future |].
    intros t [= <-]. by eapply task_ok_future.
  - split_and!; [done | done |]. split; [apply safe_meeting_ready | by intros t [= <-]].
  - destruct Ht as (? & ? & ?).
    split_and!; [done | done |]. split; [by apply safe_session_ready | by intros t [= <-]].
  - destruct Ht as (? & ? & ?).
    split_and!; [done | done |]. split; [by apply safe_session_active | by intros t [= <-]].
  - split_and!; [done | done |]. split; [by apply safe_purge | by intros t [= <-]].
Qed.
Lemma set_spawned_ok w l : Inv w -> Forall (task_ok w) l ->
  Inv (set_spawned l w) /\ future w (set_spawned l w).
Proof.
  intros Hi Hl. assert (future w (set_spawned l w)) as Hf.
  { by apply future_same. }
  split; [|done]. apply (inv_future w _ Hf Hi); [by left.. | | done | done].
  revert Hl. apply Forall_impl. intros t. by apply task_ok_future.
Qed.

Lemma finish_ok w t r : Inv w -> (forall t', t = Some t' -> task_ok w t') ->
  Inv (finish t r w) /\ future w (finish t r w).
Proof.
  intros Hi Ht. destruct t as [t|]; [|done]. specialize (Ht t eq_refl).
  assert (Inv (set_spawned (spawned w ++ [t]) w) /\ future w (set_spawned (spawned w ++ [t]) w))
    as Hsp by (apply set_spawned_ok; [done | apply Forall_app; split; [apply Hi | by constructor]]).
  assert (forall c f, (forall conn, grows conn (f conn)) ->
    let w' := match heap w !! c with
              | Some conn => set_heap (<[c := f conn]> (heap w)) w | None => w end in
    Inv w' /\ future w w') as Hclose.
  { intros c f Hg. destruct (heap w !! c) as [conn|] eqn:E; [|done].
    by apply (update_conn_ok w c conn (f conn) E). }
  destruct r as [[]|e|]; destruct t; try exact Hsp; try (by cbn);
    apply Hclose; intros conn'; by apply grows_same_state.
Qed.

Lemma upgrade_ok w k w' c : Inv w -> upgrade k w = (w', Ok c) ->
  Inv w' /\ future w w' /\ exists_conn c w'.
Proof.
  intros Hi Hu. unfold upgrade in Hu. destruct (_ && _); [done |].
  destruct (parse_params _) as [params| |] eqn:Hparams; [|done..]. cbn [map_err] in Hu.
  unfold mbind, Res_bind in Hu.
  destruct (build_responder _ _ k) as [h| |] eqn:Hbuild; [|done..]. cbn [map_err] in Hu. simplify_eq.
  rewrite (inv_config _ Hi) in Hparams. rewrite (inv_keypair _ Hi) in Hbuild.
  pose proof (configured_built params k h Hparams Hbuild) as Hh.
  set (c := fresh (dom (heap w))).
  assert (heap w !! c = None) as Hfresh by (apply not_elem_of_dom, is_fresh).
  set (conn := {| conn_id := next_uuid w; conn_public_key := k; outgoing := chan_new;
    incoming := chan_new; conn_state := Some (Handshake h) |}).
  set (w' := set_server _ _).
  assert (future w w') as Hf.
  { apply future_heap; [done..|]. intros d conn1 Hd. exists conn1. cbn.
    by rewrite lookup_insert_ne by congruence. }
  split_and!; [|done |].
  - apply (inv_future w w' Hf Hi); [by left | | | done | done].
    + intros id d. cbn. intros [[<- <-]|[_ H]]%lookup_insert_Some; [right | by left].
      exists conn. cbn. by rewrite lookup_insert_eq.
    + apply (spawned_future w w' Hf), Hi.
  - exists conn. cbn. rewrite lookup_insert_eq. split; [done |]. split; [done |]. by intros h1 [= <-].
Qed.

Lemma step_ok s s' : system_ok s -> step s s' ->
  (forall t, t <= clock (world s) -> t <= clock (world s') \/ run_back t) ->
  system_ok s' /\ future (world s) (world s').
Proof.
  intros [Hi Hr] Hs Hback. destruct Hs as [s t u|s k w' c Hu|s i t w' th Hl Hst|s i th m w' p Hl Hp Hm
    |s i th r Hl Hp]; cbn [world running] in *.
  - assert (future (world s) (set_env t u (world s))) as Hf.
    { split; [intros c conn H; by exists conn | by split]. }
    split; [|done]. split; [|by eapply threads_future].
    apply (inv_future (world s) _ Hf Hi); [by left.. | | done | done].
    apply (spawned_future _ _ Hf), Hi.
  - destruct (upgrade_ok _ _ _ _ Hi Hu) as (Hi' & Hf & Hc). split; [|done]. split; [done |].
    apply Forall_app. split; [by eapply threads_future |]. constructor; [|done]. split; [|done].
    cbn [thread_prog]. eapply safe_bind; [by apply safe_handle_socket | intros; by apply safe_ret].
  - pose proof (inv_spawned _ Hi) as Hsp.
    destruct (set_spawned_ok (world s) (delete i (spawned (world s))) Hi) as [Hi1 Hf1].
    { by apply Forall_delete. }
    destruct (starts_ok _ _ _ _ Hi1 ltac:(eapply task_ok_future; [exact Hf1 |
      by eapply Forall_lookup_1 in Hl]) Hst) as (Hi2 & Hf2 & Hth).
    assert (future (world s) w') as Hf by (by etransitivity).
    split; [|done]. split; [done |]. apply Forall_app. split; [by eapply threads_future |].
    by constructor.
  - pose proof (Forall_lookup_1 _ _ _ _ Hr Hl) as [Hsafe Htask]. unfold safe in Hsafe.
    rewrite Hp in Hsafe. specialize (Hsafe (world s) ltac:(done) Hi). rewrite Hm in Hsafe.
    destruct Hsafe as (Hi' & Hf & Hok). split; [|done]. split; [done |].
    apply Forall_insert; [by eapply threads_future |]. split; [exact Hok |].
    intros t Ht. eapply task_ok_future; [done | by apply Htask].
  - pose proof (Forall_lookup_1 _ _ _ _ Hr Hl) as [_ Htask].
    destruct (finish_ok (world s) (thread_task th) r Hi Htask) as [Hi' Hf].
    split; [|done]. split; [done |]. apply Forall_delete. by eapply threads_future.
Qed.

Lemma initial_ok t u : system_ok (initial run_config run_keypair t u).
Proof. split; [|done]. split; [by split | by constructor | done | done]. Qed.

(** A purge task without a period never runs a section. *)
Lemma purge_stuck s s' : system_ok s -> step s s' -> interval (ServerConfig.session run_config) = 0 ->
  let stuck th := forall i, thread_task th = Some (PurgeExpired i) -> thread_prog th = Done Panic in
  Forall stuck (running s) -> Forall stuck (running s').
Proof.
  intros [Hi _] Hs H0 stuck Hall. destruct Hs as [| s k w' c _ | s i t w' th Hl Hst | s i th m w' p Hl Hp _
    | s i th r]; cbn [running] in *; [done | | | | by apply Forall_delete].
  - apply Forall_app. split; [done |]. by apply Forall_singleton.
  - apply Forall_app. split; [done |]. apply Forall_singleton.
    pose proof (Forall_lookup_1 _ _ _ _ (inv_spawned _ Hi) Hl) as Ht.
    destruct Hst; intros j [= <-]. cbn in Ht. by rewrite Ht, H0.
  - pose proof (Forall_lookup_1 _ _ _ _ Hall Hl) as Hth. apply Forall_insert; [done |].
    intros j Hj. specialize (Hth j Hj). congruence.
Qed.
End safety.

(** ** Runs *)

Section runs.
Context {BS : BinaryStream encoding_options} {BL : BinaryStreamLaws encoding_options BS}.
Context {SC : StatusCodes} {SL : StatusCodesLaws SC} {HO : HashOrder} {HL : HashOrderLaws HO}.
Context {N : Noise} {NL : NoiseLaws N} {FL : Flate} {FLL : FlateLaws FL} {HX : Hex} {DI : Display}.

Lemma reachable_trans s0 s1 s2 : reachable s0 s1 -> reachable s1 s2 -> reachable s0 s2.
Proof. intros H1. induction 1 as [|s s' _ IH Hs]; [done |]. by eapply reach_step. Qed.

Lemma reachable_once s s' : step s s' -> reachable s s'.
Proof. intros Hs. eapply reach_step; [apply reach_init | done]. Qed.

(** The setting of a run to [s]. *)
Definition setting (cfg : ServerConfig.t) (kp : Keypair.t) (s0 s : System) : Setting :=
  {| run_config := cfg; run_keypair := kp; run_back := set_back s0 s |}.

Section from_start.
Context (cfg : ServerConfig.t) (kp : Keypair.t) (s0 s : System).
#[local] Instance run_setting : Setting := setting cfg kp s0 s.
Hypothesis start_ok : system_ok s0.

(** A step of the run sets the clock back only as the setting says. *)
Lemma run_step s1 s2 : reachable s0 s1 -> system_ok s1 -> step s1 s2 -> reachable s2 s ->
  system_ok s2 /\ future (world s1) (world s2).
Proof.
  intros Hr1 Hok Hs Hr2. apply (step_ok s1 s2 Hok Hs). intros t Ht.
  destruct (Z.le_gt_cases t (clock (world s2))); [by left | right].
  exists s1, s2. split_and!; [done | by apply reachable_once | done | lia | done].
Qed.

Lemma run_ok s1 : reachable s0 s1 -> reachable s1 s -> system_ok s1.
Proof.
  induction 1 as [|s1 s2 Hr1 IH Hs]; intros Hr2; [done |]. eapply run_step; try done.
  apply IH. eapply reachable_trans; [by apply reachable_once | done].
Qed.

(** A property that the steps of the run keep. *)
Lemma run_keeps (P : System -> Prop) s1 : reachable s0 s1 -> P s1 ->
  (forall a b, system_ok a -> step a b -> future (world a) (world b) -> P a -> P b) ->
  reachable s1 s -> P s.
Proof.
  intros Hr1 HP Hstep Hr.
  assert (forall s2, reachable s1 s2 -> reachable s2 s -> P s2) as Hall; [|by apply Hall; [|apply reach_init]].
  induction 1 as [|a b Ha IH Hs]; intros Hr2; [done |].
  assert (reachable a s) as Hra by (eapply reachable_trans; [by apply reachable_once | done]).
  assert (reachable s0 a) as Hr0 by by eapply reachable_trans.
  pose proof (run_ok a Hr0 Hra) as Hok. destruct (run_step a b Hr0 Hok Hs Hr2) as [_ Hf].
  exact (Hstep a b Hok Hs Hf (IH Hra)).
Qed.
End from_start.

(** Without an interval nothing is purged: the purge task has not run a section
    in any state, and the meeting points stay. *)
Lemma never_purged cfg kp t u s1 s2 : interval (ServerConfig.session cfg) = 0 ->
  reachable (initial cfg kp t u) s1 -> reachable s1 s2 ->
  (forall th i, th ∈ running s2 -> thread_task th = Some (PurgeExpired i) -> thread_prog th = Done Panic) /\
  (forall id, is_Some (MeetingManager.meetings (meetings (server (world s1))) !! id) ->
    is_Some (MeetingManager.meetings (meetings (server (world s2))) !! id)).
Proof.
  intros H0 Hr1 Hr2. set (s0 := initial cfg kp t u) in *.
  pose proof (initial_ok (RS := setting cfg kp s0 s2) t u) as Hok. split.
  - assert (Forall (fun th => forall i, thread_task th = Some (PurgeExpired i) -> thread_prog th = Done Panic)
      (running s2)) as Hall.
    { apply (run_keeps cfg kp s0 s2 Hok (fun s => Forall _ (running s)) s0); [apply reach_init | by constructor | |
        by eapply reachable_trans].
      intros a b Ha Hs _. by apply (purge_stuck (RS := setting cfg kp s0 s2) a b Ha Hs). }
    rewrite list.Forall_forall in Hall. intros th i Hin. by apply Hall.
  - intros id Hid. apply (run_keeps cfg kp s0 s2 Hok
      (fun s => is_Some (MeetingManager.meetings (meetings (server (world s))) !! id)) s1); try done.
    intros a b _ _ (_ & _ & Hm). by apply Hm.
Qed.
End runs.
