(* ===== verification/ServerRun.v ===== *)
(** * Running the server's tasks

    Equations for [run] on each kind of section, and the functional
    specification of sending: what reaches the client's end of a connection. *)

From S2P Require Import Prelude Types Stream Encoding EncodingFacts Noise Channel ChannelSpec Keypair ServerConfig Zlib Prog Sessions Net Server.

Section run.
Context {BS : BinaryStream encoding_options} {BL : BinaryStreamLaws encoding_options BS}.
Context {SC : StatusCodes} {SL : StatusCodesLaws SC} {HO : HashOrder} {HL : HashOrderLaws HO}.
Context {N : Noise} {NL : NoiseLaws N} {FL : Flate} {FLL : FlateLaws FL} {HX : Hex} {DI : Display}.

(** The world with one connection replaced. *)
Definition put_conn (c : Connection) (conn : WebSocketConnection) (w : World) : World :=
  set_heap (<[c := conn]> (heap w)) w.

Lemma put_conn_same c conn w : heap w !! c = Some conn -> put_conn c conn w = w.
Proof. intros H. unfold put_conn, set_heap. rewrite insert_id by done. by destruct w. Qed.

Lemma put_conn_twice c conn conn' w : put_conn c conn' (put_conn c conn w) = put_conn c conn' w.
Proof. unfold put_conn, set_heap. cbn. by rewrite insert_insert_eq. Qed.

Lemma lookup_put_conn c conn w : heap (put_conn c conn w) !! c = Some conn.
Proof. apply lookup_insert_eq. Qed.

Lemma run_write_conn {A B} c conn (m : SM WebSocketConnection ServerError.t A)
    (k : A -> Prog World ServerError.t B) w : heap w !! c = Some conn ->
  run (write_conn c m ≫= k) w =
  match m conn with
  | (conn', Ok a) => run (k a) (put_conn c conn' w)
  | (conn', Err e) => (put_conn c conn' w, Err e)
  | (conn', Panic) => (put_conn c conn' w, Panic)
  end.
Proof.
  intros Hc. unfold write_conn. rewrite run_bind_atomically. unfold with_conn. rewrite Hc.
  by destruct (m conn) as [conn' []].
Qed.

Lemma run_write_conn_last {A} c conn (m : SM WebSocketConnection ServerError.t A) w :
  heap w !! c = Some conn ->
  run (write_conn c m) w = let '(conn', r) := m conn in (put_conn c conn' w, r).
Proof.
  intros Hc. unfold write_conn. rewrite run_atomically. unfold with_conn. by rewrite Hc.
Qed.

Lemma run_read_conn {A B} c conn (f : WebSocketConnection -> A)
    (k : A -> Prog World ServerError.t B) w : heap w !! c = Some conn ->
  run (read_conn c f ≫= k) w = run (k (f conn)) w.
Proof.
  intros Hc. unfold read_conn. rewrite run_bind_atomically. unfold with_conn. rewrite Hc.
  cbn. fold (put_conn c conn w). by rewrite put_conn_same.
Qed.

Lemma run_read_state {A B} (f : ServerState -> A) (k : A -> Prog World ServerError.t B) w :
  run (read_state f ≫= k) w = run (k (f (server w))) w.
Proof. unfold read_state. by rewrite run_bind_atomically. Qed.

Lemma run_write_state {A B} (m : SystemTime -> Uuid -> SM ServerState ServerError.t A)
    (k : A -> Prog World ServerError.t B) w :
  run (write_state m ≫= k) w =
  match m (clock w) (next_uuid w) (server w) with
  | (s, Ok a) => run (k a) (set_server s w)
  | (s, Err e) => (set_server s w, Err e)
  | (s, Panic) => (set_server s w, Panic)
  end.
Proof.
  unfold write_state. rewrite run_bind_atomically. by destruct (m _ _ _) as [s []].
Qed.

Lemma run_write_state_last {A} (m : SystemTime -> Uuid -> SM ServerState ServerError.t A) w :
  run (write_state m) w =
  let '(s, r) := m (clock w) (next_uuid w) (server w) in (set_server s w, r).
Proof. apply run_atomically. Qed.

Lemma run_spawn {B} (t : SystemTime -> Task) (k : unit -> Prog World ServerError.t B) w :
  run (spawn t ≫= k) w = run (k tt) (set_spawned (spawned w ++ [t (clock w)]) w).
Proof. done. Qed.

Lemma run_now {B} (k : SystemTime -> Prog World ServerError.t B) w :
  run (now ≫= k) w = run (k (clock w)) w.
Proof. done. Qed.

Lemma run_pure {A B} (r : Res ServerError.t A) (k : A -> Prog World ServerError.t B) w :
  run (pure_step r ≫= k) w =
  match r with Ok a => run (k a) w | Err e => (w, Err e) | Panic => (w, Panic) end.
Proof. by destruct r. Qed.

Lemma run_on_err p (h : ServerError.t -> Prog World ServerError.t unit) w :
  run (on_err p h) w =
  match run p w with
  | (w', Err e) => run (h e) w'
  | (w', r) => (w', r)
  end.
Proof. unfold on_err. rewrite run_run_result. by destruct (run p w) as [w' []]. Qed.

Lemma run_log_err p w :
  run (log_err p) w = match run p w with (w', Err _) => (w', Ok tt) | (w', r) => (w', r) end.
Proof. unfold log_err. rewrite run_on_err. by destruct (run p w) as [w' []]. Qed.

(** ** Sending *)

(** A frame on the socket that the client reads back as [m]. *)
Definition carries (b : bytes) (m : ResponseMessage.t) : Prop :=
  exists frame, inflate b = Ok frame /\ decode frame = Ok m.

(** A connection after a message was queued on it. *)
Definition push_out (m : WsMessage) (conn : WebSocketConnection) : WebSocketConnection :=
  set_outgoing (chan_push m (outgoing conn)) conn.

Lemma send_response_ok m conn : wf_response m -> receiver_open (outgoing conn) = true ->
  exists b, send_response m conn = (push_out (Binary b) conn, Ok tt) /\ carries b m.
Proof.
  intros Hm Ho.
  destruct (codec_encode_decode (C := ResponseMessage_Codec) m Hm) as (frame & He & Hd).
  destruct (deflate_inflate frame) as (b & Hdef & Hinf).
  exists b. split; [|by exists frame].
  unfold send_response, send, mbind, SM_bind, sm_lift. rewrite He. cbn. rewrite Hdef. cbn.
  unfold outgoing_send. by rewrite Ho.
Qed.

(** The connection refuses what cannot be encoded, and nothing is queued. *)
Lemma send_response_closed m conn : receiver_open (outgoing conn) = false ->
  exists r, send_response m conn = (conn, r) /\ r <> Ok tt.
Proof.
  intros Ho. unfold send_response, send, mbind, SM_bind, sm_lift.
  destruct (lift_io (encode m)) as [frame|e|]; [|by eexists..].
  destruct (map_err ServerError.Protocol (deflate frame)); [|by eexists..].
  unfold outgoing_send. rewrite Ho. by eexists.
Qed.
(** What the client at the other end of a connection, with transport [b],
    reads from a message on the socket. *)
Definition delivers (b : TransportState) (bs : bytes) (m : ServerMessage.t) (bcast : bool)
    (b' : TransportState) : Prop :=
  exists env payload,
    carries bs (ResponseMessage.Opaque (OpaqueMessage.ServerMessage env)) /\
    decrypt_server_channel env (Transport b) = (Transport b', Ok (Encoding.Blob, payload)) /\
    decode payload = Ok m /\ broadcast env = bcast.

(** A message that can be sent on a server channel. *)
Definition sendable (m : ServerMessage.t) : Prop :=
  wf_server m /\ forall payload, encode m = Ok payload -> fits_envelope payload.

(** A connection whose client is at the other end with transport [b]. *)
Definition connected (conn : WebSocketConnection) (b : TransportState) : Prop :=
  receiver_open (outgoing conn) = true /\
  exists t, conn_state conn = Some (Transport t) /\ in_step t b.

(** The connection after sending on the server channel. *)
Definition sent_to (conn conn' : WebSocketConnection) (bs : bytes) (b' : TransportState) : Prop :=
  exists t', conn' = push_out (Binary bs) (set_conn_state (Some (Transport t')) conn) /\
    in_step t' b'.

Lemma sent_to_connected conn conn' bs b b' : connected conn b -> sent_to conn conn' bs b' ->
  connected conn' b' /\ conn_id conn' = conn_id conn /\
  conn_public_key conn' = conn_public_key conn /\ incoming conn' = incoming conn /\
  queue (outgoing conn') = queue (outgoing conn) ++ [Binary bs].
Proof. intros [Ho _] (t' & -> & Hs). split_and!; [|done..]. split; [done | by exists t']. Qed.

Lemma run_send_message c conn b m bcast w :
  heap w !! c = Some conn -> connected conn b -> sendable m ->
  exists bs b' conn', run (send_message c m bcast) w = (put_conn c conn' w, Ok tt) /\
    delivers b bs m bcast b' /\ sent_to conn conn' bs b'.
Proof.
  intros Hc (Ho & t & Ht & Hs) [Hm Hf].
  destruct (codec_encode_decode (C := ServerMessage_Codec) m Hm) as (payload & He & Hd).
  destruct (channel_in_step payload bcast t b Hs (Hf _ He)) as (t' & b' & env & H1 & H2 & H3 & _ & H5 & H6).
  destruct (send_response_ok (ResponseMessage.Opaque (OpaqueMessage.ServerMessage env))
    (set_conn_state (Some (Transport t')) conn) H3 Ho) as (bs & Hsend & Hcar).
  eexists bs, b', _. split_and!.
  - unfold send_message. rewrite (run_write_conn_last c conn) by done.
    unfold mbind, SM_bind, sm_lift. rewrite He. cbn [lift_io map_err].
    unfold on_state. rewrite Ht, H1. cbn [map_err]. rewrite Hsend. done.
  - by exists env, payload.
  - by exists t'.
Qed.
End run.
