(* ===== verification/ServerRef.v ===== *)
(** * A reference server

    Concrete parameters and worlds on which the server's properties are
    evaluated: two connected clients, the first of them in a session. *)

From S2P Require Import Prelude Types Stream StreamLE Encoding EncodingFacts EncodingSpec Noise Channel NoiseRef ChannelSpec.
From S2P Require Import Keypair ServerConfig Zlib Prog Sessions Net Server ServerSystem ServerRun.

Definition RefHex : Hex := {| hex_encode := fun b => bytes_str (concat ((fun _ => [Byte.x61; Byte.x62]) <$> b)) |}.

Definition RefDisplay : Display := {|
  uuid_string := fun _ => "0000-00"%string;
  path_string := fun p => String.concat "/" (components p);
  number_string := fun _ => "1"%string;
  kind_string := fun _ => "unexpected end of file"%string;
  slice_error_string := "could not convert slice to array"%string;
  status_error_string := "invalid status code"%string;
  send_error_string := "channel closed"%string;
|}.

(** Every parameter at its reference instance. *)
#[export] Existing Instance RefStream.
#[export] Existing Instance RefStream_laws.
#[export] Existing Instance RefStatus.
#[export] Existing Instance RefStatus_laws.
#[export] Existing Instance ElementsOrder.
#[export] Existing Instance RefNoise.
#[export] Existing Instance RefNoise_laws.
#[export] Existing Instance RefFlate.
#[export] Existing Instance RefFlate_laws.
#[export] Existing Instance RefHex.
#[export] Existing Instance RefDisplay.

Definition ref_keypair : Keypair.t :=
  {| Keypair.inner := {| public := [Byte.x01]; private := [Byte.x02] |} |}.

Definition alice : bytes := [Byte.x0a].
Definition bob : bytes := [Byte.x0b].
Definition the_id : Uuid := zeros 16.

Definition ref_transport : @TransportState RefNoise := {| sent := 0; received := 0 |}.

Definition ref_conn (id : Uuid) (k : bytes) : WebSocketConnection :=
  {| conn_id := id; conn_public_key := k; outgoing := chan_new; incoming := chan_new;
     conn_state := Some (Transport ref_transport) |}.

Definition ref_session : Session.t :=
  {| Session.owner_key := alice; Session.participant_keys := {[bob]};
     Session.connections := ∅; Session.last_access := 0 |}.

Definition ref_state : ServerState :=
  {| keypair := ref_keypair; config := ServerConfig.default; pending := ∅;
     active := {[alice := 0%nat; bob := 1%nat]}; meetings := MeetingManager.default;
     sessions := {| SessionManager.sessions := {[the_id := ref_session]} |} |}.

Definition ref_world : World :=
  {| server := ref_state;
     heap := {[0%nat := ref_conn (zeros 16) alice; 1%nat := ref_conn (zeros 16) bob]};
     spawned := []; clock := from_secs 10; next_uuid := Byte.x01 :: zeros 15 |}.

Definition ref_envelope : SealedEnvelope :=
  {| encoding := Encoding.Json; broadcast := false;
     chunks := [{| chunk_length := 2; chunk_contents := [Byte.x05; Byte.x06] |}] |}.

Lemma ref_connected id k : connected (ref_conn id k) ref_transport.
Proof. split; [done |]. exists ref_transport. split; [done | by split]. Qed.

(** A message known to encode to a few bytes can be sent. *)
Lemma sendable_small (m : ServerMessage.t) bs :
  wf_server m -> encode m = Ok bs -> len bs < 2 ^ 40 -> sendable m.
Proof.
  intros Hm He Hl. split; [done |]. intros p Hp. rewrite He in Hp. simplify_eq.
  unfold fits_envelope, CHUNK_SIZE, TAGLEN. lia.
Qed.
