(* ===== verification/ServerSpec.v ===== *)
(** * Properties of the relay server: safety, relaying, requests

    The invariant of every reachable state, and what the handling of a request
    does to the connections of the sender and of the target. *)

From S2P Require Import Prelude Types Stream StreamLE Encoding EncodingFacts EncodingSpec Noise Channel NoiseRef ChannelSpec.
From S2P Require Import Keypair ServerConfig Zlib Prog Sessions SessionsFacts Net Server ServerSystem ServerFacts ServerSafety ServerRun ServerRef.

Section spec.
Context {BS : BinaryStream encoding_options} {BL : BinaryStreamLaws encoding_options BS}.
Context {SC : StatusCodes} {SL : StatusCodesLaws SC} {HO : HashOrder} {HL : HashOrderLaws HO}.
Context {N : Noise} {NL : NoiseLaws N} {FL : Flate} {FLL : FlateLaws FL} {HX : Hex} {DI : Display}.


(** The world after a session was looked up for relaying. *)
Definition touched (w : World) (session : option Uuid) : World :=
  match session with
  | Some id => set_server (set_sessions
      (SessionManager.touch_session (sessions (server w)) (clock w) id).1 (server w)) w
  | None => w
  end.

(** The target of a relayed message may be reached in its session. *)
Definition may_relay (w : World) (session : option Uuid) (k : bytes) : Prop :=
  match session with
  | Some id => exists s, SessionManager.sessions (sessions (server w)) !! id = Some s /\
      (k = Session.owner_key s \/ k ∈ Session.participant_keys s)
  | None => True
  end.

Lemma touch_session_spec ss now id :
  (SessionManager.touch_session ss now id).2 = None <-> SessionManager.sessions ss !! id = None.
Proof. unfold SessionManager.touch_session. by destruct (SessionManager.sessions ss !! id). Qed.

(** The membership test of a touched session. *)
Lemma existsb_public_keys s k :
  existsb (fun x => bool_decide (x = k)) (Session.public_keys s) = true <->
  k = Session.owner_key s \/ k ∈ Session.participant_keys s.
Proof.
  rewrite existsb_exists, <- elem_of_public_keys. split.
  - intros (x & Hx & He%bool_decide_eq_true). subst. by apply list_elem_of_In.
  - intros H. exists k. split; [by apply list_elem_of_In | by apply bool_decide_eq_true].
Qed.

(** The three outcomes of the session check. *)
Lemma run_check_session {B} (k : unit -> Prog World ServerError.t B) id key w :
  run (check_session id key ≫= k) w =
  match SessionManager.sessions (sessions (server w)) !! id with
  | None => (touched w (Some id), Err (ServerError.SessionNotFound id))
  | Some s =>
      if existsb (fun x => bool_decide (x = key)) (Session.public_keys s)
      then run (k tt) (touched w (Some id))
      else (touched w (Some id), Err (ServerError.NotSessionParticipant id (hex_encode key)))
  end.
Proof.
  unfold check_session. rewrite run_write_state. unfold touched, SessionManager.touch_session.
  destruct (SessionManager.sessions (sessions (server w)) !! id) as [s|]; [|done].
  cbn [fst snd].
  change (Session.public_keys {| Session.owner_key := Session.owner_key s;
    Session.participant_keys := Session.participant_keys s;
    Session.connections := Session.connections s; Session.last_access := clock w |})
    with (Session.public_keys s).
  by destruct (existsb _ _).
Qed.

Lemma run_relay c conn key frame w : heap w !! c = Some conn ->
  run (relay c key frame) w =
  match active (server w) !! key with
  | Some p => run (write_conn p (send_response (frame (conn_public_key conn)))) w
  | None => (w, Err (ServerError.PeerNotFound (hex_encode key)))
  end.
Proof.
  intros Hc. unfold relay. rewrite (run_read_conn c conn) by done. rewrite run_read_state.
  by destruct (active (server w) !! key).
Qed.

(** A peer message whose session allows it is relayed. *)
Lemma run_relay_peer_message c conn k session envelope w :
  heap w !! c = Some conn -> may_relay w session k ->
  run (handle_request c (RequestMessage.Opaque (OpaqueMessage.PeerMessage k session envelope))) w =
  match active (server w) !! k with
  | Some p => run (write_conn p (send_response (ResponseMessage.Opaque
      (OpaqueMessage.PeerMessage (conn_public_key conn) session envelope)))) (touched w session)
  | None => (touched w session, Err (ServerError.PeerNotFound (hex_encode k)))
  end.
Proof.
  intros Hc Hmay. cbn [handle_request]. unfold relay_peer_message.
  destruct session as [id|].
  - destruct Hmay as (s & Hid & Hm). rewrite run_check_session, Hid.
    rewrite (proj2 (existsb_public_keys s k) Hm). by rewrite (run_relay c conn).
  - rewrite run_bind. cbn [run mret Prog_ret]. by rewrite (run_relay c conn).
Qed.

(** It reaches an active target with an open socket. *)
Lemma run_relay_ok c p conn peer k session envelope w :
  wf_request (RequestMessage.Opaque (OpaqueMessage.PeerMessage k session envelope)) ->
  heap w !! c = Some conn -> wf_buffer (conn_public_key conn) ->
  active (server w) !! k = Some p -> heap w !! p = Some peer ->
  receiver_open (outgoing peer) = true -> may_relay w session k ->
  exists bs,
    run (handle_request c
      (RequestMessage.Opaque (OpaqueMessage.PeerMessage k session envelope))) w
      = (put_conn p (push_out (Binary bs) peer) (touched w session), Ok tt) /\
    carries bs (ResponseMessage.Opaque
      (OpaqueMessage.PeerMessage (conn_public_key conn) session envelope)).
Proof.
  intros (_ & Hs & He) Hc Hkey Hk Hp Ho Hmay.
  destruct (send_response_ok (ResponseMessage.Opaque
    (OpaqueMessage.PeerMessage (conn_public_key conn) session envelope)) peer) as (bs & Hsend & Hcar);
    [done.. |].
  exists bs. split; [|done]. rewrite (run_relay_peer_message c conn), Hk by done.
  rewrite (run_write_conn_last p peer) by by destruct session. by rewrite Hsend.
Qed.

(** C18. The relay delivers or refuses.  When the session of a peer message has
    the target as a member (or the message names no session) and the target is
    active with an open socket, the handler succeeds, refreshes the session and
    queues exactly one frame on the target's socket; that frame reads back as
    the same sealed envelope and session, stamped with the sender's own key
    whatever key the frame came with, and no other connection changes.
    Otherwise nothing is queued on any connection: an unknown session is
    [SessionNotFound], a target that is not a member of the session
    [NotSessionParticipant], and a target without an active connection
    [PeerNotFound], each reported with the session or the target's key. *)
Theorem relay_exact (c : Connection) (conn : WebSocketConnection) (k : bytes)
    (session : option Uuid) (envelope : SealedEnvelope) (w : World) :
  heap w !! c = Some conn ->
  let request := RequestMessage.Opaque (OpaqueMessage.PeerMessage k session envelope) in
  let (w', r) := run (handle_request c request) w in
  (forall p peer, wf_request request -> wf_buffer (conn_public_key conn) ->
    active (server w) !! k = Some p -> heap w !! p = Some peer ->
    receiver_open (outgoing peer) = true -> may_relay w session k ->
    exists bs, w' = put_conn p (push_out (Binary bs) peer) (touched w session) /\ r = Ok tt /\
      carries bs (ResponseMessage.Opaque (OpaqueMessage.PeerMessage (conn_public_key conn) session envelope))) /\
  (forall id, session = Some id -> SessionManager.sessions (sessions (server w)) !! id = None ->
    r = Err (ServerError.SessionNotFound id) /\ heap w' = heap w) /\
  (forall id s, session = Some id ->
    SessionManager.sessions (sessions (server w)) !! id = Some s ->
    k <> Session.owner_key s -> k ∉ Session.participant_keys s ->
    r = Err (ServerError.NotSessionParticipant id (hex_encode k)) /\ heap w' = heap w) /\
  (may_relay w session k -> active (server w) !! k = None ->
    r = Err (ServerError.PeerNotFound (hex_encode k)) /\ heap w' = heap w).
Proof.
  intros Hc request. destruct (run (handle_request c request) w) as [w' r] eqn:E. split.
  { intros p peer Hwf Hkey Hk Hp Ho Hmay.
    destruct (run_relay_ok c p conn peer k session envelope w) as (bs & Hrun & Hcar); [done.. |].
    fold request in Hrun. rewrite E in Hrun. simplify_eq. by exists bs. }
  unfold request in E. cbn [handle_request] in E. unfold relay_peer_message in E. split_and!.
  - intros id -> Hn. rewrite run_check_session, Hn in E. by simplify_eq.
  - intros id s -> Hs H1 H2. rewrite run_check_session, Hs in E.
    destruct (existsb _ _) eqn:Ex; [|by simplify_eq].
    by apply existsb_public_keys in Ex as [|].
  - intros Hmay Hk. pose proof (run_relay_peer_message c conn k session envelope w Hc Hmay) as H.
    cbn [handle_request] in H. unfold relay_peer_message in H. rewrite E, Hk in H. simplify_eq.
    by destruct session.
Qed.

(** [service] does not touch the connections, and does not panic. *)
Lemma service_effect c conn k m w : heap w !! c = Some conn ->
  let (w', r) := run (service c k m) w in
  heap w' = heap w /\ active (server w') = active (server w) /\ r <> Panic.
Proof.
  intros Hc. destruct m as [ |code text|owner slots|st|id user|st|req|id peer|st|st|st|id|id|id];
    cbn [service]; try done.
  - rewrite (run_read_conn c conn) by done. rewrite run_write_state_last.
    destruct (MeetingManager.get_meeting _ _) eqn:E; [|done].
    unfold MeetingManager.get_meeting_mut, MeetingManager.get_meeting in *. rewrite E.
    by destruct (Meeting.is_full _).
  - rewrite (run_read_conn c conn) by done. rewrite run_write_state_last.
    by destruct (SessionManager.get_session_mut _ _ _).
  - rewrite run_read_state, run_pure.
    destruct (SessionManager.get_session _ _); [|done]. by case_bool_decide.
Qed.

(** What a client sees of a request: nothing, or one message on its server
    channel, with which both ends stay in step. *)
Definition replies (c : Connection) (conn : WebSocketConnection) (b : TransportState)
    (m : ServerMessage.t) (w2 : World) (out : World * Res ServerError.t unit) : Prop :=
  exists bs b' conn', out = (put_conn c conn' w2, Ok tt) /\
    delivers b bs m false b' /\ sent_to conn conn' bs b'.

(** Listening to a request sealed by the client is the call of [service]. *)
Lemma run_listen_rpc c conn t t1 env buffer payload m w :
  heap w !! c = Some conn -> active (server w) !! conn_public_key conn = Some c ->
  conn_state conn = Some (Transport t) ->
  decode buffer = Ok (RequestMessage.Opaque (OpaqueMessage.ServerMessage env)) ->
  decrypt_server_channel env (Transport t) = (Transport t1, Ok (Encoding.Blob, payload)) ->
  decode payload = Ok m ->
  run (listen c buffer) w = run (on_err
    (response ← service c (conn_public_key conn) m;
     match response with Some r => send_message c r false | None => mret tt end)
    (fun e => log_err (handle_error c e))) (put_conn c (set_conn_state (Some (Transport t1)) conn) w).
Proof.
  intros Hc Ha Ht Hdb H2 Hd. unfold listen. rewrite run_pure, Hdb. cbn [lift_io map_err].
  rewrite !run_on_err. cbn [handle_request]. unfold server_channel_request.
  rewrite (run_read_conn c conn) by done. rewrite run_read_state, Ha.
  rewrite (run_write_conn c conn) by done. unfold on_state. rewrite Ht, H2. cbn [map_err].
  rewrite run_pure, Hd. done.
Qed.

(** How a call of [service] answers. *)
Lemma rpc_outcome c conn1 b1 k m w1 :
  heap w1 !! c = Some conn1 -> connected conn1 b1 ->
  let out := run (on_err
    (response ← service c k m;
     match response with Some r => send_message c r false | None => mret tt end)
    (fun e => log_err (handle_error c e))) w1 in
  match run (service c k m) w1 with
  | (w2, Ok (Some r)) => heap w2 = heap w1 /\ (sendable r -> replies c conn1 b1 r w2 out)
  | (w2, Ok None) => heap w2 = heap w1 /\ out = (w2, Ok tt)
  | (w2, Err e) => heap w2 = heap w1 /\
      let r := ServerMessage.Error INTERNAL_SERVER_ERROR (ServerError_to_string e) in
      (sendable r -> replies c conn1 b1 r w2 out)
  | (_, Panic) => False
  end.
Proof.
  intros Hc1 Hconn out. pose proof (service_effect c conn1 k m w1 Hc1) as Heff.
  unfold out. rewrite run_on_err, run_bind.
  destruct (run (service c k m) w1) as [w2 [[r|]|e|]];
    destruct Heff as (Hh & _ & Hnp); [| | |done]; cbv beta iota.
  - split; [done |]. intros Hr.
    destruct (run_send_message c conn1 b1 r false w2) as (bs & b' & conn' & -> & ? & ?);
      [by rewrite Hh | done | done |]. by exists bs, b', conn'.
  - by cbn.
  - split; [done |]. set (r := ServerMessage.Error _ _). intros Hr.
    rewrite run_log_err. unfold handle_error.
    rewrite (run_read_conn c conn1) by (by rewrite Hh).
    destruct Hconn as (Ho & t & Ht & Hs). rewrite Ht. cbn [is_transport]. cbv iota.
    fold r.
    destruct (run_send_message c conn1 b1 r false w2) as (bs & b' & conn' & Hsend & ? & ?);
      [by rewrite Hh | split; [done | by exists t] | done |].
    rewrite Hsend. by exists bs, b', conn'.
Qed.

(** The server channel implements remote calls of [service].  Let a
    client in transport mode seal a well-formed request for its own active
    connection.  The frame is encodable, and listening to it has exactly the
    effect of the plain call [service] on the sender's key: when the call
    answers, the answer is what the client decrypts next; when it answers
    nothing, nothing is sent; when it fails, the client decrypts an internal
    server error with the error's text.  The two ends stay in step, no other
    connection is touched, and the listener goes on. *)
Theorem server_rpc (c : Connection) (conn : WebSocketConnection) (b : TransportState)
    (m : ServerMessage.t) (w : World) :
  heap w !! c = Some conn -> active (server w) !! conn_public_key conn = Some c ->
  connected conn b -> sendable m ->
  exists payload b1 env buffer conn1,
    encode m = Ok payload /\
    encrypt_server_channel payload false (Transport b) = (Transport b1, Ok env) /\
    encode (RequestMessage.Opaque (OpaqueMessage.ServerMessage env)) = Ok buffer /\
    connected conn1 b1 /\ conn_public_key conn1 = conn_public_key conn /\
    outgoing conn1 = outgoing conn /\
    let w1 := put_conn c conn1 w in
    match run (service c (conn_public_key conn) m) w1 with
    | (w2, Ok (Some r)) => heap w2 = heap w1 /\
        (sendable r -> replies c conn1 b1 r w2 (run (listen c buffer) w))
    | (w2, Ok None) => heap w2 = heap w1 /\ run (listen c buffer) w = (w2, Ok tt)
    | (w2, Err e) => heap w2 = heap w1 /\
        let r := ServerMessage.Error INTERNAL_SERVER_ERROR (ServerError_to_string e) in
        (sendable r -> replies c conn1 b1 r w2 (run (listen c buffer) w))
    | (_, Panic) => False
    end.
Proof.
  intros Hc Ha (Ho & t & Ht & Hs) [Hm Hf].
  destruct (codec_encode_decode (C := ServerMessage_Codec) m Hm) as (payload & He & Hd).
  destruct (channel_in_step payload false b t (in_step_sym _ _ Hs) (Hf _ He))
    as (b1 & t1 & env & H1 & H2 & H3 & _ & _ & H6).
  destruct (codec_encode_decode (C := RequestMessage_Codec)
    (RequestMessage.Opaque (OpaqueMessage.ServerMessage env)) H3) as (buffer & Heb & Hdb).
  set (conn1 := set_conn_state (Some (Transport t1)) conn).
  exists payload, b1, env, buffer, conn1. split_and!; try done.
  { split; [done |]. exists t1. split; [done | by apply in_step_sym]. }
  intros w1. rewrite (run_listen_rpc c conn t t1 env buffer payload m w) by done.
  apply rpc_outcome; [apply lookup_put_conn |].
  split; [done |]. exists t1. split; [done | by apply in_step_sym].
Qed.

(** C19. Only its owner closes a session.  Whatever request a client with key
    [k] makes, sessions that were open before and are not afterwards were
    owned by [k], and the request was [CloseSession]; a request to close a
    session of somebody else is denied and changes nothing; and a session the
    request opens belongs to [k] with the requested participants, no
    connections yet, and is not among the ones that existed unless the fresh
    identifier was in use. *)
Theorem session_ownership (c : Connection) (conn : WebSocketConnection) (k : bytes)
    (m : ServerMessage.t) (w : World) :
  heap w !! c = Some conn ->
  let (w', r) := run (service c k m) w in
  let before := SessionManager.sessions (sessions (server w)) in
  let after := SessionManager.sessions (sessions (server w')) in
  (forall id s, before !! id = Some s -> after !! id = None ->
    m = ServerMessage.CloseSession id /\ Session.owner_key s = k /\
    r = Ok (Some (ServerMessage.SessionFinished id))) /\
  (forall id s, m = ServerMessage.CloseSession id -> before !! id = Some s ->
    Session.owner_key s <> k -> r = Err ServerError.PermissionDenied /\ w' = w) /\
  (forall id s, after !! id = Some s -> before !! id = None ->
    id = next_uuid w /\ Session.owner_key s = k /\ Session.connections s = ∅ /\
    exists req, m = ServerMessage.NewSession req /\
      Session.participant_keys s = list_to_set (request_participant_keys req)).
Proof.
  intros Hc. destruct m as [ |code text|owner slots|st|id user|st|req|id peer|st|st|st|id|id|id];
    cbn [service]; try (cbn; split_and!; naive_solver congruence).
  - rewrite (run_read_conn c conn) by done. rewrite run_write_state_last.
    destruct (MeetingManager.get_meeting _ _) eqn:E; [|cbn; split_and!; naive_solver congruence].
    unfold MeetingManager.get_meeting_mut, MeetingManager.get_meeting in *. rewrite E.
    destruct (Meeting.is_full _); cbn; split_and!; naive_solver congruence.
  - cbn. split_and!; [|done|].
    + intros id s H1 [H2 _]%lookup_insert_None. congruence.
    + intros id s [[<- <-]|[_ H]]%lookup_insert_Some Hn; [|congruence]. cbn. split_and!; eauto.
  - rewrite (run_read_conn c conn) by done. rewrite run_write_state_last.
    unfold SessionManager.get_session_mut.
    destruct (SessionManager.sessions _ !! id) as [s0|] eqn:E;
      cbn; split_and!; try naive_solver congruence.
    + intros id' s H1 [H2 H3]%lookup_insert_None. congruence.
    + intros id' s [[<- <-]|[_ H]]%lookup_insert_Some Hn; congruence.
  - rewrite run_read_state, run_pure. unfold SessionManager.get_session.
    destruct (SessionManager.sessions _ !! id) as [s0|] eqn:E;
      [case_bool_decide as Hk |]; cbn; split_and!; try naive_solver congruence.
    + intros id' s H1 [<-|H2]%lookup_delete_None; [|congruence]. by simplify_eq.
    + intros id' s [_ H]%lookup_delete_Some Hn. congruence.
Qed.
End spec.

(** ** Evaluations on the reference server *)


Lemma relay_exact_witness :
  (run (handle_request 0%nat (RequestMessage.Opaque
    (OpaqueMessage.PeerMessage bob (Some the_id) ref_envelope))) ref_world).2 = Ok tt /\
  (run (handle_request 0%nat (RequestMessage.Opaque
    (OpaqueMessage.PeerMessage [Byte.x0c] (Some the_id) ref_envelope))) ref_world).2
    = Err (ServerError.NotSessionParticipant the_id (hex_encode [Byte.x0c])).
Proof.
  split.
  - pose proof (relay_exact 0%nat (ref_conn (zeros 16) alice) bob (Some the_id) ref_envelope ref_world eq_refl) as H.
    cbv zeta in H. destruct (run _ ref_world) as [w' r]. destruct H as [H _].
    destruct (H 1%nat (ref_conn (zeros 16) bob)) as (bs & _ & Hr & _).
    + repeat split; try discriminate; try (by vm_compute). repeat constructor; by vm_compute.
    + by vm_compute.
    + reflexivity.
    + reflexivity.
    + reflexivity.
    + exists ref_session. split; [reflexivity | right; set_solver].
    + exact Hr.
  - pose proof (relay_exact 0%nat (ref_conn (zeros 16) alice) [Byte.x0c] (Some the_id)
      ref_envelope ref_world eq_refl) as H.
    cbv zeta in H. destruct (run _ ref_world) as [w' r]. destruct H as (_ & _ & H & _).
    apply (H the_id ref_session); [done | reflexivity | done | set_solver].
Defined.

Lemma server_rpc_witness : exists payload b1 env buffer,
  encode (ServerMessage.CloseSession the_id) = Ok payload /\
  encrypt_server_channel payload false (Transport ref_transport) = (Transport b1, Ok env) /\
  encode (RequestMessage.Opaque (OpaqueMessage.ServerMessage env)) = Ok buffer /\
  exists bs b' conn' w2, run (listen 0%nat buffer) ref_world = (put_conn 0%nat conn' w2, Ok tt) /\
    delivers b1 bs (ServerMessage.SessionFinished the_id) false b'.
Proof.
  destruct (server_rpc 0%nat (ref_conn (zeros 16) alice) ref_transport
    (ServerMessage.CloseSession the_id) ref_world) as
    (payload & b1 & env & buffer & conn1 & H1 & H2 & H3 & _ & Hk & _ & H).
  - reflexivity.
  - reflexivity.
  - apply ref_connected.
  - by eapply sendable_small; [|by vm_compute|by vm_compute].
  - exists payload, b1, env, buffer. split_and!; [done.. |].
    cbv zeta in H.
    assert (exists w2, run (service 0%nat alice (ServerMessage.CloseSession the_id))
      (put_conn 0%nat conn1 ref_world) = (w2, Ok (Some (ServerMessage.SessionFinished the_id))))
      as [w2 Hs] by (eexists; reflexivity).
    cbn [conn_public_key ref_conn] in H. rewrite Hs in H. destruct H as [_ H].
    destruct H as (bs & b' & conn' & Hr & Hd & _).
    + by eapply sendable_small; [|by vm_compute|by vm_compute].
    + by exists bs, b', conn', w2.
Defined.

Lemma session_ownership_witness :
  (run (service 1%nat bob (ServerMessage.CloseSession the_id)) ref_world).2
    = Err ServerError.PermissionDenied.
Proof.
  pose proof (session_ownership 1%nat (ref_conn (zeros 16) bob) bob
    (ServerMessage.CloseSession the_id) ref_world eq_refl) as H.
  destruct (run _ ref_world) as [w' r]. destruct H as (_ & H & _).
  by apply (H the_id ref_session).
Defined.
