(* ===== verification/ServerTasksSpec.v ===== *)
(** * Properties of the relay server: sockets, waiting loops, expiry

    Admission of connections, notification of peers, the loops that wait for a
    session, expiry, disconnection and the configuration file. *)

From S2P Require Import Prelude Types Stream StreamLE Encoding EncodingFacts EncodingSpec Noise Channel NoiseRef ChannelSpec.
From S2P Require Import Keypair ServerConfig ServerConfigFacts Zlib Prog Sessions SessionsFacts Net Server ServerSystem ServerFacts ServerSafety ServerRun ServerRef.

Section spec.
Context {BS : BinaryStream encoding_options} {BL : BinaryStreamLaws encoding_options BS}.
Context {SC : StatusCodes} {SL : StatusCodesLaws SC} {HO : HashOrder} {HL : HashOrderLaws HO}.
Context {N : Noise} {NL : NoiseLaws N} {FL : Flate} {FLL : FlateLaws FL} {HX : Hex} {DI : Display}.

(** A key on an access list. *)
Definition listed (l : option (list AccessKey)) (k : bytes) : Prop :=
  exists a, a ∈ default [] l /\ access_public_key a = k.

Lemma existsb_listed l k :
  existsb (fun a => bool_decide (access_public_key a = k)) l = true <-> listed (Some l) k.
Proof.
  unfold listed. rewrite existsb_exists. split; intros (a & Ha & He); exists a.
  - apply bool_decide_eq_true in He. by rewrite list_elem_of_In.
  - rewrite <- list_elem_of_In. split; [done | by apply bool_decide_eq_true].
Qed.

Lemma is_allowed_access_spec cfg k :
  ServerConfig.is_allowed_access cfg k = true <->
  ~ listed (ServerConfig.deny cfg) k /\
  (ServerConfig.allow cfg = None \/ listed (ServerConfig.allow cfg) k).
Proof.
  unfold ServerConfig.is_allowed_access.
  destruct (ServerConfig.deny cfg) as [d|] eqn:Ed; [pose proof (existsb_listed d k) as Hd;
    destruct (existsb _ d) |];
    (destruct (ServerConfig.allow cfg) as [a|] eqn:Ea; [pose proof (existsb_listed a k) as Ha |]);
    unfold listed in *; set_solver.
Qed.

(** C20. Admission.  A socket is refused with [FORBIDDEN] exactly when its key
    is on the deny list, or an allow list exists and does not have it; a
    refused or failed upgrade leaves the server as it was.  An accepted one
    adds one connection with the offered key, in the handshake state of a
    responder with the server's private key, filed as pending under the fresh
    identifier; it is not active, and no other connection changes. *)
Theorem upgrade_admission (k : bytes) (w : World) :
  let cfg := config (server w) in
  let (w', r) := upgrade k w in
  (r = Err FORBIDDEN <->
    listed (ServerConfig.deny cfg) k \/
    (ServerConfig.allow cfg <> None /\ ~ listed (ServerConfig.allow cfg) k)) /\
  (forall e, r = Err e -> w' = w) /\
  (forall c, r = Ok c -> heap w !! c = None /\ exists params h,
    parse_params (default PATTERN (ServerConfig.pattern cfg)) = Ok params /\
    build_responder params (Keypair.private_key (keypair (server w))) k = Ok h /\
    heap w' = <[c := {| conn_id := next_uuid w; conn_public_key := k; outgoing := chan_new;
                        incoming := chan_new; conn_state := Some (Handshake h) |}]> (heap w) /\
    pending (server w') = <[next_uuid w := c]> (pending (server w)) /\
    active (server w') = active (server w)).
Proof.
  intros cfg. destruct (upgrade k w) as [w' r] eqn:E. unfold upgrade in E. fold cfg in E.
  pose proof (is_allowed_access_spec cfg k) as Hacc.
  assert ((bool_decide (is_Some (ServerConfig.allow cfg)) || bool_decide (is_Some (ServerConfig.deny cfg)))
    && negb (ServerConfig.is_allowed_access cfg k) = negb (ServerConfig.is_allowed_access cfg k)) as Hb.
  { destruct (ServerConfig.is_allowed_access cfg k) eqn:Ea; [by rewrite andb_false_r |].
    rewrite andb_true_r. unfold ServerConfig.is_allowed_access in Ea.
    destruct (ServerConfig.allow cfg), (ServerConfig.deny cfg); done. }
  rewrite Hb in E. clear Hb.
  assert (ServerConfig.is_allowed_access cfg k = false <->
    listed (ServerConfig.deny cfg) k \/
    (ServerConfig.allow cfg <> None /\ ~ listed (ServerConfig.allow cfg) k)) as Hneg.
  { assert (Decision (listed (ServerConfig.deny cfg) k)) as Hdd.
    { destruct (ServerConfig.deny cfg) as [d|]; [|right; unfold listed; set_solver].
      pose proof (existsb_listed d k) as Hl. destruct (existsb _ d); [left | right]; naive_solver. }
    rewrite <- not_true_iff_false, Hacc. destruct (ServerConfig.allow cfg); destruct Hdd; naive_solver. }
  rewrite <- Hneg. clear Hneg Hacc.
  destruct (ServerConfig.is_allowed_access cfg k); cbn [negb] in E.
  - unfold mbind, Res_bind in E.
    pose proof (parse_params_no_panic (default PATTERN (ServerConfig.pattern cfg))) as Hp1.
    destruct (parse_params _) as [params| |] eqn:Ep; cbn in E; [| |done]; simplify_eq.
    2: { by split_and!; intros; simplify_eq. }
    destruct (build_responder params _ k) as [h| |] eqn:Eb; cbn in E; simplify_eq;
      split_and!; try by intros; simplify_eq.
    intros c [= <-]. split; [apply not_elem_of_dom, is_fresh |]. by exists params, h.
  - simplify_eq. by split_and!.
Qed.

(** ** Notifying peers *)

Lemma run_prog_for_cons {A} (x : A) l (f : A -> Prog World ServerError.t unit) w :
  run (prog_for (x :: l) f) w =
  match run (f x) w with
  | (w', Ok tt) => run (prog_for l f) w'
  | (w', Err e) => (w', Err e)
  | (w', Panic) => (w', Panic)
  end.
Proof. cbn [prog_for]. rewrite run_bind. by destruct (run (f x) w) as [w' [[]| |]]. Qed.

(** The body of the loop of [notify_peers]. *)
Definition notify_one (table : gmap bytes Connection) (m : ServerMessage.t) (k : bytes) :
    Prog World ServerError.t unit :=
  match table !! k with
  | Some conn => send_message conn m true
  | None => mret tt
  end.

Lemma run_notify_peers keys m w :
  run (notify_peers keys m) w = run (prog_for keys (notify_one (active (server w)) m)) w.
Proof. unfold notify_peers. by rewrite run_read_state. Qed.

(** The entries of a table for these keys: distinct keys have connections of
    their own, each with a client in step. *)
Definition reachable_peers (table : gmap bytes Connection) (keys : list bytes) (w : World) : Prop :=
  forall k c, k ∈ keys -> table !! k = Some c -> exists conn b,
    heap w !! c = Some conn /\ conn_public_key conn = k /\ connected conn b.

(** One peer is notified: its connection alone changes. *)
Lemma notify_one_ok table m k w : sendable m -> reachable_peers table [k] w ->
  exists w1, run (notify_one table m k) w = (w1, Ok tt) /\ server w1 = server w /\
    spawned w1 = spawned w /\
    (forall c, table !! k <> Some c -> heap w1 !! c = heap w !! c) /\
    (forall c conn b, table !! k = Some c -> heap w !! c = Some conn -> connected conn b ->
      exists bs b' conn', heap w1 !! c = Some conn' /\ delivers b bs m true b' /\
        sent_to conn conn' bs b').
Proof.
  intros Hm Hr. unfold notify_one. destruct (table !! k) as [c|] eqn:Ht; [|by exists w].
  destruct (Hr k c) as (conn & b & Hc & _ & Hconn); [by left | done |].
  destruct (run_send_message c conn b m true w Hc Hconn Hm) as (bs & b' & conn' & Hrun & _ & _).
  rewrite Hrun. exists (put_conn c conn' w). split_and!; [done.. | |].
  - intros d Hd. cbn. rewrite lookup_insert_ne by congruence. done.
  - intros d conn1 b1 [= <-] Hc1 Hconn1.
    destruct (run_send_message c conn1 b1 m true w Hc1 Hconn1 Hm) as (bs1 & b1' & conn1' & Hrun1 & ? & ?).
    rewrite Hrun in Hrun1. injection Hrun1 as Heq. exists bs1, b1', conn1'. split; [|done].
    change (put_conn c conn' w) with (put_conn c conn' w).
    assert (heap (put_conn c conn' w) !! c = heap (put_conn c conn1' w) !! c) as -> by
      (unfold put_conn; cbn; by rewrite Heq).
    apply lookup_put_conn.
Qed.

Lemma notify_loop table m keys w :
  sendable m -> NoDup keys -> reachable_peers table keys w ->
  exists w', run (prog_for keys (notify_one table m)) w = (w', Ok tt) /\ server w' = server w /\
    spawned w' = spawned w /\
    (forall c, (forall k, k ∈ keys -> table !! k <> Some c) -> heap w' !! c = heap w !! c) /\
    (forall k c conn b, k ∈ keys -> table !! k = Some c -> heap w !! c = Some conn ->
      connected conn b -> exists bs b' conn', heap w' !! c = Some conn' /\
        delivers b bs m true b' /\ sent_to conn conn' bs b').
Proof.
  intros Hm Hnd. revert w. induction Hnd as [|k keys Hk Hnd IH]; intros w Hr.
  { exists w. split_and!; try done. by intros k c conn b ?%elem_of_nil. }
  destruct (notify_one_ok table m k w Hm) as (w1 & Hrun1 & Hsrv1 & Hsp1 & Hother1 & Hself1).
  { intros k' c ->%list_elem_of_singleton. apply Hr. by left. }
  assert (forall k' c, k' ∈ keys -> table !! k' = Some c -> heap w1 !! c = heap w !! c) as Hsame.
  { intros k' c Hk' Ht'. apply Hother1. intros Ht.
    destruct (Hr k c) as (c1 & _ & Hc1 & <- & _); [by left | done |].
    destruct (Hr k' c) as (c2 & _ & Hc2 & <- & _); [by right | done |].
    rewrite Hc1 in Hc2. by simplify_eq. }
  destruct (IH w1) as (w2 & Hrun2 & Hsrv2 & Hsp2 & Hother2 & Hself2).
  { intros k' c Hk' Ht'. rewrite (Hsame k' c) by done. apply Hr; [by right | done]. }
  exists w2. split_and!; [by rewrite run_prog_for_cons, Hrun1 | congruence | congruence | |].
  - intros c Hc. rewrite Hother2, Hother1; [done | |]; [apply Hc; by left |].
    intros k' Hk'. apply Hc. by right.
  - intros k' c conn b [->|Hk']%elem_of_cons Ht' Hc Hconn.
    + rewrite Hother2; [by eapply Hself1 |]. intros k'' Hk'' Ht''.
      destruct (Hr k c) as (c1 & _ & Hc1 & <- & _); [by left | done |].
      destruct (Hr k'' c) as (c2 & _ & Hc2 & <- & _); [by right | done |].
      rewrite Hc1 in Hc2. by simplify_eq.
    + apply (Hself2 k'); [done..| by rewrite (Hsame k') | done].
Qed.

(** C21. Notifications reach every connected participant.  When the active
    connections of distinct keys each have their client in step and an open
    socket, [notify_peers] queues on each of them one broadcast frame that the
    client decrypts to the message; keys without an active connection are
    passed over, and nothing else changes.  A participant whose socket is
    closed, however, stops the loop: the participants after it hear nothing. *)
Theorem notify_reaches_peers (keys later : list bytes) (k : bytes) (m : ServerMessage.t) (w : World) :
  sendable m -> NoDup keys -> reachable_peers (active (server w)) keys w ->
  (exists w', run (notify_peers keys m) w = (w', Ok tt) /\ server w' = server w /\
    spawned w' = spawned w /\
    (forall c, (forall k, k ∈ keys -> active (server w) !! k <> Some c) ->
      heap w' !! c = heap w !! c) /\
    (forall k c conn b, k ∈ keys -> active (server w) !! k = Some c -> heap w !! c = Some conn ->
      connected conn b -> exists bs b' conn', heap w' !! c = Some conn' /\
        delivers b bs m true b' /\ sent_to conn conn' bs b')) /\
  (forall c conn t, active (server w) !! k = Some c -> heap w !! c = Some conn ->
    conn_state conn = Some (Transport t) -> receiver_open (outgoing conn) = false ->
    exists w' r, run (notify_peers (k :: later) m) w = (w', r) /\ r <> Ok tt /\
      forall d, d <> c -> heap w' !! d = heap w !! d).
Proof.
  intros Hm Hnd Hr. split; [rewrite run_notify_peers; by apply notify_loop |].
  intros c conn t Hk Hc Ht Ho. rewrite run_notify_peers, run_prog_for_cons.
  unfold notify_one at 1. rewrite Hk. unfold send_message.
  rewrite (run_write_conn_last c conn) by done. unfold mbind at 1, SM_bind at 1, sm_lift.
  destruct (lift_io (encode m)) as [payload|e|].
  2,3: do 2 eexists; split_and!; [done | done |]; intros d Hd; cbn;
    by rewrite lookup_insert_ne.
  unfold mbind at 1, SM_bind at 1, on_state. rewrite Ht.
  destruct (encrypt_server_channel payload true (Transport t)) as [s' r1].
  destruct (map_err ServerError.Protocol r1) as [env| |].
  2,3: do 2 eexists; split_and!; [done | done |]; intros d Hd; cbn;
    by rewrite lookup_insert_ne.
  destruct (send_response_closed (ResponseMessage.Opaque (OpaqueMessage.ServerMessage env))
    (set_conn_state (Some s') conn) Ho) as (r & -> & Hne).
  destruct r as [[]| |]; [done | |]; (do 2 eexists; split_and!; [done | done |]);
    intros d Hd; cbn; by rewrite lookup_insert_ne.
Qed.
(** ** Waiting loops *)

(** Connections in transport mode stay so when one of them is sent a message,
    which does not panic. *)
Lemma run_send_filed (P : Connection -> Prop) c m b w : m <> ServerMessage.Noop -> P c ->
  (forall d, P d -> holds in_transport d w) ->
  let (w', r) := run (send_message c m b) w in r <> Panic /\ forall d, P d -> holds in_transport d w'.
Proof.
  intros Hm Hc Hw. destruct (Hw c Hc) as (conn & Hconn & Ht).
  set (RS := {| run_config := config (server w); run_keypair := keypair (server w);
                run_back := fun _ => False |}).
  pose proof (good_send_message (RS := RS) m b Hm conn Ht) as Hg.
  unfold send_message, write_conn. rewrite run_atomically. unfold with_conn. rewrite Hconn.
  match type of Hg with (let '(_, _) := ?x in _) => destruct x as [conn' r] end.
  destruct Hg as [(_ & _ & Hg & _) Hr].
  split; [by destruct r |]. intros d Hd. destruct (decide (c = d)) as [->|Hne].
  - exists conn'. cbn. rewrite lookup_insert_eq. split; [done | by apply Hg].
  - destruct (Hw d Hd) as (conn1 & H1 & H2). exists conn1. cbn. by rewrite lookup_insert_ne.
Qed.

(** A notification whose error is only logged ends. *)
Lemma run_logged_notify keys m w : m <> ServerMessage.Noop -> filed w ->
  exists w', run (log_err (notify_peers keys m)) w = (w', Ok tt).
Proof.
  intros Hm [Ha _]. rewrite run_log_err. unfold notify_peers. rewrite run_read_state.
  set (table := active (server w)) in *.
  assert (forall k c, table !! k = Some c -> holds in_transport c w) as Hw.
  { intros k c Hk. destruct (Ha k c Hk) as (conn & ? & _ & ?). by exists conn. }
  clearbody table. clear Ha.
  assert ((run (prog_for keys (notify_one table m)) w).2 <> Panic) as Hn.
  { revert w Hw. induction keys as [|k keys IH]; intros w Hw; [done |].
    cbn [prog_for]. rewrite run_bind. unfold notify_one at 1.
    destruct (table !! k) as [c|] eqn:Hk; [|by apply IH].
    pose proof (run_send_filed (fun d => exists k, table !! k = Some d) c m true w Hm (ex_intro _ k Hk)
      ltac:(by intros d [k' ?%Hw])) as Hs.
    destruct (run (send_message c m true) w) as [w' [[]| |]]; [|by destruct Hs..].
    destruct Hs as [_ Hs]. apply IH. intros k' c' Hk'. apply Hs. by exists k'. }
  change (prog_for keys _) with (prog_for keys (notify_one table m)).
  destruct (run (prog_for keys (notify_one table m)) w) as [w' [[]| |]]; [by exists w'.. | done].
Qed.

Lemma run_logged_announce {B} keys m (k : unit -> Prog World ServerError.t B) w : m <> ServerMessage.Noop -> filed w ->
  run (log_err (notify_peers keys m) ≫= k) w = run (k tt) (run (notify_peers keys m) w).1.
Proof.
  intros Hm Hi. rewrite run_bind. destruct (run_logged_notify keys m w Hm Hi) as (w' & Hr). rewrite Hr.
  rewrite run_log_err in Hr. by destruct (run (notify_peers keys m) w) as [w1 [[]| |]]; simplify_eq.
Qed.

Lemma run_interval {B} i (k : unit -> Prog World ServerError.t B) w : 0 < i ->
  run (tokio_interval i ≫= k) w = run (k tt) w.
Proof.
  intros Hi. unfold tokio_interval. rewrite run_pure. by rewrite (proj2 (Z.eqb_neq _ _)) by lia.
Qed.

(** The end of an iteration that found its session not yet there. *)
Definition timed (start : SystemTime) (secs : Z) (w : World) (late on : World * Res ServerError.t bool)
    (out : World * Res ServerError.t bool) : Prop :=
  (clock w < start -> out = (w, Panic)) /\
  (start <= clock w -> from_secs secs < clock w - start -> out = late) /\
  (start <= clock w -> clock w - start <= from_secs secs -> out = on).

Lemma run_check_timeout start secs session w : filed w ->
  timed start secs w
    ((run (notify_peers (all_participants session) (ServerMessage.SessionTimeout (session_id session))) w).1, Ok false)
    (w, Ok true) (run (check_timeout start secs session) w).
Proof.
  intros Hi. unfold check_timeout. rewrite run_now, run_pure. unfold elapsed, timed.
  destruct (Z.ltb_spec (clock w) start); [by split_and!; intros; try lia |].
  destruct (Z.ltb_spec (from_secs secs) (clock w - start)); (split_and!; intros; try lia); [|done].
  unfold notify_session_timeout. by rewrite run_logged_announce.
Qed.

(** Every participant of a session is active. *)
Definition all_active (w : World) (session : SessionState) : Prop :=
  forall k, k ∈ all_participants session -> is_Some (active (server w) !! k).

Lemma all_active_bool w session :
  forallb (fun k => bool_decide (is_Some (active (server w) !! k))) (all_participants session) = true
  <-> all_active w session.
Proof.
  rewrite forallb_forall. unfold all_active.
  split; intros H k Hk; specialize (H k); rewrite <- ?list_elem_of_In in *;
    [by eapply bool_decide_eq_true_1, H | by apply bool_decide_eq_true_2, H].
Qed.

(** The configured time to wait for a session. *)
Definition wait_secs (w : World) : Z := wait_timeout (ServerConfig.session (config (server w))).

(** C22. Waiting for a session to become ready.  When the server's tables are
    consistent (as they are in every reachable state) and the period is not 0,
    one iteration of the loop does one of these things: when every participant
    has an active connection, it announces [SessionReady] to the participants,
    starts the task that waits for the session to be active from the current
    time, and ends; otherwise, when the clock was set back to before the start
    of the loop, it panics; when more than the configured time has passed since
    then, it announces [SessionTimeout] and ends; otherwise it changes nothing
    and goes on.  On a clock that is not set back the loop therefore ends at
    the latest with the first iteration after the timeout. *)
Theorem session_ready_iteration (i : Z) (owner : Connection) (start : SystemTime)
    (session : SessionState) (w : World) :
  filed w -> 0 < i ->
  let out := run (wait_for_session_ready i owner start session) w in
  let notified m := (run (notify_peers (all_participants session) m) w).1 in
  (all_active w session ->
    let w' := notified (ServerMessage.SessionReady session) in
    out = (set_spawned (spawned w' ++ [WaitSessionActive i owner (clock w') session]) w', Ok false)) /\
  (~ all_active w session ->
    (clock w < start -> out = (w, Panic)) /\
    (start <= clock w -> from_secs (wait_secs w) < clock w - start ->
      out = (notified (ServerMessage.SessionTimeout (session_id session)), Ok false)) /\
    (start <= clock w -> clock w - start <= from_secs (wait_secs w) -> out = (w, Ok true))).
Proof.
  intros Hi Hpos out notified.
  assert (out = if forallb (fun k => bool_decide (is_Some (active (server w) !! k)))
      (all_participants session)
    then run (log_err (notify_session_ready session) ;;
      spawn (fun current => WaitSessionActive i owner current session) ;; mret false) w
    else run (check_timeout start (wait_secs w) session) w) as ->.
  { unfold out, wait_for_session_ready. rewrite run_interval by done. rewrite run_read_state.
    by destruct (forallb _ _). }
  split.
  - intros Ha w'. rewrite (proj2 (all_active_bool w session) Ha).
    unfold notify_session_ready. by rewrite run_logged_announce.
  - intros Ha. destruct (forallb _ _) eqn:E; [by apply all_active_bool in E |].
    by apply run_check_timeout.
Qed.

(** C23. Waiting for a session to become active.  When the server's tables are
    consistent (as they are in every reachable state) and the period is not 0,
    one iteration ends the loop silently when the session is gone; announces
    [SessionActive] and ends when every two members of the session are
    connected; and otherwise panics when the clock was set back to before the
    start of the loop, announces [SessionTimeout] and ends when the time is
    up, and changes nothing and goes on when it is not. *)
Theorem session_active_iteration (i : Z) (start : SystemTime) (session : SessionState) (w : World) :
  filed w -> 0 < i ->
  let out := run (wait_for_session_active i start session) w in
  let notified m := (run (notify_peers (all_participants session) m) w).1 in
  let linked_up s := forall a b, a <> b ->
    (a = Session.owner_key s \/ a ∈ Session.participant_keys s) ->
    (b = Session.owner_key s \/ b ∈ Session.participant_keys s) ->
    (a, b) ∈ Session.connections s \/ (b, a) ∈ Session.connections s in
  match SessionManager.sessions (sessions (server w)) !! session_id session with
  | None => out = (w, Ok false)
  | Some s =>
      (linked_up s -> out = (notified (ServerMessage.SessionActive session), Ok false)) /\
      (~ linked_up s ->
        (clock w < start -> out = (w, Panic)) /\
        (start <= clock w -> from_secs (wait_secs w) < clock w - start ->
          out = (notified (ServerMessage.SessionTimeout (session_id session)), Ok false)) /\
        (start <= clock w -> clock w - start <= from_secs (wait_secs w) -> out = (w, Ok true)))
  end.
Proof.
  intros Hi Hpos out notified linked_up.
  unfold out, wait_for_session_active. rewrite run_interval by done. rewrite run_read_state.
  unfold SessionManager.get_session.
  destruct (SessionManager.sessions (sessions (server w)) !! session_id session) as [s|]; [|done].
  assert (Session.is_active s = true <-> linked_up s) as Hact by apply is_active_members.
  destruct (Session.is_active s).
  - assert (linked_up s) by by apply Hact. split; [|done]. intros _.
    unfold notify_session_active. by rewrite run_logged_announce.
  - assert (~ linked_up s) by by intros ?%Hact. split; [done |]. intros _. by apply run_check_timeout.
Qed.

(** ** Expiry *)

Lemma remove_sessions_spec keys m id :
  SessionManager.sessions (foldl SessionManager.remove_session m keys) !! id =
  if bool_decide (id ∈ keys) then None else SessionManager.sessions m !! id.
Proof.
  revert m. induction keys as [|k keys IH]; intros m; [done |]. cbn [foldl]. rewrite IH. cbn.
  destruct (decide (id ∈ keys)) as [Hin|Hin].
  - rewrite !bool_decide_true; [done | by right | done].
  - rewrite (bool_decide_false (id ∈ keys)) by done. destruct (decide (id = k)) as [->|Hne].
    + rewrite bool_decide_true by by left. apply lookup_delete_eq.
    + rewrite bool_decide_false by (by intros [|]%elem_of_cons). by rewrite lookup_delete_ne.
Qed.

Lemma remove_meetings_spec keys m id :
  MeetingManager.meetings (foldl MeetingManager.remove_meeting m keys) !! id =
  if bool_decide (id ∈ keys) then None else MeetingManager.meetings m !! id.
Proof.
  revert m. induction keys as [|k keys IH]; intros m; [done |]. cbn [foldl]. rewrite IH. cbn.
  destruct (decide (id ∈ keys)) as [Hin|Hin].
  - rewrite !bool_decide_true; [done | by right | done].
  - rewrite (bool_decide_false (id ∈ keys)) by done. destruct (decide (id = k)) as [->|Hne].
    + rewrite bool_decide_true by by left. apply lookup_delete_eq.
    + rewrite bool_decide_false by (by intros [|]%elem_of_cons). by rewrite lookup_delete_ne.
Qed.

(** A time of last access from which the configured lifetime has passed. *)
Definition outlived (w : World) (last : SystemTime) : Prop :=
  last + from_secs (timeout (ServerConfig.session (config (server w)))) < clock w.

(** C24. Expiry is exact.  With a timeout in the range of the clock, one
    iteration of the reaper removes precisely the sessions and the meeting
    points whose last access is longer ago than the configured timeout, leaves
    every other one unchanged, and touches neither connections nor tables;
    the reaper never ends by itself. *)
Theorem purge_exact (i : Z) (w : World) :
  0 < i ->
  let secs := timeout (ServerConfig.session (config (server w))) in
  0 <= secs -> secs * 1000 < 2 ^ 64 ->
  (forall id s, SessionManager.sessions (sessions (server w)) !! id = Some s ->
    Session.last_access s + from_secs secs < 2 ^ 63 * nanos_per_sec) ->
  (forall id m, MeetingManager.meetings (meetings (server w)) !! id = Some m ->
    Meeting.last_access m + from_secs secs < 2 ^ 63 * nanos_per_sec) ->
  let (w', r) := run (purge_expired i) w in
  r = Ok true /\ heap w' = heap w /\ active (server w') = active (server w) /\
  pending (server w') = pending (server w) /\
  (forall id s, SessionManager.sessions (sessions (server w')) !! id = Some s <->
    SessionManager.sessions (sessions (server w)) !! id = Some s /\
    ~ outlived w (Session.last_access s)) /\
  (forall id m, MeetingManager.meetings (meetings (server w')) !! id = Some m <->
    MeetingManager.meetings (meetings (server w)) !! id = Some m /\
    ~ outlived w (Meeting.last_access m)).
Proof.
  intros Hi secs H0 Hmax Hs Hm. unfold purge_expired. rewrite run_interval by done.
  rewrite run_write_state. cbn -[SessionManager.expired_keys MeetingManager.expired_keys foldl].
  split_and!; [done.. | |].
  - intros id s. rewrite remove_sessions_spec. case_bool_decide as He.
    + rewrite elem_of_expired_sessions in He. destruct He as (s' & Hs' & He).
      apply expired_spec in He; [|done | done | by eapply Hs].
      split; [done | intros [Hs1 Hn]]. rewrite Hs' in Hs1. by simplify_eq.
    + split; [|tauto]. intros Hs'. split; [done |]. intros Ho. apply He.
      apply elem_of_expired_sessions. exists s. split; [done |].
      by apply expired_spec; [done | done | by eapply Hs |].
  - intros id m. rewrite remove_meetings_spec. case_bool_decide as He.
    + rewrite elem_of_expired_meetings in He. destruct He as (m' & Hm' & He).
      apply expired_spec in He; [|done | done | by eapply Hm].
      split; [done | intros [Hm1 Hn]]. rewrite Hm' in Hm1. by simplify_eq.
    + split; [|tauto]. intros Hm'. split; [done |]. intros Ho. apply He.
      apply elem_of_expired_meetings. exists m. split; [done |].
      by apply expired_spec; [done | done | by eapply Hm |].
Qed.

(** ** Connections of the same key *)

(** C25. A key is served by its latest handshake.  Promotion files the
    connection under its key, replacing an older connection of the same key,
    and takes it off the pending ones.  Disconnection removes the entry of the
    key whichever connection it is: when an old socket of the key fails after
    a newer one was promoted, the newer connection is no longer active. *)
Theorem promotion_and_disconnection (old new : Connection) (co cn : WebSocketConnection)
    (w : World) :
  heap w !! old = Some co -> heap w !! new = Some cn ->
  conn_public_key co = conn_public_key cn ->
  let (w1, r1) := run (promote_connection new) w in
  let (w2, r2) := run (disconnect old) w1 in
  r1 = Ok tt /\ r2 = Ok tt /\ heap w2 = heap w /\
  active (server w1) = <[conn_public_key cn := new]> (active (server w)) /\
  pending (server w1) = delete (conn_id cn) (pending (server w)) /\
  active (server w2) !! conn_public_key cn = None /\
  (forall k, k <> conn_public_key cn -> active (server w2) !! k = active (server w) !! k).
Proof.
  intros Ho Hn Hk. unfold promote_connection. rewrite (run_read_conn new cn) by done.
  rewrite run_write_state_last. unfold sm_modify at 1. cbv beta iota. unfold disconnect.
  rewrite (run_read_conn old co) by done. rewrite run_write_state_last. cbn.
  split_and!; [done.. | |].
  - rewrite Hk. apply lookup_delete_eq.
  - intros k Hne. rewrite Hk, lookup_delete_ne, lookup_insert_ne by done. done.
Qed.
(** ** The configuration file *)

(** C26. What a loaded configuration guarantees.  Let the file exist, be read
    and parse.  Then [load] succeeds with a configuration and a key pair exactly
    when the expiry interval is longer than the session timeout, the wait
    timeout is longer than the wait interval, there is a key path, it resolves
    (against the directory of the file, when it is relative) to a file that
    exists and holds that key pair, the paths of the TLS section resolve if
    there is one, and the configuration is that of the file with these paths in
    place.  A file that breaks one of the two orderings, or has no key path, is
    refused with the error for it, in that order.  A zero wait interval is not
    among the conditions, so it is accepted, although each of the three kinds
    of task that wait with it panics at once, without having announced
    anything. *)
Theorem load_validates {F : Files} {P : Pem} (path : Path) (contents : string)
    (raw : ServerConfig.t) :
  try_exists path = Ok true -> read_to_string path = Ok contents ->
  toml_from_str contents = Ok raw ->
  let s := ServerConfig.session raw in
  (forall cfg kp, load path = Ok (cfg, kp) <->
    timeout s < interval s /\ wait_interval s < wait_timeout s /\ ServerConfig.key raw <> Path_default /\
    exists dir file pem, parent path = Some dir /\ resolve dir (ServerConfig.key raw) = Ok file /\
      try_exists file = Ok true /\ read_to_string file = Ok pem /\
      decode_keypair (str_bytes pem) = Ok kp /\
      match ServerConfig.tls raw with
      | None => cfg = set_key file raw
      | Some tls => exists cert key, resolve dir (tls_cert tls) = Ok cert /\ resolve dir (tls_key tls) = Ok key /\
          cfg = set_tls (Some {| tls_cert := cert; tls_key := key |}) (set_key file raw)
      end) /\
  (interval s <= timeout s -> load path = Err ServerError.SessionTimeoutConfig) /\
  (timeout s < interval s -> wait_timeout s <= wait_interval s ->
    load path = Err ServerError.SessionWaitConfig) /\
  (timeout s < interval s -> wait_interval s < wait_timeout s ->
    ServerConfig.key raw = Path_default -> load path = Err ServerError.KeyFileRequired) /\
  (wait_interval s = 0 -> forall owner start session meeting w,
    run (wait_for_meeting_ready (wait_interval s) meeting) w = (w, Panic) /\
    run (wait_for_session_ready (wait_interval s) owner start session) w = (w, Panic) /\
    run (wait_for_session_active (wait_interval s) start session) w = (w, Panic)).
Proof.
  intros He Hc Ht s. rewrite (load_validated path contents raw He Hc Ht). fold s.
  split; [intros cfg kp | split_and!; [intros ?.. | by intros ->]].
  - destruct (Z.leb_spec (interval s) (timeout s)); [split; [done | lia] |].
    destruct (Z.leb_spec (wait_timeout s) (wait_interval s)); [split; [done | lia] |].
    case_bool_decide as Hk; [split; [done | by intros (_ & _ & ? & _)] |].
    rewrite load_rest_ok. naive_solver.
  - by rewrite (proj2 (Z.leb_le _ _)).
  - intros ?. by rewrite (proj2 (Z.leb_gt _ _)), (proj2 (Z.leb_le _ _)).
  - intros ??. by rewrite !(proj2 (Z.leb_gt _ _)), bool_decide_true.
Qed.
End spec.

(** ** Evaluations on the reference server *)

Lemma upgrade_admission_witness :
  let w := set_server {| keypair := ref_keypair;
    config := {| ServerConfig.key := Path_default; ServerConfig.pattern := None;
      ServerConfig.session := SessionConfig_default; ServerConfig.tls := None;
      ServerConfig.allow := None; ServerConfig.deny := Some [{| access_public_key := bob |}] |};
    pending := ∅; active := ∅; meetings := MeetingManager.default;
    sessions := SessionManager.default |} ref_world in
  (upgrade bob w).2 = Err FORBIDDEN.
Proof.
  intros w. pose proof (upgrade_admission bob w) as H. cbv zeta in H.
  destruct (upgrade bob w) as [w' r]. destruct H as [H _]. apply H. left.
  exists {| access_public_key := bob |}. split; [by left | done].
Defined.

Definition finished : ServerMessage.t := ServerMessage.SessionTimeout the_id.

Lemma finished_sendable : sendable finished.
Proof. by eapply sendable_small; [|by vm_compute|by vm_compute]. Qed.

Lemma notify_reaches_peers_witness : exists w',
  run (notify_peers [alice; bob] finished) ref_world = (w', Ok tt) /\
  exists bs b' conn', heap w' !! 1%nat = Some conn' /\ delivers ref_transport bs finished true b' /\
    sent_to (ref_conn (zeros 16) bob) conn' bs b'.
Proof.
  destruct (notify_reaches_peers [alice; bob] [] bob finished ref_world) as [H _].
  - exact finished_sendable.
  - apply (bool_decide_unpack _). by vm_compute.
  - intros k c Hk Ht. rewrite !elem_of_cons, elem_of_nil in Hk.
    destruct Hk as [->|[->|[]]].
    + assert (c = 0%nat) as -> by (by injection Ht as <-).
      exists (ref_conn (zeros 16) alice), ref_transport. split; [reflexivity |].
      split; [done | apply ref_connected].
    + assert (c = 1%nat) as -> by (by injection Ht as <-).
      exists (ref_conn (zeros 16) bob), ref_transport. split; [reflexivity |].
      split; [done | apply ref_connected].
  - destruct H as (w' & Hr & _ & _ & _ & H). exists w'. split; [exact Hr |].
    apply (H bob 1%nat (ref_conn (zeros 16) bob) ref_transport);
      [right; by left | reflexivity | reflexivity | apply ref_connected].
Defined.

Definition ref_session_state (keys : list bytes) : SessionState :=
  {| session_id := the_id; all_participants := keys |}.

(** The tables of the reference world are consistent. *)
Lemma ref_world_filed : filed ref_world.
Proof.
  split; cbn.
  - intros k c Hk. change (({[alice := 0%nat; bob := 1%nat]} : gmap bytes nat) !! k = Some c) in Hk.
    rewrite lookup_insert_Some, lookup_singleton_Some in Hk.
    destruct Hk as [[<- <-]|[_ [<- <-]]];
      [exists (ref_conn (zeros 16) alice) | exists (ref_conn (zeros 16) bob)]; done.
  - done.
Qed.

Lemma session_ready_iteration_witness :
  run (wait_for_session_ready 15 0%nat 0 (ref_session_state [alice; [Byte.x0c]])) ref_world
    = (ref_world, Ok true).
Proof.
  apply (session_ready_iteration 15 0%nat 0 (ref_session_state [alice; [Byte.x0c]]) ref_world).
  - exact ref_world_filed.
  - lia.
  - intros H. destruct (H [Byte.x0c]) as [c Hc]; [right; by left |].
    revert Hc. by vm_compute.
  - by vm_compute.
  - by vm_compute.
Defined.

Lemma session_active_iteration_witness :
  run (wait_for_session_active 15 0 (ref_session_state [alice; bob])) ref_world
    = (ref_world, Ok true).
Proof.
  pose proof (session_active_iteration 15 0 (ref_session_state [alice; bob]) ref_world
    ref_world_filed ltac:(lia)) as H. cbv zeta in H.
  change (SessionManager.sessions (sessions (server ref_world)) !!
    session_id (ref_session_state [alice; bob])) with (Some ref_session) in H.
  destruct H as (_ & H). apply H; [|by vm_compute..].
  intros Hl. destruct (Hl alice bob) as [Hx|Hx]; [done | by left | right; set_solver | |];
    by apply not_elem_of_empty in Hx.
Defined.

Lemma purge_exact_witness :
  let w := {| server := ref_state; heap := heap ref_world; spawned := [];
              clock := from_secs 301; next_uuid := the_id |} in
  (run (purge_expired 900) w).2 = Ok true /\
  SessionManager.sessions (sessions (server (run (purge_expired 900) w).1)) !! the_id = None.
Proof.
  intros w. pose proof (purge_exact 900 w ltac:(lia)) as H. cbv zeta in H.
  destruct (run (purge_expired 900) w) as [w' r].
  destruct H as (Hr & _ & _ & _ & Hs & _); [by vm_compute | by vm_compute | | |].
  - intros id s Hid. change (({[the_id := ref_session]} : gmap bytes Session.t) !! id = Some s) in Hid.
    apply lookup_singleton_Some in Hid as [<- <-]. by vm_compute.
  - intros id m Hid. done.
  - split; [done |]. cbn. destruct (SessionManager.sessions _ !! the_id) as [s|] eqn:E; [|done].
    apply Hs in E as [E1 E2]. exfalso. apply E2.
    change (({[the_id := ref_session]} : gmap bytes Session.t) !! the_id = Some s) in E1.
    apply lookup_singleton_Some in E1 as [_ <-]. by vm_compute.
Defined.

Lemma promotion_and_disconnection_witness :
  let w := put_conn 1%nat (ref_conn (zeros 16) alice) ref_world in
  active (server (run (disconnect 0%nat) (run (promote_connection 1%nat) w).1).1) !! alice = None.
Proof.
  intros w. pose proof (promotion_and_disconnection 0%nat 1%nat (ref_conn (zeros 16) alice)
    (ref_conn (zeros 16) alice) w eq_refl eq_refl eq_refl) as H.
  destruct (run (promote_connection 1%nat) w) as [w1 r1]. cbn [fst].
  destruct (run (disconnect 0%nat) w1) as [w2 r2]. by destruct H as (_ & _ & _ & _ & _ & H & _).
Defined.

(** A file system with one configuration file, whose interval is too short. *)
Definition short_interval : ServerConfig.t :=
  {| ServerConfig.key := Path_default; ServerConfig.pattern := None;
     ServerConfig.session := {| timeout := 300; interval := 300; wait_interval := 15;
                                wait_timeout := 300 |};
     ServerConfig.tls := None; ServerConfig.allow := None; ServerConfig.deny := None |}.
Definition ref_files : Files :=
  {| try_exists := fun _ => Ok true; read_to_string := fun _ => Ok "[session]"%string;
     canonicalize := fun p => Ok p; toml_from_str := fun _ => Ok short_interval |}.

Lemma load_validates_witness :
  load (F := ref_files) (P := RefPem) {| absolute := true; components := ["config.toml"%string] |}
    = Err ServerError.SessionTimeoutConfig.
Proof.
  apply (load_validates (F := ref_files) (P := RefPem)
    {| absolute := true; components := ["config.toml"%string] |} "[session]" short_interval
    eq_refl eq_refl eq_refl).
  by vm_compute.
Defined.
