(* ===== verification/CommandLineSpec.v ===== *)
(** * Properties of the command line

    What [generate-keypair] leaves on the disk, and the server that is started
    from it. *)

From S2P Require Import Prelude Types Stream Encoding Noise NoiseRef Channel Keypair ServerConfig ServerConfigFacts.
From S2P Require Import Zlib Prog Sessions Net Server ServerSystem ServerFacts ServerSafety ServerRun ServerRef CommandLine.

Section disk.
Context {OS : OperatingSystem}.

(** An operation changes at most the file it is about. *)
Definition only (p : Path) {A} (m : SM Disk IoError A) : Prop :=
  forall d q, q <> p -> (m d).1 !! q = d !! q.

Lemma only_exists p : only p (fs_try_exists p).
Proof. intros d q _. unfold fs_try_exists, guarded. by destruct (os_error _ _). Qed.

Lemma only_create p : only p (file_create p).
Proof.
  intros d q Hq. unfold file_create, guarded. destruct (os_error _ _); [done |].
  by apply lookup_insert_ne.
Qed.

Lemma only_write_all p b : only p (file_write_all p b).
Proof.
  intros d q Hq. unfold file_write_all. destruct (os_error _ _); by apply lookup_insert_ne.
Qed.

Lemma only_flush p : only p (file_flush p).
Proof.
  intros d q Hq. unfold file_flush. destruct (os_error _ _); [by apply lookup_insert_ne | done].
Qed.

Lemma file_create_ok d p d' f : file_create p d = (d', Ok f) -> f = p /\ d' = <[p := []]> d.
Proof. unfold file_create, guarded. destruct (os_error _ _); naive_solver. Qed.

Lemma file_write_all_ok d p b d' : file_write_all p b d = (d', Ok tt) ->
  d' = <[p := default [] (d !! p) ++ b]> d.
Proof. unfold file_write_all. destruct (os_error _ _); naive_solver. Qed.

Lemma file_flush_ok d p d' : file_flush p d = (d', Ok tt) -> d' = d.
Proof. unfold file_flush. destruct (os_error _ _); naive_solver. Qed.

Lemma only_write p b : only p (fs_write p b).
Proof.
  intros d q Hq. unfold fs_write, mbind, SM_bind.
  pose proof (only_create p d q Hq) as H1. destruct (file_create p d) as [d1 [f|e|]] eqn:E1; [|done..].
  apply file_create_ok in E1 as [-> _].
  pose proof (only_write_all p b d1 q Hq) as H2.
  destruct (file_write_all p b d1) as [d2 [[]|e|]]; cbn in *; [|by rewrite H2..].
  by rewrite (only_flush p d2 q Hq), H2.
Qed.

Lemma fs_write_ok d p b d' : fs_write p b d = (d', Ok tt) -> d' = <[p := b]> d.
Proof.
  unfold fs_write, mbind, SM_bind. destruct (file_create p d) as [d1 [f|e|]] eqn:E1; [|done..].
  apply file_create_ok in E1 as [-> ->].
  destruct (file_write_all _ _ _) as [d2 [[]|e|]] eqn:E2; [|done..].
  intros ->%file_flush_ok. apply file_write_all_ok in E2 as ->.
  by rewrite lookup_insert_eq, insert_insert_eq.
Qed.

(** A system that refuses nothing. *)
Definition permissive : Prop := forall op p, os_error op p = None.

Lemma fs_write_permissive p b d : permissive -> fs_write p b d = (<[p := b]> d, Ok tt).
Proof.
  intros Hp. destruct (fs_write p b d) as [d' r] eqn:E.
  assert (Hr : r = Ok tt).
  { revert E. unfold fs_write, file_create, guarded, file_write_all, file_flush, mbind, SM_bind.
    rewrite !Hp. by intros [= _ <-]. }
  subst r. by rewrite (fs_write_ok _ _ _ _ E).
Qed.
End disk.

Section spec.
Context {OS : OperatingSystem} {N : Noise} {G : KeyGen} {P : Pem} {PL : PemLaws P} {HX : Hex}.

(** The new key pair is in the file, unless the public key took its place. *)
Definition key_written (kp : Keypair.t) (path : Path) (public_key : option Path) (d : Disk) : Prop :=
  (public_key <> Some path -> d !! path = Some (str_bytes (encode_keypair kp))) /\
  forall q, public_key = Some q -> d !! q = Some (str_bytes (hex_encode (Keypair.public_key kp))).

Lemma generate_keypair_run_ok entropy path force public_key p p' :
  generate_keypair_run entropy path force public_key p = (p', Ok tt) ->
  exists kp, generate_keypair entropy = Ok kp /\
    stdout p' = stdout p ++ [hex_encode (Keypair.public_key kp)] /\
    key_written kp path public_key (disk p').
Proof.
  unfold generate_keypair_run, on_disk, println, sm_lift, sm_err, sm_modify, mbind, SM_bind.
  destruct (fs_try_exists path (disk p)) as [d0 [x|e|]] eqn:E0; cbn [map_err]; [|done..].
  destruct (x && negb force); [done |].
  destruct (generate_keypair entropy) as [kp|e|]; cbn [map_err disk]; [|done..].
  destruct (file_create path d0) as [d1 [f|e|]] eqn:E1; cbn [map_err disk stdout]; [|done..].
  apply file_create_ok in E1 as [-> ->].
  destruct (file_write_all path _ _) as [d2 [[]|e|]] eqn:E2; cbn [map_err disk stdout]; [|done..].
  apply file_write_all_ok in E2 as ->. rewrite lookup_insert_eq, insert_insert_eq. cbn [default app].
  destruct (file_flush path _) as [d3 [[]|e|]] eqn:E3; cbn [map_err disk stdout]; [|done..].
  apply file_flush_ok in E3 as ->. intros H. exists kp. split; [done |].
  destruct public_key as [q|]; [|injection H as <-; cbn; split; [done |]; split; [|done];
    intros _; apply lookup_insert_eq].
  destruct (fs_write q _ _) as [d4 [[]|e|]] eqn:E4; cbn [map_err disk stdout] in H; [|done..].
  injection H as <-. apply fs_write_ok in E4 as ->. cbn. split; [done |]. split.
  - intros Hq. rewrite lookup_insert_ne by congruence. apply lookup_insert_eq.
  - intros q' [= <-]. apply lookup_insert_eq.
Qed.

Lemma generate_keypair_run_only entropy path force public_key p q :
  q <> path -> public_key <> Some q ->
  disk (generate_keypair_run entropy path force public_key p).1 !! q = disk p !! q.
Proof.
  intros Hq Hk. unfold generate_keypair_run, on_disk, println, sm_lift, sm_err, sm_modify, mbind, SM_bind.
  pose proof (only_exists path (disk p) q Hq) as H0.
  destruct (fs_try_exists path (disk p)) as [d0 [x|e|]]; cbn [map_err fst disk] in *; [|done..].
  destruct (x && negb force); [done |].
  destruct (generate_keypair entropy) as [kp|e|]; cbn [map_err disk fst]; [|done..].
  pose proof (only_create path d0 q Hq) as H1.
  destruct (file_create path d0) as [d1 [f|e|]] eqn:E1; cbn [map_err fst disk stdout] in *; [|congruence..].
  apply file_create_ok in E1 as [-> _].
  pose proof (only_write_all path (str_bytes (encode_keypair kp)) d1 q Hq) as H2.
  destruct (file_write_all path _ _) as [d2 [[]|e|]]; cbn [map_err fst disk stdout] in *; [|congruence..].
  pose proof (only_flush path d2 q Hq) as H3.
  destruct (file_flush path _) as [d3 [[]|e|]]; cbn [map_err fst disk stdout] in *; [|congruence..].
  destruct public_key as [k|]; [|cbn; congruence].
  pose proof (only_write k (str_bytes (hex_encode (Keypair.public_key kp))) d3 q ltac:(congruence)) as H4.
  destruct (fs_write k _ _) as [d4 [[]|e|]]; cbn [map_err fst disk] in *; congruence.
Qed.

Lemma generate_keypair_run_permissive entropy path force public_key p kp :
  permissive -> generate_keypair entropy = Ok kp -> disk p !! path = None \/ force = true ->
  (generate_keypair_run entropy path force public_key p).2 = Ok tt.
Proof.
  intros Hp Hkp Hf.
  unfold generate_keypair_run, on_disk, println, sm_lift, sm_err, sm_modify, mbind, SM_bind.
  unfold fs_try_exists, guarded at 1. rewrite Hp. cbn [sm_gets map_err disk].
  replace (_ && negb force) with false; [|destruct Hf as [-> | ->]; [done | by rewrite andb_false_r]].
  rewrite Hkp. cbn [map_err disk]. unfold file_create at 1, guarded. rewrite Hp. cbn [map_err disk].
  unfold file_write_all at 1. rewrite Hp. cbn [map_err disk].
  unfold file_flush at 1. rewrite Hp. cbn [map_err disk].
  destruct public_key as [q|]; [|done]. by rewrite fs_write_permissive.
Qed.

Context {SA : SocketAddresses} {AX : Axum}.
Context {BS : BinaryStream encoding_options} {BL : BinaryStreamLaws encoding_options BS}.
Context {SC : StatusCodes} {SL : StatusCodesLaws SC} {HO : HashOrder} {HL : HashOrderLaws HO}.
Context {NL : NoiseLaws N} {FL : Flate} {FLL : FlateLaws FL} {DI : Display}.
Context (toml : string -> Res ExtError ServerConfig.t).

(** C37. What [generate-keypair] does to the files, whatever the system
    answers.  A file that exists is refused without [--force] and nothing
    changes; no file but the two named is ever touched; when it succeeds it
    has printed the hex public key, the file decodes to the new key pair and
    the other file holds the printed key - unless both are the same file,
    where the public key overwrites the key pair; and it succeeds when the
    system refuses nothing.  The program exits with status 0 even when the
    command fails: the error is only logged. *)
Theorem generate_keypair_command entropy path force public_key (p : Process) :
  let '(p', r) := generate_keypair_run entropy path force public_key p in
  (os_error OpExists path = None -> is_Some (disk p !! path) -> force = false ->
    p' = p /\ r = Err (CliError.FileExists path)) /\
  (forall q, q <> path -> public_key <> Some q -> disk p' !! q = disk p !! q) /\
  (r = Ok tt -> exists kp, generate_keypair entropy = Ok kp /\
    stdout p' = stdout p ++ [hex_encode (Keypair.public_key kp)] /\
    key_written kp path public_key (disk p') /\
    (public_key <> Some path ->
      exists pem, disk p' !! path = Some pem /\ decode_keypair pem = Ok kp)) /\
  (forall kp, permissive -> generate_keypair entropy = Ok kp ->
    disk p !! path = None \/ force = true -> r = Ok tt) /\
  (forall t u e, r = Err e ->
    main toml entropy t u (GenerateKeypair force public_key path) p =
      ({| disk := disk p'; stdout := stdout p'; log := log p' ++ [CliError_to_string e] |}, 0)).
Proof.
  destruct (generate_keypair_run entropy path force public_key p) as [p' r] eqn:E. split_and!.
  - intros He Hx ->. revert E. unfold generate_keypair_run, on_disk, mbind, SM_bind.
    unfold fs_try_exists, guarded. rewrite He. cbn. rewrite bool_decide_true by done.
    cbn. intros [= <- <-]. by destruct p.
  - intros q Hq Hk. by rewrite <- (generate_keypair_run_only entropy path force public_key p q Hq Hk), E.
  - intros ->. destruct (generate_keypair_run_ok _ _ _ _ _ _ E) as (kp & H1 & H2 & H3).
    exists kp. split; [done |]. split; [done |]. split; [done |]. intros Hq. eexists. split; [by apply (proj1 H3) |].
    apply decode_encode_keypair.
  - intros kp Hp Hkp Hf.
    pose proof (generate_keypair_run_permissive entropy path force public_key p kp Hp Hkp Hf) as H.
    by rewrite E in H.
  - intros t u e ->. unfold main. cbn [cli_run]. by rewrite E.
Qed.

Lemma fs_read_to_string_Ok d p text : (fs_read_to_string p d).2 = Ok text ->
  exists b, d !! p = Some b /\ text = bytes_str b.
Proof.
  unfold fs_read_to_string, fs_read, guarded, mbind, SM_bind. destruct (os_error OpRead p); [done |].
  destruct (d !! p) as [b|]; cbn [ok_or]; [|done]. destruct (is_utf8 _); [|done]. intros [= <-]. by exists b.
Qed.

(** C38. From [generate-keypair] to a running server.  Once the command has
    written a key pair (and the public key did not take its place), [server]
    with any configuration file that [load] accepts on the disk as it then is,
    and whose key path resolves to the file written, starts a server with that
    key pair and empty tables: it spawns the purge task and serves where it is
    told, over TLS exactly when the configuration has a section for it.  The
    overrides of the command line replace the interval and the timeout after
    the configuration was validated, and are not validated themselves: with
    [--session-interval 0] the server starts, and from then on, under every
    interleaving of its tasks, the purge task does nothing but panic, so that
    nothing expires: in particular no meeting point ever goes away. *)
Theorem generated_key_serves entropy path force public_key p p' kp cfg loaded bind addr i st t u :
  generate_keypair_run entropy path force public_key p = (p', Ok tt) -> public_key <> Some path ->
  load (F := disk_files toml (disk p')) cfg = Ok (loaded, kp) -> ServerConfig.key loaded = path ->
  addr_from_str bind = Ok addr ->
  let session := {| timeout := default (timeout (ServerConfig.session loaded)) st;
                    interval := default (interval (ServerConfig.session loaded)) i;
                    wait_interval := wait_interval (ServerConfig.session loaded);
                    wait_timeout := wait_timeout (ServerConfig.session loaded) |} in
  let config := set_session session loaded in
  let s0 := initial config kp t u in
  generate_keypair entropy = Ok kp /\
  configure toml (disk p') bind cfg i st = Ok (addr, RelayServer_new config kp) /\
  server_run toml t u bind cfg i st p' =
    (p', map_err CliError.Server
      match ServerConfig.tls loaded with
      | None => map_err ServerError.Io (serve None addr router World (world s0)).2
      | Some tls =>
          match (fs_read (tls_cert tls) (disk p')).2, (fs_read (tls_key tls) (disk p')).2 with
          | Ok cert, Ok key =>
              match rustls_from_pem_file cert key with
              | Ok tls => map_err ServerError.Io (serve (Some tls) addr router World (world s0)).2
              | Err e => Err (ServerError.Io e)
              | Panic => Panic
              end
          | Err e, _ => Err (ServerError.Io e)
          | Ok _, Err e => Err (ServerError.Io e)
          | _, _ => Panic
          end
      end) /\
  spawned (world s0) = [PurgeExpired (interval session)] /\
  (i = Some 0 -> forall s1 s2, reachable s0 s1 -> reachable s1 s2 ->
    (forall th j, th ∈ running s2 -> thread_task th = Some (PurgeExpired j) -> thread_prog th = Done Panic) /\
    (forall id, is_Some (MeetingManager.meetings (meetings (server (world s1))) !! id) ->
      is_Some (MeetingManager.meetings (meetings (server (world s2))) !! id))).
Proof.
  intros Hrun Hpk Hload Hkey Ha session config s0.
  destruct (generate_keypair_run_ok _ _ _ _ _ _ Hrun) as (kp' & Hkp & _ & Hwritten & _).
  specialize (Hwritten Hpk).
  destruct (load_reads_key (F := disk_files toml (disk p')) cfg loaded kp Hload) as (pem & Hpem & Hdec).
  rewrite Hkey in Hpem. apply fs_read_to_string_Ok in Hpem as (b & Hb & ->). rewrite Hwritten in Hb.
  injection Hb as <-. unfold bytes_str, str_bytes in Hdec. rewrite String.string_of_list_byte_of_string in Hdec.
  rewrite (decode_encode_keypair kp') in Hdec. injection Hdec as ->.
  assert (configure toml (disk p') bind cfg i st = Ok (addr, RelayServer_new config kp)) as Hc.
  { unfold configure, mbind, Res_bind. rewrite Hload. cbn [map_err]. by rewrite Ha. }
  split_and!; [done | done | | done |].
  - unfold server_run, mbind, Res_bind. rewrite Hc. do 2 f_equal. unfold RelayServer_start.
    cbn [server started config]. change (ServerConfig.tls (Server.config (RelayServer_new config kp)))
      with (ServerConfig.tls loaded).
    change (start (started t u (RelayServer_new config kp))) with (world s0).
    destruct (ServerConfig.tls loaded) as [tls|].
    + unfold run_tls, mbind, Res_bind. destruct (fs_read (tls_cert tls) (disk p')) as [? [cert| |]]; cbn [snd]; [|done..].
      destruct (fs_read (tls_key tls) (disk p')) as [? [key| |]]; cbn [snd]; [|done..].
      destruct (rustls_from_pem_file cert key) as [c| |]; [|done..].
      by destruct (serve (Some c) addr router World (world s0)).
    + unfold run_http. by destruct (serve None addr router World (world s0)).
  - intros -> s1 s2. by apply never_purged.
Qed.
End spec.

(** ** Evaluations on a disk with one configuration file *)

#[local] Instance RefSystem : OperatingSystem :=
  {| os_error := fun _ _ => None; os_written := fun _ => 0%nat; os_canonical := fun p => p |}.
#[local] Existing Instance RefKeyGen.
#[local] Instance RefAddresses : SocketAddresses :=
  {| SocketAddr := string; addr_from_str := fun s => Ok s |}.
#[local] Instance RefAxum : Axum :=
  {| RustlsConfig := unit; rustls_from_pem_file := fun _ _ => Ok tt;
     serve := fun _ _ _ _ w => (w, Ok tt) |}.
#[local] Existing Instance RefPem.
#[local] Existing Instance RefPem_laws.

Definition at_root (name : string) : Path := {| absolute := true; components := [name] |}.
Definition ref_config : ServerConfig.t :=
  {| ServerConfig.key := {| absolute := false; components := ["server.pem"%string] |};
     ServerConfig.pattern := None;
     ServerConfig.session := SessionConfig_default; ServerConfig.tls := None;
     ServerConfig.allow := None; ServerConfig.deny := None |}.
Definition ref_toml (_ : string) : Res ExtError ServerConfig.t := Ok ref_config.
Definition ref_process : Process :=
  {| disk := {[at_root "config.toml" := []]}; stdout := []; log := [] |}.

Lemma generated_key_serves_witness :
  let p := (generate_keypair_run [Byte.x07] (at_root "server.pem") false None ref_process).1 in
  exists addr s, configure ref_toml (disk p) "0.0.0.0:7007" (at_root "config.toml") (Some 0) None
    = Ok (addr, s) /\ Keypair.public_key (Server.keypair s) = [Byte.x07].
Proof.
  intros p.
  set (kp := {| Keypair.inner := {| public := [Byte.x07]; private := [Byte.x07] |} |}).
  destruct (generated_key_serves (SA := RefAddresses) ref_toml [Byte.x07] (at_root "server.pem") false None
    ref_process p kp (at_root "config.toml") (set_key (at_root "server.pem") ref_config) "0.0.0.0:7007"
    "0.0.0.0:7007"%string (Some 0) None 0 (zeros 16)) as (_ & Hs & _); [by vm_compute | done | | done | done |].
  - by vm_compute.
  - by eexists _, _.
Defined.

(** The refusal of a file that exists, and the key pair in a new one. *)
Lemma generate_keypair_command_witness :
  (generate_keypair_run [Byte.x07] (at_root "config.toml") false None ref_process).2
    = Err (CliError.FileExists (at_root "config.toml")) /\
  (main ref_toml [Byte.x07] 0 [] (GenerateKeypair false None (at_root "config.toml")) ref_process).2 = 0 /\
  exists pem, disk (generate_keypair_run [Byte.x07] (at_root "server.pem") false None ref_process).1
    !! at_root "server.pem" = Some pem /\ exists kp, decode_keypair pem = Ok kp.
Proof.
  pose proof (generate_keypair_command ref_toml [Byte.x07] (at_root "config.toml") false None ref_process) as H.
  destruct (generate_keypair_run _ _ _ _ _) as [p r]. destruct H as (H1 & _ & _ & _ & H5).
  destruct (H1 eq_refl (mk_is_Some _ [] eq_refl) eq_refl) as [-> ->].
  split; [done |]. split; [by rewrite (H5 0 [] _ eq_refl) |].
  pose proof (generate_keypair_command ref_toml [Byte.x07] (at_root "server.pem") false None ref_process) as H.
  destruct (generate_keypair_run _ _ _ _ _) as [p r]. destruct H as (_ & _ & H3 & H4 & _).
  destruct H3 as (kp & _ & _ & _ & H3).
  { apply (H4 {| Keypair.inner := {| public := [Byte.x07]; private := [Byte.x07] |} |}); [done | done | by left]. }
  destruct (H3 ltac:(done)) as (pem & Hd & Hk). exists pem. split; [done |]. by exists kp.
Defined.
