(* ===== verification/Client.v ===== *)
(** * The client

    [src/client/src]: the options and peer channel of [lib.rs], the requests of
    [client.rs], the handlers and the loop of [event_loop.rs], and the socket
    side of [native.rs].  A client and its event loop share the server state,
    the peers and the outbound channel; they are one record here, and an
    operation is a computation on it.  JSON values are serialized by a
    parameter. *)

From S2P Require Import Prelude Types Stream Encoding Noise Channel Keypair Zlib Net.

Module ClientError.
(** src/client/src/error.rs:7-109 Error *)
Inductive t :=
| ConnectError (code : Z) (text : string)
| ServerError (code : Z) (text : string)
| NoReply
| PeerAlreadyExists
| PeerAlreadyExistsMaybeRace
| PeerNotFound (key : string)
| NotHandshakeState
| NotTransportState
| InvalidPeerHandshakeMessage
| WebSocketSend
| JsString (text : string)
| JsValue (json : ExtError)
| JsError
| StreamReunite
| Io (e : IoError)
| Protocol (e : Types.Error)
| Snow (e : ExtError)
| Json (e : ExtError)
| Websocket (e : ExtError)
| RequestMpscSend
| ResponseMpscSend.
End ClientError.

(** [serde_json::to_vec] and [serde_json::from_slice] at a type. *)
Class SerdeJson (A : Type) := {
  to_vec : A -> Res ExtError bytes;
  from_slice : bytes -> Res ExtError A;
}.

Class SerdeJsonLaws (A : Type) {J : SerdeJson A} : Prop := {
  to_vec_from_slice : forall a b, to_vec a = Ok b -> from_slice b = Ok a;
  from_slice_no_panic : forall b, from_slice b <> Panic;
  to_vec_no_panic : forall a, to_vec a <> Panic;
}.

(** src/client/src/event_loop.rs:95-99 JsonMessage *)
Record JsonMessage := { contents : bytes }.

(** src/client/src/event_loop.rs:101-108 JsonMessage::deserialize *)
Definition deserialize {A} {J : SerdeJson A} (m : JsonMessage) : Res ClientError.t A :=
  map_err ClientError.Json (from_slice (contents m)).

Module Event.
(** src/client/src/event_loop.rs:21-93 Event *)
Inductive t :=
| ServerConnected (server_key : bytes)
| PeerConnected (peer_key : bytes)
| BinaryMessage (peer_key : bytes) (message : bytes) (session : option Uuid)
| JsonMessage (peer_key : bytes) (message : JsonMessage) (session : option Uuid)
| MeetingCreated (state : MeetingState)
| MeetingReady (state : MeetingState)
| SessionCreated (state : SessionState)
| SessionReady (state : SessionState)
| SessionActive (state : SessionState)
| SessionTimeout (session : Uuid)
| SessionFinished (session : Uuid)
| Close.
End Event.

Module InternalMessage.
(** src/client/src/event_loop.rs:110-119 InternalMessage *)
Inductive t := Request (m : RequestMessage.t) | Close.
End InternalMessage.

(** [str::trim_end_matches('/')]. *)
Fixpoint drop_slashes (b : bytes) : bytes :=
  match b with
  | x :: b' => if bool_decide (x = Byte.x2f) then drop_slashes b' else b
  | [] => []
  end.
Definition trim_end_slashes (s : string) : string :=
  bytes_str (reverse (drop_slashes (reverse (str_bytes s)))).

Section client.
Context {BS : BinaryStream encoding_options} {SC : StatusCodes} {HO : HashOrder}.
Context {N : Noise} {FL : Flate} {HX : Hex}.

(** src/client/src/lib.rs:46-57 ClientOptions *)
Record ClientOptions := {
  options_keypair : Keypair.t;
  server_public_key : bytes;
  options_pattern : option string;
}.

(** src/client/src/lib.rs:60-71 ClientOptions::url *)
Definition url (self : ClientOptions) (server : string) : string :=
  trim_end_slashes server +:+ "/?public_key="
    +:+ hex_encode (Keypair.public_key (options_keypair self)).

(** src/client/src/lib.rs:73-81 ClientOptions::params *)
Definition params (self : ClientOptions) : Res ClientError.t NoiseParams :=
  map_err ClientError.Snow (parse_params (default PATTERN (options_pattern self))).

(** src/client/src/lib.rs:89-120 encrypt_peer_channel *)
Definition encrypt_peer_channel (public_key : bytes) (payload : bytes) (enc : Encoding.t)
    (bcast : bool) (session : option Uuid) : SM ProtocolState ClientError.t RequestMessage.t :=
  with_transport ClientError.NotTransportState ClientError.Protocol
    (chunks ← split payload;
     mret (RequestMessage.Opaque (OpaqueMessage.PeerMessage public_key session
       {| encoding := enc; chunks := chunks; broadcast := bcast |}))).

(** src/client/src/lib.rs:122-136 decrypt_peer_channel *)
Definition decrypt_peer_channel (envelope : SealedEnvelope) :
    SM ProtocolState ClientError.t (Encoding.t * bytes) :=
  with_transport ClientError.NotTransportState ClientError.Protocol
    (payload ← join (chunks envelope); mret (encoding envelope, payload)).

(** The client with its event loop: [Server], [Peers], the internal channels
    and the frames written to the websocket. *)
(** src/client/src/native.rs:50-57 NativeClient *)
Record Client := {
  options : ClientOptions;
  server_state : option ProtocolState;
  peers : gmap bytes ProtocolState;
  outbound : Chan InternalMessage.t;
  inbound : Chan ResponseMessage.t;
  socket_out : list bytes;
}.

Definition set_server_state (s : option ProtocolState) (c : Client) : Client :=
  {| options := options c; server_state := s; peers := peers c; outbound := outbound c;
     inbound := inbound c; socket_out := socket_out c |}.
Definition set_peers (p : gmap bytes ProtocolState) (c : Client) : Client :=
  {| options := options c; server_state := server_state c; peers := p; outbound := outbound c;
     inbound := inbound c; socket_out := socket_out c |}.
Definition set_outbound (o : Chan InternalMessage.t) (c : Client) : Client :=
  {| options := options c; server_state := server_state c; peers := peers c; outbound := o;
     inbound := inbound c; socket_out := socket_out c |}.
Definition set_inbound (i : Chan ResponseMessage.t) (c : Client) : Client :=
  {| options := options c; server_state := server_state c; peers := peers c;
     outbound := outbound c; inbound := i; socket_out := socket_out c |}.
Definition set_socket_out (s : list bytes) (c : Client) : Client :=
  {| options := options c; server_state := server_state c; peers := peers c;
     outbound := outbound c; inbound := inbound c; socket_out := s |}.

Abbreviation ClientM := (SM Client ClientError.t).

Definition lift_err {A B} (f : A -> ClientError.t) (r : Res A B) : ClientM B :=
  sm_lift (map_err f r).

(** [outbound_tx.send(m).await?]. *)
Definition outbound_send (m : InternalMessage.t) : ClientM unit := fun c =>
  if receiver_open (outbound c)
  then (set_outbound (chan_push m (outbound c)) c, Ok tt)
  else (c, Err ClientError.RequestMpscSend).

(** A computation on the state of a known peer, [Err] for a stranger. *)
Definition on_peer {A} (key : bytes) (m : SM ProtocolState ClientError.t A) : ClientM A := fun c =>
  match peers c !! key with
  | Some peer => let '(peer', r) := m peer in (set_peers (<[key := peer']> (peers c)) c, r)
  | None => (c, Err (ClientError.PeerNotFound (hex_encode key)))
  end.

(** src/client/src/native.rs:76-91 NativeClient::new *)
Definition client_new (opts : ClientOptions) : Res ClientError.t Client :=
  p ← params opts;
  handshake ← map_err ClientError.Snow
    (build_initiator p (Keypair.private_key (options_keypair opts)) (server_public_key opts));
  mret {| options := opts; server_state := Some (Handshake handshake); peers := ∅;
          outbound := chan_new; inbound := chan_new; socket_out := [] |}.

(** [StatusCode::SWITCHING_PROTOCOLS]. *)
Definition SWITCHING_PROTOCOLS : Z := 101.

(** The client made from the answer to the websocket's upgrade: its status
    code and reason, or why the socket could not be opened. *)
(** src/client/src/native.rs:60-124 NativeClient::new *)
Definition NativeClient_new (response : Res ExtError (Z * string)) (opts : ClientOptions) :
    Res ClientError.t Client :=
  '(status, reason) ← map_err ClientError.Websocket response;
  if bool_decide (status <> SWITCHING_PROTOCOLS) then Err (ClientError.ConnectError status reason)
  else client_new opts.

(** [NativeClient::new] on a network, given by what the server at a URL answers
    to a websocket upgrade; it does not wait for ever. *)
Definition NativeClient_open (connect_async : string -> Res ExtError (Z * string))
    (server : string) (opts : ClientOptions) : Res (Stop ClientError.t) Client :=
  map_err Failed (NativeClient_new (connect_async server) opts).

(** ** Requests *)

(** src/client/src/client.rs:4-32 relay *)
Definition client_relay (public_key payload : bytes) (enc : Encoding.t) (bcast : bool)
    (session : option Uuid) : ClientM unit :=
  request ← on_peer public_key (encrypt_peer_channel public_key payload enc bcast session);
  outbound_send (InternalMessage.Request request).

(** The server's state of the client, [unreachable!] when it is gone. *)
Definition on_server {A} (m : SM ProtocolState Error A) : ClientM A := fun c =>
  match server_state c with
  | Some s => let '(s', r) := m s in
      (set_server_state (Some s') c, map_err ClientError.Protocol r)
  | None => (c, Panic)
  end.

(** src/client/src/client.rs:34-65 request *)
Definition request (message : ServerMessage.t) : ClientM unit :=
  fun c =>
    match server_state c with
    | None => (c, Panic)
    | Some _ =>
      (payload ← lift_err ClientError.Io (encode message);
       envelope ← on_server (encrypt_server_channel payload false);
       outbound_send (InternalMessage.Request
         (RequestMessage.Opaque (OpaqueMessage.ServerMessage envelope)))) c
    end.

(** src/client/src/client.rs:67-85 relay_broadcast *)
Definition relay_broadcast (session : Uuid) (recipient_public_keys : list bytes)
    (payload : bytes) (enc : Encoding.t) : ClientM unit :=
  sm_for recipient_public_keys (fun key => client_relay key payload enc true (Some session)).

(** src/client/src/client.rs:96-99 public_key *)
Definition client_public_key (c : Client) : bytes := Keypair.public_key (options_keypair (options c)).

(** The initiator's message of a handshake, in a buffer of 1024 bytes. *)
(** src/client/src/client.rs:106-114 connect *)
Definition initiate (s : ProtocolState) : ProtocolState * Res ClientError.t (Z * bytes) :=
  match s with
  | Handshake initiator =>
      let '(initiator, r) := hs_write_message initiator [] (zeros 1024) in
      (Handshake initiator, map_err ClientError.Snow r)
  | Transport _ => (s, Err ClientError.NotHandshakeState)
  end.

(** src/client/src/client.rs:101-126 connect *)
Definition connect : ClientM unit :=
  '(n, payload) ← ((fun c =>
    match server_state c with
    | Some s => let '(s', r) := initiate s in (set_server_state (Some s') c, r)
    | None => (c, Err ClientError.NotHandshakeState)
    end) : ClientM (Z * bytes));
  outbound_send (InternalMessage.Request (RequestMessage.Transparent
    (TransparentMessage.ServerHandshake (HandshakeMessage.Initiator n payload)))).

(** src/client/src/client.rs:128-131 is_connected *)
Definition is_connected (c : Client) : bool := is_transport (server_state c).

(** src/client/src/client.rs:133-185 connect_peer *)
Definition connect_peer (public_key : bytes) : ClientM unit :=
  '(n, payload) ← ((fun c =>
    match peers c !! public_key with
    | Some _ => (c, Err ClientError.PeerAlreadyExists)
    | None =>
        match
          p ← params (options c);
          map_err ClientError.Snow (build_initiator p
            (Keypair.private_key (options_keypair (options c))) public_key)
        with
        | Ok handshake =>
            let '(s', r) := initiate (Handshake handshake) in
            (set_peers (<[public_key := s']> (peers c)) c, r)
        | Err e => (c, Err e)
        | Panic => (c, Panic)
        end
    end) : ClientM (Z * bytes));
  outbound_send (InternalMessage.Request (RequestMessage.Transparent
    (TransparentMessage.PeerHandshake public_key (HandshakeMessage.Initiator n payload)))).

(** src/client/src/client.rs:187-205 send_json *)
Definition send_json {A} {J : SerdeJson A} (public_key : bytes) (payload : A)
    (session : option Uuid) : ClientM unit :=
  b ← lift_err ClientError.Json (to_vec payload);
  client_relay public_key b Encoding.Json false session.

(** src/client/src/client.rs:207-222 send_blob *)
Definition send_blob (public_key payload : bytes) (session : option Uuid) : ClientM unit :=
  client_relay public_key payload Encoding.Blob false session.

(** src/client/src/client.rs:224-232 new_meeting *)
Definition new_meeting (owner_id : bytes) (slots : gset bytes) : ClientM unit :=
  request (ServerMessage.NewMeeting owner_id slots).

(** src/client/src/client.rs:234-242 join_meeting *)
Definition join_meeting (meeting_id : Uuid) (user_id : bytes) : ClientM unit :=
  request (ServerMessage.JoinMeeting meeting_id user_id).

(** src/client/src/client.rs:244-252 new_session *)
Definition new_session (participant_keys : list bytes) : ClientM unit :=
  request (ServerMessage.NewSession {| request_participant_keys := participant_keys |}).

(** src/client/src/client.rs:254-265 register_connection *)
Definition register_connection (session : Uuid) (peer_key : bytes) : ClientM unit :=
  request (ServerMessage.SessionConnection session peer_key).

(** src/client/src/client.rs:267-274 close_session *)
Definition close_session (session : Uuid) : ClientM unit :=
  request (ServerMessage.CloseSession session).

(** src/client/src/client.rs:276-293 broadcast_json *)
Definition broadcast_json {A} {J : SerdeJson A} (session : Uuid)
    (recipient_public_keys : list bytes) (payload : A) : ClientM unit :=
  b ← lift_err ClientError.Json (to_vec payload);
  relay_broadcast session recipient_public_keys b Encoding.Json.

(** src/client/src/client.rs:295-309 broadcast_blob *)
Definition broadcast_blob (session : Uuid) (recipient_public_keys : list bytes)
    (payload : bytes) : ClientM unit :=
  relay_broadcast session recipient_public_keys payload Encoding.Blob.

(** src/client/src/client.rs:311-313 close *)
Definition close : ClientM unit := outbound_send InternalMessage.Close.

(** ** Handlers of the event loop *)

(** src/client/src/event_loop.rs:229-261 handle_server_channel_message *)
Definition handle_server_channel_message (message : ServerMessage.t) :
    Res ClientError.t (option Event.t) :=
  match message with
  | ServerMessage.Error code text => Err (ClientError.ServerError code text)
  | ServerMessage.MeetingCreated r => Ok (Some (Event.MeetingCreated r))
  | ServerMessage.MeetingReady r => Ok (Some (Event.MeetingReady r))
  | ServerMessage.SessionCreated r => Ok (Some (Event.SessionCreated r))
  | ServerMessage.SessionReady r => Ok (Some (Event.SessionReady r))
  | ServerMessage.SessionActive r => Ok (Some (Event.SessionActive r))
  | ServerMessage.SessionTimeout id => Ok (Some (Event.SessionTimeout id))
  | ServerMessage.SessionFinished id => Ok (Some (Event.SessionFinished id))
  | _ => Ok None
  end.

(** The reply of a handshake read by its initiator: [&buf[..len]] panics when
    it is out of range. *)
(** src/client/src/event_loop.rs:270-278 server_handshake *)
Definition complete (initiator : HandshakeState) (n : Z) (buf : bytes) :
    Res ClientError.t TransportState :=
  if len buf <? n then Panic
  else
    let '(initiator, r) := hs_read_message initiator (takeZ n buf) (zeros 1024) in
    _ ← map_err ClientError.Snow r;
    map_err ClientError.Snow (into_transport_mode initiator).

(** src/client/src/event_loop.rs:263-285 server_handshake *)
Definition client_server_handshake (n : Z) (buf : bytes) : ClientM Event.t := fun c =>
  let taken := server_state c in
  let c := set_server_state None c in
  match taken with
  | Some (Handshake initiator) =>
      match complete initiator n buf with
      | Ok transport => (set_server_state (Some (Transport transport)) c,
          Ok (Event.ServerConnected (server_public_key (options c))))
      | Err e => (c, Err e)
      | Panic => (c, Panic)
      end
  | _ => (c, Err ClientError.NotHandshakeState)
  end.

(** The responder's half of a peer handshake. *)
(** src/client/src/event_loop.rs:311-317 peer_handshake_responder *)
Definition respond_to (responder : HandshakeState) (n : Z) (buf : bytes) :
    Res ClientError.t (TransportState * (Z * bytes)) :=
  if len buf <? n then Panic
  else
    let '(responder, r) := hs_read_message responder (takeZ n buf) (zeros 1024) in
    _ ← map_err ClientError.Snow r;
    let '(responder, r) := hs_write_message responder [] (zeros 1024) in
    out ← map_err ClientError.Snow r;
    transport ← map_err ClientError.Snow (into_transport_mode responder);
    mret (transport, out).

(** src/client/src/event_loop.rs:287-340 peer_handshake_responder *)
Definition peer_handshake_responder (public_key : bytes) (n : Z) (buf : bytes) :
    ClientM (option Event.t) := fun c =>
  match peers c !! public_key with
  | Some _ => (c, Err ClientError.PeerAlreadyExistsMaybeRace)
  | None =>
      match
        p ← params (options c);
        responder ← map_err ClientError.Snow (build_responder p
          (Keypair.private_key (options_keypair (options c))) public_key);
        respond_to responder n buf
      with
      | Ok (transport, (n, payload)) =>
          (outbound_send (InternalMessage.Request (RequestMessage.Transparent
             (TransparentMessage.PeerHandshake public_key (HandshakeMessage.Responder n payload)))) ;;
           mret (Some (Event.PeerConnected public_key)))
          (set_peers (<[public_key := Transport transport]> (peers c)) c)
      | Err e => (c, Err e)
      | Panic => (c, Panic)
      end
  end.

(** src/client/src/event_loop.rs:342-381 peer_handshake_ack *)
Definition peer_handshake_ack (public_key : bytes) (n : Z) (buf : bytes) : ClientM Event.t := fun c =>
  match peers c !! public_key with
  | None => (c, Err (ClientError.PeerNotFound (hex_encode public_key)))
  | Some peer =>
      let c := set_peers (delete public_key (peers c)) c in
      match peer with
      | Handshake initiator =>
          match complete initiator n buf with
          | Ok transport =>
              (set_peers (<[public_key := Transport transport]> (peers c)) c,
               Ok (Event.PeerConnected public_key))
          | Err e => (c, Err e)
          | Panic => (c, Panic)
          end
      | Transport _ => (c, Err ClientError.NotHandshakeState)
      end
  end.

(** src/client/src/event_loop.rs:383-409 handle_relayed_message *)
Definition handle_relayed_message (public_key : bytes) (envelope : SealedEnvelope)
    (session : option Uuid) : ClientM Event.t :=
  '(enc, payload) ← on_peer public_key (decrypt_peer_channel envelope);
  match enc with
  | Encoding.Noop => sm_panic
  | Encoding.Blob => mret (Event.BinaryMessage public_key payload session)
  | Encoding.Json => mret (Event.JsonMessage public_key {| contents := payload |} session)
  end.

(** src/client/src/event_loop.rs:147-227 handle_incoming_message *)
Definition handle_incoming_message (incoming : ResponseMessage.t) : ClientM (option Event.t) :=
  match incoming with
  | ResponseMessage.Transparent (TransparentMessage.Error code text) =>
      sm_err (ClientError.ServerError code text)
  | ResponseMessage.Transparent
      (TransparentMessage.ServerHandshake (HandshakeMessage.Responder n buf)) =>
      event ← client_server_handshake n buf; mret (Some event)
  | ResponseMessage.Transparent
      (TransparentMessage.PeerHandshake public_key (HandshakeMessage.Initiator n buf)) =>
      peer_handshake_responder public_key n buf
  | ResponseMessage.Transparent
      (TransparentMessage.PeerHandshake public_key (HandshakeMessage.Responder n buf)) =>
      event ← peer_handshake_ack public_key n buf; mret (Some event)
  | ResponseMessage.Opaque (OpaqueMessage.PeerMessage public_key session envelope) =>
      event ← handle_relayed_message public_key envelope session; mret (Some event)
  | ResponseMessage.Opaque (OpaqueMessage.ServerMessage envelope) =>
      '(enc, payload) ← on_server (decrypt_server_channel envelope);
      match enc with
      | Encoding.Blob =>
          message ← lift_err ClientError.Io (decode (A := ServerMessage.t) payload);
          sm_lift (handle_server_channel_message message)
      | _ => sm_panic
      end
  | _ => sm_panic
  end.

(** ** The loop *)

(** [inbound_tx.send(response).await?]. *)
Definition inbound_send (m : ResponseMessage.t) : ClientM unit := fun c =>
  if receiver_open (inbound c)
  then (set_inbound (chan_push m (inbound c)) c, Ok tt)
  else (c, Err ClientError.ResponseMpscSend).

(** src/client/src/native.rs:126-138 read_message *)
Definition read_message (incoming : WsMessage) : ClientM unit :=
  match incoming with
  | Binary buffer =>
      inflated ← lift_err ClientError.Protocol (inflate buffer);
      response ← lift_err ClientError.Io (decode (A := ResponseMessage.t) inflated);
      inbound_send response
  | _ => mret tt
  end.

(** src/client/src/native.rs:140-157 send_message *)
Definition client_send_message (socket_ok : bool) (message : RequestMessage.t) : ClientM unit :=
  encoded ← lift_err ClientError.Io (encode message);
  deflated ← lift_err ClientError.Protocol (deflate encoded);
  (fun c => if socket_ok then (set_socket_out (socket_out c ++ [deflated]) c, Ok tt)
            else (c, Err ClientError.WebSocketSend)) : ClientM unit.

(** How the socket was closed: its halves are put together again, or are not
    of the same socket; then the closing frame is sent. *)
Inductive NativeClose := Reunited (closed : Res ExtError unit) | NotReunited.

(** src/client/src/native.rs:159-168 handle_close_message *)
Definition handle_close_message (websocket : NativeClose) : Res ClientError.t unit :=
  match websocket with
  | Reunited closed => map_err ClientError.Websocket closed
  | NotReunited => Err ClientError.StreamReunite
  end.

(** What the loop takes from its platform: the messages and errors of the
    socket, what the platform answers to sending and to closing, and the
    methods that the two platforms define. *)
(** src/client/src/event_loop.rs:121-138 EventLoop *)
Class SocketPlatform := {
  SocketMessage : Type;
  SocketError : Type;
  SendAnswer : Type;
  CloseAnswer : Type;
  socket_read_message : SocketMessage -> ClientM unit;
  socket_error : SocketError -> ClientError.t;
  socket_send_message : SendAnswer -> RequestMessage.t -> ClientM unit;
  socket_handle_close : CloseAnswer -> Res ClientError.t unit;
}.

(** What a branch of [select!] received: from the socket ([None] once the
    stream has ended), or a wake-up for one of the two channels. *)
Inductive ReadyFor (M E S C : Type) :=
| WsReader (next : option (Res E M))
| OutboundRx (sent : S) (closed : C)
| InboundRx.
#[global] Arguments WsReader {M E S C} next.
#[global] Arguments OutboundRx {M E S C} sent closed.
#[global] Arguments InboundRx {M E S C}.

(** The items a turn yields, and whether the loop goes on. *)
Definition yield_err (c : Client) (r : Res ClientError.t unit) :
    Client * list (Res ClientError.t Event.t) * bool :=
  match r with Ok _ => (c, [], true) | Err e => (c, [Err e], true) | Panic => (c, [Panic], false) end.

Section platform.
Context {SP : SocketPlatform}.

(** src/client/src/event_loop.rs:422-491 run *)
Definition event_loop_turn (ready : ReadyFor SocketMessage SocketError SendAnswer CloseAnswer)
    (c : Client) : Client * list (Res ClientError.t Event.t) * bool :=
  match ready with
  | WsReader (Some (Ok message)) => let '(c, r) := socket_read_message message c in yield_err c r
  | WsReader (Some (Err e)) => (c, [Err (socket_error e)], true)
  | WsReader (Some Panic) => (c, [Panic], false)
  | WsReader None => (c, [], true)
  | OutboundRx sent closed =>
      match queue (outbound c) with
      | message :: rest =>
          let c := set_outbound {| queue := rest; receiver_open := receiver_open (outbound c) |} c in
          match message with
          | InternalMessage.Request request =>
              let '(c, r) := socket_send_message sent request c in yield_err c r
          | InternalMessage.Close =>
              (c, match socket_handle_close closed with
                  | Ok _ => [Ok Event.Close]
                  | Err e => [Err e; Ok Event.Close]
                  | Panic => [Panic]
                  end, false)
          end
      | [] => (c, [], true)
      end
  | InboundRx =>
      match queue (inbound c) with
      | message :: rest =>
          let c := set_inbound {| queue := rest; receiver_open := receiver_open (inbound c) |} c in
          let '(c, r) := handle_incoming_message message c in
          match r with
          | Ok (Some event) => (c, [Ok event], true)
          | Ok None => (c, [], true)
          | Err e => (c, [Err e], true)
          | Panic => (c, [Panic], false)
          end
      | [] => (c, [], true)
      end
  end.
End platform.

(** The native client: [tungstenite] on a TCP socket. *)
(** src/client/src/native.rs:41-48 NativeEventLoop *)
Definition NativePlatform : SocketPlatform := {|
  SocketMessage := WsMessage;
  SocketError := ExtError;
  SendAnswer := bool;
  CloseAnswer := NativeClose;
  socket_read_message := read_message;
  socket_error := ClientError.Websocket;
  socket_send_message := client_send_message;
  socket_handle_close := handle_close_message;
|}.

Definition Ready : Type := ReadyFor WsMessage ExtError bool NativeClose.
Definition run_turn (ready : Ready) (c : Client) :
    Client * list (Res ClientError.t Event.t) * bool :=
  event_loop_turn (SP := NativePlatform) ready c.
End client.
