(* ===== verification/ClientFacts.v ===== *)
(** * Facts about the client

    What its operations queue, how frames travel between a client and the
    server's end of its socket, and which incoming messages it cannot handle. *)

From S2P Require Import Prelude Types Stream Encoding EncodingFacts Noise Channel ChannelSpec Keypair Zlib Net Client.

Section facts.
Context {BS : BinaryStream encoding_options} {BL : BinaryStreamLaws encoding_options BS}.
Context {SC : StatusCodes} {SL : StatusCodesLaws SC} {HO : HashOrder} {HL : HashOrderLaws HO}.
Context {N : Noise} {NL : NoiseLaws N} {FL : Flate} {FLL : FlateLaws FL} {HX : Hex}.

(** The turn that writes what a channel holds, when the socket works. *)
Definition write_turn : Ready := OutboundRx true (Reunited (Ok tt)).

(** The turns of the loop for a list of wake-ups. *)
Fixpoint turns (l : list Ready) (c : Client) : Client * list (Res ClientError.t Event.t) :=
  match l with
  | [] => (c, [])
  | r :: l' =>
      let '(c1, items, continue) := run_turn r c in
      if continue : bool then let '(c2, more) := turns l' c1 in (c2, items ++ more)
      else (c1, items)
  end.

(** A frame on the socket that the other side reads back as the request [m]. *)
Definition carries_request (f : bytes) (m : RequestMessage.t) : Prop :=
  exists buffer, inflate f = Ok buffer /\ decode buffer = Ok m.

(** The loop of a client whose only message is a request writes its frame. *)
Lemma turn_writes c m : wf_request m ->
  outbound c = chan_push (InternalMessage.Request m) chan_new ->
  exists f, run_turn write_turn c =
    (set_socket_out (socket_out c ++ [f]) (set_outbound chan_new c), [], true) /\
    carries_request f m.
Proof.
  intros Hm Hq.
  destruct (codec_encode_decode (C := RequestMessage_Codec) m Hm) as (buffer & He & Hd).
  destruct (deflate_inflate buffer) as (f & Hdef & Hinf).
  exists f. split; [|by exists buffer].
  unfold run_turn, write_turn, event_loop_turn. rewrite Hq. cbn [chan_push chan_new queue app receiver_open].
  cbn [socket_send_message NativePlatform]. unfold client_send_message, lift_err, mbind, SM_bind, sm_lift.
  rewrite He. cbn [map_err]. rewrite Hdef. done.
Qed.

Lemma turn_outbound c m : wf_request m ->
  outbound c = chan_push (InternalMessage.Request m) chan_new ->
  exists f, turns [write_turn] c =
    (set_socket_out (socket_out c ++ [f]) (set_outbound chan_new c), []) /\
    carries_request f m.
Proof.
  intros Hm Hq. destruct (turn_writes c m Hm Hq) as (f & Ht & Hf). exists f. split; [|done].
  cbn [turns]. by rewrite Ht.
Qed.

(** What a turn yields for the outcome of a handler. *)
Definition yielded (r : Res ClientError.t (option Event.t)) : list (Res ClientError.t Event.t) :=
  match r with
  | Ok (Some event) => [Ok event]
  | Ok None => []
  | Err e => [Err e]
  | Panic => [Panic]
  end.

(** A client with nothing in its channels, both of them open. *)
Definition idle (c : Client) : Prop := outbound c = chan_new /\ inbound c = chan_new.

Lemma set_inbound_idle c : inbound c = chan_new ->
  set_inbound {| queue := []; receiver_open := true |} c = c.
Proof. intros H. destruct c. cbn in *. by rewrite H. Qed.

(** The turn that reads a frame from the socket. *)
Definition read_turn (f : bytes) : Ready := WsReader (Some (Ok (Binary f))).

(** The loop reads a frame that carries [m], and then handles it. *)
Lemma turn_reads c f frame m : inbound c = chan_new -> inflate f = Ok frame -> decode frame = Ok m ->
  run_turn (read_turn f) c = (set_inbound (chan_push m chan_new) c, [], true).
Proof.
  intros Hin Hi Hd. unfold run_turn, read_turn, event_loop_turn.
  cbn [socket_read_message NativePlatform]. unfold read_message, lift_err, mbind, SM_bind, sm_lift.
  rewrite Hi. cbn [map_err]. rewrite Hd. cbn [map_err]. unfold inbound_send. rewrite Hin.
  by cbn [receiver_open chan_new yield_err].
Qed.

Lemma turn_handles c m c' r : inbound c = chan_new -> handle_incoming_message m c = (c', r) ->
  run_turn InboundRx (set_inbound (chan_push m chan_new) c) =
  (c', yielded r, match r with Panic => false | _ => true end).
Proof.
  intros Hin Hh. unfold run_turn, event_loop_turn.
  cbn [inbound set_inbound queue receiver_open chan_push chan_new app].
  change (set_inbound {| queue := []; receiver_open := true |}
    (set_inbound (chan_push m chan_new) c))
    with (set_inbound {| queue := []; receiver_open := true |} c).
  rewrite (set_inbound_idle c Hin), Hh. by destruct r as [[]| |].
Qed.

Lemma turn_inbound c f frame m c' r :
  idle c -> inflate f = Ok frame -> decode frame = Ok m ->
  handle_incoming_message m c = (c', r) ->
  turns [read_turn f; InboundRx] c = (c', yielded r).
Proof.
  intros [_ Hin] Hi Hd Hh. cbn [turns]. rewrite (turn_reads c f frame m) by done.
  rewrite (turn_handles c m c' r) by done. by destruct r as [[]| |].
Qed.

(** An operation that ends by queueing a request. *)
Lemma outbound_send_ok m c : receiver_open (outbound c) = true ->
  outbound_send m c = (set_outbound (chan_push m (outbound c)) c, Ok tt).
Proof. intros H. unfold outbound_send. by rewrite H. Qed.

(** ** Peer channels *)

Lemma peer_channel_in_step key payload enc bcast session a b :
  in_step a b -> fits_envelope payload -> enc <> Encoding.Noop ->
  exists a' b' env,
    encrypt_peer_channel key payload enc bcast session (Transport a)
      = (Transport a', Ok (RequestMessage.Opaque (OpaqueMessage.PeerMessage key session env))) /\
    decrypt_peer_channel env (Transport b) = (Transport b', Ok (enc, payload)) /\
    wf_envelope env /\ broadcast env = bcast /\ in_step a' b'.
Proof.
  intros Hab Hlen Henc. unfold fits_envelope in Hlen.
  destruct (split_join_in_step payload a b Hab) as (a' & b' & cs & H1 & H2 & H3 & H4 & H5).
  exists a', b', {| encoding := enc; chunks := cs; broadcast := bcast |}. split_and!; try done.
  - unfold encrypt_peer_channel, with_transport, mbind, SM_bind. by rewrite H1.
  - unfold decrypt_peer_channel, with_transport, mbind, SM_bind. cbn [chunks]. by rewrite H2.
  - split_and!; [done | | by apply chunks_wf]. cbn [chunks]. rewrite H3.
    apply Z.div_lt_upper_bound; unfold CHUNK_SIZE, TAGLEN in *; lia.
Qed.

(** The event for a relayed payload. *)
Definition message_event (enc : Encoding.t) (k payload : bytes) (session : option Uuid) : Event.t :=
  match enc with
  | Encoding.Json => Event.JsonMessage k {| contents := payload |} session
  | _ => Event.BinaryMessage k payload session
  end.

(** Sealing for a peer, and opening what it sealed. *)
Lemma peer_message_steps ca cb ka kb a b payload enc bcast session :
  peers ca !! kb = Some (Transport a) -> peers cb !! ka = Some (Transport b) -> in_step a b ->
  receiver_open (outbound ca) = true -> fits_envelope payload -> enc <> Encoding.Noop ->
  exists a' b' env,
    client_relay kb payload enc bcast session ca =
      (set_outbound (chan_push (InternalMessage.Request (RequestMessage.Opaque
         (OpaqueMessage.PeerMessage kb session env))) (outbound ca))
         (set_peers (<[kb := Transport a']> (peers ca)) ca), Ok tt) /\
    wf_envelope env /\ broadcast env = bcast /\
    handle_relayed_message ka env session cb =
      (set_peers (<[ka := Transport b']> (peers cb)) cb, Ok (message_event enc ka payload session)) /\
    in_step a' b'.
Proof.
  intros Hpa Hpb Hab Ho Hfit Henc.
  destruct (peer_channel_in_step kb payload enc bcast session a b Hab Hfit Henc)
    as (a' & b' & env & H1 & H2 & H3 & H4 & H5).
  exists a', b', env. split_and!; try done.
  - unfold client_relay, mbind, SM_bind, on_peer. rewrite Hpa, H1. by rewrite outbound_send_ok.
  - unfold handle_relayed_message, mbind, SM_bind, on_peer. rewrite Hpb, H2. by destruct enc.
Qed.

(** Sending JSON is sending the serialized value. *)
Lemma send_json_relay {A} {J : SerdeJson A} k (value : A) payload session ca :
  to_vec value = Ok payload ->
  send_json k value session ca = client_relay k payload Encoding.Json false session ca.
Proof. intros Hv. unfold send_json, lift_err, mbind, SM_bind, sm_lift. by rewrite Hv. Qed.

(** ** Handshakes *)

(** The two messages of a handshake on the standard pattern, as the code's
    halves exchange them. *)
Lemma handshake_exchange {NH : NoiseHandshakeLaws N} p ik rk ipub rpub i r :
  parse_params PATTERN = Ok p ->
  build_initiator p ik rpub = Ok i -> build_responder p rk ipub = Ok r ->
  exists i1 n1 m1 r1 l1 r2 n2 m2 ti tr,
    initiate (Handshake i) = (Handshake i1, Ok (n1, m1)) /\
    wf_payload n1 m1 /\ n1 <= len m1 /\
    hs_read_message r (takeZ n1 m1) (zeros 1024) = (r1, Ok l1) /\
    hs_write_message r1 [] (zeros 1024) = (r2, Ok (n2, m2)) /\
    into_transport_mode r2 = Ok tr /\ wf_payload n2 m2 /\ n2 <= len m2 /\
    respond_to r n1 m1 = Ok (tr, (n2, m2)) /\
    complete i1 n2 m2 = Ok ti /\ in_step ti tr.
Proof.
  intros Hp Hi Hr.
  destruct (nn_handshake p ik rk ipub rpub i r Hp Hi Hr) as
    (i1 & n1 & m1 & r1 & l1 & r2 & n2 & m2 & i2 & l2 & ti & tr & H1 & H2 & H3 & H4 & H5 & H6 & H7
     & H8 & H9 & H10 & H11 & H12).
  exists i1, n1, m1, r1, l1, r2, n2, m2, ti, tr.
  unfold wf_payload, wf_buffer, MAX_BUFFER_SIZE, is_u16.
  split_and!; try done; try lia.
  - unfold initiate. by rewrite H1.
  - unfold respond_to. rewrite (proj2 (Z.ltb_ge _ _)) by lia. unfold mbind, Res_bind.
    rewrite H4. cbn [map_err]. rewrite H5. cbn [map_err]. by rewrite H10.
  - unfold complete. rewrite (proj2 (Z.ltb_ge _ _)) by lia. unfold mbind, Res_bind.
    rewrite H8. cbn [map_err]. by rewrite H9.
Qed.

(** A client whose options ask for the standard pattern. *)
Definition standard (c : Client) : Prop :=
  default PATTERN (options_pattern (options c)) = PATTERN.

(** The keys of two clients can be used for a handshake from [a] to [b]. *)
Definition can_handshake (a b : Client) : Prop :=
  exists p i r, parse_params PATTERN = Ok p /\
    build_initiator p (Keypair.private_key (options_keypair (options a))) (client_public_key b) = Ok i /\
    build_responder p (Keypair.private_key (options_keypair (options b))) (client_public_key a) = Ok r.

(** The request that carries a handshake message to a peer. *)
Definition peer_request (k : bytes) (m : HandshakeMessage.t) : RequestMessage.t :=
  RequestMessage.Transparent (TransparentMessage.PeerHandshake k m).

(** The three steps of a peer handshake. *)
Lemma connect_peer_ok ca k p i i1 n m :
  standard ca -> parse_params PATTERN = Ok p ->
  build_initiator p (Keypair.private_key (options_keypair (options ca))) k = Ok i ->
  initiate (Handshake i) = (Handshake i1, Ok (n, m)) ->
  peers ca !! k = None -> receiver_open (outbound ca) = true ->
  connect_peer k ca =
    (set_outbound (chan_push (InternalMessage.Request (peer_request k (HandshakeMessage.Initiator n m)))
       (outbound ca)) (set_peers (<[k := Handshake i1]> (peers ca)) ca), Ok tt).
Proof.
  intros Ha Hp Hi H1 Hk Ho. unfold connect_peer, mbind at 1, SM_bind at 1. rewrite Hk.
  unfold params. rewrite Ha, Hp. unfold mbind, Res_bind. cbn [map_err].
  rewrite Hi. cbn [map_err]. rewrite H1. by rewrite outbound_send_ok.
Qed.

Lemma peer_handshake_responder_ok cb k p r t n m n' m' :
  standard cb -> parse_params PATTERN = Ok p ->
  build_responder p (Keypair.private_key (options_keypair (options cb))) k = Ok r ->
  respond_to r n m = Ok (t, (n', m')) ->
  peers cb !! k = None -> receiver_open (outbound cb) = true ->
  peer_handshake_responder k n m cb =
    (set_outbound (chan_push (InternalMessage.Request (peer_request k (HandshakeMessage.Responder n' m')))
       (outbound cb)) (set_peers (<[k := Transport t]> (peers cb)) cb),
     Ok (Some (Event.PeerConnected k))).
Proof.
  intros Hb Hp Hr H2 Hk Ho. unfold peer_handshake_responder. rewrite Hk.
  unfold params. rewrite Hb, Hp. unfold mbind at 1, Res_bind at 1. cbn [map_err].
  unfold mbind at 1, Res_bind at 1. rewrite Hr. cbn [map_err]. rewrite H2.
  unfold mbind, SM_bind. by rewrite outbound_send_ok.
Qed.

Lemma peer_handshake_ack_ok ca k i t n m :
  peers ca !! k = Some (Handshake i) -> complete i n m = Ok t ->
  peer_handshake_ack k n m ca =
    (set_peers (<[k := Transport t]> (peers ca)) ca, Ok (Event.PeerConnected k)).
Proof.
  intros Hk H3. unfold peer_handshake_ack. rewrite Hk, H3.
  cbn [peers set_peers]. by rewrite insert_delete_eq.
Qed.

(** ** Messages the client cannot handle *)

Lemma complete_panics i n buf : complete i n buf = Panic -> len buf < n.
Proof.
  unfold complete. destruct (Z.ltb_spec (len buf) n); [done |]. unfold mbind, Res_bind.
  pose proof (hs_read_no_panic i (takeZ n buf) (zeros 1024)) as Hr.
  destruct (hs_read_message _ _ _) as [i1 [l|e|]]; cbn in *; [| done | done].
  pose proof (into_transport_no_panic i1). by destruct (into_transport_mode i1).
Qed.

Lemma respond_to_panics r n buf : respond_to r n buf = Panic -> len buf < n.
Proof.
  unfold respond_to. destruct (Z.ltb_spec (len buf) n); [done |]. unfold mbind, Res_bind.
  pose proof (hs_read_no_panic r (takeZ n buf) (zeros 1024)) as Hr.
  destruct (hs_read_message _ _ _) as [r1 [l|e|]]; cbn in *; [| done | done].
  pose proof (hs_write_no_panic r1 [] (zeros 1024)) as Hw.
  destruct (hs_write_message _ _ _) as [r2 [out|e|]]; cbn in *; [| done | done].
  pose proof (into_transport_no_panic r2). by destruct (into_transport_mode r2).
Qed.

Lemma params_no_panic o : params o <> Panic.
Proof. unfold params. pose proof (parse_params_no_panic (default PATTERN (options_pattern o))).
  by destruct (parse_params _). Qed.
End facts.
