(* ===== verification/ClientRef.v ===== *)
(** * Reference clients

    Concrete clients, and a JSON serializer for byte strings, on which the
    client's properties are evaluated. *)

From S2P Require Import Prelude Types Stream Encoding EncodingFacts Noise Channel NoiseRef ChannelSpec.
From S2P Require Import Keypair Zlib Net Client ServerRef.

#[export] Instance BytesJson : SerdeJson bytes := {| to_vec := Ok; from_slice := Ok |}.

#[export] Instance BytesJson_laws : SerdeJsonLaws bytes.
Proof. split; cbn; intros; congruence. Qed.

Definition ref_options (k : bytes) : ClientOptions := {|
  options_keypair := {| Keypair.inner := {| public := k; private := k |} |};
  server_public_key := [Byte.x01];
  options_pattern := None;
|}.

(** A client that shares [ref_transport] with the server and knows [known]. *)
Definition ref_client (k : bytes) (known : gmap bytes ProtocolState) : Client := {|
  options := ref_options k; server_state := Some (Transport ref_transport); peers := known;
  outbound := chan_new; inbound := chan_new; socket_out := [];
|}.

Definition ref_alice : Client := ref_client alice {[bob := Transport ref_transport]}.
Definition ref_bob : Client := ref_client bob {[alice := Transport ref_transport]}.

Lemma ref_in_step : in_step ref_transport ref_transport.
Proof. by split. Qed.
