(* ===== verification/ClientSpec.v ===== *)
(** * Properties of the client

    The guards of the table of peers, and the messages a client cannot handle.
    What clients achieve together with the server is in [EndToEnd]. *)

From S2P Require Import Prelude Types Stream StreamLE Encoding EncodingFacts EncodingSpec Noise Channel NoiseRef ChannelSpec.
From S2P Require Import Keypair Zlib Net Client ClientFacts.

Section spec.
Context {BS : BinaryStream encoding_options} {BL : BinaryStreamLaws encoding_options BS}.
Context {SC : StatusCodes} {SL : StatusCodesLaws SC} {HO : HashOrder} {HL : HashOrderLaws HO}.
Context {N : Noise} {NL : NoiseLaws N} {FL : Flate} {FLL : FlateLaws FL} {HX : Hex}.

(** The guards of the table of peers.  A handshake that reaches a client
    which already has the peer, connected or connecting, is refused with
    [PeerAlreadyExistsMaybeRace] and changes nothing: two clients that have
    both sent an initiator's message to each other refuse each other's, and
    neither leaves the handshake state.  [connect_peer] is refused for a peer
    in the table; a reply or a message from a stranger is [PeerNotFound]; a
    reply that fails, and a second reply from a connected peer, remove the
    peer from the table. *)
Theorem peer_table_guards (c : Client) (k : bytes) (n : Z) (buf : bytes) :
  (forall s, peers c !! k = Some s ->
    handle_incoming_message (ResponseMessage.Transparent
      (TransparentMessage.PeerHandshake k (HandshakeMessage.Initiator n buf))) c
      = (c, Err ClientError.PeerAlreadyExistsMaybeRace) /\
    connect_peer k c = (c, Err ClientError.PeerAlreadyExists)) /\
  (forall session envelope, peers c !! k = None ->
    handle_incoming_message (ResponseMessage.Transparent
      (TransparentMessage.PeerHandshake k (HandshakeMessage.Responder n buf))) c
      = (c, Err (ClientError.PeerNotFound (hex_encode k))) /\
    handle_incoming_message
      (ResponseMessage.Opaque (OpaqueMessage.PeerMessage k session envelope)) c
      = (c, Err (ClientError.PeerNotFound (hex_encode k)))) /\
  (forall s c' r, peers c !! k = Some s ->
    handle_incoming_message (ResponseMessage.Transparent
      (TransparentMessage.PeerHandshake k (HandshakeMessage.Responder n buf))) c = (c', r) ->
    (r = Ok (Some (Event.PeerConnected k)) /\ exists t, peers c' = <[k := Transport t]> (peers c)) \/
    ((forall e, r <> Ok e) /\ peers c' = delete k (peers c))) /\
  (forall t, peers c !! k = Some (Transport t) ->
    handle_incoming_message (ResponseMessage.Transparent
      (TransparentMessage.PeerHandshake k (HandshakeMessage.Responder n buf))) c
      = (set_peers (delete k (peers c)) c, Err ClientError.NotHandshakeState)).
Proof.
  cbn [handle_incoming_message].
  unfold peer_handshake_responder, connect_peer, peer_handshake_ack, handle_relayed_message,
    on_peer, mbind, SM_bind.
  split_and!.
  - intros s ->. done.
  - intros session envelope ->. done.
  - intros s c' r ->. destruct s as [i|t]; [|intros [= <- <-]; by right].
    destruct (complete i n buf) as [t|e|]; intros [= <- <-]; [left | by right..].
    split; [done |]. exists t. cbn. by rewrite insert_delete_eq.
  - intros t ->. done.
Qed.

(** A response outside of what the event loop handles. *)
Definition unhandled (c : Client) (m : ResponseMessage.t) : Prop :=
  match m with
  | ResponseMessage.Transparent (TransparentMessage.ServerHandshake h) =>
      match h with HandshakeMessage.Responder n buf => len buf < n | _ => True end
  | ResponseMessage.Transparent (TransparentMessage.PeerHandshake _ h) =>
      match h with
      | HandshakeMessage.Initiator n buf | HandshakeMessage.Responder n buf => len buf < n
      | HandshakeMessage.Noop => True
      end
  | ResponseMessage.Opaque (OpaqueMessage.PeerMessage _ _ e) =>
      encoding e = Encoding.Noop \/ Exists (fun c => len (chunk_contents c) < chunk_length c) (chunks e)
  | ResponseMessage.Opaque (OpaqueMessage.ServerMessage e) =>
      server_state c = None \/ encoding e <> Encoding.Blob \/
      Exists (fun c => len (chunk_contents c) < chunk_length c) (chunks e)
  | ResponseMessage.Transparent (TransparentMessage.Error _ _) => False
  | _ => True
  end.

(** Opening an envelope panics only on a chunk with a bad length. *)
Lemma join_panics_chunks {E} (f : Error -> E) (e : E) {B} (k : bytes -> TS B) env s :
  (forall b t, (k b t).2 <> Panic) ->
  (with_transport e f (payload ← join (chunks env); k payload) s).2 = Panic ->
  Exists (fun c => len (chunk_contents c) < chunk_length c) (chunks env).
Proof.
  intros Hk Hp. destruct (decide (Exists (fun c => len (chunk_contents c) < chunk_length c) (chunks env)))
    as [|Hn]; [done | exfalso].
  assert (Forall (fun c => chunk_length c <= len (chunk_contents c)) (chunks env)) as Hall.
  { apply not_Exists_Forall in Hn; [|intros c; apply _].
    eapply list.Forall_impl; [exact Hn |]. cbn. intros; lia. }
  destruct s as [h|t]; [done |]. cbn in Hp. unfold mbind, SM_bind, join in Hp.
  pose proof (join_loop_no_panic _ Hall [] t) as Hj.
  destruct (join_loop (chunks env) [] t) as [t' [b| |]]; cbn in Hp; [|done..].
  pose proof (Hk b t') as Hkb. by destruct (k b t') as [t2 []].
Qed.

(** Handling a message panics only on one of these. *)
Lemma incoming_panics (c : Client) (m : ResponseMessage.t) :
  (handle_incoming_message m c).2 = Panic -> unhandled c m.
Proof.
  destruct m as [ |[ |code text|[ |n buf|n buf]|k [ |n buf|n buf]]|[ |e|k s e]]; cbn; try done.
  + unfold mbind, SM_bind, client_server_handshake.
    destruct (server_state c) as [[i|t]|]; cbn; [|done..].
    destruct (complete i n buf) eqn:E; cbn; [done.. |]. by apply complete_panics in E.
  + unfold peer_handshake_responder. destruct (peers c !! k); [done |].
    unfold mbind at 1, Res_bind at 1. pose proof (params_no_panic (options c)).
    destruct (params (options c)) as [p| |]; cbn; [|done..].
    unfold mbind at 1, Res_bind at 1.
    pose proof (build_responder_no_panic p (Keypair.private_key (options_keypair (options c))) k).
    destruct (build_responder _ _ k) as [r| |]; cbn; [|done..].
    destruct (respond_to r n buf) as [[t [n' b']]| |] eqn:E; cbn; [|done|by apply respond_to_panics in E].
    unfold mbind, SM_bind, outbound_send. cbn. by destruct (receiver_open _).
  + unfold mbind, SM_bind, peer_handshake_ack. destruct (peers c !! k) as [[i|t]|]; cbn; [|done..].
    destruct (complete i n buf) eqn:E; cbn; [done.. |]. by apply complete_panics in E.
  + unfold mbind at 1, SM_bind at 1, on_server. destruct (server_state c) as [s|]; [|by left].
    intros Hp. right.
    assert (encoding e = Encoding.Blob \/ encoding e <> Encoding.Blob) as [He|]
      by (destruct (encoding e); auto); [right | by left].
    destruct (decrypt_server_channel e s) as [s' r] eqn:Hd.
    destruct r as [[enc payload]|err|]; cbn in Hp; [exfalso | done |].
    * assert (enc = Encoding.Blob) as ->.
      { unfold decrypt_server_channel, with_transport, mbind, SM_bind in Hd.
        destruct s as [h|t]; [done |]. destruct (join (chunks e) t) as [t' [b| |]]; cbn in Hd; by simplify_eq. }
      cbn in Hp. unfold lift_err, mbind, SM_bind, sm_lift in Hp.
      pose proof (codec_decode_wf (C := ServerMessage_Codec) payload) as Hw.
      destruct (decode payload) as [sm| |]; cbn in Hp; [|done..]. by destruct sm.
    * apply (join_panics_chunks id NotTransportState (fun b => mret (encoding e, b)) e s); [done |].
      unfold decrypt_server_channel in Hd. by rewrite Hd.
  + unfold mbind at 1, SM_bind at 1, handle_relayed_message, mbind at 1, SM_bind at 1, on_peer.
    destruct (peers c !! k) as [s0|]; [|done]. intros Hp.
    destruct (decrypt_peer_channel e s0) as [s' r] eqn:Hd.
    destruct r as [[enc payload]|err|]; cbn in Hp; [left | done | right].
    * assert (enc = encoding e) as ->.
      { unfold decrypt_peer_channel, with_transport, mbind, SM_bind in Hd.
        destruct s0 as [h|t]; [done |]. destruct (join (chunks e) t) as [t' [b| |]]; cbn in Hd; by simplify_eq. }
      by destruct (encoding e).
    * apply (join_panics_chunks ClientError.Protocol ClientError.NotTransportState
        (fun b => mret (encoding e, b)) e s0); [done |].
      unfold decrypt_peer_channel in Hd. by rewrite Hd.
Qed.

(** A peer's first message, and an envelope of a connected peer, with a length
    out of range. *)
Lemma bad_initiator_panics c k n buf p r : peers c !! k = None -> params (options c) = Ok p ->
  build_responder p (Keypair.private_key (options_keypair (options c))) k = Ok r -> len buf < n ->
  (handle_incoming_message (ResponseMessage.Transparent
    (TransparentMessage.PeerHandshake k (HandshakeMessage.Initiator n buf))) c).2 = Panic.
Proof.
  intros Hp Hpar Hr Hn. cbn [handle_incoming_message]. unfold peer_handshake_responder, mbind, Res_bind.
  rewrite Hp, Hpar, Hr. cbn [map_err]. unfold respond_to. by rewrite (proj2 (Z.ltb_lt _ _)).
Qed.

Lemma bad_envelope_panics c k session env t chunk rest : peers c !! k = Some (Transport t) ->
  chunks env = chunk :: rest -> len (chunk_contents chunk) < chunk_length chunk ->
  (handle_incoming_message (ResponseMessage.Opaque (OpaqueMessage.PeerMessage k session env)) c).2 = Panic.
Proof.
  intros Hp Hc Hn. cbn [handle_incoming_message].
  unfold handle_relayed_message, on_peer, decrypt_peer_channel, with_transport, join, mbind, SM_bind.
  rewrite Hp, Hc. cbn [join_loop]. by rewrite (proj2 (Z.ltb_lt _ _)).
Qed.
End spec.

From S2P Require Import ServerRef ClientRef.

Lemma peer_table_guards_witness :
  connect_peer bob ref_alice = (ref_alice, Err ClientError.PeerAlreadyExists) /\
  handle_incoming_message (ResponseMessage.Transparent
    (TransparentMessage.PeerHandshake bob (HandshakeMessage.Responder 0 []))) ref_alice
    = (set_peers (delete bob (peers ref_alice)) ref_alice, Err ClientError.NotHandshakeState).
Proof.
  destruct (peer_table_guards ref_alice bob 0 []) as (H1 & _ & _ & H4). split.
  - by apply (H1 (Transport ref_transport)).
  - by apply (H4 ref_transport).
Defined.
