(* ===== verification/EndToEnd.v ===== *)
(** * Client and server together

    What happens when the two implementations talk to each other over
    websockets that deliver: the server handshake, requests and their answers,
    and messages from one client to another through the relay.  A theorem here
    runs the client's operations and turns of its loop on one side, and the
    server's tasks on the other, on the bytes they exchange. *)

From S2P Require Import Prelude Types Stream StreamLE Encoding EncodingFacts EncodingSpec Noise Channel NoiseRef ChannelSpec.
From S2P Require Import Keypair ServerConfig Zlib Prog Sessions SessionsFacts Net Server ServerSystem ServerRun ServerSpec.
From S2P Require Import Client ClientFacts ClientSpec.

Section system.
Context {BS : BinaryStream encoding_options} {BL : BinaryStreamLaws encoding_options BS}.
Context {SC : StatusCodes} {SL : StatusCodesLaws SC} {HO : HashOrder} {HL : HashOrderLaws HO}.
Context {N : Noise} {NL : NoiseLaws N} {FL : Flate} {FLL : FlateLaws FL} {HX : Hex} {DI : Display}.

(** A client past its handshake, and the connection the server has for it:
    they are in step and the connection is the active one of the client's key. *)
Definition linked (ca : Client) (c : Connection) (w : World) : Prop :=
  exists conn b, heap w !! c = Some conn /\ connected conn b /\
    server_state ca = Some (Transport b) /\
    conn_public_key conn = client_public_key ca /\
    active (server w) !! client_public_key ca = Some c.

(** An idle client that runs an operation and then a turn of its loop writes
    one frame. *)
Definition writes_frame (op : SM Client ClientError.t unit) (ca ca' : Client) (buffer : bytes) : Prop :=
  exists ca0 f, op ca = (ca0, Ok tt) /\ turns [write_turn] ca0 = (ca', []) /\
    socket_out ca' = socket_out ca ++ [f] /\ inflate f = Ok buffer.

(** An idle client that receives a frame and handles it yields these items. *)
Definition handles_frame (f : bytes) (ca ca' : Client) (items : list (Res ClientError.t Event.t)) : Prop :=
  turns [read_turn f; InboundRx] ca = (ca', items).

(** The client after an operation that queued [m] and the turn that sent it. *)
Lemma writes_queued op ca ca0 m : idle ca -> wf_request m ->
  op ca = (set_outbound (chan_push (InternalMessage.Request m) (outbound ca)) ca0, Ok tt) ->
  outbound ca0 = outbound ca -> socket_out ca0 = socket_out ca ->
  exists f buffer, decode buffer = Ok m /\
    writes_frame op ca (set_socket_out (socket_out ca ++ [f]) ca0) buffer.
Proof.
  intros [Ho _] Hm Hop Hout Hs. rewrite Ho in Hop, Hout.
  destruct (turn_outbound (set_outbound (chan_push (InternalMessage.Request m) chan_new) ca0) m Hm eq_refl)
    as (f & Ht & buffer & Hi & Hd).
  exists f, buffer. split; [done |]. do 2 eexists. split_and!; [exact Hop | | | exact Hi].
  - rewrite Ht. cbn [socket_out set_outbound]. rewrite Hs.
    destruct ca0. cbn in *. by rewrite Hout.
  - done.
Qed.

Lemma handles_carried f m ca ca' r : idle ca -> carries f m ->
  handle_incoming_message m ca = (ca', r) -> handles_frame f ca ca' (yielded r).
Proof. intros Hi (frame & H1 & H2) Hh. by eapply turn_inbound. Qed.

(** ** The handshake with the server *)

(** A new connection waits for the initiator's message. *)
Lemma upgrade_pending k w w' c : upgrade k w = (w', Ok c) ->
  exists p h, parse_params (default PATTERN (ServerConfig.pattern (config (server w)))) = Ok p /\
    build_responder p (Keypair.private_key (keypair (server w))) k = Ok h /\
    let conn := {| conn_id := next_uuid w; conn_public_key := k; outgoing := chan_new;
                   incoming := chan_new; conn_state := Some (Handshake h) |} in
    w' = set_server (set_tables (<[next_uuid w := c]> (pending (server w)))
           (active (server w)) (server w)) (set_heap (<[c := conn]> (heap w)) w) /\
    heap w' !! c = Some conn.
Proof.
  unfold upgrade. destruct (_ && _); [done |]. unfold mbind, Res_bind.
  destruct (parse_params _) as [p| |]; cbn [map_err]; [|done..].
  destruct (build_responder p _ k) as [h| |] eqn:Eb; cbn [map_err]; [|done..].
  intros [= <- <-]. exists p, h. split_and!; [done.. |]. apply lookup_insert_eq.
Qed.

(** The server's half of the handshake, in the connection's lock. *)
Lemma server_handshake_ok conn h n m h1 l h2 n2 m2 t :
  conn_state conn = Some (Handshake h) -> receiver_open (outgoing conn) = true ->
  n <= len m -> hs_read_message h (takeZ n m) (zeros 1024) = (h1, Ok l) ->
  hs_write_message h1 [] (zeros 1024) = (h2, Ok (n2, m2)) -> wf_payload n2 m2 ->
  into_transport_mode h2 = Ok t ->
  exists f, server_handshake n m conn =
      (push_out (Binary f) (set_conn_state (Some (Transport t)) conn), Ok tt) /\
    carries f (ResponseMessage.Transparent
      (TransparentMessage.ServerHandshake (HandshakeMessage.Responder n2 m2))).
Proof.
  intros Hst Ho Hn H1 H2 Hw H3.
  destruct (send_response_ok (ResponseMessage.Transparent
    (TransparentMessage.ServerHandshake (HandshakeMessage.Responder n2 m2)))
    (set_conn_state (Some (Handshake h2)) conn) Hw Ho) as (f & Hs & Hc).
  exists f. split; [|done]. unfold server_handshake, mbind, SM_bind, respond. rewrite Hst.
  rewrite (proj2 (Z.ltb_ge _ _)) by done. rewrite H1. cbn [map_err]. rewrite H2. cbn [map_err].
  change (set_conn_state (Some (Handshake h2)) (set_conn_state (Some (Handshake h1)) conn))
    with (set_conn_state (Some (Handshake h2)) conn). rewrite Hs.
  unfold enter_transport. cbn [push_out set_outgoing set_conn_state conn_state].
  rewrite H3. done.
Qed.

(** The state once a connection has been promoted. *)
Definition promoted (c : Connection) (conn : WebSocketConnection) (s : ServerState) : ServerState :=
  set_tables (delete (conn_id conn) (pending s)) (<[conn_public_key conn := c]> (active s)) s.

(** Listening to the initiator's message of a handshake. *)
Lemma listen_handshake c conn h n m h1 l h2 n2 m2 t w buffer :
  heap w !! c = Some conn -> conn_state conn = Some (Handshake h) -> receiver_open (outgoing conn) = true ->
  n <= len m -> hs_read_message h (takeZ n m) (zeros 1024) = (h1, Ok l) ->
  hs_write_message h1 [] (zeros 1024) = (h2, Ok (n2, m2)) -> wf_payload n2 m2 ->
  into_transport_mode h2 = Ok t ->
  decode buffer = Ok (RequestMessage.Transparent (TransparentMessage.ServerHandshake (HandshakeMessage.Initiator n m))) ->
  exists f, let conn' := push_out (Binary f) (set_conn_state (Some (Transport t)) conn) in
    run (listen c buffer) w = (set_server (promoted c conn (server w)) (put_conn c conn' w), Ok tt) /\
    carries f (ResponseMessage.Transparent
      (TransparentMessage.ServerHandshake (HandshakeMessage.Responder n2 m2))).
Proof.
  intros Hc Hst Ho Hn H1 H2 Hw H3 Hdec.
  destruct (server_handshake_ok conn h n m h1 l h2 n2 m2 t) as (f & Hsh & Hcar); [done.. |].
  exists f. split; [|done]. unfold listen. rewrite run_pure, Hdec. cbn [lift_io map_err]. rewrite run_on_err.
  cbn [handle_request]. rewrite (run_write_conn c conn) by done. rewrite Hsh.
  unfold promote_connection. rewrite (run_read_conn c _) by apply lookup_put_conn.
  by rewrite run_write_state_last.
Qed.

(** C27. A client connects to the server.  Let a socket be admitted with the
    key of a client whose options, like the server's configuration, ask for the
    standard pattern.  [connect] and one turn of the client's loop write one
    frame; listening to it, the server answers with one frame, moves the
    connection from the pending to the active ones under the client's key, and
    enters transport mode; handling the answer the client reports
    [ServerConnected] with the server's key and is connected.  Client and
    connection are then in step, and the client is idle. *)
Theorem server_handshake_connects {NH : NoiseHandshakeLaws N} (o : ClientOptions) (ca : Client)
    (w w1 : World) (c : Connection) :
  default PATTERN (options_pattern o) = PATTERN ->
  default PATTERN (ServerConfig.pattern (config (server w))) = PATTERN ->
  client_new o = Ok ca ->
  upgrade (Keypair.public_key (options_keypair o)) w = (w1, Ok c) ->
  let k := client_public_key ca in
  exists ca1 buffer w2 conn f ca2,
    writes_frame connect ca ca1 buffer /\
    run (listen c buffer) w1 = (w2, Ok tt) /\
    heap w2 = <[c := conn]> (heap w) /\ queue (outgoing conn) = [Binary f] /\
    pending (server w2) = delete (next_uuid w) (pending (server w)) /\
    active (server w2) = <[k := c]> (active (server w)) /\
    handles_frame f ca1 ca2 [Ok (Event.ServerConnected (server_public_key o))] /\
    linked ca2 c w2 /\ is_connected ca2 = true /\ idle ca2.
Proof.
  intros Hpo Hps Hnew Hup k. unfold client_new, params in Hnew. rewrite Hpo in Hnew.
  destruct (parse_params PATTERN) as [p| |] eqn:Hp; [|done..]. unfold mbind, Res_bind in Hnew.
  cbn [map_err] in Hnew. destruct (build_initiator p _ _) as [i| |] eqn:Hi; [|done..].
  cbn in Hnew. injection Hnew as <-.
  destruct (upgrade_pending _ _ _ _ Hup) as (p' & r & Hp' & Hr & Hw1 & Hc). rewrite Hps, Hp in Hp'.
  injection Hp' as <-.
  destruct (handshake_exchange p _ _ _ _ i r Hp Hi Hr) as
    (i1 & n1 & m1 & r1 & l1 & r2 & n2 & m2 & ti & tr & H1 & Hm1 & Hn1 & H2 & H3 & H4 & Hm2 & Hn2
     & _ & H5 & Hstep).
  set (ca0 := {| options := o; server_state := Some (Handshake i1); peers := ∅;
    outbound := chan_new; inbound := chan_new; socket_out := [] |}).
  set (conn0 := {| conn_id := next_uuid w; conn_public_key := Keypair.public_key (options_keypair o);
    outgoing := chan_new; incoming := chan_new; conn_state := Some (Handshake r) |}) in *.
  destruct (writes_queued connect {| options := o; server_state := Some (Handshake i); peers := ∅;
    outbound := chan_new; inbound := chan_new; socket_out := [] |} ca0
    (RequestMessage.Transparent (TransparentMessage.ServerHandshake (HandshakeMessage.Initiator n1 m1))))
    as (f1 & buffer & Hdec & Hwrite); [done | done | | done | done |].
  { unfold connect, mbind, SM_bind. cbn [server_state]. by rewrite H1. }
  destruct (listen_handshake c conn0 r n1 m1 r1 l1 r2 n2 m2 tr w1 buffer) as (f2 & Hrun & Hcar); [done.. |].
  set (conn := push_out (Binary f2) (set_conn_state (Some (Transport tr)) conn0)) in *.
  set (ca1 := set_socket_out [f1] ca0).
  set (ca2 := set_server_state (Some (Transport ti)) ca1).
  assert (in_step tr ti) as Hstep' by by apply in_step_sym.
  exists ca1, buffer, (set_server (promoted c conn0 (server w1)) (put_conn c conn w1)), conn, f2, ca2. split_and!.
  - exact Hwrite.
  - exact Hrun.
  - subst w1. cbn. by rewrite insert_insert_eq.
  - done.
  - subst w1. cbn. apply delete_insert_eq.
  - by subst w1.
  - eapply (handles_carried f2 _ ca1 ca2 (Ok (Some _))); [done | exact Hcar |].
    cbn [handle_incoming_message]. unfold client_server_handshake, mbind, SM_bind.
    cbn [ca1 ca0 set_socket_out server_state]. by rewrite H5.
  - exists conn, ti. split_and!; [apply lookup_put_conn | | done | done |].
    + split; [done |]. by exists tr.
    + apply lookup_insert_eq.
  - done.
  - done.
Qed.

(** ** Requests *)

(** What the server sends back for the outcome of a call. *)
Definition reply_of (r : Res ServerError.t (option ServerMessage.t)) : option ServerMessage.t :=
  match r with
  | Ok reply => reply
  | Err e => Some (ServerMessage.Error INTERNAL_SERVER_ERROR (ServerError_to_string e))
  | Panic => None
  end.

(** A message on the server channel is handled as what it delivers. *)
Lemma handle_delivered m b bs bcast b' c : server_state c = Some (Noise.Transport b) ->
  delivers b bs m bcast b' -> exists rm, carries bs rm /\
    handle_incoming_message rm c =
      (set_server_state (Some (Noise.Transport b')) c, handle_server_channel_message m).
Proof.
  intros Hs (env & payload & Hcar & Hdec & Hm & _). eexists. split; [exact Hcar |].
  cbn [handle_incoming_message]. unfold on_server, mbind, SM_bind. rewrite Hs, Hdec.
  cbn [map_err]. unfold lift_err, sm_lift. by rewrite Hm.
Qed.

(** A linked client that reads a message on the server channel. *)
Lemma handles_delivered ca b bs m b' : idle ca -> server_state ca = Some (Transport b) ->
  delivers b bs m false b' ->
  handles_frame bs ca (set_server_state (Some (Transport b')) ca)
    (yielded (handle_server_channel_message m)).
Proof.
  intros Hi Hs Hdel. destruct (handle_delivered m b bs false b' ca Hs Hdel) as (rm & Hcar & Hh).
  by eapply handles_carried.
Qed.

(** C9. A request is answered.  An idle client linked to its connection makes
    a request of the server.  One frame leaves the client; listening to it the
    server runs [service] under the client's key, and sends back nothing, or
    one frame with the answer, or one with the error's text.  Handling that
    frame the client yields what the loop makes of the answer: the event for
    it, or a [ServerError] for an error.  Client and connection remain linked
    throughout, so requests can be repeated. *)
Theorem client_request_answered (ca : Client) (c : Connection) (w : World) (m : ServerMessage.t) :
  linked ca c w -> idle ca -> sendable m ->
  exists ca1 buffer w1, writes_frame (request m) ca ca1 buffer /\ idle ca1 /\
    server w1 = server w /\ (forall d, d <> c -> heap w1 !! d = heap w !! d) /\
    let (w2, r) := run (service c (client_public_key ca) m) w1 in
    (reply_of r = None -> run (listen c buffer) w = (w2, Ok tt) /\ linked ca1 c w2) /\
    (forall reply, reply_of r = Some reply -> sendable reply -> exists w3 conn f before ca2,
      run (listen c buffer) w = (w3, Ok tt) /\ server w3 = server w2 /\ spawned w3 = spawned w2 /\
      heap w3 = <[c := conn]> (heap w2) /\ queue (outgoing conn) = before ++ [Binary f] /\
      handles_frame f ca1 ca2 (yielded (handle_server_channel_message reply)) /\
      linked ca2 c w3 /\ idle ca2) /\
    (forall e, r = Err e -> exists text, reply_of r = Some (ServerMessage.Error INTERNAL_SERVER_ERROR text) /\
      yielded (handle_server_channel_message (ServerMessage.Error INTERNAL_SERVER_ERROR text))
        = [Err (ClientError.ServerError INTERNAL_SERVER_ERROR text)]).
Proof.
  intros (conn & b & Hc & Hconn & Hs & Hk & Ha) Hidle [Hm Hf].
  pose proof Hconn as (Ho & t & Ht & Htb).
  destruct (codec_encode_decode (C := ServerMessage_Codec) m Hm) as (payload & He & Hd).
  destruct (channel_in_step payload false b t (in_step_sym _ _ Htb) (Hf _ He))
    as (b1 & t1 & env & H1 & H2 & H3 & _ & _ & H6).
  set (ca0 := set_server_state (Some (Transport b1)) ca).
  destruct (writes_queued (request m) ca ca0 (RequestMessage.Opaque (OpaqueMessage.ServerMessage env)))
    as (f & buffer & Hdec & Hwrite); [done | done | | done | done |].
  { unfold request. rewrite Hs. unfold lift_err, mbind, SM_bind, sm_lift. rewrite He. cbn [map_err].
    unfold on_server. rewrite Hs, H1. cbn [map_err]. rewrite outbound_send_ok; [done |].
    destruct Hidle as [Hout _]. cbn. by rewrite Hout. }
  set (ca1 := set_socket_out (socket_out ca ++ [f]) ca0).
  set (conn1 := set_conn_state (Some (Transport t1)) conn).
  assert (connected conn1 b1) as Hconn1.
  { split; [done |]. exists t1. split; [done | by apply in_step_sym]. }
  exists ca1, buffer, (put_conn c conn1 w). split_and!; [done | by destruct Hidle | done | |].
  { intros d Hd'. cbn. by rewrite lookup_insert_ne. }
  assert (heap (put_conn c conn1 w) !! c = Some conn1) as Hc1 by apply lookup_put_conn.
  rewrite <- Hk in *.
  pose proof (run_listen_rpc c conn t t1 env buffer payload m w Hc Ha Ht Hdec H2 Hd) as Hrun.
  fold conn1 in Hrun. rewrite Hrun. clear Hrun.
  pose proof (rpc_outcome c conn1 b1 (conn_public_key conn) m _ Hc1 Hconn1) as Hout. cbv zeta in Hout.
  pose proof (service_effect c conn1 (conn_public_key conn) m _ Hc1) as Heff.
  set (out := run (on_err _ _) _) in *. clearbody out.
  destruct (run (service c (conn_public_key conn) m) (put_conn c conn1 w)) as [w2 r].
  destruct Heff as (Hh & Hact & Hnp).
  assert (linked ca1 c w2) as Hlink.
  { exists conn1, b1. rewrite Hh, Hact. split_and!; [done..|]. change (client_public_key ca1) with (client_public_key ca). by rewrite <- Hk. }
  assert (forall reply, replies c conn1 b1 reply w2 out -> exists w3 conn f before ca2,
    out = (w3, Ok tt) /\ server w3 = server w2 /\ spawned w3 = spawned w2 /\
    heap w3 = <[c := conn]> (heap w2) /\ queue (outgoing conn) = before ++ [Binary f] /\
    handles_frame f ca1 ca2 (yielded (handle_server_channel_message reply)) /\
    linked ca2 c w3 /\ idle ca2) as Hreply.
  { intros reply (bs & b' & conn' & -> & Hdel & Hsent).
    destruct (sent_to_connected conn1 conn' bs b1 b' Hconn1 Hsent) as (Hconn' & _ & Hk' & _ & Hq).
    exists (put_conn c conn' w2), conn', bs, (queue (outgoing conn1)),
      (set_server_state (Some (Transport b')) ca1).
    split_and!; try done.
    - by eapply handles_delivered; [by destruct Hidle | | ].
    - destruct Hlink as (_ & _ & _ & _ & _ & _ & Hact'). exists conn', b'.
      split_and!; [apply lookup_put_conn | done | done | by rewrite Hk' | done]. }
  split_and!.
  - destruct r as [[]| |]; try done. by destruct Hout as [_ ->].
  - intros reply Hr Hsend. apply Hreply.
    destruct r as [[]| |]; cbn in Hr; simplify_eq; by apply Hout.
  - intros e ->. by exists (ServerError_to_string e).
Qed.

(** ** Messages between clients *)

(** A relayed frame leaves every linked client linked: no transport of the
    server is involved. *)
Lemma linked_relayed ca ca' c w p peer m session :
  linked ca c w -> heap w !! p = Some peer ->
  server_state ca' = server_state ca -> options ca' = options ca ->
  linked ca' c (put_conn p (push_out m peer) (touched w session)).
Proof.
  intros (conn & b & Hc & (Ho & t & Ht & Hs) & Hst & Hk & Ha) Hp Hst' Hopt.
  assert (client_public_key ca' = client_public_key ca) as Hk' by (unfold client_public_key; by rewrite Hopt).
  assert (heap (touched w session) = heap w) as Hh by by destruct session.
  assert (active (server (touched w session)) = active (server w)) as Hact by by destruct session.
  destruct (decide (c = p)) as [->|Hne].
  - rewrite Hp in Hc. simplify_eq. exists (push_out m conn), b.
    split_and!; [apply lookup_put_conn | | by rewrite Hst' | by rewrite Hk' | ].
    + split; [done |]. by exists t.
    + cbn. by rewrite Hact, Hk'.
  - exists conn, b. split_and!; [ | | by rewrite Hst' | by rewrite Hk' | ].
    + cbn. by rewrite lookup_insert_ne, Hh.
    + split; [done |]. by exists t.
    + cbn. by rewrite Hact, Hk'.
Qed.

(** The server's half of a relayed message. *)
Lemma relays ca cb c p w k session env buffer :
  linked ca c w -> linked cb p w -> k = client_public_key cb ->
  wf_request (RequestMessage.Opaque (OpaqueMessage.PeerMessage k session env)) ->
  wf_buffer (client_public_key ca) -> may_relay w session k ->
  decode buffer = Ok (RequestMessage.Opaque (OpaqueMessage.PeerMessage k session env)) ->
  exists peer f, heap w !! p = Some peer /\
    run (listen c buffer) w = (put_conn p (push_out (Binary f) peer) (touched w session), Ok tt) /\
    carries f (ResponseMessage.Opaque (OpaqueMessage.PeerMessage (client_public_key ca) session env)).
Proof.
  intros (conn & ? & Hc & _ & _ & Hk & _) (peer & ? & Hp & [Ho _] & _ & _ & Hact) -> Hwf Hka Hmay Hdec.
  destruct (run_relay_ok c p conn peer (client_public_key cb) session env w) as (f & Hr & Hcar);
    [done | done | by rewrite Hk | done.. |].
  exists peer, f. rewrite Hk in Hcar. split_and!; [done | | done].
  unfold listen. rewrite run_pure, Hdec. cbn [lift_io map_err]. by rewrite run_on_err, Hr.
Qed.

(** C8. A message goes from one client to another.  Let two clients be linked
    to the server and hold transports in step for each other, and let the
    session, when one is named, have the receiver as a member.  What the first
    sends, JSON or binary, leaves it as one frame; listening to it, the server
    queues one frame on the receiver's socket and refreshes the session; and
    handling that frame the receiver reports the message under the sender's
    key, in the same session; a JSON message deserializes to the value sent.
    The two transports remain in step and both clients remain linked and
    idle: the next message can follow. *)
Theorem peer_message_end_to_end {A} {J : SerdeJson A} {JL : SerdeJsonLaws A} (ca cb : Client)
    (c p : Connection) (w : World) (a b : TransportState) (value : A) (payload : bytes)
    (session : option Uuid) :
  let ka := client_public_key ca in
  let kb := client_public_key cb in
  linked ca c w -> linked cb p w -> idle ca -> idle cb ->
  peers ca !! kb = Some (Transport a) -> peers cb !! ka = Some (Transport b) -> in_step a b ->
  fits_envelope payload -> wf_buffer ka -> wf_buffer kb -> from_option is_uuid True session ->
  may_relay w session kb ->
  let travels op event := exists ca1 buffer peer f cb1 a' b',
    let w1 := put_conn p (push_out (Binary f) peer) (touched w session) in
    writes_frame op ca ca1 buffer /\
    heap w !! p = Some peer /\ run (listen c buffer) w = (w1, Ok tt) /\
    handles_frame f cb cb1 [Ok event] /\
    peers ca1 = <[kb := Transport a']> (peers ca) /\
    peers cb1 = <[ka := Transport b']> (peers cb) /\ in_step a' b' /\
    linked ca1 c w1 /\ linked cb1 p w1 /\ idle ca1 /\ idle cb1 in
  travels (send_blob kb payload session) (Event.BinaryMessage ka payload session) /\
  (to_vec value = Ok payload ->
    travels (send_json kb value session) (Event.JsonMessage ka {| contents := payload |} session) /\
    deserialize {| contents := payload |} = Ok value).
Proof.
  intros ka kb Hla Hlb Hia Hib Hpa Hpb Hab Hfit Hka Hkb Hs Hmay travels.
  assert (forall enc op, enc <> Encoding.Noop ->
    op ca = client_relay kb payload enc false session ca ->
    travels op (message_event enc ka payload session)) as H.
  { intros enc op Henc Hop.
    destruct (peer_message_steps ca cb ka kb a b payload enc false session)
      as (a' & b' & env & H1 & H2 & H3 & H4 & H5); [done.. | by destruct Hia as [-> _] | done | done |].
    rewrite H1 in Hop.
    assert (wf_request (RequestMessage.Opaque (OpaqueMessage.PeerMessage kb session env))) as Hwf
      by by split_and!.
    destruct (writes_queued op ca _ _ Hia Hwf Hop) as (g & buffer & Hdec & Hwrite); [done.. |].
    destruct (relays ca cb c p w kb session env buffer) as (peer & f & Hp & Hrun & Hcar); [done.. |].
    eexists _, buffer, peer, f, (set_peers (<[ka := Transport b']> (peers cb)) cb), a', b'.
    split_and!; [exact Hwrite | done | done | | done | done | done | | | | ].
    - eapply (handles_carried f _ cb _ (Ok (Some _))); [done | exact Hcar |].
      cbn [handle_incoming_message]. fold ka. unfold mbind, SM_bind. by rewrite H4.
    - by apply (linked_relayed ca).
    - by apply (linked_relayed cb).
    - by destruct Hia.
    - by destruct Hib. }
  split; [by apply (H Encoding.Blob) |]. intros Hv. split.
  - apply (H Encoding.Json); [done |]. by apply send_json_relay.
  - unfold deserialize. cbn. by rewrite (to_vec_from_slice value payload Hv).
Qed.

(** ** Handshakes between clients *)

(** An idle client that receives a frame and answers it with a frame. *)
Definition answers_frame (f : bytes) (ca ca' : Client) (items : list (Res ClientError.t Event.t))
    (buffer : bytes) : Prop :=
  exists ca0 g, handles_frame f ca ca0 items /\ turns [write_turn] ca0 = (ca', []) /\
    socket_out ca' = socket_out ca ++ [g] /\ inflate g = Ok buffer.

(** The server's half of a peer handshake message. *)
Lemma listen_relays_handshake c cn p peer key m w buffer :
  heap w !! c = Some cn -> active (server w) !! key = Some p -> heap w !! p = Some peer ->
  receiver_open (outgoing peer) = true -> wf_buffer (conn_public_key cn) ->
  wf_request (peer_request key m) -> decode buffer = Ok (peer_request key m) ->
  exists f, run (listen c buffer) w = (put_conn p (push_out (Binary f) peer) w, Ok tt) /\
    carries f (ResponseMessage.Transparent (TransparentMessage.PeerHandshake (conn_public_key cn) m)).
Proof.
  intros Hc Hact Hp Ho Hka [_ Hm] Hdec.
  destruct (send_response_ok (ResponseMessage.Transparent
    (TransparentMessage.PeerHandshake (conn_public_key cn) m)) peer) as (f & Hs & Hcar); [done | done |].
  exists f. split; [|done].
  unfold listen. rewrite run_pure, Hdec. cbn [lift_io map_err]. rewrite run_on_err.
  unfold peer_request. cbn [handle_request]. unfold relay_peer_handshake.
  rewrite (run_relay c cn) by done. rewrite Hact.
  rewrite (run_write_conn_last p peer) by done. by rewrite Hs.
Qed.

Lemma relays_handshake ca cb c p w m buffer :
  linked ca c w -> linked cb p w -> wf_buffer (client_public_key ca) ->
  wf_request (peer_request (client_public_key cb) m) ->
  decode buffer = Ok (peer_request (client_public_key cb) m) ->
  exists peer f, heap w !! p = Some peer /\
    run (listen c buffer) w = (put_conn p (push_out (Binary f) peer) w, Ok tt) /\
    carries f (ResponseMessage.Transparent (TransparentMessage.PeerHandshake (client_public_key ca) m)).
Proof.
  intros (conn & ? & Hc & _ & _ & Hk & _) (peer & ? & Hp & [Ho _] & _ & _ & Hact) Hka Hm Hdec.
  destruct (listen_relays_handshake c conn p peer (client_public_key cb) m w buffer) as (f & Hr & Hcar);
    [done.. | by rewrite Hk | done | done |].
  exists peer, f. by rewrite Hk in Hcar.
Qed.

(** C28. Two clients connect through the server.  Let both be linked to it,
    without each other in their tables of peers, on the standard pattern.
    [connect_peer] leaves the first as one frame; the server passes it on to
    the second under the first's key; the second reports [PeerConnected],
    enters transport mode and answers with one frame; the server passes that
    back under the second's key, and the first reports [PeerConnected] and
    enters transport mode.  The tables of peers gain transports in step for
    each other and are otherwise unchanged; both clients are linked to the
    server and idle again, ready to exchange messages. *)
Theorem peer_handshake_end_to_end {NH : NoiseHandshakeLaws N} (ca cb : Client)
    (c p : Connection) (w : World) :
  let ka := client_public_key ca in
  let kb := client_public_key cb in
  linked ca c w -> linked cb p w -> idle ca -> idle cb -> standard ca -> standard cb ->
  can_handshake ca cb -> peers ca !! kb = None -> peers cb !! ka = None ->
  wf_buffer ka -> wf_buffer kb ->
  exists ca1 buffer1 peer f1 cb1 buffer2 conn f2 ca2 a b,
    let w1 := put_conn p (push_out (Binary f1) peer) w in
    let w2 := put_conn c (push_out (Binary f2) conn) w1 in
    writes_frame (connect_peer kb) ca ca1 buffer1 /\
    heap w !! p = Some peer /\ run (listen c buffer1) w = (w1, Ok tt) /\
    answers_frame f1 cb cb1 [Ok (Event.PeerConnected ka)] buffer2 /\
    heap w1 !! c = Some conn /\ run (listen p buffer2) w1 = (w2, Ok tt) /\
    handles_frame f2 ca1 ca2 [Ok (Event.PeerConnected kb)] /\
    peers ca2 = <[kb := Transport a]> (peers ca) /\
    peers cb1 = <[ka := Transport b]> (peers cb) /\ in_step a b /\
    linked ca2 c w2 /\ linked cb1 p w2 /\ idle ca2 /\ idle cb1.
Proof.
  intros ka kb Hla Hlb Hia Hib Ha Hb (q & i & r & Hq & Hi & Hr) Hka Hkb Hwa Hwb.
  destruct (handshake_exchange q _ _ _ _ i r Hq Hi Hr) as
    (i1 & n1 & m1 & r1 & l1 & r2 & n2 & m2 & ti & tr & H1 & Hw1 & _ & _ & _ & _ & Hw2 & _ & H2 & H3 & H4).
  assert (wf_request (peer_request kb (HandshakeMessage.Initiator n1 m1))) as Hwf1 by done.
  assert (wf_request (peer_request ka (HandshakeMessage.Responder n2 m2))) as Hwf2 by done.
  pose proof (connect_peer_ok ca kb q i i1 n1 m1 Ha Hq Hi H1 Hka ltac:(by destruct Hia as [-> _])) as Hop.
  destruct (writes_queued _ ca _ _ Hia Hwf1 Hop) as (g1 & buffer1 & Hdec1 & Hwrite); [done.. |].
  destruct (relays_handshake ca cb c p w _ buffer1 Hla Hlb Hwa Hwf1 Hdec1) as (peer & f1 & Hp & Hrun1 & Hcar1).
  pose proof (peer_handshake_responder_ok cb ka q r tr n1 m1 n2 m2 Hb Hq Hr H2 Hkb
    ltac:(by destruct Hib as [-> _])) as Hresp.
  set (ca1 := set_socket_out (socket_out ca ++ [g1]) (set_peers (<[kb := Handshake i1]> (peers ca)) ca)) in *.
  set (cb0 := set_outbound _ _) in Hresp.
  destruct (turn_outbound cb0 _ Hwf2) as (g2 & Hturn & buffer2 & Hinf2 & Hdec2).
  { unfold cb0. by destruct Hib as [-> _]. }
  set (cb1 := set_socket_out _ _) in Hturn.
  pose proof (linked_relayed ca ca1 c w p peer (Binary f1) None Hla Hp eq_refl eq_refl) as Hla1.
  pose proof (linked_relayed cb cb1 p w p peer (Binary f1) None Hlb Hp eq_refl eq_refl) as Hlb1.
  cbn [touched] in Hla1, Hlb1. set (w1 := put_conn p (push_out (Binary f1) peer) w) in *.
  destruct (relays_handshake cb1 ca1 p c w1 _ buffer2 Hlb1 Hla1 Hwb Hwf2 Hdec2) as (conn & f2 & Hc & Hrun2 & Hcar2).
  set (ca2 := set_peers (<[kb := Transport ti]> (peers ca)) ca1).
  exists ca1, buffer1, peer, f1, cb1, buffer2, conn, f2, ca2, ti, tr. cbv zeta. fold w1.
  split_and!; try done.
  - exists cb0, g2. split_and!; [|done..].
    by eapply (handles_carried f1 _ cb cb0 (Ok (Some _))).
  - eapply (handles_carried f2 _ ca1 ca2 (Ok (Some _))); [by destruct Hia | exact Hcar2 |].
    cbn [handle_incoming_message]. unfold mbind, SM_bind.
    rewrite (peer_handshake_ack_ok ca1 kb i1 ti) by (done || apply lookup_insert_eq).
    unfold ca2. cbn [ca1 peers set_peers set_socket_out]. by rewrite insert_insert_eq.
  - by apply (linked_relayed ca1 ca2 c w1 c conn (Binary f2) None).
  - by apply (linked_relayed cb1 cb1 p w1 c conn (Binary f2) None).
  - split; [done | by destruct Hib].
Qed.

(** C29. What stops an event loop.  Handling a message panics only when the
    message is a server handshake other than a responder's, a frame without
    content, a handshake message or a chunk whose declared length exceeds its
    contents, an envelope from a peer without an encoding, or an envelope on
    the server channel that is not a blob or that comes after a failed server
    handshake.  Such messages do reach clients.  An initiator's message from
    the server encodes and decodes, and panics whatever the client's state.
    And the server relays what peers send as it is: a client that is connected
    to it stops the loop of any other whose key it knows with one frame, a
    first handshake message with a length out of range; and one that is a
    connected peer does so with an envelope whose first chunk has such a
    length. *)
Theorem event_loop_panics (ca cb : Client) (c p : Connection) (w : World) :
  let ka := client_public_key ca in
  let kb := client_public_key cb in
  let stops request := exists buffer peer f m, encode request = Ok buffer /\ decode buffer = Ok request /\
    heap w !! p = Some peer /\ (run (listen c buffer) w).2 = Ok tt /\
    heap (run (listen c buffer) w).1 = <[p := push_out (Binary f) peer]> (heap w) /\
    carries f m /\ (handle_incoming_message m cb).2 = Panic in
  (forall m, (handle_incoming_message m cb).2 = Panic -> unhandled cb m) /\
  (forall n buf, let m := ResponseMessage.Transparent
      (TransparentMessage.ServerHandshake (HandshakeMessage.Initiator n buf)) in
    (wf_payload n buf -> exists bs, encode m = Ok bs /\ decode bs = Ok m) /\
    (handle_incoming_message m cb).2 = Panic) /\
  (linked ca c w -> linked cb p w -> wf_buffer ka -> wf_buffer kb ->
    (forall n buf, standard cb -> can_handshake ca cb -> peers cb !! ka = None ->
      wf_payload n buf -> len buf < n ->
      stops (RequestMessage.Transparent (TransparentMessage.PeerHandshake kb (HandshakeMessage.Initiator n buf)))) /\
    (forall session env chunk rest t, peers cb !! ka = Some (Transport t) -> may_relay w session kb ->
      wf_request (RequestMessage.Opaque (OpaqueMessage.PeerMessage kb session env)) ->
      chunks env = chunk :: rest -> len (chunk_contents chunk) < chunk_length chunk ->
      stops (RequestMessage.Opaque (OpaqueMessage.PeerMessage kb session env)))).
Proof.
  intros ka kb stops. split; [apply incoming_panics |]. split.
  { intros n buf m. split; [|done]. intros Hw. by apply (codec_encode_decode (C := ResponseMessage_Codec)). }
  intros Ha Hb Hka Hkb. split.
  - intros n buf Hstd (q & _ & r & Hq & _ & Hr) Hpeer Hwf Hn.
    assert (wf_request (peer_request kb (HandshakeMessage.Initiator n buf))) as Hreq by done.
    destruct (codec_encode_decode (C := RequestMessage_Codec) _ Hreq) as (buffer & He & Hd).
    destruct (relays_handshake ca cb c p w (HandshakeMessage.Initiator n buf) buffer) as
      (peer & f & Hp & Hrun & Hcar); [done.. |].
    exists buffer, peer, f. eexists. rewrite Hrun. split_and!; try done.
    apply (bad_initiator_panics cb ka n buf q r); [done | | done | done].
    unfold params. rewrite Hstd. by rewrite Hq.
  - intros session env chunk rest t Hpeer Hmay Hreq Hch Hn.
    destruct (codec_encode_decode (C := RequestMessage_Codec) _ Hreq) as (buffer & He & Hd).
    destruct (relays ca cb c p w kb session env buffer) as (peer & f & Hp & Hrun & Hcar); [done.. |].
    exists buffer, peer, f. eexists. rewrite Hrun. split_and!; try done.
    + by destruct session.
    + by apply (bad_envelope_panics cb ka session env t chunk rest).
Qed.
End system.

(** ** Evaluations on the reference server *)

From S2P Require Import ServerRef ClientRef.

Lemma ref_linked k id c peers : heap ref_world !! c = Some (ref_conn id k) ->
  active (server ref_world) !! k = Some c -> linked (ref_client k peers) c ref_world.
Proof.
  intros Hc Ha. exists (ref_conn id k), ref_transport.
  split_and!; [done | apply ref_connected | done..].
Qed.

Lemma alice_linked peers : linked (ref_client alice peers) 0%nat ref_world.
Proof. by eapply ref_linked. Qed.
Lemma bob_linked peers : linked (ref_client bob peers) 1%nat ref_world.
Proof. by eapply ref_linked. Qed.

Lemma ref_upgrade : exists w1, upgrade [Byte.x0c] ref_world = (w1, Ok 2%nat).
Proof.
  exists (upgrade [Byte.x0c] ref_world).1. rewrite (surjective_pairing (upgrade _ _)).
  by apply (f_equal (pair _)).
Qed.

Lemma server_handshake_connects_witness : exists w1 ca1 buffer w2 f ca2,
  upgrade [Byte.x0c] ref_world = (w1, Ok 2%nat) /\
  run (listen 2%nat buffer) w1 = (w2, Ok tt) /\
  active (server w2) !! [Byte.x0c] = Some 2%nat /\
  handles_frame f ca1 ca2 [Ok (Event.ServerConnected [Byte.x01])] /\ is_connected ca2 = true.
Proof.
  destruct ref_upgrade as [w1 Hup].
  assert (exists ca, client_new (ref_options [Byte.x0c]) = Ok ca /\ client_public_key ca = [Byte.x0c])
    as (ca & Hnew & Hk) by (eexists; split; reflexivity).
  destruct (server_handshake_connects (NH := RefNoise_handshake_laws) (ref_options [Byte.x0c]) ca
    ref_world w1 2%nat) as (ca1 & buffer & w2 & conn & f & ca2 & _ & H1 & _ & _ & _ & H2 & H3 & _ & H4 & _).
  - reflexivity.
  - reflexivity.
  - exact Hnew.
  - exact Hup.
  - exists w1, ca1, buffer, w2, f, ca2. split_and!; try done. rewrite H2, Hk. apply lookup_insert_eq.
Defined.

Lemma client_request_answered_witness : exists ca1 buffer w3 f ca2,
  writes_frame (request (ServerMessage.CloseSession the_id)) ref_alice ca1 buffer /\
  run (listen 0%nat buffer) ref_world = (w3, Ok tt) /\
  handles_frame f ca1 ca2 [Ok (Event.SessionFinished the_id)].
Proof.
  destruct (client_request_answered ref_alice 0%nat ref_world (ServerMessage.CloseSession the_id))
    as (ca1 & buffer & w1 & H1 & _ & Hs & Hh & H2).
  - apply alice_linked.
  - done.
  - by eapply sendable_small; [|by vm_compute|by vm_compute].
  - assert (exists w2, run (service 0%nat (client_public_key ref_alice)
      (ServerMessage.CloseSession the_id)) w1 = (w2, Ok (Some (ServerMessage.SessionFinished the_id))))
      as [w2 Hr].
    { cbn [service]. rewrite run_read_state, Hs. eexists. reflexivity. }
    rewrite Hr in H2. destruct H2 as (_ & H2 & _).
    destruct (H2 (ServerMessage.SessionFinished the_id)) as (w3 & conn & f & b & ca2 & H3 & _ & _ & _ & _ & H4 & _).
    + reflexivity.
    + by eapply sendable_small; [|by vm_compute|by vm_compute].
    + by exists ca1, buffer, w3, f, ca2.
Defined.

Lemma peer_message_end_to_end_witness : exists ca1 buffer w1 f cb1,
  writes_frame (send_json bob [Byte.x05; Byte.x06] (Some the_id)) ref_alice ca1 buffer /\
  run (listen 0%nat buffer) ref_world = (w1, Ok tt) /\
  handles_frame f ref_bob cb1
    [Ok (Event.JsonMessage alice {| contents := [Byte.x05; Byte.x06] |} (Some the_id))].
Proof.
  destruct (peer_message_end_to_end ref_alice ref_bob 0%nat 1%nat ref_world ref_transport
    ref_transport [Byte.x05; Byte.x06] [Byte.x05; Byte.x06] (Some the_id)) as [_ H].
  - apply alice_linked.
  - apply bob_linked.
  - done.
  - done.
  - reflexivity.
  - reflexivity.
  - apply ref_in_step.
  - by vm_compute.
  - by vm_compute.
  - by vm_compute.
  - reflexivity.
  - exists ref_session. split; [reflexivity | right; set_solver].
  - destruct (H eq_refl) as [(ca1 & buffer & peer & f & cb1 & a' & b' & H1 & _ & H2 & H3 & _) _].
    by eexists ca1, buffer, _, f, cb1.
Defined.

Lemma peer_handshake_end_to_end_witness : exists ca1 buffer1 w1 f1 cb1 buffer2 w2 f2 ca2,
  writes_frame (connect_peer bob) (ref_client alice ∅) ca1 buffer1 /\
  run (listen 0%nat buffer1) ref_world = (w1, Ok tt) /\
  answers_frame f1 (ref_client bob ∅) cb1 [Ok (Event.PeerConnected alice)] buffer2 /\
  run (listen 1%nat buffer2) w1 = (w2, Ok tt) /\
  handles_frame f2 ca1 ca2 [Ok (Event.PeerConnected bob)].
Proof.
  destruct (peer_handshake_end_to_end (NH := RefNoise_handshake_laws) (ref_client alice ∅)
    (ref_client bob ∅) 0%nat 1%nat ref_world) as
    (ca1 & buffer1 & peer & f1 & cb1 & buffer2 & conn & f2 & ca2 & a & b & H1 & _ & H2 & H3 & _ & H4 & H5 & _).
  - apply alice_linked.
  - apply bob_linked.
  - done.
  - done.
  - reflexivity.
  - reflexivity.
  - eexists _, _, _. split_and!; reflexivity.
  - reflexivity.
  - reflexivity.
  - by vm_compute.
  - by vm_compute.
  - by eexists ca1, buffer1, _, f1, cb1, buffer2, _, f2, ca2.
Defined.

(** Alice stops Bob, once as a stranger and once as a peer. *)
Lemma event_loop_panics_witness :
  (exists buffer f m, (run (listen 0%nat buffer) ref_world).2 = Ok tt /\ carries f m /\
    (handle_incoming_message m (ref_client bob ∅)).2 = Panic) /\
  (exists buffer f m, (run (listen 0%nat buffer) ref_world).2 = Ok tt /\ carries f m /\
    (handle_incoming_message m ref_bob).2 = Panic) /\
  unhandled ref_alice (ResponseMessage.Transparent
    (TransparentMessage.ServerHandshake (HandshakeMessage.Initiator 0 []))).
Proof.
  split; [|split].
  - destruct (event_loop_panics ref_alice (ref_client bob ∅) 0%nat 1%nat ref_world) as (_ & _ & H).
    destruct (H (alice_linked _) (bob_linked _) ltac:(by vm_compute) ltac:(by vm_compute)) as [H1 _].
    destruct (H1 1 []) as (buffer & peer & f & m & _ & _ & _ & Hr & _ & Hc & Hp).
    + reflexivity.
    + eexists _, _, _. split; [|split]; reflexivity.
    + reflexivity.
    + by split; vm_compute.
    + done.
    + by exists buffer, f, m.
  - destruct (event_loop_panics ref_alice ref_bob 0%nat 1%nat ref_world) as (_ & _ & H).
    destruct (H (alice_linked _) (bob_linked _) ltac:(by vm_compute) ltac:(by vm_compute)) as [_ H2].
    destruct (H2 None {| encoding := Encoding.Json; broadcast := false;
        chunks := [{| chunk_length := 1; chunk_contents := [] |}] |}
      {| chunk_length := 1; chunk_contents := [] |} [] ref_transport)
      as (buffer & peer & f & m & _ & _ & _ & Hr & _ & Hc & Hp).
    + reflexivity.
    + done.
    + split; [by vm_compute |]. split; [done |]. split; [done |]. split; [by vm_compute |].
      by repeat constructor; vm_compute.
    + reflexivity.
    + done.
    + by exists buffer, f, m.
  - destruct (event_loop_panics ref_alice ref_alice 0%nat 0%nat ref_world) as (H1 & H2 & _).
    apply H1, (H2 0 []).
Defined.
