(* ===== verification/Web.v ===== *)
(** * The client in the browser

    [src/client/src/web.rs]: the socket of the browser calls back into the
    client, the callback spawns a task that sends the message on a bounded
    channel, and the loop of [event_loop.rs] reads it.  The sender of that
    channel is behind a raw pointer that every clone of the client holds and
    drops.  The tasks run when the browser polls them, in any interleaving with
    its events.  What the browser answers is a parameter. *)

From S2P Require Import Prelude Types Stream Encoding Noise Channel Keypair Zlib Net Client.

(** Values of JavaScript: [as_string], [from_str], and the conversion to a
    JSON value, by its text. *)
Class JavaScript := {
  JsVal : Type;
  js_as_string : JsVal -> option string;
  js_from_str : string -> JsVal;
  js_to_json : JsVal -> Res ExtError ExtError;
}.

(** What the socket calls back with: a message has a buffer when its data is an
    [ArrayBuffer]. *)
Inductive SocketEvent :=
| OnOpen
| OnError
| OnMessage (data : option bytes).

(** What the page's executor does: the socket calls back, or a spawned task is
    polled. *)
Inductive PageEvent :=
| Fire (e : SocketEvent)
| Poll (task : nat).

(** What can go wrong with the pointer to the sender. *)
Inductive MemoryFault := UseAfterDrop | DoubleDrop.

(** The bound of the channel. *)
(** src/client/src/web.rs:57-57 WebClient::new *)
Definition WS_CAPACITY : nat := 32.

(** What the callbacks and their tasks see: which callbacks are set, whether the
    sender behind the pointer has been dropped, the channel it sends on, and the
    tasks that have not ended, in the order they were spawned, each with the
    data of its message. *)
(** src/client/src/web.rs:38-47 WebClient *)
Record Page := {
  onopen : bool;
  onmessage : bool;
  onerror : bool;
  sender_dropped : bool;
  ws_msg : Chan bytes;
  sends : list (option bytes);
}.

Definition set_ws_msg (q : Chan bytes) (p : Page) : Page :=
  {| onopen := onopen p; onmessage := onmessage p; onerror := onerror p;
     sender_dropped := sender_dropped p; ws_msg := q; sends := sends p |}.
Definition set_sends (l : list (option bytes)) (p : Page) : Page :=
  {| onopen := onopen p; onmessage := onmessage p; onerror := onerror p;
     sender_dropped := sender_dropped p; ws_msg := ws_msg p; sends := l |}.

(** [Semaphore] is fair: a free place in the channel is for the send that has
    waited longest, so a task gets one only when no earlier one has a message. *)
Definition first_in_line (i : nat) (p : Page) : bool :=
  forallb (fun data => bool_decide (data = None)) (take i (sends p)).
Definition has_room (p : Page) : bool := bool_decide (length (queue (ws_msg p)) < WS_CAPACITY)%nat.

(** [Result::map_err] on the result of a computation. *)
Definition sm_map_err {S E F A} (f : E -> F) (m : SM S E A) : SM S F A := fun s =>
  let '(s, r) := m s in (s, map_err f r).

Section web.
Context {BS : BinaryStream encoding_options} {SC : StatusCodes} {HO : HashOrder}.
Context {N : Noise} {FL : Flate} {HX : Hex} {JS : JavaScript}.

(** src/client/src/error.rs:111-125 from *)
Definition error_from_js (value : JsVal) : ClientError.t :=
  match js_as_string value with
  | Some s => ClientError.JsString s
  | None =>
      match js_to_json value with
      | Ok val => ClientError.JsValue val
      | _ => ClientError.JsError
      end
  end.

(** A computation on the client. *)
Abbreviation ClientM := (SM Client ClientError.t).

(** ** Callbacks *)

(** The message callback, which spawns a task. *)
(** src/client/src/web.rs:68-70 WebClient::new *)
Definition onmessage_callback (data : option bytes) : SM Page MemoryFault unit :=
  sm_modify (fun p => set_sends (sends p ++ [data]) p).

(** A poll of a spawned task: it ends, or waits for a place in the channel. *)
(** src/client/src/web.rs:70-98 WebClient::new *)
Definition send_task (i : nat) : SM Page MemoryFault unit := fun p =>
  match sends p !! i with
  | Some (Some buffer) =>
      if sender_dropped p then (p, Err UseAfterDrop)
      else if receiver_open (ws_msg p) then
        if first_in_line i p && has_room p
        then (set_sends (delete i (sends p)) (set_ws_msg (chan_push buffer (ws_msg p)) p), Ok tt)
        else (p, Ok tt)
      else match decode (A := ResponseMessage.t) buffer with
           | Ok _ => (set_sends (delete i (sends p)) p, Ok tt)
           | _ => (p, Panic)
           end
  | Some None => (set_sends (delete i (sends p)) p, Ok tt)
  | None => (p, Ok tt)
  end.

(** The browser calls the callbacks that are set. *)
Definition fire (e : SocketEvent) : SM Page MemoryFault unit := fun p =>
  match e with
  | OnMessage data => if onmessage p then onmessage_callback data p else (p, Ok tt)
  | OnOpen | OnError => (p, Ok tt)
  end.

Definition page_event (e : PageEvent) : SM Page MemoryFault unit :=
  match e with Fire e => fire e | Poll i => send_task i end.

(** [open_rx.recv().await]: what happens before the socket opens. *)
(** src/client/src/web.rs:116-126 WebClient::new *)
Fixpoint wait_open (events : list PageEvent) (p : Page) :
    Res (Stop ClientError.t) (Page * list PageEvent) :=
  match events with
  | [] => Err Pending
  | Fire OnOpen :: events => Ok (p, events)
  | e :: events =>
      match page_event e p with
      | (p, Ok _) => wait_open events p
      | _ => Panic
      end
  end.

(** The page once the callbacks are set. *)
(** src/client/src/web.rs:58-125 WebClient::new *)
Definition listening : Page :=
  {| onopen := true; onmessage := true; onerror := true; sender_dropped := false;
     ws_msg := chan_new; sends := [] |}.

(** The client, the page and the events still to come, from the outcome of
    [WebSocket::new] and the events of the socket. *)
(** src/client/src/web.rs:50-182 WebClient::new *)
Definition WebClient_new (created : Res JsVal unit) (events : list PageEvent) (opts : ClientOptions) :
    Res (Stop ClientError.t) (Client * Page * list PageEvent) :=
  _ ← map_err (fun value => Failed (error_from_js value)) created;
  '(page, events) ← wait_open events listening;
  client ← map_err Failed (client_new opts);
  mret (client, page, events).

(** [WebClient::new] in a browser, given by what its sockets do. *)
Definition WebClient_open (browser : string -> Res JsVal unit * list PageEvent)
    (server : string) (opts : ClientOptions) : Res (Stop ClientError.t) Client :=
  let '(created, events) := browser server in
  '(client, _, _) ← WebClient_new created events opts; mret client.

(** [Clone] copies the pointer; every clone drops what it points to. *)
(** src/client/src/web.rs:198-205 WebClient::drop *)
Definition drop_client : SM Page MemoryFault unit := fun p =>
  if sender_dropped p then (p, Err DoubleDrop)
  else ({| onopen := onopen p; onmessage := onmessage p; onerror := onerror p;
           sender_dropped := true; ws_msg := ws_msg p; sends := sends p |}, Ok tt).

(** The end of the event stream, which owns the receiver. *)
Definition drop_loop (p : Page) : Page := set_ws_msg (chan_close (ws_msg p)) p.

(** ** The socket *)

(** src/client/src/web.rs:266-271 poll_ready *)
Definition poll_ready : ClientM unit := mret tt.

(** src/client/src/web.rs:273-278 start_send *)
Definition start_send (answer : Res JsVal unit) (item : bytes) : ClientM unit := fun c =>
  match answer with
  | Ok _ => (set_socket_out (socket_out c ++ [item]) c, Ok tt)
  | Err value => (c, Err (error_from_js value))
  | Panic => (c, Panic)
  end.

(** src/client/src/web.rs:280-285 poll_flush *)
Definition poll_flush : ClientM unit := mret tt.

(** [SinkExt::send]. *)
Definition sink_send (answer : Res JsVal unit) (item : bytes) : ClientM unit :=
  poll_ready ;; start_send answer item ;; poll_flush.

(** src/client/src/web.rs:211-221 read_message *)
Definition web_read_message (incoming : bytes) : ClientM unit :=
  inflated ← lift_err ClientError.Protocol (inflate incoming);
  response ← lift_err ClientError.Io (decode (A := ResponseMessage.t) inflated);
  inbound_send response.

(** src/client/src/web.rs:223-239 send_message *)
Definition web_send_message (answer : Res JsVal unit) (message : RequestMessage.t) : ClientM unit :=
  encoded ← lift_err ClientError.Io (encode message);
  deflated ← lift_err ClientError.Protocol (deflate encoded);
  sm_map_err (fun _ => ClientError.WebSocketSend) (sink_send answer deflated) ;;
  sm_map_err (fun _ => ClientError.WebSocketSend) poll_flush.

(** src/client/src/web.rs:241-251 handle_close_message *)
Definition web_handle_close_message (answer : Res JsVal unit) : SM Page ClientError.t unit := fun p =>
  ({| onopen := false; onmessage := false; onerror := false; sender_dropped := sender_dropped p;
      ws_msg := ws_msg p; sends := sends p |}, map_err error_from_js answer).

(** The messages and errors of the socket on this platform. *)
(** src/client/src/web.rs:29-36 WebEventLoop *)
Definition WebPlatform : SocketPlatform := {|
  SocketMessage := bytes;
  SocketError := ClientError.t;
  SendAnswer := Res JsVal unit;
  CloseAnswer := Res JsVal unit;
  socket_read_message := web_read_message;
  socket_error := fun e => e;
  socket_send_message := web_send_message;
  socket_handle_close := map_err error_from_js;
|}.

Definition WebReady : Type := ReadyFor bytes ClientError.t (Res JsVal unit) (Res JsVal unit).

(** What the stream over the channel gives next; [None] while it waits. *)
(** src/client/src/web.rs:156-162 WebClient::new *)
Definition ws_reader (p : Page) : option (Page * option bytes) :=
  match queue (ws_msg p) with
  | message :: rest =>
      Some (set_ws_msg {| queue := rest; receiver_open := receiver_open (ws_msg p) |} p, Some message)
  | [] => if sender_dropped p then Some (p, None) else None
  end.

(** ** Turns of the loop on the page *)

Record WebApp := { page : Page; client : Client }.

(** What wakes the loop: a message of the channel, or one of the branches for
    what the client sends and receives. *)
Inductive WebWake :=
| WakeReader
| WakeOutbound (sent closed : Res JsVal unit)
| WakeInbound.

(** A turn; [None] when the branch is not ready.  The close of the socket
    consumes the loop, and with it the receiver of the channel. *)
(** src/client/src/event_loop.rs:412-495 event_loop_run_impl *)
Definition web_turn (wake : WebWake) (a : WebApp) :
    option (WebApp * list (Res ClientError.t Event.t) * bool) :=
  let on p ready :=
    let '(c, items, continue) := event_loop_turn (SP := WebPlatform) ready (client a) in
    Some ({| page := p; client := c |}, items, continue) in
  match wake with
  | WakeReader =>
      match ws_reader (page a) with
      | Some (p, next) => on p (WsReader (Ok <$> next))
      | None => None
      end
  | WakeOutbound sent closed =>
      match queue (outbound (client a)) with
      | InternalMessage.Close :: _ =>
          on (drop_loop (web_handle_close_message closed (page a)).1) (OutboundRx sent closed)
      | _ => on (page a) (OutboundRx sent closed)
      end
  | WakeInbound => on (page a) InboundRx
  end.
End web.
