(* ===== verification/WebSpec.v ===== *)
(** * Properties of the client in the browser

    It is the native client as long as the socket opens and the client outlives
    its socket; what happens otherwise. *)

From S2P Require Import Prelude Types Stream Encoding Noise Channel Keypair Zlib Net Client ClientFacts Web.

Section spec.
Context {BS : BinaryStream encoding_options} {SC : StatusCodes} {HO : HashOrder}.
Context {N : Noise} {FL : Flate} {HX : Hex} {JS : JavaScript}.

(** ** The page while the client lives *)

(** The buffers among what the socket calls back with, and among the messages
    of tasks. *)
Definition buffers (events : list PageEvent) : list bytes :=
  omap (fun e => match e with Fire (OnMessage data) => data | _ => None end) events.
Definition pending (p : Page) : list bytes := omap id (sends p).

(** What is on its way to the loop: in the channel, then in the tasks. *)
Definition underway (p : Page) : list bytes := queue (ws_msg p) ++ pending p.

(** A page whose callbacks are set, with both ends of the channel. *)
Record live (p : Page) : Prop := {
  live_callback : onmessage p = true;
  live_sender : sender_dropped p = false;
  live_receiver : receiver_open (ws_msg p) = true;
  live_bound : (length (queue (ws_msg p)) <= WS_CAPACITY)%nat;
}.

Lemma pending_app (l l' : list (option bytes)) : (omap id (l ++ l') : list bytes) = omap id l ++ omap id l'.
Proof. apply list.omap_app. Qed.

Lemma pending_delete i p data : sends p !! i = Some data ->
  (data = None \/ first_in_line i p = true) -> pending p = option_list data ++ omap id (delete i (sends p)).
Proof.
  intros Hi Hd. unfold pending. rewrite <- (take_drop_middle _ _ _ Hi) at 1. rewrite delete_take_drop, !pending_app.
  assert (data = None \/ omap id (take i (sends p)) = []) as [-> | ->].
  { destruct Hd as [|Hf]; [by left | right]. unfold first_in_line in Hf. revert Hf.
    induction (take i (sends p)) as [|x l IH]; [done |]. cbn. rewrite andb_true_iff, bool_decide_eq_true.
    by intros [-> ?%IH]. }
  - done.
  - by destruct data.
Qed.

(** The callback and the tasks lose, invent and reorder nothing. *)
Lemma event_live e p : live p -> exists p', page_event e p = (p', Ok tt) /\ live p' /\
  underway p' = underway p ++ buffers [e].
Proof.
  intros Hp. destruct Hp as [H1 H2 H3 H4]. destruct e as [[| |data]|i]; cbn [page_event fire].
  - exists p. by rewrite app_nil_r.
  - exists p. by rewrite app_nil_r.
  - rewrite H1. eexists. split; [done |]. split; [done |]. unfold underway, pending. cbn.
    rewrite pending_app, app_assoc. by destruct data.
  - unfold send_task. rewrite H2, H3. destruct (sends p !! i) as [[buffer|]|] eqn:Hi.
    + destruct (first_in_line i p) eqn:Hf; cbn [andb]; [|exists p; by rewrite app_nil_r].
      unfold has_room. case_bool_decide; [|exists p; by rewrite app_nil_r].
      eexists. split; [done |]. split; [split; cbn; [done.. |]; rewrite length_app; cbn; lia |].
      unfold underway. rewrite (pending_delete i p (Some buffer)) by auto. unfold pending. cbn.
      by rewrite app_nil_r, <- app_assoc.
    + eexists. split; [done |]. split; [done |].
      unfold underway. rewrite (pending_delete i p None) by auto. by rewrite app_nil_r.
    + exists p. by rewrite app_nil_r.
Qed.







Lemma reader_live p : live p ->
  (ws_reader p = None /\ queue (ws_msg p) = []) \/
  exists message p', ws_reader p = Some (p', Some message) /\ live p' /\ underway p = message :: underway p' /\
    sends p' = sends p /\ queue (ws_msg p) = message :: queue (ws_msg p').
Proof.
  intros [H1 H2 H3 H4]. unfold ws_reader, underway, pending. rewrite H2.
  destruct (queue (ws_msg p)) as [|message rest] eqn:Hq; [by left | right].
  eexists message, _. split; [done |]. cbn. rewrite H3. split_and!; try done.
  split; cbn in *; [done.. | lia].
Qed.







(** ** The life of the page *)

(** What happens to a page: an event, a message the loop takes, a clone of the
    client, the end of a clone, the close that the loop handles, and the end of
    the event stream. *)
Inductive PageOp :=
| Event (e : PageEvent)
| Take
| Clone
| DropClient
| CloseSocket (answer : Res JsVal unit)
| DropLoop.

Definition page_op (op : PageOp) : SM Page MemoryFault unit := fun p =>
  match op with
  | Event e => page_event e p
  | Take => (from_option fst p (ws_reader p), Ok tt)
  | Clone => (p, Ok tt)
  | DropClient => drop_client p
  | CloseSocket answer => (drop_loop (web_handle_close_message answer p).1, Ok tt)
  | DropLoop => (drop_loop p, Ok tt)
  end.

Definition page_ops (ops : list PageOp) : SM Page MemoryFault unit := sm_for ops page_op.

(** An operation at a time it is safe: the socket is closed when no task has a
    message to send, and the client and the stream are dropped after it was
    closed; the client is not dropped twice. *)
Definition timely (op : PageOp) (p : Page) : Prop :=
  match op with
  | DropClient => onmessage p = false /\ sender_dropped p = false /\ pending p = []
  | CloseSocket _ => pending p = []
  | DropLoop => onmessage p = false /\ pending p = []
  | Event _ | Take | Clone => True
  end.

Fixpoint all_timely (ops : list PageOp) (p : Page) : Prop :=
  match ops with
  | [] => True
  | op :: ops => timely op p /\ all_timely ops (page_op op p).1
  end.

(** The callbacks are gone and no task has a message. *)
Definition quiet (p : Page) : Prop := onmessage p = false /\ pending p = [].

Lemma pending_none (l : list (option bytes)) i data : (omap id l : list bytes) = [] -> l !! i = Some data ->
  data = None /\ (omap id (delete i l) : list bytes) = [].
Proof.
  intros Hl Hi. rewrite <- (take_drop_middle _ _ _ Hi), pending_app in Hl. apply app_nil in Hl as [H1 H2].
  rewrite delete_take_drop, pending_app, H1. destruct data; by split.
Qed.

Lemma timely_safe op p : timely op p -> live p \/ quiet p ->
  exists p', page_op op p = (p', Ok tt) /\ (live p' \/ quiet p').
Proof.
  intros Ht Hp. destruct op as [e| | | |answer|]; cbn [page_op timely] in Ht |- *.
  - destruct Hp as [Hp|[H1 H2]].
    + destruct (event_live e p Hp) as (p' & He & Hp' & _). exists p'. auto.
    + destruct e as [e|i]; cbn [page_event].
      * exists p. split; [destruct e; cbn; by rewrite ?H1 | by right].
      * unfold send_task. destruct (sends p !! i) as [data|] eqn:Hi; [|by exists p; split; [|right]].
        destruct (pending_none _ _ _ H2 Hi) as [-> Hd]. eexists. split; [done |]. right. by split.
  - eexists. split; [done |]. destruct Hp as [Hp|[H1 H2]].
    + destruct (reader_live p Hp) as [[-> _] | (x & p' & -> & Hp' & _)]; by left.
    + right. unfold ws_reader. by destruct (queue (ws_msg p)); [destruct (sender_dropped p) |]; split.
  - by exists p.
  - destruct Ht as (H1 & H2 & H3). unfold drop_client. rewrite H2. eexists. split; [done |]. right. by split.
  - eexists. split; [done |]. right. by split.
  - eexists. split; [done |]. right. exact Ht.
Qed.

Lemma all_timely_safe ops p : all_timely ops p -> live p \/ quiet p -> exists p', page_ops ops p = (p', Ok tt).
Proof.
  revert p. induction ops as [|op ops IH]; intros p Ho Hp; [by exists p |]. destruct Ho as [Ht Ho].
  destruct (timely_safe op p Ht Hp) as (p1 & Hop & Hp1). rewrite Hop in Ho.
  destruct (IH p1 Ho Hp1) as [p' Hp']. exists p'. unfold page_ops. cbn [sm_for].
  unfold mbind, SM_bind. by rewrite Hop.
Qed.

(** A message whose task is polled at once. *)
Definition message (buffer : bytes) : list PageOp := [Event (Fire (OnMessage (Some buffer))); Event (Poll 0)].

Lemma page_ops_app l l' p : page_ops (l ++ l') p =
  match page_ops l p with (p', Ok _) => page_ops l' p' | (p', Err e) => (p', Err e) | (p', Panic) => (p', Panic) end.
Proof.
  revert p. induction l as [|op l IH]; intros p; [done |]. unfold page_ops. cbn [app sm_for].
  unfold mbind, SM_bind. destruct (page_op op p) as [p1 [[]|e|]]; [apply IH | done..].
Qed.

Lemma page_ops_cons op l p : page_ops (op :: l) p =
  match page_op op p with (p', Ok _) => page_ops l p' | (p', Err e) => (p', Err e) | (p', Panic) => (p', Panic) end.
Proof. unfold page_ops. cbn [sm_for]. unfold mbind, SM_bind. by destruct (page_op op p) as [p' []]. Qed.

(** Messages fill the channel while it has room. *)
Lemma messages_fill bs p : live p -> sends p = [] -> (length (queue (ws_msg p)) + length bs <= WS_CAPACITY)%nat ->
  exists p', page_ops (bs ≫= message) p = (p', Ok tt) /\ live p' /\ sends p' = [] /\
    queue (ws_msg p') = queue (ws_msg p) ++ bs.
Proof.
  revert p. induction bs as [|b bs IH]; intros p Hp Hs Hl; [exists p; by rewrite app_nil_r |].
  cbn [mbind list_bind]. rewrite page_ops_app. unfold message at 1. rewrite !page_ops_cons. cbn [page_op page_event fire].
  rewrite (live_callback _ Hp). cbn [onmessage_callback sm_modify]. rewrite page_ops_cons. cbn [page_op page_event].
  unfold send_task, first_in_line, has_room. cbn. rewrite Hs, (live_sender _ Hp), (live_receiver _ Hp). cbn in Hl |- *.
  rewrite bool_decide_true by lia. cbn.
  destruct (IH (set_sends [] (set_ws_msg (chan_push b (ws_msg p)) p))) as (p' & Hf & Hp' & Hs' & Hq').
  - destruct Hp. split; cbn; [done.. |]. rewrite length_app. cbn. lia.
  - done.
  - cbn. rewrite length_app. cbn. lia.
  - exists p'. split; [exact Hf |]. split; [done |]. split; [done |]. rewrite Hq'. cbn. by rewrite <- app_assoc.
Qed.

(** The next one waits. *)
Lemma message_waits p buffer : live p -> sends p = [] -> length (queue (ws_msg p)) = WS_CAPACITY ->
  page_ops (message buffer) p = (set_sends [Some buffer] p, Ok tt).
Proof.
  intros Hp Hs Hl. unfold message. rewrite page_ops_cons. cbn [page_op page_event fire].
  rewrite (live_callback _ Hp). cbn [onmessage_callback sm_modify]. rewrite page_ops_cons. cbn [page_op page_event].
  unfold send_task, first_in_line, has_room. cbn. rewrite Hs, (live_sender _ Hp), (live_receiver _ Hp). cbn.
  by rewrite bool_decide_false by lia.
Qed.

(** A task that meets the closed receiver. *)
Lemma send_closed p buffer : sends p = [Some buffer] -> sender_dropped p = false ->
  receiver_open (ws_msg p) = false ->
  (page_ops [Event (Poll 0)] p).2 = Panic <-> is_ok (decode (A := ResponseMessage.t) buffer) = false.
Proof.
  intros Hs Hd Hr. rewrite page_ops_cons. cbn [page_op page_event]. unfold send_task. rewrite Hs, Hd, Hr.
  cbn [lookup list_lookup]. by destruct (decode buffer); split.
Qed.

(** C31. When the callbacks of a page are safe.  As long as the socket is closed
    at a time when no spawned task has a message left to send, the client and
    its event stream are dropped after that, and only one of the client's
    clones is dropped, no order of socket events, polls, turns and clones makes
    a task use a dropped sender or panic.  Each condition is needed: the drop of
    a second clone drops the shared sender twice; a message that arrives after
    the client was dropped uses the sender; one that arrives after the stream
    was dropped is decoded although it is compressed, and panics unless it
    happens to decode.  And closing before dropping is not enough: a task that
    was not polled before the close panics in the same way, or uses the dropped
    sender; and polling tasks at once does not help either, since the 33rd
    message the loop has not taken waits for a place in the channel, and meets
    the closed receiver. *)
Theorem web_client_lifetime (ops : list PageOp) (buffer : bytes) (backlog : list bytes) (answer : Res JsVal unit) :
  let arrives := Event (Fire (OnMessage (Some buffer))) in
  let unreadable := is_ok (decode (A := ResponseMessage.t) buffer) = false in
  (all_timely ops listening -> exists p, page_ops ops listening = (p, Ok tt)) /\
  (page_ops [Clone; DropClient; DropClient] listening).2 = Err DoubleDrop /\
  (page_ops [DropClient; arrives; Event (Poll 0)] listening).2 = Err UseAfterDrop /\
  ((page_ops [DropLoop; arrives; Event (Poll 0)] listening).2 = Panic <-> unreadable) /\
  ((page_ops [arrives; CloseSocket answer; Event (Poll 0)] listening).2 = Panic <-> unreadable) /\
  (page_ops [arrives; CloseSocket answer; DropClient; Event (Poll 0)] listening).2 = Err UseAfterDrop /\
  (length backlog = WS_CAPACITY ->
    (page_ops ((backlog ≫= message) ++ message buffer ++ [CloseSocket answer; Event (Poll 0)]) listening).2 = Panic
      <-> unreadable).
Proof.
  assert (live listening) as Hlive by (split; try done; cbn; unfold WS_CAPACITY; lia).
  intros arrives unreadable. unfold unreadable. split_and!.
  - intros Ho. apply (all_timely_safe ops); auto.
  - done.
  - done.
  - change (page_ops _ _) with (page_ops ([DropLoop; arrives] ++ [Event (Poll 0)]) listening).
    rewrite page_ops_app. by apply send_closed.
  - change (page_ops _ _) with (page_ops ([arrives; CloseSocket answer] ++ [Event (Poll 0)]) listening).
    rewrite page_ops_app. by apply send_closed.
  - done.
  - intros Hl. rewrite page_ops_app.
    destruct (messages_fill backlog listening Hlive eq_refl) as (p & -> & Hp & Hs & Hq); [cbn; lia |].
    rewrite page_ops_app, message_waits by (done || by rewrite Hq).
    change [CloseSocket answer; Event (Poll 0)] with ([CloseSocket answer] ++ [Event (Poll 0)]).
    rewrite page_ops_app. apply send_closed; [done | by apply (live_sender p) | done].
Qed.
End spec.

(** ** Evaluations *)

From S2P Require Import ServerRef.

Definition RefJavaScript : JavaScript := {|
  JsVal := string;
  js_as_string := fun s => Some s;
  js_from_str := fun s => s;
  js_to_json := fun s => Ok s;
|}.
#[export] Existing Instance RefJavaScript.



Lemma web_client_lifetime_witness :
  (exists p, page_ops [Event (Fire (OnMessage (Some []))); Event (Poll 0); CloseSocket (Ok tt); DropClient; DropLoop;
    Event (Fire (OnMessage (Some []))); Event (Poll 0)] listening = (p, Ok tt)) /\
  (page_ops ((replicate 32 [] ≫= message) ++ message [Byte.x78] ++ [CloseSocket (Ok tt); Event (Poll 0)]) listening).2
    = Panic.
Proof.
  split.
  - apply (web_client_lifetime _ [] [] (Ok tt)). by vm_compute.
  - destruct (web_client_lifetime [] [Byte.x78] (replicate 32 []) (Ok tt)) as (_ & _ & _ & _ & _ & _ & H).
    apply H; by vm_compute.
Defined.
