(* ===== verification/Transport.v ===== *)
(** * Transports

    [src/client/src/transport.rs]: the interface of a network client, and its
    one implementation, the relay client.  What drives protocols over the
    network is written against the interface [NetworkTransport]; the laws such
    code relies on are [NetworkTransportLaws], which the relay client
    satisfies. *)

From S2P Require Import Prelude Types Stream Encoding Noise Channel Keypair Zlib Net Client.

(** src/client/src/transport.rs:204-298 NetworkTransport *)
Class NetworkTransport (T : Type) := {
  transport_public_key : T -> bytes;
  transport_connect : SM T ClientError.t unit;
  transport_is_connected : T -> bool;
  transport_connect_peer : bytes -> SM T ClientError.t unit;
  transport_send_json : forall {A} {J : SerdeJson A}, bytes -> A -> option Uuid -> SM T ClientError.t unit;
  transport_send_blob : bytes -> bytes -> option Uuid -> SM T ClientError.t unit;
  transport_new_meeting : bytes -> gset bytes -> SM T ClientError.t unit;
  transport_join_meeting : Uuid -> bytes -> SM T ClientError.t unit;
  transport_new_session : list bytes -> SM T ClientError.t unit;
  transport_register_connection : Uuid -> bytes -> SM T ClientError.t unit;
  transport_close_session : Uuid -> SM T ClientError.t unit;
  transport_broadcast_json : forall {A} {J : SerdeJson A},
    Uuid -> list bytes -> A -> SM T ClientError.t unit;
  transport_broadcast_blob : Uuid -> list bytes -> bytes -> SM T ClientError.t unit;
  transport_close : SM T ClientError.t unit;
}.

(** An operation of a transport leaves the key it goes by. *)
Definition keeps_key {T} {NT : NetworkTransport T} {E A} (m : SM T E A) : Prop :=
  forall t, transport_public_key (m t).1 = transport_public_key t.

Class NetworkTransportLaws (T : Type) {NT : NetworkTransport T} : Prop := {
  connect_peer_key : forall k, keeps_key (transport_connect_peer k);
  send_json_key : forall {A} {J : SerdeJson A} k (v : A) s, keeps_key (transport_send_json k v s);
  broadcast_json_key : forall {A} {J : SerdeJson A} s ks (v : A),
    keeps_key (transport_broadcast_json s ks v);
  new_session_key : forall ks, keeps_key (transport_new_session ks);
  register_connection_key : forall s k, keeps_key (transport_register_connection s k);
}.

Section relay.
Context {BS : BinaryStream encoding_options} {SC : StatusCodes} {HO : HashOrder}.
Context {N : Noise} {FL : Flate} {HX : Hex}.

(** src/client/src/transport.rs:7-14 Transport *)
Inductive Transport := Relay (client : Client).

(** [match self { Transport::Relay(client) => client.f(..).await }]. *)
Definition on_relay {A} (m : SM Client ClientError.t A) : SM Transport ClientError.t A := fun self =>
  match self with Relay client => let '(client, r) := m client in (Relay client, r) end.

(** src/client/src/transport.rs:24-28 Transport::public_key *)
Definition Transport_public_key (self : Transport) : bytes :=
  match self with Relay client => client_public_key client end.

(** src/client/src/transport.rs:30-34 Transport::connect *)
Definition Transport_connect : SM Transport ClientError.t unit := on_relay connect.

(** src/client/src/transport.rs:36-40 Transport::is_connected *)
Definition Transport_is_connected (self : Transport) : bool :=
  match self with Relay client => is_connected client end.

(** src/client/src/transport.rs:42-51 Transport::connect_peer *)
Definition Transport_connect_peer (public_key : bytes) : SM Transport ClientError.t unit :=
  on_relay (connect_peer public_key).

(** src/client/src/transport.rs:53-69 Transport::send_json *)
Definition Transport_send_json {A} {J : SerdeJson A} (public_key : bytes) (payload : A)
    (session_id : option Uuid) : SM Transport ClientError.t unit :=
  on_relay (send_json public_key payload session_id).

(** src/client/src/transport.rs:71-84 Transport::send_blob *)
Definition Transport_send_blob (public_key payload : bytes) (session_id : option Uuid) :
    SM Transport ClientError.t unit :=
  on_relay (send_blob public_key payload session_id).

(** src/client/src/transport.rs:86-96 Transport::new_meeting *)
Definition Transport_new_meeting (owner_id : bytes) (slots : gset bytes) :
    SM Transport ClientError.t unit :=
  on_relay (new_meeting owner_id slots).

(** src/client/src/transport.rs:98-108 Transport::join_meeting *)
Definition Transport_join_meeting (meeting_id : Uuid) (user_id : bytes) :
    SM Transport ClientError.t unit :=
  on_relay (join_meeting meeting_id user_id).

(** src/client/src/transport.rs:110-119 Transport::new_session *)
Definition Transport_new_session (participant_keys : list bytes) : SM Transport ClientError.t unit :=
  on_relay (new_session participant_keys).

(** src/client/src/transport.rs:121-131 Transport::register_connection *)
Definition Transport_register_connection (session_id : Uuid) (peer_key : bytes) :
    SM Transport ClientError.t unit :=
  on_relay (register_connection session_id peer_key).

(** src/client/src/transport.rs:133-142 Transport::close_session *)
Definition Transport_close_session (session_id : Uuid) : SM Transport ClientError.t unit :=
  on_relay (close_session session_id).

(** src/client/src/transport.rs:144-164 Transport::broadcast_json *)
Definition Transport_broadcast_json {A} {J : SerdeJson A} (session_id : Uuid)
    (recipient_public_keys : list bytes) (payload : A) : SM Transport ClientError.t unit :=
  on_relay (broadcast_json session_id recipient_public_keys payload).

(** src/client/src/transport.rs:166-183 Transport::broadcast_blob *)
Definition Transport_broadcast_blob (session_id : Uuid) (recipient_public_keys : list bytes)
    (payload : bytes) : SM Transport ClientError.t unit :=
  on_relay (broadcast_blob session_id recipient_public_keys payload).

(** src/client/src/transport.rs:185-189 Transport::close *)
Definition Transport_close : SM Transport ClientError.t unit := on_relay close.

(** src/client/src/transport.rs:192-202 Transport::new_relay *)
Definition new_relay (response : Res ExtError (Z * string)) (options : ClientOptions) :
    Res ClientError.t Transport :=
  client ← NativeClient_new response options; mret (Relay client).

#[global] Instance Transport_network : NetworkTransport Transport := {|
  transport_public_key := Transport_public_key;
  transport_connect := Transport_connect;
  transport_is_connected := Transport_is_connected;
  transport_connect_peer := Transport_connect_peer;
  transport_send_json := fun A J => Transport_send_json;
  transport_send_blob := Transport_send_blob;
  transport_new_meeting := Transport_new_meeting;
  transport_join_meeting := Transport_join_meeting;
  transport_new_session := Transport_new_session;
  transport_register_connection := Transport_register_connection;
  transport_close_session := Transport_close_session;
  transport_broadcast_json := fun A J => Transport_broadcast_json;
  transport_broadcast_blob := Transport_broadcast_blob;
  transport_close := Transport_close;
|}.

(** The operations of a client do not change its options. *)
Definition keeps_options {E A} (m : SM Client E A) : Prop :=
  forall c, options (m c).1 = options c.

Lemma keeps_bind {E A B} (m : SM Client E A) (k : A -> SM Client E B) :
  keeps_options m -> (forall a, keeps_options (k a)) -> keeps_options (m ≫= k).
Proof.
  intros Hm Hk c. unfold mbind, SM_bind. specialize (Hm c).
  destruct (m c) as [c' [a| |]]; cbn in *; [|done..]. by rewrite Hk.
Qed.

Lemma keeps_for {E A} (l : list A) (f : A -> SM Client E unit) :
  (forall x, keeps_options (f x)) -> keeps_options (sm_for l f).
Proof. intros Hf. induction l as [|x l IH]; cbn [sm_for]; [done | by apply keeps_bind]. Qed.

Lemma keeps_lift {E A} (r : Res E A) : keeps_options (sm_lift r).
Proof. done. Qed.

Lemma keeps_outbound_send m : keeps_options (outbound_send m).
Proof. intros c. unfold outbound_send. by destruct (receiver_open _). Qed.

Lemma keeps_client_relay k p e b s : keeps_options (client_relay k p e b s).
Proof.
  apply keeps_bind; [|intros; apply keeps_outbound_send]. intros c. unfold on_peer.
  destruct (peers c !! k); [|done]. by destruct (encrypt_peer_channel _ _ _ _ _ _).
Qed.

Lemma keeps_request m : keeps_options (request m).
Proof.
  intros c. unfold request. destruct (server_state c); [|done]. revert c.
  repeat (apply keeps_bind; [|intros]); [apply keeps_lift | | apply keeps_outbound_send].
  intros c. unfold on_server. destruct (server_state c); [|done].
  by destruct (encrypt_server_channel _ _ _).
Qed.

Lemma keeps_connect_peer k : keeps_options (connect_peer k).
Proof.
  apply keeps_bind; [|intros []; apply keeps_outbound_send]. intros c.
  destruct (peers c !! k); [done |]. destruct (_ ≫= _) as [h| |]; [|done..].
  by destruct (initiate _).
Qed.

Lemma relay_keeps_key {A} (m : SM Client ClientError.t A) : keeps_options m -> keeps_key (on_relay m).
Proof.
  intros H [c]. specialize (H c). cbn. unfold on_relay. destruct (m c) as [c' r]. cbn in *.
  unfold client_public_key. by rewrite H.
Qed.

#[global] Instance Transport_network_laws : NetworkTransportLaws Transport.
Proof.
  split; intros; apply relay_keeps_key.
  - apply keeps_connect_peer.
  - apply keeps_bind; [apply keeps_lift | intros; apply keeps_client_relay].
  - apply keeps_bind; [apply keeps_lift | intros; apply keeps_for; intros; apply keeps_client_relay].
  - apply keeps_request.
  - apply keeps_request.
Qed.
End relay.
