(* ===== verification/Recorder.v ===== *)
(** * A transport that records

    An instance of [NetworkTransport] that performs nothing and keeps the list
    of the calls made on it: the abstract view of what code written against
    the interface asks of the network. *)

From S2P Require Import Prelude Types Net Client Transport.

Module Call.
Inductive t :=
| Connect
| ConnectPeer (key : bytes)
| Send (key payload : bytes) (session : option Uuid)
| NewMeeting (owner_id : bytes)
| JoinMeeting (meeting : Uuid) (user_id : bytes)
| NewSession (participants : list bytes)
| RegisterConnection (session : Uuid) (peer : bytes)
| CloseSession (session : Uuid)
| Broadcast (session : Uuid) (recipients : list bytes) (payload : bytes)
| Close.
End Call.

Record Recorder := { own_key : bytes; connected : bool; calls : list Call.t }.

Definition record (c : Call.t) : SM Recorder ClientError.t unit := fun r =>
  ({| own_key := own_key r; connected := connected r; calls := calls r ++ [c] |}, Ok tt).

(** A call that serializes a value first. *)
Definition record_json {A} {J : SerdeJson A} (c : bytes -> Call.t) (value : A) :
    SM Recorder ClientError.t unit :=
  b ← sm_lift (map_err ClientError.Json (to_vec value)); record (c b).

#[global] Instance Recorder_network : NetworkTransport Recorder := {|
  transport_public_key := own_key;
  transport_connect := record Call.Connect;
  transport_is_connected := connected;
  transport_connect_peer := fun k => record (Call.ConnectPeer k);
  transport_send_json := fun A J k v s => record_json (fun b => Call.Send k b s) v;
  transport_send_blob := fun k b s => record (Call.Send k b s);
  transport_new_meeting := fun o _ => record (Call.NewMeeting o);
  transport_join_meeting := fun m u => record (Call.JoinMeeting m u);
  transport_new_session := fun ks => record (Call.NewSession ks);
  transport_register_connection := fun s k => record (Call.RegisterConnection s k);
  transport_close_session := fun s => record (Call.CloseSession s);
  transport_broadcast_json := fun A J s ks v => record_json (Call.Broadcast s ks) v;
  transport_broadcast_blob := fun s ks b => record (Call.Broadcast s ks b);
  transport_close := record Call.Close;
|}.

#[global] Instance Recorder_network_laws : NetworkTransportLaws Recorder.
Proof.
  split; intros; intros t; try done; cbn; unfold record_json, mbind, SM_bind, sm_lift;
    by destruct (to_vec v).
Qed.

Definition add_calls (l : list Call.t) (r : Recorder) : Recorder :=
  {| own_key := own_key r; connected := connected r; calls := calls r ++ l |}.

Lemma add_calls_nil r : add_calls [] r = r.
Proof. unfold add_calls. rewrite app_nil_r. by destruct r. Qed.

Lemma add_calls_app l l' r : add_calls l' (add_calls l r) = add_calls (l ++ l') r.
Proof. unfold add_calls. cbn. by rewrite app_assoc. Qed.
