(* ===== verification/Round.v ===== *)
(** * Rounds of a protocol

    [src/driver/src/round.rs]: messages that carry the number of the round
    they belong to, and the buffer that collects them until a round is
    complete. *)

From S2P Require Import Prelude.

Module Msg.
(** [round_based::Msg]: a message of a protocol's state machine. *)
Record t (B : Type) := { sender : Z; receiver : option Z; body : B }.
Arguments sender {B} _.
Arguments receiver {B} _.
Arguments body {B} _.
End Msg.

(** src/driver/src/round.rs:6-16 Round *)
Class Round (M : Type) := {
  is_broadcast : M -> bool;
  round_number : M -> Z;
  round_receiver : M -> option Z;
}.

Module RoundMsg.
(** src/driver/src/round.rs:18-32 RoundMsg *)
Record t (O : Type) := { round : Z; sender : Z; receiver : option Z; body : O }.
Arguments round {O} _.
Arguments sender {O} _.
Arguments receiver {O} _.
Arguments body {O} _.

Section msg.
Context {O : Type}.

(** src/driver/src/round.rs:38-40 RoundMsg::is_broadcast *)
Definition is_broadcast (self : t O) : bool := bool_decide (receiver self = None).

(** src/driver/src/round.rs:51-62 RoundMsg::from *)
Definition into_msg (value : t O) : Msg.t O :=
  {| Msg.sender := sender value; Msg.receiver := receiver value; Msg.body := body value |}.

(** One message of the closure of [from_round]. *)
(** src/driver/src/round.rs:75-82 RoundMsg::from_round *)
Definition wrap {E} (n : Z) (m : Msg.t O) : Res E (t O) :=
  round ← unwrap (NonZeroU16_new n);
  sender ← unwrap (NonZeroU16_new (Msg.sender m));
  receiver ← match Msg.receiver m with
    | Some v => Some <$> unwrap (NonZeroU16_new v)
    | None => mret None
    end;
  mret {| round := round; sender := sender; receiver := receiver; body := Msg.body m |}.

(** src/driver/src/round.rs:68-84 RoundMsg::from_round *)
Definition from_round {E} (round : Z) (messages : list (Msg.t O)) : Res E (list (t O)) :=
  mapM (wrap round) messages.
End msg.
End RoundMsg.

(** src/driver/src/round.rs:34-49 RoundMsg *)
#[global] Instance RoundMsg_Round {O} : Round (RoundMsg.t O) := {|
  is_broadcast := RoundMsg.is_broadcast;
  round_number := RoundMsg.round;
  round_receiver := RoundMsg.receiver;
|}.

Module RoundBuffer.
(** src/driver/src/round.rs:87-96 RoundBuffer *)
Record t (I : Type) := { expected : gmap Z Z; messages : gmap Z (list I) }.
Arguments expected {I} _.
Arguments messages {I} _.

Section buffer.
Context {I : Type}.

(** The loop of [new_fixed]. *)
(** src/driver/src/round.rs:103-108 RoundBuffer::new_fixed *)
Fixpoint expect {E} (rounds : list Z) (messages_per_round : Z) (expected : gmap Z Z) :
    Res E (gmap Z Z) :=
  match rounds with
  | [] => mret expected
  | i :: rounds' =>
      n ← unwrap (NonZeroU16_new (wrap16 (i + 1)));
      expect rounds' messages_per_round (<[n := messages_per_round]> expected)
  end.

(** src/driver/src/round.rs:98-113 RoundBuffer::new_fixed *)
Definition new_fixed {E} (rounds messages_per_round : Z) : Res E (t I) :=
  expected ← expect (seqZ 0 rounds) messages_per_round ∅;
  mret {| expected := expected; messages := ∅ |}.

(** src/driver/src/round.rs:115-118 RoundBuffer::len *)
Definition len (self : t I) : Z := Z.of_nat (size (expected self)).

(** src/driver/src/round.rs:120-124 RoundBuffer::add_message *)
Definition add_message (self : t I) (round : Z) (message : I) : t I :=
  {| expected := expected self;
     messages := <[round := default [] (messages self !! round) ++ [message]]> (messages self) |}.

(** src/driver/src/round.rs:126-135 RoundBuffer::is_ready *)
Definition is_ready (self : t I) (round : Z) : bool :=
  match expected self !! round, messages self !! round with
  | Some amount, Some messages => bool_decide (Prelude.len messages = amount)
  | _, _ => false
  end.

(** src/driver/src/round.rs:137-151 RoundBuffer::take *)
Definition take (self : t I) (round : Z) : t I * list I :=
  match messages self !! round with
  | Some ms => ({| expected := expected self; messages := delete round (messages self) |}, ms)
  | None => (self, [])
  end.
End buffer.
End RoundBuffer.
