(* ===== verification/Driver.v ===== *)
(** * Driving a protocol over a transport

    [src/driver/src]: the errors and traits of [lib.rs] and [error.rs], and
    [bridge.rs], which feeds what arrives on a transport to a protocol driver
    and sends what the driver produces.

    An event stream is the list of what it yields next, each item with what
    the event loop did to the shared client since the item before: the loops
    that wait on a stream run on such a list, and are still waiting when it is
    exhausted. *)

From S2P Require Import Prelude Types Sessions Net Client Transport Round.

(** src/driver/src/gg20/error.rs:6-41 Error *)
Inductive GG20ErrorOf (CrateError : Type) :=
| NotSessionParticipant (key : string)
| LocalKeyNotParticipant
| VerifySignature
| KeygenError (e : ExtError)
| SignOfflineError (e : ExtError)
| SignManualError (e : ExtError)
| GG20Client (e : ClientError.t)
| GG20Driver (e : CrateError).
Arguments NotSessionParticipant {CrateError} key.
Arguments LocalKeyNotParticipant {CrateError}.
Arguments VerifySignature {CrateError}.
Arguments KeygenError {CrateError} e.
Arguments SignOfflineError {CrateError} e.
Arguments SignManualError {CrateError} e.
Arguments GG20Client {CrateError} e.
Arguments GG20Driver {CrateError} e.

(** src/driver/src/error.rs:3-23 Error *)
#[warnings="-register-all"]
Inductive DriverError :=
| SessionIdMismatch
| SessionIdRequired
| GG20 (e : GG20ErrorOf DriverError)
| DriverClient (e : ClientError.t).

(** The error of [gg20], whose [Driver] variant holds the crate's. *)
Abbreviation GG20Error := (GG20ErrorOf DriverError).

(** src/driver/src/lib.rs:61-94 ProtocolDriver *)
Class ProtocolDriver (D : Type) := {
  PError : Type;
  perror_client : ClientError.t -> PError;
  perror_driver : DriverError -> PError;
  Incoming : Type;
  Outgoing : Type;
  Output : Type;
  into_incoming : Outgoing -> Incoming;
  Outgoing_Round :: Round Outgoing;
  Outgoing_Json :: SerdeJson Outgoing;
  handle_incoming : Incoming -> SM D PError unit;
  proceed : SM D PError (list Outgoing);
  finish : D -> Res PError Output;
}.
Arguments PError D {_}.
Arguments Incoming D {_}.
Arguments Outgoing D {_}.
Arguments Output D {_}.

(** ** The bridge *)

Section bridge.
Context {T : Type} {NT : NetworkTransport T} {D : Type} {PD : ProtocolDriver D}.

(** src/driver/src/bridge.rs:7-13 Bridge *)
Record Bridge := {
  transport : T;
  buffer : RoundBuffer.t (Incoming D);
  driver : option D;
  session : SessionState;
}.

Definition set_transport (t : T) (b : Bridge) : Bridge :=
  {| transport := t; buffer := buffer b; driver := driver b; session := session b |}.
Definition set_buffer (r : RoundBuffer.t (Incoming D)) (b : Bridge) : Bridge :=
  {| transport := transport b; buffer := r; driver := driver b; session := session b |}.
Definition set_driver (d : option D) (b : Bridge) : Bridge :=
  {| transport := transport b; buffer := buffer b; driver := d; session := session b |}.

Abbreviation BridgeM := (SM Bridge (PError D)).

(** An operation of the transport, its error converted by [?]. *)
Definition on_transport {A} (m : SM T ClientError.t A) : BridgeM A := fun b =>
  let '(t, r) := m (transport b) in (set_transport t b, map_err perror_client r).

(** [self.driver.as_mut().unwrap().f(..)?]. *)
Definition on_driver {A} (m : SM D (PError D) A) : BridgeM A := fun b =>
  match driver b with
  | Some d => let '(d, r) := m d in (set_driver (Some d) b, r)
  | None => (b, Panic)
  end.

(** [self.driver.take().unwrap().finish()?]. *)
Definition take_finish : BridgeM (Output D) := fun b =>
  match driver b with
  | Some d => (set_driver None b, finish d)
  | None => (b, Panic)
  end.

(** One message of the loop of [dispatch_round_messages]. *)
(** src/driver/src/bridge.rs:101-110 Bridge::dispatch_round_messages *)
Definition send_to_peer (message : Outgoing D) : BridgeM unit := fun b =>
  (party_number ← sm_lift (unwrap (round_receiver message));
   peer_key ← sm_lift (unwrap (SessionStates.peer_key (session b) party_number));
   on_transport (transport_send_json peer_key message (Some (session_id (session b))))) b.

(** src/driver/src/bridge.rs:80-114 Bridge::dispatch_round_messages *)
Definition dispatch_round_messages (messages : list (Outgoing D)) : BridgeM unit := fun b =>
  match messages with
  | [message] =>
      if is_broadcast message then
        let recipients := SessionStates.recipients (session b) (transport_public_key (transport b)) in
        on_transport (transport_broadcast_json (session_id (session b)) recipients message) b
      else send_to_peer message b
  | _ => sm_for messages send_to_peer b
  end.

(** [execute]'s and [handle_event]'s [proceed] followed by the dispatch. *)
Definition proceed_and_dispatch : BridgeM unit :=
  messages ← on_driver proceed; dispatch_round_messages messages.

(** The messages of a complete round. *)
(** src/driver/src/bridge.rs:44-66 Bridge::handle_event *)
Definition process_round (round : Z) (messages : list (Incoming D)) : BridgeM (option (Output D)) :=
  sm_for messages (fun message => on_driver (handle_incoming message)) ;;
  rounds ← sm_gets (fun b => RoundBuffer.len (buffer b));
  if bool_decide (rounds = 1) then
    result ← take_finish; mret (Some result)
  else
    proceed_and_dispatch ;;
    if bool_decide (round = rounds) then
      result ← take_finish; mret (Some result)
    else mret None.

(** A round message that passed the checks on its session. *)
(** src/driver/src/bridge.rs:38-67 Bridge::handle_event *)
Definition handle_round_message (message : Outgoing D) : BridgeM (option (Output D)) :=
  let n := round_number message in
  ready ← ((fun b => let r := RoundBuffer.add_message (buffer b) n (into_incoming message) in
                     (set_buffer r b, Ok (RoundBuffer.is_ready r n))) : BridgeM bool);
  if ready : bool then
    messages ← ((fun b => let '(r, ms) := RoundBuffer.take (buffer b) n in
                          (set_buffer r b, Ok ms)) : BridgeM (list (Incoming D)));
    process_round n messages
  else mret None.

(** The check of the session of an incoming message. *)
(** src/driver/src/bridge.rs:27-35 Bridge::handle_event *)
Definition check_session_id (id : option Uuid) : BridgeM unit := fun b =>
  match id with
  | Some id =>
      if bool_decide (id <> session_id (session b))
      then (b, Err (perror_driver SessionIdMismatch)) else (b, Ok tt)
  | None => (b, Err (perror_driver SessionIdRequired))
  end.

(** src/driver/src/bridge.rs:16-71 Bridge::handle_event *)
Definition bridge_handle_event (event : Event.t) : BridgeM (option (Output D)) :=
  match event with
  | Event.JsonMessage _ message id =>
      check_session_id id ;;
      message ← sm_lift (map_err perror_client (deserialize (A := Outgoing D) message));
      handle_round_message message
  | _ => mret None
  end.

(** src/driver/src/bridge.rs:73-78 Bridge::execute *)
Definition bridge_execute : BridgeM unit := proceed_and_dispatch.
End bridge.
Arguments Bridge T D {_}.

(** ** Waiting on the event stream *)

(** The next item of a stream. *)
Record Item (T : Type) := { turn : T -> T; next : Res ClientError.t Event.t }.
Arguments turn {T} _ _.
Arguments next {T} _.

(** A handler of events that owns a transport. *)
Class EventHandler (S T A E : Type) := {
  handle_event : Event.t -> SM S E (option A);
  in_transport : (T -> T) -> S -> S;
  into_transport : S -> T;
  client_error : ClientError.t -> E;
}.

(** An iteration of the loop: the handler after the item, and the result of the
    loop if it ends with it. *)
(** src/driver/src/bridge.rs:130-143 wait_for_driver *)
Definition wait_item {S T A E} {H : EventHandler S T A E} (item : Item T) (s : S) :
    S * option (Res (Stop E) A) :=
  let s := in_transport (turn item) s in
  match next item with
  | Ok event =>
      match handle_event event s with
      | (s, Ok (Some result)) => (s, Some (Ok result))
      | (s, Ok None) => (s, None)
      | (s, Err e) => (s, Some (Err (Failed e)))
      | (s, Panic) => (s, Some Panic)
      end
  | Err e => (s, Some (Err (Failed (client_error e))))
  | Panic => (s, Some Panic)
  end.

(** The loop the waiting functions share: items of the stream are handled until
    one gives a result. *)
(** src/driver/src/bridge.rs:129-145 wait_for_driver *)
Fixpoint wait_loop {S T A E} {H : EventHandler S T A E} (stream : list (Item T)) (s : S) :
    Res (Stop E) (list (Item T) * S * A) :=
  match stream with
  | [] => Err Pending
  | item :: rest =>
      match wait_item item s with
      | (s, None) => wait_loop rest s
      | (s, Some (Ok result)) => Ok (rest, s, result)
      | (_, Some (Err e)) => Err e
      | (_, Some Panic) => Panic
      end
  end.

(** src/driver/src/lib.rs:39-59 Driver *)
Class Driver (S T A E : Type) := {
  Driver_events :: EventHandler S T A E;
  execute : SM S E unit;
}.

(** src/driver/src/bridge.rs:117-147 wait_for_driver *)
Definition wait_for_driver {S T A E} {H : Driver S T A E} (stream : list (Item T)) (s : S) :
    Res (Stop E) (list (Item T) * T * A) :=
  match execute s with
  | (s, Ok _) => '(rest, s, output) ← wait_loop stream s; mret (rest, into_transport s, output)
  | (_, Err e) => Err (Failed e)
  | (_, Panic) => Panic
  end.

(** A bare transport that looks for an event. *)
Definition watch {T} (found : Event.t -> bool) : EventHandler T T unit DriverError := {|
  handle_event := fun event t => (t, Ok (if found event then Some tt else None));
  in_transport := fun f => f;
  into_transport := fun t => t;
  client_error := DriverClient;
|}.

Definition wait_event {T} (found : Event.t -> bool) (stream : list (Item T)) (t : T) :
    Res (Stop DriverError) (list (Item T) * T) :=
  '(rest, t, _) ← wait_loop (H := watch found) stream t; mret (rest, t).

(** src/driver/src/bridge.rs:149-173 wait_for_close *)
Definition wait_for_close {T} (stream : list (Item T)) (t : T) :
    Res (Stop DriverError) (list (Item T) * T) :=
  wait_event (fun event => match event with Event.Close => true | _ => false end) stream t.

(** src/driver/src/bridge.rs:175-198 wait_for_session_finish *)
Definition wait_for_session_finish {T} (stream : list (Item T)) (session_id : Uuid) (t : T) :
    Res (Stop DriverError) (list (Item T) * T) :=
  wait_event (fun event => match event with
    | Event.SessionFinished id => bool_decide (session_id = id)
    | _ => false
    end) stream t.

(** The drivers of [gg20] wrap a bridge, and pass everything on to it. *)
(** src/driver/src/gg20/keygen.rs:54-75 KeyGenDriver *)
#[global] Instance Bridge_events {T D} {NT : NetworkTransport T} {PD : ProtocolDriver D} :
  EventHandler (Bridge T D) T (Output D) (PError D) := {|
  handle_event := bridge_handle_event;
  in_transport := fun f b => set_transport (f (transport b)) b;
  into_transport := transport;
  client_error := perror_client;
|}.

#[global] Instance Bridge_driver {T D} {NT : NetworkTransport T} {PD : ProtocolDriver D} :
  Driver (Bridge T D) T (Output D) (PError D) := {| execute := bridge_execute |}.
