(* ===== verification/DriverRef.v ===== *)
(** * A reference protocol

    A protocol of two rounds on which the bridge's properties are evaluated:
    each party broadcasts the number of the round it is in, and what arrives
    is collected. *)

From S2P Require Import Prelude Types Client Transport Recorder Round Driver.

Record Collector := { at_round : Z; collected : list Z }.

#[export] Instance Collector_json : SerdeJson (RoundMsg.t Z) := {|
  to_vec := fun m => Ok [byte_of (RoundMsg.round m); byte_of (RoundMsg.body m)];
  from_slice := fun b => match b with
    | [r; v] => Ok {| RoundMsg.round := byte_val r; RoundMsg.sender := 1;
                      RoundMsg.receiver := None; RoundMsg.body := byte_val v |}
    | _ => Err "invalid length"%string
    end;
|}.

#[export] Instance Collector_protocol : ProtocolDriver Collector := {|
  PError := DriverError;
  perror_client := DriverClient;
  perror_driver := fun e => e;
  Incoming := Msg.t Z;
  Outgoing := RoundMsg.t Z;
  Output := list Z;
  into_incoming := RoundMsg.into_msg;
  handle_incoming := fun m d =>
    ({| at_round := at_round d; collected := collected d ++ [Msg.body m] |}, Ok tt);
  proceed := fun d =>
    let n := at_round d + 1 in
    ({| at_round := n; collected := collected d |},
     if n <=? 2 then RoundMsg.from_round n [{| Msg.sender := 1; Msg.receiver := None; Msg.body := n |}]
     else Ok []);
  finish := fun d => Ok (collected d);
|}.

Definition pair_session : SessionState :=
  {| session_id := zeros 16; all_participants := [[Byte.x0a]; [Byte.x0b]; [Byte.x0c]] |}.

Definition round_item (k : bytes) (round body : Z) : Item Recorder := {|
  turn := fun t => t;
  next := Ok (Event.JsonMessage k {| contents := [byte_of round; byte_of body] |} (Some (zeros 16)));
|}.

Definition a_round_msg (round body : Z) : RoundMsg.t Z :=
  {| RoundMsg.round := round; RoundMsg.sender := 1; RoundMsg.receiver := None; RoundMsg.body := body |}.
