(* ===== verification/SessionHandlers.v ===== *)
(** * Creating and joining a session

    [src/driver/src/session.rs]: what the initiator and the participants of a
    session do with the events of their clients, until the session is
    active. *)

From S2P Require Import Prelude Types Sessions Net Client Transport Driver.

Section handlers.
Context {T : Type} {NT : NetworkTransport T}.

(** src/driver/src/session.rs:48-54 SessionInitiator *)
Record SessionInitiator := {
  initiator_transport : T;
  session_participants : list bytes;
  initiator_state : option SessionState;
  requested_session : bool;
}.

Definition set_initiator_transport (t : T) (s : SessionInitiator) : SessionInitiator :=
  {| initiator_transport := t; session_participants := session_participants s;
     initiator_state := initiator_state s; requested_session := requested_session s |}.
Definition set_initiator_state (x : option SessionState) (s : SessionInitiator) : SessionInitiator :=
  {| initiator_transport := initiator_transport s; session_participants := session_participants s;
     initiator_state := x; requested_session := requested_session s |}.
Definition set_requested (x : bool) (s : SessionInitiator) : SessionInitiator :=
  {| initiator_transport := initiator_transport s; session_participants := session_participants s;
     initiator_state := initiator_state s; requested_session := x |}.

Abbreviation InitiatorM := (SM SessionInitiator DriverError).

(** [self.transport.f(..).await?]. *)
Definition initiator_call {A} (m : SM T ClientError.t A) : InitiatorM A := fun s =>
  let '(t, r) := m (initiator_transport s) in
  (set_initiator_transport t s, map_err DriverClient r).

(** src/driver/src/session.rs:57-68 SessionInitiator::new *)
Definition SessionInitiator_new (transport : T) (participants : list bytes) : SessionInitiator :=
  {| initiator_transport := transport; session_participants := participants;
     initiator_state := None; requested_session := false |}.

(** src/driver/src/session.rs:70-82 SessionInitiator::new_session *)
Definition initiator_new_session : InitiatorM unit := fun s =>
  if negb (requested_session s) && transport_is_connected (initiator_transport s) then
    (initiator_call (transport_new_session (session_participants s)) ;;
     sm_modify (set_requested true)) s
  else (s, Ok tt).

(** src/driver/src/session.rs:85-135 SessionInitiator::handle_event *)
Definition initiator_handle_event (event : Event.t) : InitiatorM (option SessionState) :=
  initiator_new_session ;;
  match event with
  | Event.SessionCreated session => sm_modify (set_initiator_state (Some session)) ;; mret None
  | Event.SessionReady session =>
      own_key ← sm_gets (fun s => transport_public_key (initiator_transport s));
      sm_for (SessionStates.connections session own_key)
        (fun key => initiator_call (transport_connect_peer key)) ;;
      mret None
  | Event.PeerConnected peer_key =>
      state ← sm_gets initiator_state;
      session ← sm_lift (unwrap state);
      own_key ← sm_gets (fun s => transport_public_key (initiator_transport s));
      (if bool_decide (peer_key ∈ SessionStates.connections session own_key)
       then initiator_call (transport_register_connection (session_id session) peer_key)
       else mret tt) ;;
      mret None
  | Event.SessionActive session => mret (Some session)
  | _ => mret None
  end.

(** src/driver/src/session.rs:143-147 SessionParticipant *)
Record SessionParticipant := {
  participant_transport : T;
  participant_state : option SessionState;
}.

Definition set_participant_transport (t : T) (s : SessionParticipant) : SessionParticipant :=
  {| participant_transport := t; participant_state := participant_state s |}.
Definition set_participant_state (x : option SessionState) (s : SessionParticipant) :
    SessionParticipant :=
  {| participant_transport := participant_transport s; participant_state := x |}.

Abbreviation ParticipantM := (SM SessionParticipant DriverError).

Definition participant_call {A} (m : SM T ClientError.t A) : ParticipantM A := fun s =>
  let '(t, r) := m (participant_transport s) in
  (set_participant_transport t s, map_err DriverClient r).

(** src/driver/src/session.rs:150-156 SessionParticipant::new *)
Definition SessionParticipant_new (transport : T) : SessionParticipant :=
  {| participant_transport := transport; participant_state := None |}.

(** src/driver/src/session.rs:159-208 SessionParticipant::handle_event *)
Definition participant_handle_event (event : Event.t) : ParticipantM (option SessionState) :=
  match event with
  | Event.SessionReady session =>
      sm_modify (set_participant_state (Some session)) ;;
      own_key ← sm_gets (fun s => transport_public_key (participant_transport s));
      sm_for (SessionStates.connections session own_key)
        (fun key => participant_call (transport_connect_peer key)) ;;
      mret None
  | Event.PeerConnected peer_key =>
      state ← sm_gets participant_state;
      match state with
      | Some session =>
          own_key ← sm_gets (fun s => transport_public_key (participant_transport s));
          (if bool_decide (peer_key ∈ SessionStates.connections session own_key)
           then participant_call (transport_register_connection (session_id session) peer_key)
           else mret tt) ;;
          mret None
      | None => mret None
      end
  | Event.SessionActive session => mret (Some session)
  | _ => mret None
  end.

(** src/driver/src/session.rs:18-24 SessionHandler *)
Inductive SessionHandler :=
| Initiator (s : SessionInitiator)
| Participant (s : SessionParticipant).

(** src/driver/src/session.rs:26-37 SessionHandler::handle_event *)
Definition session_handle_event (event : Event.t) : SM SessionHandler DriverError (option SessionState) :=
  fun self =>
  match self with
  | Initiator s => let '(s, r) := initiator_handle_event event s in (Initiator s, r)
  | Participant s => let '(s, r) := participant_handle_event event s in (Participant s, r)
  end.

(** src/driver/src/session.rs:39-46 Transport::from *)
Definition session_transport (self : SessionHandler) : T :=
  match self with
  | Initiator s => initiator_transport s
  | Participant s => participant_transport s
  end.

(** What the event loop does to the transport of a handler. *)
Definition session_in_transport (f : T -> T) (self : SessionHandler) : SessionHandler :=
  match self with
  | Initiator s => Initiator (set_initiator_transport (f (initiator_transport s)) s)
  | Participant s => Participant (set_participant_transport (f (participant_transport s)) s)
  end.

(** src/driver/src/session.rs:9-16 SessionEventHandler *)
#[global] Instance SessionHandler_events : EventHandler SessionHandler T SessionState DriverError := {|
  handle_event := session_handle_event;
  in_transport := session_in_transport;
  into_transport := session_transport;
  client_error := DriverClient;
|}.

(** src/driver/src/session.rs:216-244 wait_for_session *)
Definition wait_for_session (stream : list (Item T)) (client_session : SessionHandler) :
    Res (Stop DriverError) (list (Item T) * T * SessionState) :=
  '(rest, s, session) ← wait_loop stream client_session;
  mret (rest, session_transport s, session).
End handlers.
Arguments SessionInitiator T : clear implicits.
Arguments SessionParticipant T : clear implicits.
Arguments SessionHandler T : clear implicits.
