(* ===== verification/GG20.v ===== *)
(** * The GG20 drivers

    The protocol drivers of [src/driver/src/gg20] for key generation and
    signing around the state machines of the cryptographic library, which is a
    parameter, and [address] of [src/driver/src/lib.rs]. *)

From stdpp Require Import sorting.
From S2P Require Import Prelude Types Stream Encoding Noise Channel Keypair Sessions Zlib Net.
From S2P Require Import Client Transport Round Driver SessionHandlers.

(** ** The cryptographic library *)

(** [round_based::StateMachine]. *)
Class StateMachine (M Body Out : Type) := {
  machine_handle_incoming : Msg.t Body -> SM M ExtError unit;
  machine_proceed : SM M ExtError unit;
  (** [message_queue().drain(..).collect()]. *)
  machine_drain_queue : M -> M * list (Msg.t Body);
  machine_current_round : M -> Z;
  machine_pick_output : M -> option (Res ExtError Out);
}.

(** [cggmp_threshold_ecdsa::mpc_ecdsa::gg_2020], [curv] and [sha3], as far as
    the drivers use them, and the JSON form of what is sent. *)
Class GG20Library := {
  LocalKey : Type;
  ProtocolMessage : Type;
  Keygen : Type;
  OfflineProtocolMessage : Type;
  OfflineStage : Type;
  CompletedOfflineStage : Type;
  PartialSignature : Type;
  SignManual : Type;
  SignatureRecid : Type;
  Point : Type;
  BigInt : Type;
  Keygen_machine :: StateMachine Keygen ProtocolMessage LocalKey;
  Keygen_new : Z -> Z -> Z -> Res ExtError Keygen;
  local_key_i : LocalKey -> Z;
  local_key_public_key : LocalKey -> Point;
  OfflineStage_machine :: StateMachine OfflineStage OfflineProtocolMessage CompletedOfflineStage;
  OfflineStage_new : Z -> list Z -> LocalKey -> Res ExtError OfflineStage;
  offline_public_key : CompletedOfflineStage -> Point;
  SignManual_new : BigInt -> CompletedOfflineStage -> Res ExtError (SignManual * PartialSignature);
  SignManual_complete : SignManual -> list PartialSignature -> Res ExtError SignatureRecid;
  bigint_from_bytes : bytes -> BigInt;
  point_to_bytes : Point -> bool -> bytes;
  verify : SignatureRecid -> Point -> BigInt -> Res ExtError unit;
  keccak256 : bytes -> bytes;
  keygen_json :: SerdeJson (RoundMsg.t ProtocolMessage);
  offline_json :: SerdeJson (RoundMsg.t OfflineProtocolMessage);
  partial_json :: SerdeJson (RoundMsg.t PartialSignature);
  index_json :: SerdeJson (RoundMsg.t Z);
}.

Section drivers.
Context {GL : GG20Library} {HX : Hex}.

(** ** Protocol drivers *)

(** Proceed, and take the messages of the new round. *)
(** src/driver/src/gg20/keygen.rs:112-117 KeygenDriver::proceed *)
Definition machine_round {M Body Out} {S : StateMachine M Body Out} (into : ExtError -> GG20Error) :
    SM M GG20Error (list (RoundMsg.t Body)) := fun inner =>
  match machine_proceed inner with
  | (inner, Ok _) =>
      let '(inner, messages) := machine_drain_queue inner in
      let round := machine_current_round inner in
      (inner, RoundMsg.from_round round messages)
  | (inner, Err e) => (inner, Err (into e))
  | (inner, Panic) => (inner, Panic)
  end.

(** src/driver/src/gg20/keygen.rs:77-80 KeygenDriver *)
Record KeygenDriver := { keygen_inner : Keygen }.

(** src/driver/src/gg20/keygen.rs:82-96 KeygenDriver::new *)
Definition KeygenDriver_new (parameters : Parameters) (party_number : Z) :
    Res GG20Error KeygenDriver :=
  inner ← map_err KeygenError
    (Keygen_new party_number (threshold parameters) (parties parameters));
  mret {| keygen_inner := inner |}.

(** src/driver/src/gg20/keygen.rs:104-110 KeygenDriver::handle_incoming *)
Definition keygen_handle_incoming (message : Msg.t ProtocolMessage) : SM KeygenDriver GG20Error unit :=
  fun self =>
  let '(inner, r) := machine_handle_incoming message (keygen_inner self) in
  ({| keygen_inner := inner |}, map_err KeygenError r).

(** src/driver/src/gg20/keygen.rs:112-117 KeygenDriver::proceed *)
Definition keygen_proceed : SM KeygenDriver GG20Error (list (RoundMsg.t ProtocolMessage)) := fun self =>
  let '(inner, r) := machine_round KeygenError (keygen_inner self) in
  ({| keygen_inner := inner |}, r).

(** src/driver/src/gg20/keygen.rs:119-121 KeygenDriver::finish *)
Definition keygen_finish (self : KeygenDriver) : Res GG20Error LocalKey :=
  output ← unwrap (machine_pick_output (keygen_inner self)); map_err KeygenError output.

(** src/driver/src/gg20/keygen.rs:98-102 KeygenDriver *)
#[global] Instance KeygenDriver_protocol : ProtocolDriver KeygenDriver := {|
  PError := GG20Error;
  perror_client := GG20Client;
  perror_driver := GG20Driver;
  Incoming := Msg.t ProtocolMessage;
  Outgoing := RoundMsg.t ProtocolMessage;
  Output := LocalKey;
  into_incoming := RoundMsg.into_msg;
  handle_incoming := keygen_handle_incoming;
  proceed := keygen_proceed;
  finish := keygen_finish;
|}.

(** src/driver/src/gg20/sign.rs:226-238 ParticipantProtocolDriver *)
Record ParticipantProtocolDriver := {
  party_number : Z;
  participants : list Z;
  local_key_index : Z;
}.

(** src/driver/src/gg20/sign.rs:240-249 ParticipantProtocolDriver::new *)
Definition ParticipantProtocolDriver_new (party_number local_key_index : Z) :
    ParticipantProtocolDriver :=
  {| party_number := party_number; participants := [local_key_index];
     local_key_index := local_key_index |}.

(** src/driver/src/gg20/sign.rs:257-263 ParticipantProtocolDriver::handle_incoming *)
Definition participant_handle_incoming (message : Msg.t Z) :
    SM ParticipantProtocolDriver GG20Error unit := fun self =>
  ({| party_number := party_number self;
      participants := participants self ++ [Msg.body message];
      local_key_index := local_key_index self |}, Ok tt).

(** src/driver/src/gg20/sign.rs:265-272 ParticipantProtocolDriver::proceed *)
Definition participant_proceed : SM ParticipantProtocolDriver GG20Error (list (RoundMsg.t Z)) :=
  fun self =>
  (self, RoundMsg.from_round 1 [{| Msg.sender := party_number self; Msg.receiver := None;
                                   Msg.body := local_key_index self |}]).

(** src/driver/src/gg20/sign.rs:274-277 ParticipantProtocolDriver::finish *)
Definition participant_finish (self : ParticipantProtocolDriver) : Res GG20Error (list Z) :=
  Ok (merge_sort Z.le (participants self)).

(** src/driver/src/gg20/sign.rs:251-255 ParticipantProtocolDriver *)
#[global] Instance ParticipantProtocolDriver_protocol : ProtocolDriver ParticipantProtocolDriver := {|
  PError := GG20Error;
  perror_client := GG20Client;
  perror_driver := GG20Driver;
  Incoming := Msg.t Z;
  Outgoing := RoundMsg.t Z;
  Output := list Z;
  into_incoming := RoundMsg.into_msg;
  handle_incoming := participant_handle_incoming;
  proceed := participant_proceed;
  finish := participant_finish;
|}.

(** src/driver/src/gg20/sign.rs:280-283 SignOfflineDriver *)
Record SignOfflineDriver := { offline_inner : OfflineStage }.

(** src/driver/src/gg20/sign.rs:285-296 SignOfflineDriver::new *)
Definition SignOfflineDriver_new (index : Z) (participants : list Z) (local_key : LocalKey) :
    Res GG20Error SignOfflineDriver :=
  inner ← map_err SignOfflineError (OfflineStage_new index participants local_key);
  mret {| offline_inner := inner |}.

(** src/driver/src/gg20/sign.rs:304-310 SignOfflineDriver::handle_incoming *)
Definition offline_handle_incoming (message : Msg.t OfflineProtocolMessage) :
    SM SignOfflineDriver GG20Error unit := fun self =>
  let '(inner, r) := machine_handle_incoming message (offline_inner self) in
  ({| offline_inner := inner |}, map_err SignOfflineError r).

(** src/driver/src/gg20/sign.rs:312-317 SignOfflineDriver::proceed *)
Definition offline_proceed : SM SignOfflineDriver GG20Error (list (RoundMsg.t OfflineProtocolMessage)) :=
  fun self =>
  let '(inner, r) := machine_round SignOfflineError (offline_inner self) in
  ({| offline_inner := inner |}, r).

(** src/driver/src/gg20/sign.rs:319-321 SignOfflineDriver::finish *)
Definition offline_finish (self : SignOfflineDriver) : Res GG20Error CompletedOfflineStage :=
  output ← unwrap (machine_pick_output (offline_inner self)); map_err SignOfflineError output.

(** src/driver/src/gg20/sign.rs:298-302 SignOfflineDriver *)
#[global] Instance SignOfflineDriver_protocol : ProtocolDriver SignOfflineDriver := {|
  PError := GG20Error;
  perror_client := GG20Client;
  perror_driver := GG20Driver;
  Incoming := Msg.t OfflineProtocolMessage;
  Outgoing := RoundMsg.t OfflineProtocolMessage;
  Output := CompletedOfflineStage;
  into_incoming := RoundMsg.into_msg;
  handle_incoming := offline_handle_incoming;
  proceed := offline_proceed;
  finish := offline_finish;
|}.

(** src/driver/src/lib.rs:134-144 address *)
Definition address {E} (public_key : bytes) : Res E string :=
  if len public_key <? 1 then Panic
  else
    let digest := keccak256 (drop 1 public_key) in
    if len digest <? 12 then Panic
    else Ok ("0x" +:+ hex_encode (drop 12 digest))%string.

(** src/driver/src/gg20/sign.rs:33-43 Signature *)
Record GG20Signature := {
  signature : SignatureRecid;
  signature_public_key : bytes;
  signature_address : string;
}.

(** src/driver/src/gg20/sign.rs:324-332 SignOnlineDriver *)
Record SignOnlineDriver := {
  online_party_number : Z;
  data : BigInt;
  online_public_key : Point;
  partial : PartialSignature;
  online_sign : SignManual;
  partials : list PartialSignature;
}.

(** src/driver/src/gg20/sign.rs:334-354 SignOnlineDriver::new *)
Definition SignOnlineDriver_new (party_number : Z) (completed_offline_stage : CompletedOfflineStage)
    (message : bytes) : Res GG20Error SignOnlineDriver :=
  let data := bigint_from_bytes message in
  let public_key := offline_public_key completed_offline_stage in
  '(sign, partial) ← map_err SignManualError (SignManual_new data completed_offline_stage);
  mret {| online_party_number := party_number; data := data; online_public_key := public_key;
          partial := partial; online_sign := sign; partials := [] |}.

(** src/driver/src/gg20/sign.rs:362-368 SignOnlineDriver::handle_incoming *)
Definition online_handle_incoming (message : Msg.t PartialSignature) :
    SM SignOnlineDriver GG20Error unit := fun self =>
  ({| online_party_number := online_party_number self; data := data self;
      online_public_key := online_public_key self; partial := partial self;
      online_sign := online_sign self; partials := partials self ++ [Msg.body message] |}, Ok tt).

(** src/driver/src/gg20/sign.rs:370-377 SignOnlineDriver::proceed *)
Definition online_proceed : SM SignOnlineDriver GG20Error (list (RoundMsg.t PartialSignature)) :=
  fun self =>
  (self, RoundMsg.from_round 1 [{| Msg.sender := online_party_number self; Msg.receiver := None;
                                   Msg.body := partial self |}]).

(** src/driver/src/gg20/sign.rs:379-392 SignOnlineDriver::finish *)
Definition online_finish (self : SignOnlineDriver) : Res GG20Error GG20Signature :=
  signature ← map_err SignManualError (SignManual_complete (online_sign self) (partials self));
  _ ← map_err (fun _ => VerifySignature) (verify signature (online_public_key self) (data self));
  let public_key := point_to_bytes (online_public_key self) false in
  address ← address public_key;
  mret {| signature := signature; signature_public_key := public_key;
          signature_address := address |}.

(** src/driver/src/gg20/sign.rs:356-360 SignOnlineDriver *)
#[global] Instance SignOnlineDriver_protocol : ProtocolDriver SignOnlineDriver := {|
  PError := GG20Error;
  perror_client := GG20Client;
  perror_driver := GG20Driver;
  Incoming := Msg.t PartialSignature;
  Outgoing := RoundMsg.t PartialSignature;
  Output := GG20Signature;
  into_incoming := RoundMsg.into_msg;
  handle_incoming := online_handle_incoming;
  proceed := online_proceed;
  finish := online_finish;
|}.
End drivers.
