(* ===== verification/GG20Run.v ===== *)
(** * Running GG20 over a session

    The drivers of [src/driver/src/gg20] over a transport, each a bridge with
    the buffer its protocol needs, and the phases of [keygen] and [sign] of
    [gg20/mod.rs], with the options of [types.rs]. *)

From S2P Require Import Prelude Types Stream Encoding Noise Channel Keypair Sessions Zlib Net.
From S2P Require Import Client Transport Round Driver SessionHandlers GG20.

Section run.
Context {GL : GG20Library} {HX : Hex}.

Section transport.
Context {T : Type} {NT : NetworkTransport T}.

(** [session.party_number(transport.public_key()).ok_or_else(..)?]. *)
(** src/driver/src/gg20/keygen.rs:34-40 KeyGenDriver::new *)
Definition own_party_number (transport : T) (session : SessionState) : Res GG20Error Z :=
  n ← SessionStates.party_number session (transport_public_key transport);
  ok_or n (NotSessionParticipant (hex_encode (transport_public_key transport))).

Definition new_bridge {D} {PD : ProtocolDriver D} (transport : T) (driver : D)
    (buffer : RoundBuffer.t (Incoming D)) (session : SessionState) : Bridge T D :=
  {| transport := transport; buffer := buffer; driver := Some driver; session := session |}.

(** src/driver/src/gg20/keygen.rs:24-52 KeyGenDriver::new *)
Definition KeyGenDriver_new (transport : T) (parameters : Parameters) (session : SessionState) :
    Res GG20Error (Bridge T KeygenDriver) :=
  buffer ← RoundBuffer.new_fixed 4 (wrap16 (parties parameters - 1));
  party_number ← own_party_number transport session;
  driver ← KeygenDriver_new parameters party_number;
  mret (new_bridge transport driver buffer session).

(** src/driver/src/gg20/sign.rs:50-80 ParticipantDriver::new *)
Definition ParticipantDriver_new (transport : T) (parameters : Parameters) (session : SessionState)
    (local_key_index : Z) : Res GG20Error (Bridge T ParticipantProtocolDriver) :=
  buffer ← RoundBuffer.new_fixed 1 (threshold parameters);
  party_number ← own_party_number transport session;
  mret (new_bridge transport (ParticipantProtocolDriver_new party_number local_key_index)
          buffer session).

(** src/driver/src/gg20/sign.rs:110-139 PreSignDriver::new *)
Definition PreSignDriver_new (transport : T) (parameters : Parameters) (session : SessionState)
    (local_key : LocalKey) (participants : list Z) : Res GG20Error (Bridge T SignOfflineDriver) :=
  buffer ← RoundBuffer.new_fixed 6 (threshold parameters);
  position ← ok_or ((fun pos => pos + 1) <$>
      position (fun index => bool_decide (index = local_key_i local_key)) participants)
    LocalKeyNotParticipant;
  let party_index := as_u16 position in
  driver ← SignOfflineDriver_new party_index participants local_key;
  mret (new_bridge transport driver buffer session).

(** src/driver/src/gg20/sign.rs:169-202 SignatureDriver::new *)
Definition SignatureDriver_new (transport : T) (parameters : Parameters) (session : SessionState)
    (completed_offline_stage : CompletedOfflineStage) (message : bytes) :
    Res GG20Error (Bridge T SignOnlineDriver) :=
  buffer ← RoundBuffer.new_fixed 1 (threshold parameters);
  party_number ← own_party_number transport session;
  driver ← SignOnlineDriver_new party_number completed_offline_stage message;
  mret (new_bridge transport driver buffer session).

(** ** The phases *)

Abbreviation Run := (Res (Stop DriverError)).

(** [transport.f(..).await?]. *)
Definition call {A} (m : SM T ClientError.t A) (t : T) : Run (T * A) :=
  match m t with
  | (t, Ok a) => Ok (t, a)
  | (_, Err e) => Err (Failed (DriverClient e))
  | (_, Panic) => Panic
  end.

(** The conversion of a [gg20::Error] by [?]. *)
Definition gg20 {A} (r : Res GG20Error A) : Run A := map_err (fun e => Failed (Driver.GG20 e)) r.
Definition gg20_wait {A} (r : Res (Stop GG20Error) A) : Run A :=
  map_err (fun s => match s with Failed e => Failed (Driver.GG20 e) | Pending => Pending end) r.

(** The handler of an initiator, who names the participants, or of a
    participant. *)
(** src/driver/src/gg20/mod.rs:47-56 keygen *)
Definition session_handler (transport : T) (participants : option (list bytes)) : SessionHandler T :=
  match participants with
  | Some participants => Initiator (SessionInitiator_new transport participants)
  | None => Participant (SessionParticipant_new transport)
  end.

(** Close the session, when its initiator, and the socket. *)
(** src/driver/src/gg20/mod.rs:68-75 keygen *)
Definition close_all (is_initiator : bool) (session_id : Uuid) (stream : list (Item T)) (transport : T) :
    Run unit :=
  '(stream, transport) ←
    (if is_initiator then
       '(transport, _) ← call (transport_close_session session_id) transport;
       wait_for_session_finish stream session_id transport
     else mret (stream, transport));
  '(transport, _) ← call transport_close transport;
  _ ← wait_for_close stream transport;
  mret tt.

(** Key generation from the transport of a new client on. *)
(** src/driver/src/gg20/mod.rs:38-76 keygen *)
Definition run_keygen (parameters : Parameters) (participants : option (list bytes))
    (stream : list (Item T)) (transport : T) : Run LocalKey :=
  let is_initiator := bool_decide (is_Some participants) in
  '(transport, _) ← call transport_connect transport;
  '(stream, transport, session) ← wait_for_session stream (session_handler transport participants);
  let id := session_id session in
  keygen ← gg20 (KeyGenDriver_new transport parameters session);
  '(stream, transport, local_key_share) ← gg20_wait (wait_for_driver stream keygen);
  _ ← close_all is_initiator id stream transport;
  mret local_key_share.

(** Signing from the transport of a new client on. *)
(** src/driver/src/gg20/mod.rs:96-160 sign *)
Definition run_sign (parameters : Parameters) (participants : option (list bytes))
    (local_key : LocalKey) (message : bytes) (stream : list (Item T)) (transport : T) :
    Run GG20Signature :=
  let is_initiator := bool_decide (is_Some participants) in
  '(transport, _) ← call transport_connect transport;
  '(stream, transport, session) ← wait_for_session stream (session_handler transport participants);
  let id := session_id session in
  index ← unwrap (NonZeroU16_new (local_key_i local_key));
  driver ← gg20 (ParticipantDriver_new transport parameters session index);
  '(stream, transport, participants) ← gg20_wait (wait_for_driver stream driver);
  driver ← gg20 (PreSignDriver_new transport parameters session local_key participants);
  '(stream, transport, offline_result) ← gg20_wait (wait_for_driver stream driver);
  driver ← gg20 (SignatureDriver_new transport parameters session offline_result message);
  '(stream, transport, signature) ← gg20_wait (wait_for_driver stream driver);
  _ ← close_all is_initiator id stream transport;
  mret signature.
End transport.

(** ** Options and results *)

(** src/driver/src/types.rs:6-17 Protocol *)
Inductive Protocol := ProtocolGG20 | ProtocolCGGMP.

(** src/driver/src/types.rs:53-60 PrivateKey *)
Inductive PrivateKey := PrivateKeyGG20 (k : LocalKey).

(** src/driver/src/types.rs:19-32 Signature *)
Inductive Signature := SignatureGG20 (s : GG20Signature).

(** src/driver/src/types.rs:41-51 KeyShare *)
Record KeyShare := {
  private_key : PrivateKey;
  share_public_key : bytes;
  share_address : string;
}.

(** src/driver/src/types.rs:62-73 KeyShare::from *)
Definition KeyShare_from {E} (local_key : LocalKey) : Res E KeyShare :=
  let public_key := point_to_bytes (local_key_public_key local_key) false in
  address ← address public_key;
  mret {| private_key := PrivateKeyGG20 local_key; share_public_key := public_key;
          share_address := address |}.

(** src/driver/src/types.rs:75-86 ServerOptions *)
Record ServerOptions := {
  server_url : string;
  server_public_key : bytes;
  server_pattern : option string;
}.

(** src/driver/src/types.rs:88-100 SessionOptions *)
Record SessionOptions := {
  protocol : Protocol;
  session_keypair : Keypair.t;
  server_options : ServerOptions;
  parameters : Parameters;
}.

Section relay.
Context {BS : BinaryStream encoding_options} {SC : StatusCodes} {HO : HashOrder}.
Context {N : Noise} {FL : Flate}.

(** [Client::new] of the platform: the client for a URL, unless it waits for
    a socket that never opens. *)
Variable Client_new : string -> ClientOptions -> Res (Stop ClientError.t) Client.

(** src/driver/src/lib.rs:146-158 new_client *)
Definition new_client (opts : SessionOptions) : Res (Stop DriverError) Client :=
  let client_options := {|
    options_keypair := session_keypair opts;
    Client.server_public_key := server_public_key (server_options opts);
    options_pattern := server_pattern (server_options opts) |} in
  let url := url client_options (server_url (server_options opts)) in
  map_err (fun s => match s with Failed e => Failed (DriverClient e) | Pending => Pending end)
    (Client_new url client_options).

(** src/driver/src/gg20/mod.rs:26-79 keygen *)
Definition gg20_keygen (opts : SessionOptions) (participants : option (list bytes))
    (stream : list (Item Transport)) : Res (Stop DriverError) KeyShare :=
  client ← new_client opts;
  local_key_share ← run_keygen (parameters opts) participants stream (Relay client);
  KeyShare_from local_key_share.

(** src/driver/src/gg20/mod.rs:81-160 sign *)
Definition gg20_sign (opts : SessionOptions) (participants : option (list bytes))
    (signing_key : PrivateKey) (message : bytes) (stream : list (Item Transport)) :
    Res (Stop DriverError) GG20Signature :=
  let 'PrivateKeyGG20 local_key := signing_key in
  client ← new_client opts;
  run_sign (parameters opts) participants local_key message stream (Relay client).

(** src/driver/src/lib.rs:96-108 keygen *)
Definition keygen (opts : SessionOptions) (participants : option (list bytes))
    (stream : list (Item Transport)) : Res (Stop DriverError) KeyShare :=
  match protocol opts with
  | ProtocolGG20 => gg20_keygen opts participants stream
  | ProtocolCGGMP => Panic
  end.

(** src/driver/src/lib.rs:110-132 sign *)
Definition sign (opts : SessionOptions) (participants : option (list bytes))
    (signing_key : PrivateKey) (message : bytes) (stream : list (Item Transport)) :
    Res (Stop DriverError) Signature :=
  match protocol opts with
  | ProtocolGG20 =>
      s ← gg20_sign opts participants signing_key message stream; mret (SignatureGG20 s)
  | ProtocolCGGMP => Panic
  end.
End relay.
End run.
