(* ===== verification/Bindings.v ===== *)
(** * Bindings for JavaScript

    [src/bindings/src/lib.rs]: the entry points of the driver on values of
    JavaScript, and the texts of the errors they reject with ([error.rs] of the
    client and of the driver).  What [serde_wasm_bindgen] converts is a
    parameter, as is the decoding of hexadecimal text. *)

From S2P Require Import Prelude Types Stream Encoding Noise Channel Keypair ServerConfig Sessions Zlib Net.
From S2P Require Import Client Web Transport Round Driver SessionHandlers GG20 GG20Run.

(** [serde_wasm_bindgen::from_value] and [to_value] at a type. *)
Class JsSerde {JS : JavaScript} (A : Type) := {
  from_value : JsVal -> Res ExtError A;
  to_value : A -> Res ExtError JsVal;
}.

(** [hex::decode]. *)
Class HexDecode := { hex_decode : string -> Res ExtError bytes }.
Class HexLaws {HX : Hex} {HD : HexDecode} : Prop := {
  hex_decode_encode : forall b, hex_decode (hex_encode b) = Ok b;
  hex_decode_no_panic : forall s, hex_decode s <> Panic;
}.

(** [StatusCode] as text, and the value a conversion error becomes. *)
Class JsTexts {JS : JavaScript} := {
  status_string : Z -> string;
  js_error : ExtError -> JsVal;
}.

Section bindings.
Context {JS : JavaScript} {HD : HexDecode} {DI : Display} {JT : JsTexts}.

(** ** Errors as text *)

Open Scope string_scope.

(** src/client/src/error.rs:7-109 Error::to_string *)
Definition ClientError_to_string (e : ClientError.t) : string :=
  match e with
  | ClientError.ConnectError code text | ClientError.ServerError code text =>
      status_string code +:+ " " +:+ text
  | ClientError.NoReply => "server did not reply"
  | ClientError.PeerAlreadyExists => "peer already exists"
  | ClientError.PeerAlreadyExistsMaybeRace =>
      "peer already exists, maybe peers are racing to connect"
  | ClientError.PeerNotFound key => "peer " +:+ quoted key +:+ " not found "
  | ClientError.NotHandshakeState => "not handshake protocol state"
  | ClientError.NotTransportState => "not transport protocol state"
  | ClientError.InvalidPeerHandshakeMessage => "invalid peer handshake message"
  | ClientError.WebSocketSend => "web socket failed to send"
  | ClientError.JsString text => text
  | ClientError.JsValue json => json
  | ClientError.JsError => "unknown javascript error (type conversion failed)"
  | ClientError.StreamReunite => "stream and sink reunite failed"
  | ClientError.Io e => IoError_to_string e
  | ClientError.Protocol e => Error_to_string e
  | ClientError.Snow e | ClientError.Json e | ClientError.Websocket e => e
  | ClientError.RequestMpscSend | ClientError.ResponseMpscSend => send_error_string
  end.

(** src/driver/src/gg20/error.rs:7-41 Error::to_string *)
Definition GG20Error_to_string {E} (error_to_string : E -> string) (e : GG20ErrorOf E) : string :=
  match e with
  | NotSessionParticipant key => "public key " +:+ key +:+ " is not a session participant"
  | LocalKeyNotParticipant => "local key index not found in list of participants"
  | VerifySignature => "failed to verify generated signature"
  | KeygenError e | SignOfflineError e | SignManualError e => e
  | GG20Client e => ClientError_to_string e
  | GG20Driver e => error_to_string e
  end.

(** src/driver/src/error.rs:4-23 Error::to_string *)
Fixpoint DriverError_to_string (e : DriverError) : string :=
  match e with
  | SessionIdMismatch => "session identifier mismatch for incoming message"
  | SessionIdRequired => "session identifier required"
  | GG20 e => GG20Error_to_string DriverError_to_string e
  | DriverClient e => ClientError_to_string e
  end.

(** src/driver/src/error.rs:25-31 from *)
Definition js_from_driver_error (value : DriverError) : JsVal :=
  js_from_str (DriverError_to_string value).

Close Scope string_scope.

(** ** Arguments *)

(** [for participant in participants { parties.push(hex::decode(participant)?) }]. *)
Fixpoint decode_all (l : list string) (parties : list bytes) : Res ExtError (list bytes) :=
  match l with
  | [] => Ok parties
  | participant :: l => b ← hex_decode participant; decode_all l (parties ++ [b])
  end.

(** src/bindings/src/lib.rs:87-104 parse_participants *)
Definition parse_participants {J : JsSerde (option (list string))} (participants : JsVal) :
    Res ExtError (option (list bytes)) :=
  participants ← from_value (A := option (list string)) participants;
  match participants with
  | Some participants => parties ← decode_all participants []; mret (Some parties)
  | None => mret None
  end.

(** src/bindings/src/lib.rs:106-114 parse_message *)
Definition parse_message {J : JsSerde string} (message : JsVal) : Res ExtError bytes :=
  message ← from_value (A := string) message;
  message ← hex_decode message;
  if len message =? 32 then Ok message else Err slice_error_string.

(** What a promise is settled with, or that it stays pending. *)
Definition Promise : Type := Res (Stop JsVal) JsVal.

(** The end of an [async] block: the errors of the driver and of the
    conversion of its result reject the promise. *)
(** src/bindings/src/lib.rs:34-39 keygen *)
Definition settle {A} {J : JsSerde A} (outcome : Res (Stop DriverError) A) : Promise :=
  match outcome with
  | Ok value => map_err (fun e => Failed (js_error e)) (to_value value)
  | Err (Failed e) => Err (Failed (js_from_driver_error e))
  | Err Pending => Err Pending
  | Panic => Panic
  end.

(** ** Entry points *)

Context {N : Noise} {G : KeyGen} {P : Pem}.

(** src/bindings/src/lib.rs:69-85 generate_keypair *)
Definition js_generate_keypair {J : JsSerde string} (entropy : bytes) (pattern : option string) :
    Res ExtError JsVal :=
  let pattern := match pattern with Some pattern => pattern | None => PATTERN end in
  params ← parse_params pattern;
  keypair ← map_err Error_to_string (Keypair.new params entropy);
  let pem := encode_keypair keypair in
  to_value pem.

Context {GL : GG20Library} {HX : Hex}.
Context {BS : BinaryStream encoding_options} {SC : StatusCodes} {HO : HashOrder} {FL : Flate}.
Context (Client_new : string -> ClientOptions -> Res (Stop ClientError.t) Client).
Context {J1 : JsSerde SessionOptions} {J2 : JsSerde (option (list string))}.
Context {J3 : JsSerde KeyShare} {J4 : JsSerde PrivateKey} {J5 : JsSerde string} {J6 : JsSerde Signature}.

(** src/bindings/src/lib.rs:25-40 keygen *)
Definition js_keygen (options participants : JsVal) (stream : list (Item Transport)) :
    Res ExtError Promise :=
  options ← from_value (A := SessionOptions) options;
  participants ← parse_participants participants;
  mret (settle (keygen Client_new options participants stream)).

(** src/bindings/src/lib.rs:42-67 sign *)
Definition js_sign (options participants signing_key message : JsVal)
    (stream : list (Item Transport)) : Res ExtError Promise :=
  options ← from_value (A := SessionOptions) options;
  participants ← parse_participants participants;
  signing_key ← from_value (A := PrivateKey) signing_key;
  message ← parse_message message;
  mret (settle (sign Client_new options participants signing_key message stream)).
End bindings.
