(* ===== verification/Network.v ===== *)
(** * The network: clients, their sockets and the server

    The transition system of [ServerSystem] together with clients that run the
    waiting loops of the driver, over sockets that lose nothing: what a client
    writes is what a reading task of its connection receives, in order, and
    what a writing task sends is what the client's loop reads.  Clients take
    turns of their event loops, and the server's tasks sections, in any
    interleaving. *)

From S2P Require Import Prelude Types Stream Encoding Noise Channel Keypair ServerConfig Zlib Prog Sessions Net Server ServerSystem.
From S2P Require Import Client Transport Round Driver.

Section network.
Context {BS : BinaryStream encoding_options} {SC : StatusCodes} {HO : HashOrder}.
Context {N : Noise} {FL : Flate} {HX : Hex} {DI : Display}.
Context {S A E : Type} {H : EventHandler S Transport A E}.

(** A turn of the event loop of a transport. *)
Definition transport_turn (r : Ready) (t : Transport) : Transport :=
  match t with Relay c => Relay (run_turn r c).1.1 end.

(** A client in a waiting loop: its connection, the handler it began with and
    as it is after the last item, the turns of the event loop since, the items the stream has
    yielded, the result of the waiting loop once it has one, whether the event
    loop runs, and what is on the socket in both directions. *)
Record Side := {
  side_conn : Connection;
  side_start : S;
  side_handler : S;
  side_turns : Transport -> Transport;
  side_stream : list (Item Transport);
  side_result : option (Res (Stop E) A);
  side_open : bool;
  to_server : list bytes;
  to_client : list WsMessage;
}.

(** A client that begins to wait. *)
Definition side_new (c : Connection) (h : S) : Side :=
  {| side_conn := c; side_start := h; side_handler := h; side_turns := fun t => t; side_stream := [];
     side_result := None; side_open := true; to_server := []; to_client := [] |}.

Definition side_transport (p : Side) : Transport := side_turns p (into_transport (side_handler p)).

(** The stream yields an item, and the waiting loop does its iteration with it. *)
(** src/driver/src/bridge.rs:129-145 wait_for_driver *)
Definition handle_item (p : Side) (x : Res ClientError.t Event.t) : Side :=
  match side_result p with
  | Some _ => p
  | None =>
      let item := {| turn := side_turns p; next := x |} in
      let '(s, result) := wait_item item (side_handler p) in
      {| side_conn := side_conn p; side_start := side_start p; side_handler := s; side_turns := fun t => t;
         side_stream := side_stream p ++ [item];
         side_result := result; side_open := side_open p;
         to_server := to_server p; to_client := to_client p |}
  end.

(** A turn of the event loop: what it writes goes on the socket, what it yields
    is handled. *)
Definition side_turn (r : Ready) (p : Side) : Side :=
  match side_transport p with
  | Relay c =>
      let '(c', items, continue) := run_turn r c in
      foldl handle_item
        {| side_conn := side_conn p; side_start := side_start p; side_handler := side_handler p;
           side_turns := fun t => transport_turn r (side_turns p t);
           side_stream := side_stream p; side_result := side_result p; side_open := continue;
           to_server := to_server p ++ drop (length (socket_out c)) (socket_out c');
           to_client := to_client p |}
        items
  end.

Definition set_to_server (l : list bytes) (p : Side) : Side :=
  {| side_conn := side_conn p; side_start := side_start p; side_handler := side_handler p;
     side_turns := side_turns p; side_stream := side_stream p; side_result := side_result p; side_open := side_open p;
     to_server := l; to_client := to_client p |}.
Definition set_to_client (l : list WsMessage) (p : Side) : Side :=
  {| side_conn := side_conn p; side_start := side_start p; side_handler := side_handler p;
     side_turns := side_turns p; side_stream := side_stream p; side_result := side_result p; side_open := side_open p;
     to_server := to_server p; to_client := l |}.

(** A client whose loop can take a turn. *)
Definition waiting (p : Side) : Prop := side_open p = true /\ side_result p = None.

Record Network := { system : System; sides : list Side }.

Definition set_system (s : System) (n : Network) : Network := {| system := s; sides := sides n |}.
Definition set_side (j : nat) (p : Side) (n : Network) : Network :=
  {| system := system n; sides := <[j := p]> (sides n) |}.

(** Tasks that touch a socket. *)
Definition socket_task (t : Task) : bool :=
  match t with Read _ | Write _ => true | _ => false end.

(** The system with a task started. *)
Definition started_task (w : World) (th : Thread) (s : System) : System :=
  {| world := w; running := running s ++ [th] |}.

Definition taken (i : nat) (w : World) : World := set_spawned (delete i (spawned w)) w.

Inductive net_step : Network -> Network -> Prop :=
(** A client connects and waits. *)
| NetConnect n k w c h :
    upgrade k (world (system n)) = (w, Ok c) -> transport_public_key (into_transport h) = k ->
    net_step n {| system := {| world := w;
                    running := running (system n) ++ [{| thread_task := None; thread_input := None;
                      thread_prog := (handle_socket c ;; mret false) |}] |};
                  sides := sides n ++ [side_new c h] |}
(** Time passes. *)
| NetEnv n t u :
    net_step n (set_system {| world := set_env t u (world (system n)); running := running (system n) |} n)
(** A task that touches no socket starts. *)
| NetStart n i t w th :
    spawned (world (system n)) !! i = Some t -> socket_task t = false ->
    starts (taken i (world (system n))) t w th ->
    net_step n (set_system (started_task w th (system n)) n)
(** The reading task of a connection is given the next frame. *)
| NetRead n i j p f rest th :
    sides n !! j = Some p -> to_server p = f :: rest ->
    spawned (world (system n)) !! i = Some (Read (side_conn p)) ->
    th = {| thread_task := Some (Read (side_conn p)); thread_input := None;
            thread_prog := read (side_conn p) (Received (Binary f)) |} ->
    net_step n (set_side j (set_to_server rest p)
      (set_system (started_task (taken i (world (system n))) th (system n)) n))
(** The writing task of a connection sends the next message. *)
| NetWrite n i j p conn m rest th :
    sides n !! j = Some p -> heap (world (system n)) !! side_conn p = Some conn ->
    queue (outgoing conn) = m :: rest ->
    spawned (world (system n)) !! i = Some (Write (side_conn p)) ->
    th = {| thread_task := Some (Write (side_conn p)); thread_input := None;
            thread_prog := write (side_conn p) true |} ->
    net_step n (set_side j (set_to_client (to_client p ++ [m]) p)
      (set_system (started_task
        (set_heap (<[side_conn p :=
            set_outgoing {| queue := rest; receiver_open := receiver_open (outgoing conn) |} conn]>
          (heap (world (system n)))) (taken i (world (system n)))) th (system n)) n))
(** A running task executes a section, or ends. *)
| NetSection n i th m w p :
    running (system n) !! i = Some th -> thread_prog th = Atomic m -> m (world (system n)) = (w, p) ->
    net_step n (set_system {| world := w;
      running := <[i := {| thread_task := thread_task th; thread_input := thread_input th;
                           thread_prog := p |}]> (running (system n)) |} n)
| NetFinish n i th r :
    running (system n) !! i = Some th -> thread_prog th = Done r ->
    net_step n (set_system {| world := ServerSystem.finish (thread_task th) r (world (system n));
                              running := delete i (running (system n)) |} n)
(** A client's loop reads what arrived. *)
| NetReceive n j p m rest :
    sides n !! j = Some p -> waiting p -> to_client p = m :: rest ->
    net_step n (set_side j (side_turn (WsReader (Some (Ok m))) (set_to_client rest p)) n)
(** A client's loop takes another of its turns. *)
| NetTurn n j p r :
    sides n !! j = Some p -> waiting p ->
    (exists sent closed, r = OutboundRx sent closed) \/ r = InboundRx ->
    net_step n (set_side j (side_turn r p) n).

(** Nobody is connected yet. *)
Definition network_initial (cfg : ServerConfig.t) (kp : Keypair.t) (t : SystemTime) (u : Uuid) : Network :=
  {| system := initial cfg kp t u; sides := [] |}.
End network.
Arguments Side {N} S A E.
Arguments Network {N} S A E.
