(* ===== verification/NetworkFacts.v ===== *)
(** * Facts about the network

    Its server is the server of [ServerSystem], and a waiting loop on the items
    a client's stream has yielded computes what the client has become: the
    properties proved of tasks and of streams apply to every reachable
    network. *)

From S2P Require Import Prelude Types Stream Encoding Noise Channel Keypair ServerConfig Zlib Prog Sessions Net Server ServerSystem.
From S2P Require Import Client Transport Round Driver Network.

Section facts.
Context {BS : BinaryStream encoding_options} {SC : StatusCodes} {HO : HashOrder}.
Context {N : Noise} {FL : Flate} {HX : Hex} {DI : Display}.
Context {S A E : Type} {H : EventHandler S Transport A E}.

(** What a waiting loop makes of more items, once it is where the side is. *)
Definition outcome (p : Side S A E) (tail : list (Item Transport)) :
    Res (Stop E) (list (Item Transport) * S * A) :=
  match side_result p with
  | None => wait_loop tail (side_handler p)
  | Some (Ok a) => Ok (tail, side_handler p, a)
  | Some (Err e) => Err e
  | Some Panic => Panic
  end.

(** The waiting loop from the start of the side replays its stream. *)
Definition replays (p : Side S A E) : Prop :=
  forall tail, wait_loop (side_stream p ++ tail) (side_start p) = outcome p tail.

Lemma handle_item_replays p x : replays p -> replays (handle_item p x).
Proof.
  unfold replays. intros Hp tail. unfold handle_item.
  destruct (side_result p) as [r|] eqn:Er; [by rewrite Hp; unfold outcome; rewrite Er |].
  assert (forall tail', wait_loop (side_stream p ++ tail') (side_start p)
    = wait_loop tail' (side_handler p)) as Hw by (intros; by rewrite Hp; unfold outcome; rewrite Er).
  destruct (wait_item _ (side_handler p)) as [s [[a|e|]|]] eqn:Ei;
    cbn [side_stream side_start outcome]; rewrite <- app_assoc, Hw; cbn [app wait_loop]; by rewrite Ei.
Qed.

Lemma handle_items_replay l p : replays p -> replays (foldl handle_item p l).
Proof.
  revert p. induction l as [|x l IH]; intros p Hp; [done |]. apply IH. by apply handle_item_replays.
Qed.

Lemma side_turn_replays r p : replays p -> replays (side_turn r p).
Proof.
  intros Hp. unfold side_turn. destruct (side_transport p) as [c].
  destruct (run_turn r c) as [[c' items] continue]. by apply handle_items_replay.
Qed.

Lemma step_replays n n' : net_step n n' -> Forall replays (sides n) -> Forall replays (sides n').
Proof.
  intros Hs Hall. destruct Hs as [n k w c h _ _ | | | n i j p f rest th Hp | n i j p conn m rest th Hp
    | | | n j p m rest Hp | n j p r Hp]; cbn [sides set_side set_system]; try done.
  - apply Forall_app. split; [done |]. by apply Forall_singleton.
  - apply Forall_insert; [done |]. apply (Forall_lookup_1 _ _ _ _ Hall Hp).
  - apply Forall_insert; [done |]. apply (Forall_lookup_1 _ _ _ _ Hall Hp).
  - apply Forall_insert; [done |]. apply side_turn_replays. apply (Forall_lookup_1 _ _ _ _ Hall Hp).
  - apply Forall_insert; [done |]. apply side_turn_replays. apply (Forall_lookup_1 _ _ _ _ Hall Hp).
Qed.

(** A step of the network is a step of the server, or none. *)
Lemma step_system n n' : net_step n n' -> system n' = system n \/ step (system n) (system n').
Proof.
  destruct 1 as [n k w c h Hu _ | n t u | n i t w th Hi _ Hs | n i j p f rest th _ _ Hi ->
    | n i j p conn m rest th _ Hc Hq Hi -> | n i th m w p Hi Ha Hm | n i th r Hi Hd | n j p m rest
    | n j p r]; try (by left); right.
  - by eapply StepUpgrade.
  - by apply StepEnv.
  - by eapply StepStart.
  - apply (StepStart _ i _ _ _ Hi), StartRead.
  - apply (StepStart _ i _ _ _ Hi).
    exact (StartWrite (taken i (world (system n))) (side_conn p) conn m rest true Hc Hq).
  - by eapply StepSection.
  - by eapply StepFinish.
Qed.

Lemma net_reachable cfg kp t u n : rtc net_step (network_initial cfg kp t u) n ->
  reachable (initial cfg kp t u) (system n) /\ Forall replays (sides n).
Proof.
  intros Hr. apply rtc_ind_r with (P := fun n => reachable (initial cfg kp t u) (system n) /\
    Forall replays (sides n)) in Hr; [done | |].
  - split; [apply reach_init | by apply Forall_nil].
  - intros n1 n2 _ Hs [H1 H2]. split; [|by eapply step_replays].
    destruct (step_system n1 n2 Hs) as [-> | Hs']; [done |]. by eapply reach_step.
Qed.
End facts.
