(* ===== verification/RoundSpec.v ===== *)
(** * Properties of the round buffer

    What the buffer hands out, for any interleaving of the messages of
    different rounds. *)

From S2P Require Import Prelude Round.

Section buffer.
Context {I : Type}.
Abbreviation Buffer := (RoundBuffer.t I).

(** What a bridge does with the buffer for one message: add it, and take the
    round when it is complete. *)
Definition deliver (b : Buffer) (round : Z) (message : I) : Buffer * list (Z * list I) :=
  let b := RoundBuffer.add_message b round message in
  if RoundBuffer.is_ready b round then
    let '(b, batch) := RoundBuffer.take b round in (b, [(round, batch)])
  else (b, []).

Fixpoint deliver_all (b : Buffer) (l : list (Z * I)) : Buffer * list (Z * list I) :=
  match l with
  | [] => (b, [])
  | (round, message) :: l' =>
      let '(b, out) := deliver b round message in
      let '(b, out') := deliver_all b l' in (b, out ++ out')
  end.

(** The messages of a round, among what arrived or what was handed out. *)
Definition of_round {A} (r : Z) (l : list (Z * A)) : list A := (filter (fun x => x.1 = r) l).*2.

Lemma of_round_app {A} r (l l' : list (Z * A)) : of_round r (l ++ l') = of_round r l ++ of_round r l'.
Proof. unfold of_round. by rewrite list.filter_app, fmap_app. Qed.

Lemma of_round_eq {A} r (x : A) l : of_round r ((r, x) :: l) = x :: of_round r l.
Proof. unfold of_round. by rewrite filter_cons_True. Qed.

Lemma of_round_ne {A} r r' (x : A) l : r' <> r -> of_round r ((r', x) :: l) = of_round r l.
Proof. intros H. unfold of_round. by rewrite filter_cons_False. Qed.

(** What a buffer holds for a round. *)
Definition held (b : Buffer) (r : Z) : list I := default [] (RoundBuffer.messages b !! r).

Lemma expect_spec {E} (rounds : list Z) n (m : gmap Z Z) :
  Forall (fun i => 0 <= i < 2 ^ 16 - 1) rounds ->
  exists m', RoundBuffer.expect (E := E) rounds n m = Ok m' /\
    forall r, m' !! r = if decide (r - 1 ∈ rounds) then Some n else m !! r.
Proof.
  intros H. revert m. induction H as [|i rounds Hi _ IH]; intros m; cbn [RoundBuffer.expect].
  - exists m. split; [done |]. intros r. by rewrite decide_False by apply not_elem_of_nil.
  - unfold wrap16. rewrite Z.mod_small by lia. unfold NonZeroU16_new.
    rewrite (proj2 (Z.eqb_neq _ _)) by lia.
    destruct (IH (<[i + 1 := n]> m)) as (m' & He & Hm'). exists m'. split; [exact He |].
    intros r. rewrite Hm'. destruct (decide (r - 1 ∈ rounds)) as [Hr|Hr].
    + by rewrite decide_True by by right.
    + destruct (decide (r = i + 1)) as [->|Hne].
      * rewrite lookup_insert_eq, decide_True; [done |]. apply elem_of_cons. left. lia.
      * rewrite lookup_insert_ne by done. rewrite decide_False; [done |].
        intros [?|?]%elem_of_cons; [lia | done].
Qed.

Lemma new_fixed_spec {E} rounds n : is_u16 rounds ->
  exists b, RoundBuffer.new_fixed (I := I) (E := E) rounds n = Ok b /\ RoundBuffer.messages b = ∅ /\
    RoundBuffer.len b = rounds /\
    forall r, RoundBuffer.expected b !! r = if decide (1 <= r <= rounds) then Some n else None.
Proof.
  intros Hr. unfold is_u16 in Hr.
  destruct (expect_spec (E := E) (seqZ 0 rounds) n ∅) as (m & He & Hm).
  { apply Forall_seqZ. lia. }
  exists {| RoundBuffer.expected := m; RoundBuffer.messages := ∅ |}.
  assert (forall r, m !! r = if decide (1 <= r <= rounds) then Some n else None) as Hm'.
  { intros r. rewrite Hm, lookup_empty. destruct (decide (1 <= r <= rounds)).
    - rewrite decide_True; [done |]. apply elem_of_seqZ. lia.
    - rewrite decide_False; [done |]. rewrite elem_of_seqZ. lia. }
  split_and!; [by unfold RoundBuffer.new_fixed, mbind, Res_bind; rewrite He | done | | exact Hm'].
  unfold RoundBuffer.len. cbn [RoundBuffer.expected]. rewrite <- size_dom.
  assert (dom m = list_to_set (seqZ 1 rounds)) as ->.
  { apply set_eq. intros r. rewrite elem_of_dom, Hm', elem_of_list_to_set, elem_of_seqZ.
    destruct (decide (1 <= r <= rounds)); split; intros H; try lia; [by eexists | by destruct H]. }
  rewrite size_list_to_set by apply NoDup_seqZ. rewrite length_seqZ. lia.
Qed.

Lemma is_ready_add (b : Buffer) r x :
  RoundBuffer.is_ready (RoundBuffer.add_message b r x) r = true <->
  RoundBuffer.expected b !! r = Some (len (held b r ++ [x])).
Proof.
  unfold RoundBuffer.is_ready, RoundBuffer.add_message, held. cbn.
  rewrite lookup_insert_eq. destruct (RoundBuffer.expected b !! r) as [n|]; [|done].
  rewrite bool_decide_eq_true. split; [by intros -> | by intros [= ->]].
Qed.

(** One message: other rounds are untouched; its round is handed out exactly
    when it reaches the expected number. *)
Lemma deliver_spec b r x :
  let (b', out) := deliver b r x in
  RoundBuffer.expected b' = RoundBuffer.expected b /\
  (forall r', r' <> r -> held b' r' = held b r' /\ of_round r' out = []) /\
  if decide (RoundBuffer.expected b !! r = Some (len (held b r ++ [x])))
  then held b' r = [] /\ out = [(r, held b r ++ [x])]
  else held b' r = held b r ++ [x] /\ out = [].
Proof.
  unfold deliver. pose proof (is_ready_add b r x) as Hr.
  assert (RoundBuffer.messages (RoundBuffer.add_message b r x) !! r = Some (held b r ++ [x])) as Hl
    by (cbn; by rewrite lookup_insert_eq).
  destruct (RoundBuffer.is_ready _ _).
  - unfold RoundBuffer.take. rewrite Hl. rewrite decide_True by by apply Hr.
    split_and!; [done | | | done].
    + intros r' Hne. split; [|by rewrite of_round_ne].
      unfold held. cbn. by rewrite lookup_delete_ne, lookup_insert_ne by done.
    + unfold held. cbn. by rewrite lookup_delete_eq.
  - rewrite decide_False by (intros H; by apply Hr in H). split_and!; [done | | | done].
    + intros r' Hne. unfold held. cbn. by rewrite lookup_insert_ne by done.
    + unfold held at 1. by rewrite Hl.
Qed.

(** A buffer made for [rounds] rounds of [n] messages. *)
Definition fixed (rounds n : Z) (b : Buffer) : Prop :=
  forall r, RoundBuffer.expected b !! r = if decide (1 <= r <= rounds) then Some n else None.

(** A run from a buffer that holds no complete round. *)
Lemma deliver_all_groups (rounds n : Z) (l : list (Z * I)) (b0 : Buffer) :
  fixed rounds n b0 -> (forall r, 1 <= r <= rounds -> 0 < n -> len (held b0 r) < n) ->
  let (b', out) := deliver_all b0 l in
  forall r, concat (of_round r out) ++ held b' r = held b0 r ++ of_round r l /\
    (1 <= r <= rounds -> 0 < n ->
      Forall (fun batch => len batch = n) (of_round r out) /\ len (held b' r) < n) /\
    (~ (1 <= r <= rounds) \/ n = 0 -> of_round r out = []).
Proof.
  unfold fixed. revert b0.
  induction l as [|[r0 x] l IH]; intros b0 Hexp Hh0; cbn [deliver_all].
    - intros r. cbn. split_and!; [by rewrite app_nil_r | | done]. intros ? ?.
      split; [constructor | by apply Hh0].
    - pose proof (deliver_spec b0 r0 x) as Hd. destruct (deliver b0 r0 x) as [b1 out1].
      destruct Hd as (He1 & Hother & Hself).
      rewrite Hexp in Hself.
      specialize (IH b1 ltac:(by rewrite He1)).
      assert (forall r, 1 <= r <= rounds -> 0 < n -> len (held b1 r) < n) as Hh1.
      { intros r Hrr Hn0. specialize (Hh0 r Hrr Hn0). destruct (decide (r = r0)) as [->|Hne].
        - rewrite (decide_True (P := 1 <= r0 <= rounds)) in Hself by done. rewrite len_app in Hself.
          unfold len at 2 in Hself. cbn in Hself.
          destruct (decide _) as [Hd|Hd]; destruct Hself as [-> _]; [by cbn |].
          rewrite len_app. unfold len at 2. cbn.
          assert (n <> len (held b0 r0) + 1) by (intros He; apply Hd; by f_equal). lia.
        - by rewrite (proj1 (Hother r Hne)). }
      specialize (IH Hh1). destruct (deliver_all b1 l) as [b' out]. intros r.
      rewrite of_round_app. destruct (IH r) as (IH1 & IH2 & IH3). rewrite concat_app, <- app_assoc, IH1.
      destruct (decide (r = r0)) as [->|Hne].
      + rewrite of_round_eq. destruct (decide (_ = Some (len (held b0 r0 ++ [x])))) as [Hd|Hd].
        * destruct Hself as [-> ->]. rewrite (of_round_eq r0). cbn [of_round filter fmap concat].
          destruct (decide (1 <= r0 <= rounds)) as [Hrr|Hrr]; [|done]. injection Hd as Hd.
          pose proof (len_nonneg (held b0 r0)). rewrite len_app in Hd. unfold len at 2 in Hd. cbn in Hd.
          split_and!.
          -- cbn. by rewrite app_nil_r, <- !app_assoc.
          -- intros ? Hn0. split; [|by apply IH2]. constructor; [|by apply IH2].
             rewrite len_app. unfold len at 2. cbn. lia.
          -- intros [?|?]; [done | lia].
        * destruct Hself as [-> ->]. cbn. split_and!; [by rewrite <- app_assoc | done | done].
      + destruct (Hother r Hne) as [-> ->]. rewrite of_round_ne by done. cbn. by split_and!.
Qed.

(** C32. The round buffer groups messages whatever order rounds arrive in.
    From a new buffer for [rounds] rounds of [n] messages each, any
    interleaving of messages is handed out so that for every round nothing is
    lost, duplicated or reordered: the groups handed out for it, followed by
    what is held, are its messages in order of arrival.  For a round the
    buffer was made for, with [n] positive, every group has exactly [n]
    messages and fewer than [n] are held; any other round is never handed out,
    and when [n] is zero no round is. *)
Theorem round_buffer_groups (E : Type) (rounds n : Z) (l : list (Z * I)) :
  is_u16 rounds -> is_u16 n ->
  exists b, RoundBuffer.new_fixed (I := I) (E := E) rounds n = Ok b /\ RoundBuffer.len b = rounds /\
    let (b', out) := deliver_all b l in
    forall r, concat (of_round r out) ++ held b' r = of_round r l /\
      (1 <= r <= rounds -> 0 < n ->
        Forall (fun batch => len batch = n) (of_round r out) /\ len (held b' r) < n) /\
      (~ (1 <= r <= rounds) \/ n = 0 -> of_round r out = []).
Proof.
  intros Hr Hn. destruct (new_fixed_spec (E := E) rounds n Hr) as (b & Hb & Hm & Hlen & Hexp).
  exists b. split_and!; [done.. |].
  assert (forall r, held b r = []) as Hnil by (intros r; unfold held; by rewrite Hm, lookup_empty).
  pose proof (deliver_all_groups rounds n l b Hexp ltac:(intros r _ ?; by rewrite Hnil)) as H.
  destruct (deliver_all b l) as [b' out]. intros r. specialize (H r). by rewrite Hnil in H.
Qed.
End buffer.

(** Two rounds of two messages, the second round's first message early. *)
Lemma round_buffer_groups_witness : exists b,
  RoundBuffer.new_fixed (E := string) 2 2 = Ok b /\
  (deliver_all b [(1, 10); (2, 20); (1, 11); (2, 21)]).2 = [(1, [10; 11]); (2, [20; 21])] /\
  held (deliver_all b [(1, 10); (2, 20); (1, 11); (2, 21)]).1 1 = [].
Proof.
  destruct (round_buffer_groups string 2 2 [(1, 10); (2, 20); (1, 11); (2, 21)]) as (b & Hb & _ & H);
    [by vm_compute | by vm_compute |].
  exists b. split; [done |].
  assert (exists b0, RoundBuffer.new_fixed (I := Z) (E := string) 2 2 = Ok b0 /\
    (deliver_all b0 [(1, 10); (2, 20); (1, 11); (2, 21)]).2 = [(1, [10; 11]); (2, [20; 21])])
    as (b0 & Hb0 & Hout) by (eexists; split; reflexivity).
  rewrite Hb in Hb0. injection Hb0 as <-.
  destruct (deliver_all b _) as [b' out]. cbn [fst snd] in *. subst out. split; [done |].
  destruct (H 1) as (H1 & _). by apply (app_inv_head [10; 11]) in H1.
Defined.
