(* ===== verification/DriverFacts.v ===== *)
(** * Facts about the bridge

    What it does with one event, and the reference execution of a protocol
    that is given the messages of its rounds one round after the other. *)

From S2P Require Import Prelude Types Sessions Net Client Transport Round RoundSpec Driver.

Section facts.
Context {T : Type} {NT : NetworkTransport T} {D : Type} {PD : ProtocolDriver D}.

(** ** One event *)

Lemma set_driver_same (b : Bridge T D) d : driver b = Some d -> set_driver (Some d) b = b.
Proof. destruct b. by cbn; intros ->. Qed.

(** Handing a batch to the driver of a bridge. *)
Lemma on_driver_for {A} (l : list A) (f : A -> SM D (PError D) unit) (b : Bridge T D) d :
  driver b = Some d ->
  sm_for l (fun x => on_driver (f x)) b =
  let '(d', r) := sm_for l f d in (set_driver (Some d') b, r).
Proof.
  revert b d. induction l as [|x l IH]; intros b d Hd; cbn [sm_for].
  - cbn. by rewrite (set_driver_same b d).
  - unfold mbind at 1 2, SM_bind at 1 2, on_driver at 1. rewrite Hd.
    destruct (f x d) as [d1 [u| |]]; [|done..]. rewrite (IH _ d1) by done.
    by destruct (sm_for l f d1).
Qed.

(** The buffer decides between waiting for more and processing a round. *)
Lemma handle_round_message_deliver (m : Outgoing D) (b : Bridge T D) :
  handle_round_message m b =
  match deliver (buffer b) (round_number m) (into_incoming m) with
  | (r, []) => (set_buffer r b, Ok None)
  | (r, (_, batch) :: _) => process_round (round_number m) batch (set_buffer r b)
  end.
Proof.
  unfold handle_round_message, mbind at 1, SM_bind at 1, deliver.
  destruct (RoundBuffer.is_ready _ _); [|done].
  unfold mbind at 1, SM_bind at 1. cbn [buffer set_buffer].
  by destruct (RoundBuffer.take _ _) as [r batch].
Qed.

(** A JSON message of the session that deserializes is a round message. *)
Lemma bridge_json k msg id m (b : Bridge T D) :
  id = session_id (session b) -> deserialize (A := Outgoing D) msg = Ok m ->
  bridge_handle_event (Event.JsonMessage k msg (Some id)) b = handle_round_message m b.
Proof.
  intros -> Hm. cbn [bridge_handle_event]. unfold mbind at 1, SM_bind at 1, check_session_id.
  rewrite bool_decide_false by (intros H; by apply H). unfold mbind, SM_bind, sm_lift. by rewrite Hm.
Qed.

(** ** The buffer *)

(** Computations that leave the buffer alone. *)
Definition keeps_buffer {A} (m : SM (Bridge T D) (PError D) A) : Prop := forall b, buffer (m b).1 = buffer b.

Lemma keeps_buffer_bind {A B} (m : SM (Bridge T D) (PError D) A) (k : A -> SM (Bridge T D) (PError D) B) :
  keeps_buffer m -> (forall a, keeps_buffer (k a)) -> keeps_buffer (m ≫= k).
Proof.
  intros Hm Hk b. unfold mbind, SM_bind. specialize (Hm b). destruct (m b) as [b1 [a|e|]]; [|done..].
  cbn [fst] in Hm. rewrite <- Hm. apply Hk.
Qed.

Lemma keeps_buffer_for {A} (l : list A) (f : A -> SM (Bridge T D) (PError D) unit) :
  (forall a, keeps_buffer (f a)) -> keeps_buffer (sm_for l f).
Proof.
  intros Hf. induction l as [|a l IH]; [done |]. cbn [sm_for]. by apply keeps_buffer_bind.
Qed.

Lemma keeps_buffer_driver {A} (m : SM D (PError D) A) : keeps_buffer (on_driver m).
Proof. intros b. unfold on_driver. destruct (driver b) as [d|]; [|done]. by destruct (m d). Qed.

Lemma keeps_buffer_finish : keeps_buffer (take_finish (T := T) (D := D)).
Proof. intros b. unfold take_finish. by destruct (driver b). Qed.

Lemma keeps_buffer_transport {A} (m : SM T ClientError.t A) : keeps_buffer (on_transport m).
Proof. intros b. unfold on_transport. by destruct (m (transport b)). Qed.

Lemma keeps_buffer_send (x : Outgoing D) : keeps_buffer (send_to_peer (T := T) x).
Proof.
  intros b. unfold send_to_peer, mbind, SM_bind, sm_lift. destruct (unwrap (round_receiver x)); [|done..].
  destruct (unwrap (SessionStates.peer_key _ _)); [|done..]. apply keeps_buffer_transport.
Qed.

Lemma keeps_buffer_dispatch (l : list (Outgoing D)) : keeps_buffer (dispatch_round_messages (T := T) l).
Proof.
  intros b. destruct l as [|x [|y l]]; [done | |].
  - cbn [dispatch_round_messages]. destruct (is_broadcast x);
      [apply keeps_buffer_transport | apply keeps_buffer_send].
  - apply (keeps_buffer_for (x :: y :: l)). apply keeps_buffer_send.
Qed.

Lemma keeps_buffer_round r batch : keeps_buffer (process_round (T := T) (D := D) r batch).
Proof.
  apply keeps_buffer_bind; [apply keeps_buffer_for; intros; apply keeps_buffer_driver | intros _].
  apply keeps_buffer_bind; [done | intros n].
  assert (keeps_buffer (result ← take_finish (T := T) (D := D); mret (Some result))) as Hf
    by (apply keeps_buffer_bind; [apply keeps_buffer_finish | done]).
  case_bool_decide; [done |]. apply keeps_buffer_bind; [|intros _; by case_bool_decide].
  apply keeps_buffer_bind; [apply keeps_buffer_driver | apply keeps_buffer_dispatch].
Qed.

(** What an event does to the messages held for a round the protocol does not
    have. *)
Lemma event_keeps_foreign event (b : Bridge T D) r : RoundBuffer.expected (buffer b) !! r = None ->
  let b' := (bridge_handle_event event b).1 in
  RoundBuffer.expected (buffer b') !! r = None /\ held (buffer b) r `prefix_of` held (buffer b') r.
Proof.
  intros Hr. assert (RoundBuffer.expected (buffer b) !! r = None /\ held (buffer b) r `prefix_of` held (buffer b) r)
    as Hsame by (split; [done | reflexivity]).
  set (K := fun b1 : Bridge T D => RoundBuffer.expected (buffer b1) !! r = None /\
    held (buffer b) r `prefix_of` held (buffer b1) r). change (K (bridge_handle_event event b).1).
  destruct event as [| | |k message [id|]| | | | | | | |]; try exact Hsame; cbn [bridge_handle_event].
  unfold mbind at 1, SM_bind at 1, check_session_id. case_bool_decide; [exact Hsame |]. unfold mbind, SM_bind, sm_lift.
  destruct (map_err perror_client (deserialize message)) as [x|e|]; [|exact Hsame..].
  rewrite handle_round_message_deliver. pose proof (deliver_spec (buffer b) (round_number x) (into_incoming x)) as Hd.
  destruct (deliver (buffer b) (round_number x) (into_incoming x)) as [buf out]. destruct Hd as (Hexp & Hne & Hself).
  assert (RoundBuffer.expected buf !! r = None /\ held (buffer b) r `prefix_of` held buf r) as Hbuf.
  { split; [by rewrite Hexp |]. destruct (decide (r = round_number x)) as [->|Hrx].
    - rewrite Hr in Hself. destruct Hself as [-> _]. by apply prefix_app_r.
    - by rewrite (proj1 (Hne r Hrx)). }
  destruct out as [|[r' batch] out]; [exact Hbuf |]. unfold K. by rewrite (keeps_buffer_round _ _ (set_buffer buf b)).
Qed.

(** The bridge after several events, whatever comes of them. *)
Definition after_events (events : list Event.t) (b : Bridge T D) : Bridge T D :=
  foldl (fun b event => (bridge_handle_event event b).1) b events.

Lemma events_keep_foreign events (b : Bridge T D) r : RoundBuffer.expected (buffer b) !! r = None ->
  held (buffer b) r `prefix_of` held (buffer (after_events events b)) r.
Proof.
  revert b. induction events as [|event events IH]; intros b Hr; [done |].
  destruct (event_keeps_foreign event b r Hr) as [Hr' Hp]. etransitivity; [exact Hp |]. by apply IH.
Qed.

(** ** The reference execution *)

(** The rounds from the next one on: each batch is handed over, and the driver
    proceeds, except that a protocol of a [single] round does not proceed
    after it.  Returns the output with the messages of every [proceed]. *)
Fixpoint run_rounds (single : bool) (batches : list (list (Incoming D))) (d : D) :
    Res (PError D) (Output D * list (list (Outgoing D))) :=
  match batches with
  | [] => output ← finish d; mret (output, [])
  | batch :: rest =>
      match sm_for batch handle_incoming d with
      | (d, Ok _) =>
          if single then run_rounds single rest d
          else match proceed d with
               | (d, Ok sent) =>
                   '(output, all) ← run_rounds single rest d; mret (output, sent :: all)
               | (_, Err e) => Err e
               | (_, Panic) => Panic
               end
      | (_, Err e) => Err e
      | (_, Panic) => Panic
      end
  end.

Definition run_protocol (batches : list (list (Incoming D))) (d : D) :
    Res (PError D) (Output D * list (list (Outgoing D))) :=
  match proceed d with
  | (d, Ok sent) =>
      '(output, all) ← run_rounds (bool_decide (len batches = 1)) batches d;
      mret (output, sent :: all)
  | (_, Err e) => Err e
  | (_, Panic) => Panic
  end.

(** ** The network *)

(** Messages the bridge of a session can send, on a transport that satisfies
    [I], which then still holds. *)
Definition dispatchable (I : T -> Prop) (s : SessionState) (messages : list (Outgoing D)) : Prop :=
  forall b : Bridge T D, session b = s -> I (transport b) -> exists t,
    dispatch_round_messages messages b = (set_transport t b, Ok tt) /\ I t.

(** A stream that brings messages: the round messages among its items, with
    the key each came from; the other events are not for the bridge, and the
    event loop preserves [I]. *)
Inductive brings (I : T -> Prop) (id : Uuid) : list (Item T) -> list (bytes * Outgoing D) -> Prop :=
| brings_nil : brings I id [] []
| brings_other item event stream l :
    next item = Ok event -> (forall k m s, event <> Event.JsonMessage k m s) ->
    (forall t, I t -> I (turn item t)) ->
    brings I id stream l -> brings I id (item :: stream) l
| brings_message item k msg m stream l :
    next item = Ok (Event.JsonMessage k msg (Some id)) -> deserialize msg = Ok m ->
    (forall t, I t -> I (turn item t)) ->
    brings I id stream l -> brings I id (item :: stream) ((k, m) :: l).

(** The messages of a round in order of arrival, and the rounds of the
    messages from one source in order of arrival. *)
Definition batch_of (l : list (bytes * Outgoing D)) (r : Z) : list (Incoming D) :=
  into_incoming <$> filter (fun m => round_number m = r) l.*2.
Definition rounds_from (k : bytes) (l : list (bytes * Outgoing D)) : list Z :=
  round_number <$> (filter (fun x => x.1 = k) l).*2.

(** Every source, and no other, sends one message in each of the rounds, in
    the order of the rounds. *)
Definition complete_arrivals (rounds : Z) (others : list bytes) (l : list (bytes * Outgoing D)) : Prop :=
  Forall (fun x => x.1 ∈ others) l /\ forall k, k ∈ others -> rounds_from k l = seqZ 1 rounds.

Lemma batch_of_cons k m l r :
  batch_of ((k, m) :: l) r =
  (if decide (round_number m = r) then [into_incoming m] else []) ++ batch_of l r.
Proof.
  unfold batch_of. cbn [fmap list_fmap]. destruct (decide (round_number m = r)).
  - by rewrite filter_cons_True.
  - by rewrite filter_cons_False.
Qed.

Lemma rounds_from_cons k k' m l :
  rounds_from k ((k', m) :: l) =
  (if decide (k' = k) then [round_number m] else []) ++ rounds_from k l.
Proof.
  unfold rounds_from. destruct (decide (k' = k)).
  - by rewrite filter_cons_True.
  - by rewrite filter_cons_False.
Qed.

Lemma length_filter_split {A} (P : A -> Prop) `{!forall x, Decision (P x)} (l : list A) :
  length l = (length (filter P l) + length (filter (fun x => ~ P x) l))%nat.
Proof.
  induction l as [|x l IH]; [done |]. rewrite !filter_cons. cbn [length]. rewrite IH.
  repeat destruct (decide _); cbn; try done; lia.
Qed.

(** In a single round every source sends one message. *)
Lemma arrivals_length others l : NoDup others -> complete_arrivals 1 others l -> length l = length others.
Proof.
  intros Hnd [Hl Hr].
  assert (forall k, k ∈ others -> length (filter (fun x => x.1 = k) l) = 1%nat) as Hone.
  { intros k Hk. specialize (Hr k Hk). apply (f_equal length) in Hr. unfold rounds_from in Hr.
    by rewrite !length_fmap in Hr. }
  clear Hr. revert l Hl Hone. induction Hnd as [|k others Hk Hnd IH]; intros l Hl Hone.
  { destruct l as [|x l]; [done |]. apply list.Forall_cons in Hl as [Hx _]. by apply elem_of_nil in Hx. }
  rewrite (length_filter_split (fun x => x.1 = k)), Hone by by left. cbn [length plus]. f_equal. apply IH.
  - rewrite list.Forall_forall in Hl |- *. intros x [Hne Hx]%list_elem_of_filter.
    specialize (Hl x Hx). by apply elem_of_cons in Hl as [?|?].
  - intros k' Hk'. rewrite <- (Hone k') by by right. f_equal. rewrite list_filter_filter_l; [done |].
    cbn. congruence.
Qed.

(** ** Progress of the sources *)

(** How many sources have sent their message of a round, when each has sent
    those of its first [m k] rounds. *)
Definition count (others : list bytes) (m : bytes -> Z) (r : Z) : Z :=
  len (filter (fun k => r <= m k) others).

Definition advance (m : bytes -> Z) (k : bytes) : bytes -> Z :=
  fun k' => if decide (k' = k) then m k + 1 else m k'.

Lemma advance_eq m k : advance m k k = m k + 1.
Proof. unfold advance. by destruct (decide (k = k)). Qed.

Lemma advance_ne m k k' : k' <> k -> advance m k k' = m k'.
Proof. intros H. unfold advance. by destruct (decide (k' = k)). Qed.

Lemma count_cons k others m r :
  count (k :: others) m r = (if decide (r <= m k) then 1 else 0) + count others m r.
Proof.
  unfold count. rewrite filter_cons. destruct (decide (r <= m k)); [by rewrite len_cons; lia | done].
Qed.

Lemma count_bound others m r : 0 <= count others m r <= len others.
Proof.
  induction others as [|k others IH]; [done |]. rewrite count_cons, len_cons.
  destruct (decide _); lia.
Qed.

Lemma count_full others m r : count others m r = len others <-> forall k, k ∈ others -> r <= m k.
Proof.
  induction others as [|k others IH]; [split; [by intros _ k ?%elem_of_nil | done] |].
  rewrite count_cons, len_cons. pose proof (count_bound others m r). setoid_rewrite elem_of_cons.
  destruct (decide (r <= m k)) as [Hk|Hk].
  - split.
    + intros H1 k' [->|Hk']; [done |]. apply IH; [lia | done].
    + intros H1. assert (count others m r = len others) by (apply IH; auto). lia.
  - split; [lia |]. intros H1. by specialize (H1 k ltac:(by left)).
Qed.

Lemma count_advance_other others m k r : k ∉ others ->
  count others (advance m k) r = count others m r.
Proof.
  induction others as [|k' others IH]; [done |]. intros [Hne Hk]%not_elem_of_cons.
  by rewrite !count_cons, IH, advance_ne by done.
Qed.

Lemma count_advance others m k r : NoDup others -> k ∈ others ->
  count others (advance m k) r = count others m r + (if decide (r = m k + 1) then 1 else 0).
Proof.
  intros Hnd Hk. induction Hnd as [|k' others Hk' Hnd IH]; [by apply not_elem_of_nil in Hk |].
  rewrite !count_cons. destruct (decide (k' = k)) as [->|Hne].
  - rewrite count_advance_other, advance_eq by done.
    repeat destruct (decide _); lia.
  - apply elem_of_cons in Hk as [?|Hk]; [congruence |]. rewrite IH, advance_ne by done. lia.
Qed.
End facts.
