(* ===== verification/DriverRun.v ===== *)
(** * The bridge's run of a protocol

    A bridge that waits for its driver, step by step: what a complete round
    does, what it holds in between, and that on a stream which brings every
    message of the protocol it ends with the protocol's output. *)

From S2P Require Import Prelude Types Sessions Net Client Transport Round RoundSpec Driver DriverFacts.

Section run.
Context {T : Type} {NT : NetworkTransport T} {D : Type} {PD : ProtocolDriver D}.

Lemma process_round_single (b : Bridge T D) d d1 r batch output :
  driver b = Some d -> sm_for batch handle_incoming d = (d1, Ok tt) ->
  RoundBuffer.len (buffer b) = 1 -> finish d1 = Ok output ->
  process_round r batch b = (set_driver None b, Ok (Some output)).
Proof.
  intros Hd Hb Hl Hf. unfold process_round, mbind, SM_bind.
  rewrite (on_driver_for _ _ b d Hd), Hb. cbn [sm_gets buffer set_driver].
  rewrite Hl, bool_decide_true by done. unfold take_finish. cbn [driver set_driver]. by rewrite Hf.
Qed.

Lemma process_round_several (b b' : Bridge T D) d d1 d2 r batch sent :
  driver b = Some d -> sm_for batch handle_incoming d = (d1, Ok tt) ->
  RoundBuffer.len (buffer b) <> 1 -> proceed d1 = (d2, Ok sent) ->
  dispatch_round_messages sent (set_driver (Some d2) b) = (b', Ok tt) ->
  process_round r batch b =
    if bool_decide (r = RoundBuffer.len (buffer b))
    then (output ← take_finish; mret (Some output)) b' else (b', Ok None).
Proof.
  intros Hd Hb Hl Hp Hdis. unfold process_round. unfold mbind at 1, SM_bind at 1.
  rewrite (on_driver_for _ _ b d Hd), Hb. unfold mbind at 1, SM_bind at 1.
  cbn [sm_gets buffer set_driver]. rewrite bool_decide_false by done.
  unfold mbind at 1, SM_bind at 1, proceed_and_dispatch, mbind at 1, SM_bind at 1, on_driver.
  cbn [driver set_driver]. rewrite Hp.
  change (set_driver (Some d2) (set_driver (Some d1) b)) with (set_driver (Some d2) b).
  rewrite Hdis. by case_bool_decide.
Qed.

(** Processing a round is a step of the reference execution. *)
Lemma process_round_step (I : T -> Prop) (b : Bridge T D) d rounds r batch rest output all :
  driver b = Some d -> I (transport b) -> RoundBuffer.len (buffer b) = rounds ->
  run_rounds (bool_decide (rounds = 1)) (batch :: rest) d = Ok (output, all) ->
  Forall (dispatchable I (session b)) all ->
  (rest = [] <-> r = rounds) -> (rounds = 1 -> rest = []) ->
  (rest = [] -> exists b', process_round r batch b = (b', Ok (Some output)) /\ I (transport b')) /\
  (rest <> [] -> exists d' t all', I t /\
    process_round r batch b = (set_transport t (set_driver (Some d') b), Ok None) /\
    run_rounds (bool_decide (rounds = 1)) rest d' = Ok (output, all') /\
    Forall (dispatchable I (session b)) all').
Proof.
  intros Hd HI Hlen Hrun Hall Hlast Hone. cbn [run_rounds] in Hrun.
  destruct (sm_for batch handle_incoming d) as [d1 [[]| |]] eqn:Hb; [|done..].
  case_bool_decide as H1.
  - rewrite (Hone H1) in *. split; [intros _ | done]. cbn in Hrun.
    destruct (finish d1) as [o| |] eqn:Hf; cbn in Hrun; [|done..].
    injection Hrun as <- <-. exists (set_driver None b). split; [|exact HI].
    apply (process_round_single b d d1); [done.. | congruence | done].
  - destruct (proceed d1) as [d2 [sent| |]] eqn:Hp; [|done..].
    unfold mbind, Res_bind in Hrun.
    destruct (run_rounds false rest d2) as [[o all']| |] eqn:Hrest; [|done..].
    injection Hrun as <- <-.
    apply list.Forall_cons in Hall as [Hsent Hall].
    destruct (Hsent (set_driver (Some d2) b)) as (t & Hdis & Ht); [done..|].
    rewrite (process_round_several b _ d d1 d2 r batch sent) by (done || congruence).
    rewrite Hlen. split.
    + intros ->. rewrite bool_decide_true by by apply Hlast. cbn in Hrest.
      destruct (finish d2) as [o'| |] eqn:Hf; cbn in Hrest; [|done..].
      injection Hrest as <- <-.
      unfold mbind, SM_bind, take_finish. cbn [driver set_driver set_transport]. rewrite Hf.
      eexists. split; [reflexivity | done].
    + intros Hne. rewrite bool_decide_false by (intros Hr; by apply Hne, Hlast).
      by exists d2, t, all'.
Qed.

(** The state of a bridge between two items of its stream: [m k] rounds have
    come from source [k], and [j] rounds were processed. *)
Record waiting (I : T -> Prop) (s : SessionState) (rounds : Z) (others : list bytes)
    (m : bytes -> Z) (j : Z) (d : D) (b : Bridge T D) : Prop := {
  waiting_transport : I (transport b);
  waiting_session : session b = s;
  waiting_driver : driver b = Some d;
  waiting_len : RoundBuffer.len (buffer b) = rounds;
  waiting_fixed : fixed rounds (len others) (buffer b);
  waiting_held : forall r, j < r <= rounds -> len (held (buffer b) r) = count others m r;
  waiting_progress : forall k, k ∈ others -> j <= m k;
  waiting_behind : exists k, k ∈ others /\ m k = j;
  waiting_nonneg : 0 <= j;
}.

(** Adding a message either completes exactly the next round, or leaves the
    bridge waiting. *)
Lemma waiting_deliver I s rounds others m j d (b : Bridge T D) k x :
  waiting I s rounds others m j d b -> NoDup others -> k ∈ others -> m k < rounds ->
  let (buf, out) := deliver (buffer b) (m k + 1) x in
  let held' r := held (buffer b) r ++ (if decide (r = m k + 1) then [x] else []) in
  (out = [(j + 1, held' (j + 1))] /\ m k = j /\
    (forall k', k' ∈ others -> j + 1 <= advance m k k') /\
    fixed rounds (len others) buf /\ RoundBuffer.len buf = rounds /\
    (forall r, j + 1 < r <= rounds -> held buf r = held' r)) \/
  (out = [] /\ waiting I s rounds others (advance m k) j d (set_buffer buf b) /\
    (forall r, j < r <= rounds -> held buf r = held' r)).
Proof.
  intros [HI Hs Hd Hlen Hfix Hheld Hprog (k0 & Hk0 & Hm0) Hj] Hnd Hk Hmk.
  pose proof (Hprog k Hk) as Hjk. pose proof (deliver_spec (buffer b) (m k + 1) x) as Hdel.
  destruct (deliver (buffer b) (m k + 1) x) as [buf out]. destruct Hdel as (Hexp & Hother & Hself).
  rewrite Hfix, (decide_True (P := 1 <= m k + 1 <= rounds)) in Hself by lia.
  assert (len (held (buffer b) (m k + 1) ++ [x]) = count others m (m k + 1) + 1) as Hl
    by (rewrite len_app, Hheld by lia; done).
  rewrite Hl in Hself.
  pose proof (count_advance others m k (m k + 1) Hnd Hk) as Hcount.
  rewrite decide_True in Hcount by done. rewrite <- Hcount in Hself.
  assert (fixed rounds (len others) buf) as Hfix' by (unfold fixed; by rewrite Hexp).
  assert (RoundBuffer.len buf = rounds) as Hlen'
    by (unfold RoundBuffer.len in *; by rewrite Hexp).
  assert (forall r, r <> m k + 1 -> held buf r = held (buffer b) r ++ []) as Hsame.
  { intros r Hr. rewrite app_nil_r. by apply Hother. }
  destruct (decide _) as [Hfull|Hfull].
  - left. injection Hfull as Hfull. symmetry in Hfull. apply count_full with (1 := Hfull) in Hk0 as Hk0'.
    assert (m k = j) as Hmj.
    { destruct (decide (k0 = k)) as [->|Hne]; [done |]. rewrite advance_ne in Hk0' by done. lia. }
    destruct Hself as [Hh ->]. rewrite Hmj in *. split_and!; try done.
    + by rewrite decide_True.
    + intros k' Hk'. by apply count_full with (1 := Hfull).
    + intros r Hr. rewrite decide_False by lia. apply Hsame. lia.
  - right. destruct Hself as [Hh ->].
    assert (forall r, j < r <= rounds ->
      held buf r = held (buffer b) r ++ (if decide (r = m k + 1) then [x] else [])) as Hheld'.
    { intros r Hr. destruct (decide (r = m k + 1)) as [->|Hne]; [done | by apply Hsame]. }
    split_and!; [done | | done]. constructor; try done.
    + intros r Hr. cbn [buffer set_buffer]. rewrite Hheld' by done.
      rewrite len_app, Hheld, count_advance by done. by destruct (decide _).
    + intros k' Hk'. pose proof (Hprog k' Hk').
      destruct (decide (k' = k)) as [->|Hne]; [rewrite advance_eq | rewrite advance_ne by done]; lia.
    + destruct (decide (k0 = k)) as [->|Hne]; [|exists k0; by rewrite advance_ne].
      assert (~ Forall (fun k' => m k + 1 <= advance m k k') others) as Hnot.
      { intros Hall. apply Hfull. f_equal. symmetry. apply count_full. by apply list.Forall_forall. }
      apply not_Forall_Exists in Hnot; [|intros ?; apply _].
      apply list.Exists_exists in Hnot as (k1 & Hk1 & Hlt). exists k1. split; [done |].
      pose proof (Hprog k1 Hk1). cbn in Hlt.
      destruct (decide (k1 = k)) as [->|Hne]; [rewrite advance_eq in * | rewrite advance_ne in * by done];
        lia.
Qed.

(** The messages still to come, when source [k] has sent [m k] rounds. *)
Definition to_come (rounds : Z) (others : list bytes) (m : bytes -> Z) (l : list (bytes * Outgoing D)) : Prop :=
  Forall (fun x => x.1 ∈ others) l /\
  forall k, k ∈ others -> m k <= rounds /\ rounds_from k l = seqZ (m k + 1) (rounds - m k).

Lemma to_come_cons rounds others m k msg l : to_come rounds others m ((k, msg) :: l) ->
  k ∈ others /\ m k < rounds /\ round_number msg = m k + 1 /\ to_come rounds others (advance m k) l.
Proof.
  intros [[Hk Hl]%list.Forall_cons Hrounds]. cbn in Hk.
  destruct (Hrounds k Hk) as [Hm Hr]. rewrite rounds_from_cons, decide_True in Hr by done.
  assert (m k < rounds) as Hlt.
  { destruct (decide (m k = rounds)) as [He|]; [|lia]. rewrite He, Z.sub_diag in Hr. done. }
  rewrite seqZ_cons in Hr by lia. cbn in Hr. injection Hr as Hr Hrest.
  split_and!; [done.. |]. split; [done |]. intros k' Hk'. destruct (decide (k' = k)) as [->|Hne].
  - rewrite advance_eq. split; [lia |]. rewrite Hrest. f_equal; lia.
  - rewrite advance_ne by done. destruct (Hrounds k' Hk') as [? Hr'].
    by rewrite rounds_from_cons, decide_False in Hr' by congruence.
Qed.

(** No message of a round that every source has passed. *)
Lemma to_come_passed rounds others m l r : to_come rounds others m l ->
  (forall k, k ∈ others -> r <= m k) -> batch_of l r = [].
Proof.
  intros [Hl Hrounds] Hr. unfold batch_of.
  assert (filter (fun x => round_number x = r) l.*2 = []) as ->; [|done].
  destruct (filter _ l.*2) as [|x rest] eqn:E; [done | exfalso].
  assert (x ∈ filter (fun x => round_number x = r) l.*2) as Hx by (rewrite E; by left).
  apply list_elem_of_filter in Hx as [Hxr Hx]. apply list_elem_of_fmap in Hx as ([k y] & Hy & Hin).
  cbn in Hy. subst y. pose proof (proj1 (list.Forall_forall _ _) Hl _ Hin) as Hk. cbn in Hk.
  destruct (Hrounds k Hk) as [_ Heq].
  assert (round_number x ∈ rounds_from k l) as Hrk.
  { unfold rounds_from. apply list_elem_of_fmap. exists x. split; [done |]. apply list_elem_of_fmap.
    exists (k, x). split; [done |]. by apply list_elem_of_filter. }
  rewrite Heq, elem_of_seqZ in Hrk. specialize (Hr k Hk). lia.
Qed.

(** Nothing is to come once every source has sent its last round. *)
Lemma to_come_done rounds others m l : to_come rounds others m l ->
  (forall k, k ∈ others -> rounds <= m k) -> l = [].
Proof.
  intros [Hl Hr] Hm. destruct l as [|[k x] l]; [done | exfalso].
  apply list.Forall_cons in Hl as [Hk _]. cbn in Hk. destruct (Hr k Hk) as [_ He].
  rewrite rounds_from_cons, decide_True in He by done. rewrite seqZ_nil in He; [done |].
  specialize (Hm k Hk). lia.
Qed.

(** A bridge that is waiting runs to the end of the protocol, and leaves what
    follows on the stream. *)
Lemma wait_completes (I : T -> Prop) s rounds others f output stream l tail :
  brings I (session_id s) stream l -> NoDup others -> forall m j d (b : Bridge T D) all,
  waiting I s rounds others m j d b -> j < rounds -> to_come rounds others m l ->
  (forall r, j < r <= rounds -> f r = held (buffer b) r ++ batch_of l r) ->
  run_rounds (bool_decide (rounds = 1)) (f <$> seqZ (j + 1) (rounds - j)) d = Ok (output, all) ->
  Forall (dispatchable I s) all ->
  exists rest b', wait_loop (stream ++ tail) b = Ok (rest ++ tail, b', output) /\
    brings I (session_id s) rest [] /\ I (transport b').
Proof.
  intros Hbr Hnd. induction Hbr as [|item event stream l Hn Hev Ht Hbr IH
    |item k msg x stream l Hn Hd Ht Hbr IH]; intros m j d b all Hw Hjr Hl Hf Hrun Hall.
  - destruct (waiting_behind _ _ _ _ _ _ _ _ Hw) as (k & Hk & Hm).
    destruct (proj2 Hl k Hk) as [_ Hr]. rewrite seqZ_cons in Hr by lia. done.
  - cbn [app wait_loop]. unfold wait_item. rewrite Hn. set (b1 := in_transport (turn item) b).
    assert (handle_event event b1 = (b1, Ok None)) as ->.
    { destruct event; try done. exfalso. by eapply Hev. }
    apply (IH m j d b1 all); try done. destruct Hw as [HI ? ? ? ? ? ? ? ?]. constructor; try done.
    by apply Ht.
  - cbn [app wait_loop]. unfold wait_item. rewrite Hn. set (b1 := in_transport (turn item) b).
    assert (waiting I s rounds others m j d b1) as Hw1.
    { destruct Hw as [HI ? ? ? ? ? ? ? ?]. constructor; try done. by apply Ht. }
    assert (buffer b1 = buffer b) as Hbuf by done. clearbody b1. rewrite <- Hbuf in Hf. clear Hw Hbuf.
    change (handle_event ?e b1) with (bridge_handle_event e b1).
    rewrite (bridge_json k msg _ x) by (done || by rewrite (waiting_session _ _ _ _ _ _ _ _ Hw1)).
    rewrite handle_round_message_deliver.
    destruct (to_come_cons _ _ _ _ _ _ Hl) as (Hk & Hmk & Hr & Hl').
    rewrite Hr. pose proof (waiting_deliver _ _ _ _ _ _ _ _ k (into_incoming x) Hw1 Hnd Hk Hmk) as Hdel.
    destruct (deliver (buffer b1) (m k + 1) (into_incoming x)) as [buf out]. cbv zeta in Hdel.
    assert (forall r, j < r <= rounds -> f r = (held (buffer b1) r ++
      (if decide (r = m k + 1) then [into_incoming x] else [])) ++ batch_of l r) as Hf'.
    { intros r Hjr'. rewrite Hf, batch_of_cons, Hr, app_assoc by done.
      do 2 f_equal. repeat destruct (decide _); congruence. }
    destruct Hdel as [(-> & Hmj & Hadv & Hfix & Hlen & Hheld) | (-> & Hw2 & Hheld)].
    + rewrite seqZ_cons in Hrun by lia. cbn [fmap list_fmap] in Hrun.
      rewrite Hf', (to_come_passed _ _ _ _ _ Hl' Hadv), app_nil_r in Hrun by lia.
      replace (Z.succ (j + 1)) with (j + 1 + 1) in Hrun by lia.
      replace (Z.pred (rounds - j)) with (rounds - (j + 1)) in Hrun by lia.
      destruct Hw1 as [HI Hs Hdr Hlen1 _ Hheld1 _ _ Hj]. rewrite <- Hs in Hall.
      destruct (process_round_step I (set_buffer buf b1) d rounds (j + 1) _ _ output all
        Hdr HI Hlen Hrun Hall) as [Hlast Hnext].
      { split; [intros H%fmap_nil_inv%(f_equal length); rewrite length_seqZ in H; cbn in H; lia |].
        intros <-. by rewrite Z.sub_diag. }
      { intros ->. by replace j with 0 by lia. }
      rewrite Hmj in Hlast, Hnext |- *. destruct (decide (j + 1 = rounds)) as [He|He].
      * destruct Hlast as (b' & -> & HI'); [by rewrite He, Z.sub_diag |].
        rewrite (to_come_done rounds others (advance m k) l) in Hbr; [by exists stream, b' | done |].
        intros k' Hk'. specialize (Hadv k' Hk'). lia.
      * destruct Hnext as (d' & t & all' & HI' & -> & Hrun' & Hall').
        { rewrite seqZ_cons by lia. done. }
        change (session (set_buffer buf b1)) with (session b1) in Hall'. rewrite Hs in Hall'.
        apply (IH (advance m k) (j + 1) d' _ all'); try done; [|lia |].
        -- constructor; try done; [ | | lia].
           ++ intros r Hjr'. cbn [buffer set_transport set_driver set_buffer].
              rewrite Hheld by done. rewrite len_app, Hheld1, count_advance by (done || lia).
              by destruct (decide (r = m k + 1)).
           ++ exists k. by rewrite advance_eq, Hmj.
        -- intros r Hjr'. cbn [buffer set_transport set_driver set_buffer].
           rewrite Hf', Hheld by lia. done.
    + apply (IH (advance m k) j d _ all); try done.
      intros r Hjr'. cbn [buffer set_buffer]. by rewrite Hf', Hheld by done.
Qed.

(** From the first round on. *)
Lemma wait_for_driver_completes (I : T -> Prop) (t : T) (d : D) (s : SessionState) (rounds : Z)
    (others : list bytes) (buf : RoundBuffer.t (Incoming D)) (stream tail : list (Item T))
    (l : list (bytes * Outgoing D)) (output : Output D) (all : list (list (Outgoing D))) :
  1 <= rounds -> is_u16 rounds -> NoDup others -> others <> [] ->
  RoundBuffer.new_fixed (E := PError D) rounds (len others) = Ok buf ->
  brings I (session_id s) stream l -> complete_arrivals rounds others l ->
  run_protocol (batch_of l <$> seqZ 1 rounds) d = Ok (output, all) ->
  Forall (dispatchable I s) all -> I t ->
  exists rest t', wait_for_driver (stream ++ tail)
      {| transport := t; buffer := buf; driver := Some d; session := s |} = Ok (rest ++ tail, t', output) /\
    brings I (session_id s) rest [] /\ I t'.
Proof.
  intros Hr1 Hr Hnd Hne Hbuf Hbr [Hsrc Hrounds] Hrun Hall HI.
  destruct (new_fixed_spec (I := Incoming D) (E := PError D) rounds (len others) Hr)
    as (buf' & Hb & Hm & Hlen & Hexp). rewrite Hbuf in Hb. injection Hb as <-.
  unfold run_protocol in Hrun. destruct (proceed d) as [d1 [sent| |]] eqn:Hp; [|done..].
  assert (len (batch_of l <$> seqZ 1 rounds) = rounds) as Hlb.
  { unfold len. rewrite length_fmap, length_seqZ. lia. }
  rewrite Hlb in Hrun.
  destruct (run_rounds _ _ d1) as [[o all']| |] eqn:Hrest; [|done..].
  injection Hrun as -> <-. apply list.Forall_cons in Hall as [Hsent Hall].
  set (b0 := {| transport := t; buffer := buf; driver := Some d; session := s |}).
  destruct (Hsent (set_driver (Some d1) b0)) as (t1 & Hdis & Ht1); [done.. |].
  destruct (wait_completes I s rounds others (batch_of l) output stream l tail Hbr Hnd (fun _ => 0) 0 d1
    (set_transport t1 (set_driver (Some d1) b0)) all') as (rest & b' & Hwait & Hrest' & HI');
    [ | lia | | | by rewrite Z.add_0_l, Z.sub_0_r | done |].
  - constructor; try done; [ | by destruct others as [|k]; [done | exists k; split; [left |]]].
    intros r Hjr. unfold held. cbn [buffer set_transport set_driver b0]. rewrite Hm, lookup_empty.
    unfold count. assert (filter (fun _ : bytes => r <= 0) others = []) as ->; [|done].
    clear -Hjr. induction others as [|k others IH]; [done |]. rewrite filter_cons_False by lia. done.
  - split; [done |]. intros k Hk. rewrite Hrounds by done. split; [lia | by rewrite Z.sub_0_r].
  - intros r Hjr. unfold held. cbn [buffer set_transport set_driver b0]. by rewrite Hm, lookup_empty.
  - exists rest, (transport b'). split; [|done]. unfold wait_for_driver.
    assert (execute b0 = (set_transport t1 (set_driver (Some d1) b0), Ok tt)) as ->.
    { unfold execute. cbn [Bridge_driver]. unfold bridge_execute, proceed_and_dispatch, mbind, SM_bind, on_driver.
      cbn [driver b0]. rewrite Hp. exact Hdis. }
    change (wait_loop (H := @Driver_events (Bridge T D) T (Output D) (PError D) Bridge_driver) (stream ++ tail)
      (set_transport t1 (set_driver (Some d1) b0)) = Ok (rest ++ tail, b', output)) in Hwait.
    by rewrite Hwait.
Qed.

(** A party that runs a protocol of [rounds] rounds to an [output]: its stream
    brings what the others send it, and the transport sends what it has to
    say. *)
Definition runs (I : T -> Prop) (s : SessionState) (others : list bytes) (rounds : Z) (d : D)
    (stream : list (Item T)) (output : Output D) : Prop :=
  exists l all, brings I (session_id s) stream l /\ complete_arrivals rounds others l /\
    run_protocol (batch_of l <$> seqZ 1 rounds) d = Ok (output, all) /\ Forall (dispatchable I s) all.

Lemma brings_app (I : T -> Prop) id rest stream (l : list (bytes * Outgoing D)) :
  brings (D := D) I id rest [] -> brings I id stream l -> brings I id (rest ++ stream) l.
Proof.
  intros Hr Hs. remember [] as l' eqn:El in Hr.
  induction Hr as [|item event rest l' Hn He Ht _ IH|]; [done | | done].
  apply (brings_other _ _ _ event); auto.
Qed.

(** A phase that begins with what the one before it left on the stream. *)
Lemma driver_phase (I : T -> Prop) s others rounds d stream output rest0 buf tail t :
  runs I s others rounds d stream output -> brings (D := D) I (session_id s) rest0 [] -> I t ->
  1 <= rounds -> is_u16 rounds -> NoDup others -> others <> [] ->
  RoundBuffer.new_fixed (E := PError D) rounds (len others) = Ok buf ->
  exists rest t', wait_for_driver (rest0 ++ stream ++ tail)
      {| transport := t; buffer := buf; driver := Some d; session := s |} = Ok (rest ++ tail, t', output) /\
    brings (D := D) I (session_id s) rest [] /\ I t'.
Proof.
  intros (l & all & Hbr & Harr & Hrun & Hall) Hr HI H1 Hu Hnd Hne Hbuf.
  pose proof (brings_app _ _ _ _ _ Hr Hbr) as Hbr'. rewrite app_assoc.
  by apply (wait_for_driver_completes I t d s rounds others buf (rest0 ++ stream) tail l output all).
Qed.

(** ** A round that stays incomplete *)

Lemma wait_incomplete (I : T -> Prop) s r n stream l (b : Bridge T D) :
  brings I (session_id s) stream l -> session b = s -> I (transport b) ->
  Forall (fun x => round_number x.2 = r) l -> RoundBuffer.expected (buffer b) !! r = Some n ->
  len (held (buffer b) r) + len l < n ->
  exists b', session b' = s /\ I (transport b') /\
    forall tail, wait_loop (stream ++ tail) b = wait_loop tail b'.
Proof.
  intros Hbr. revert b. induction Hbr as [|item event stream l Hn He Ht _ IH
    |item k msg x stream l Hn Hd Ht _ IH]; intros b Hs HI Hl Hexp Hlt.
  - by exists b.
  - destruct (IH (in_transport (turn item) b)) as (b' & Hs' & HI' & Hw); [done | by apply Ht | done.. |].
    exists b'. split_and!; [done.. |]. intros tail. cbn [app wait_loop]. unfold wait_item. rewrite Hn.
    assert (handle_event event (in_transport (turn item) b) = (in_transport (turn item) b, Ok None)) as ->;
      [|done]. destruct event; try done. exfalso. by eapply He.
  - apply list.Forall_cons in Hl as [Hr Hl]. cbn in Hr. rewrite len_cons in Hlt.
    set (b1 := in_transport (turn item) b). pose proof (len_nonneg l) as Hlen.
    pose proof (deliver_spec (buffer b1) r (into_incoming x)) as Hdel.
    destruct (deliver (buffer b1) r (into_incoming x)) as [buf out] eqn:Edel.
    destruct Hdel as (Hexp' & _ & Hself). change (buffer b1) with (buffer b) in *. rewrite Hexp in Hself.
    rewrite len_app, len_cons, len_nil in Hself. rewrite decide_False in Hself by (intros [=]; lia).
    destruct Hself as [Hh ->].
    destruct (IH (set_buffer buf b1)) as (b' & Hs' & HI' & Hw);
      [done | by apply Ht | done | by cbn; rewrite Hexp' | |].
    { cbn [buffer set_buffer]. rewrite Hh, len_app, len_cons, len_nil. lia. }
    exists b'. split_and!; [done.. |]. intros tail. cbn [app wait_loop]. unfold wait_item. rewrite Hn. fold b1.
    change (handle_event ?e b1) with (bridge_handle_event e b1).
    rewrite (bridge_json k msg _ x) by (done || by rewrite <- Hs).
    rewrite handle_round_message_deliver, Hr. change (buffer b1) with (buffer b). by rewrite Edel.
Qed.

(** A message of the session that is not one of the protocol ends the wait. *)
Lemma wait_refuses (item : Item T) k msg e tail (b : Bridge T D) :
  next item = Ok (Event.JsonMessage k msg (Some (session_id (session b)))) ->
  deserialize (A := Outgoing D) msg = Err e ->
  wait_loop (item :: tail) b = Err (Failed (perror_client e)).
Proof.
  intros Hn He. cbn [wait_loop]. unfold wait_item. rewrite Hn. set (b1 := in_transport (turn item) b).
  change (handle_event ?e b1) with (bridge_handle_event e b1). cbn [bridge_handle_event].
  unfold mbind at 1, SM_bind at 1, check_session_id.
  rewrite bool_decide_false by (intros H; by apply H). unfold mbind, SM_bind, sm_lift. by rewrite He.
Qed.

(** So a wait fails when a message of another protocol comes before a round is
    complete. *)
Lemma wait_for_driver_refuses (I : T -> Prop) t d d1 s sent buf r n stream l item k msg e tail :
  proceed d = (d1, Ok sent) -> dispatchable I s sent -> I t ->
  brings I (session_id s) stream l -> Forall (fun x => round_number x.2 = r) l ->
  RoundBuffer.expected buf !! r = Some n -> len (held buf r) + len l < n ->
  next item = Ok (Event.JsonMessage k msg (Some (session_id s))) ->
  deserialize (A := Outgoing D) msg = Err e ->
  wait_for_driver (stream ++ item :: tail)
    {| transport := t; buffer := buf; driver := Some d; session := s |} = Err (Failed (perror_client e)).
Proof.
  intros Hp Hdis HI Hbr Hl Hexp Hlt Hn He.
  set (b0 := {| transport := t; buffer := buf; driver := Some d; session := s |}).
  destruct (Hdis (set_driver (Some d1) b0)) as (t1 & Hd & HI1); [done.. |].
  destruct (wait_incomplete I s r n stream l (set_transport t1 (set_driver (Some d1) b0)))
    as (b' & Hs' & _ & Hw); [done.. |].
  unfold wait_for_driver. assert (execute b0 = (set_transport t1 (set_driver (Some d1) b0), Ok tt)) as ->.
  { etransitivity; [|exact Hd]. change (execute b0) with (bridge_execute b0).
    unfold bridge_execute, proceed_and_dispatch, mbind, SM_bind, on_driver. cbn [driver b0]. by rewrite Hp. }
  specialize (Hw (item :: tail)). rewrite (wait_refuses item k msg e tail b') in Hw by (rewrite ?Hs'; done).
  change (wait_loop (H := @Driver_events (Bridge T D) T (Output D) (PError D) Bridge_driver) (stream ++ item :: tail)
    (set_transport t1 (set_driver (Some d1) b0)) = Err (Failed (perror_client e))) in Hw.
  unfold mbind, Res_bind. by rewrite Hw.
Qed.
End run.
