(* ===== verification/DriverOutput.v ===== *)
(** * Where a bridge's output comes from

    Whatever arrives on its stream, the result of waiting for a bridge is what
    [finish] gives for a driver that was reached by handling messages and
    proceeding: an invariant of those is true of every output. *)

From S2P Require Import Prelude Types Sessions Net Client Transport Round Driver.

Section output.
Context {T : Type} {NT : NetworkTransport T} {D : Type} {PD : ProtocolDriver D}.
Variable J : D -> Prop.

(** The driver of a bridge, while it has one, satisfies the invariant. *)
Definition driver_is (b : Bridge T D) : Prop := forall d, driver b = Some d -> J d.

(** A step maintains the invariant, and its value satisfies [Q]. *)
Definition maintains {A} (m : SM (Bridge T D) (PError D) A) (Q : A -> Prop) : Prop :=
  forall b, driver_is b -> driver_is (m b).1 /\ forall a, (m b).2 = Ok a -> Q a.

Lemma maintains_weaken {A} m (Q Q' : A -> Prop) : maintains m Q -> (forall a, Q a -> Q' a) -> maintains m Q'.
Proof. intros Hm HQ b Hb. destruct (Hm b Hb) as [? H]. split; [done |]. intros a Ha. by apply HQ, H. Qed.

Lemma maintains_ret {A} (a : A) (Q : A -> Prop) : Q a -> maintains (mret a) Q.
Proof. intros HQ b Hb. split; [done |]. by intros a' [= <-]. Qed.

Lemma maintains_bind {A B} (m : SM (Bridge T D) (PError D) A) (k : A -> SM (Bridge T D) (PError D) B) Q1 Q :
  maintains m Q1 -> (forall a, Q1 a -> maintains (k a) Q) -> maintains (m ≫= k) Q.
Proof.
  intros Hm Hk b Hb. destruct (Hm b Hb) as [Hb' Hq]. unfold mbind, SM_bind.
  destruct (m b) as [b' [a| |]]; cbn in *; [by apply Hk; [apply Hq|] | done..].
Qed.

Lemma maintains_lift {A} (r : Res (PError D) A) : maintains (sm_lift r) (fun _ => True).
Proof. by intros b Hb. Qed.

Lemma maintains_for {A} (l : list A) f : (forall x, maintains (f x) (fun _ => True)) -> maintains (sm_for l f) (fun _ => True).
Proof.
  intros Hf. induction l as [|x l IH]; cbn [sm_for]; [by apply maintains_ret |].
  by apply (maintains_bind _ _ (fun _ => True)).
Qed.

Lemma maintains_transport {A} (m : SM T ClientError.t A) : maintains (on_transport m) (fun _ => True).
Proof. intros b Hb. unfold on_transport. destruct (m (transport b)) as [t r]. by split. Qed.

Lemma maintains_driver {A} (m : SM D (PError D) A) :
  (forall d, J d -> J (m d).1) -> maintains (on_driver m) (fun _ => True).
Proof.
  intros Hm b Hb. unfold on_driver. destruct (driver b) as [d|] eqn:Hd; [|done].
  specialize (Hm d (Hb d Hd)). destruct (m d) as [d' r]. split; [|done]. by intros d'' [= <-].
Qed.

(** The outputs of drivers that satisfy the invariant. *)
Definition finished (output : Output D) : Prop := exists d, J d /\ finish d = Ok output.

Lemma maintains_finish : maintains take_finish finished.
Proof.
  intros b Hb. unfold take_finish. destruct (driver b) as [d|] eqn:Hd; [|done].
  split; [done |]. intros output Ho. exists d. split; [by apply Hb | done].
Qed.

Context (handles : forall x d, J d -> J (handle_incoming x d).1).
Context (proceeds : forall d, J d -> J (proceed d).1).

Lemma maintains_send m : maintains (send_to_peer m) (fun _ => True).
Proof.
  intros b Hb. unfold send_to_peer. revert b Hb.
  assert (forall b0 : Bridge T D, maintains (party_number ← sm_lift (unwrap (round_receiver m));
   peer_key ← sm_lift (unwrap (SessionStates.peer_key (session b0) party_number));
   on_transport (transport_send_json peer_key m (Some (session_id (session b0))))) (fun _ => True)) as H.
  { intros b0. repeat (apply (maintains_bind _ _ (fun _ => True)); [apply maintains_lift | intros ? _]).
    apply maintains_transport. }
  intros b. apply H.
Qed.

Lemma maintains_dispatch messages : maintains (dispatch_round_messages messages) (fun _ => True).
Proof.
  intros b. unfold dispatch_round_messages. destruct messages as [|m [|m' messages]];
    [by apply maintains_for, maintains_send | | by apply maintains_for, maintains_send].
  destruct (is_broadcast m); [apply maintains_transport | apply maintains_send].
Qed.

Lemma maintains_proceed : maintains proceed_and_dispatch (fun _ => True).
Proof.
  apply (maintains_bind _ _ (fun _ => True)); [by apply maintains_driver | intros ms _; apply maintains_dispatch].
Qed.

Lemma maintains_process_round r messages :
  maintains (process_round r messages) (fun o => forall output, o = Some output -> finished output).
Proof.
  apply (maintains_bind _ _ (fun _ => True)).
  { apply maintains_for. intros x. apply maintains_driver. intros d. apply handles. }
  intros _ _. apply (maintains_bind _ _ (fun _ => True)); [by intros b Hb |]. intros rounds _.
  assert (maintains (result ← take_finish; mret (Some result))
    (fun o => forall output, o = Some output -> finished output)) as Hf.
  { apply (maintains_bind _ _ finished); [apply maintains_finish |]. intros o Ho. apply maintains_ret. by intros ? [= <-]. }
  case_bool_decide; [done |]. apply (maintains_bind _ _ (fun _ => True)); [apply maintains_proceed |].
  intros _ _. case_bool_decide; [done | by apply maintains_ret].
Qed.

Lemma maintains_event event :
  maintains (bridge_handle_event event) (fun o => forall output, o = Some output -> finished output).
Proof.
  destruct event; try by apply maintains_ret. apply (maintains_bind _ _ (fun _ => True)).
  { intros b Hb. unfold check_session_id. destruct session as [id|]; [|done]. by case_bool_decide. }
  intros _ _. apply (maintains_bind _ _ (fun _ => True)); [apply maintains_lift |]. intros x _.
  apply (maintains_bind _ _ (fun _ => True)); [by intros b Hb |]. intros [] _; [|by apply maintains_ret].
  apply (maintains_bind _ _ (fun _ => True)); [|intros batch _; apply maintains_process_round].
  intros b Hb. by destruct (RoundBuffer.take _ _).
Qed.

Lemma wait_loop_finished (stream rest : list (Item T)) (b b' : Bridge T D) output :
  driver_is b -> wait_loop stream b = Ok (rest, b', output) -> finished output.
Proof.
  revert b. induction stream as [|item stream IH]; intros b Hb; [done |]. cbn [wait_loop]. unfold wait_item.
  destruct (next item) as [event| |]; [|done..].
  set (b1 := in_transport (turn item) b). assert (driver_is b1) as Hb1 by done. clearbody b1.
  change (handle_event event b1) with (bridge_handle_event event b1).
  destruct (maintains_event event b1 Hb1) as [Hb2 Ho].
  destruct (bridge_handle_event event b1) as [b2 [[o|]| |]]; cbn in *; [|by apply IH | done..].
  intros [= _ _ <-]. by apply (Ho _ eq_refl).
Qed.

(** The result of waiting is an output of a driver that satisfies the
    invariant. *)
Lemma wait_for_driver_finished (stream rest : list (Item T)) (b : Bridge T D) t output :
  driver_is b -> wait_for_driver stream b = Ok (rest, t, output) -> finished output.
Proof.
  intros Hb. unfold wait_for_driver. destruct (maintains_proceed b Hb) as [Hb1 _].
  change (execute b) with (bridge_execute b). unfold bridge_execute.
  destruct (proceed_and_dispatch b) as [b1 [u| |]]; [|done..]. cbn in Hb1.
  unfold mbind, Res_bind. destruct (wait_loop _ b1) as [[[rest' b'] o]| |] eqn:Hw; [|done..].
  intros [= _ _ <-]. by apply (wait_loop_finished stream rest' b1 b').
Qed.
End output.
