(* ===== verification/DriverSpec.v ===== *)
(** * Properties of the bridge and of the loops that wait

    The bridge runs a protocol to its end over any interleaving of the parties'
    messages, and refuses what does not belong to its session. *)

From S2P Require Import Prelude Types Sessions Net Client Transport Round RoundSpec Driver DriverFacts DriverRun.

Section spec.
Context {T : Type} {NT : NetworkTransport T} {D : Type} {PD : ProtocolDriver D}.

(** The bridge runs a protocol to its end.  Take a protocol of [rounds]
    rounds for a party with other parties [others], each of whom sends one
    message in every round, in the order of the rounds; the messages of
    different parties may be interleaved in any way, and other events may come
    in between.  If the protocol, given the messages of each round in order of
    arrival one round after the other, succeeds with an output, and the
    transport can send what it produces, then waiting for the driver on such a
    stream ends, with that output: a message that is early for its round is
    kept until its round is complete, and no round is processed twice. *)
Theorem bridge_runs_protocol (I : T -> Prop) (t : T) (d : D) (s : SessionState) (rounds : Z)
    (others : list bytes) (buf : RoundBuffer.t (Incoming D)) (stream : list (Item T))
    (l : list (bytes * Outgoing D)) (output : Output D) (all : list (list (Outgoing D))) :
  1 <= rounds -> is_u16 rounds -> NoDup others -> others <> [] ->
  RoundBuffer.new_fixed (E := PError D) rounds (len others) = Ok buf ->
  brings I (session_id s) stream l -> complete_arrivals rounds others l ->
  run_protocol (batch_of l <$> seqZ 1 rounds) d = Ok (output, all) ->
  Forall (dispatchable I s) all -> I t ->
  exists rest t', wait_for_driver stream
      {| transport := t; buffer := buf; driver := Some d; session := s |} = Ok (rest, t', output) /\
    I t'.
Proof.
  intros Hr1 Hr Hnd Hne Hbuf Hbr Harr Hrun Hall HI.
  destruct (wait_for_driver_completes I t d s rounds others buf stream [] l output all)
    as (rest & t' & Hwait & _ & Ht'); [done.. |].
  rewrite !app_nil_r in Hwait. by exists rest, t'.
Qed.

(** C33. What the bridge does with an event.  A JSON message without a session
    or of another session is refused with the error for it, one that does not
    deserialize with the client's JSON error, and nothing changes; other
    events are passed over.  A round message that does not complete its round
    is added to the buffer and nothing else happens.  One that completes its
    round has the driver process that round, with exactly the messages of the
    round in order of arrival, which leave the buffer, while those held for
    other rounds stay in it.  A message of a round the protocol does not have
    is kept for ever: no sequence of later events removes it.  When the stream
    yields an error, or the handler fails, the waiting loop ends with that
    error. *)
Theorem bridge_event_outcomes (b : Bridge T D) (event : Event.t) (item : Item T)
    (stream : list (Item T)) :
  (forall k m id, event = Event.JsonMessage k m (Some id) -> id <> session_id (session b) ->
    bridge_handle_event event b = (b, Err (perror_driver SessionIdMismatch))) /\
  (forall k m, event = Event.JsonMessage k m None ->
    bridge_handle_event event b = (b, Err (perror_driver SessionIdRequired))) /\
  (forall k m e, event = Event.JsonMessage k m (Some (session_id (session b))) ->
    deserialize (A := Outgoing D) m = Err e ->
    bridge_handle_event event b = (b, Err (perror_client e))) /\
  ((forall k m id, event <> Event.JsonMessage k m id) -> bridge_handle_event event b = (b, Ok None)) /\
  (forall k m x, event = Event.JsonMessage k m (Some (session_id (session b))) ->
    deserialize (A := Outgoing D) m = Ok x ->
    let r := round_number x in
    (RoundBuffer.expected (buffer b) !! r <> Some (len (held (buffer b) r) + 1) ->
      bridge_handle_event event b =
        (set_buffer (RoundBuffer.add_message (buffer b) r (into_incoming x)) b, Ok None)) /\
    (RoundBuffer.expected (buffer b) !! r = Some (len (held (buffer b) r) + 1) ->
      exists buf, RoundBuffer.expected buf = RoundBuffer.expected (buffer b) /\ held buf r = [] /\
        (forall r', r' <> r -> held buf r' = held (buffer b) r') /\
        bridge_handle_event event b =
          process_round r (held (buffer b) r ++ [into_incoming x]) (set_buffer buf b)) /\
    (RoundBuffer.expected (buffer b) !! r = None -> forall later,
      held (buffer b) r ++ [into_incoming x] `prefix_of` held (buffer (after_events (event :: later) b)) r)) /\
  (forall e, next item = Err e -> wait_loop (item :: stream) b = Err (Failed (perror_client e))) /\
  (forall b' e, next item = Ok event -> bridge_handle_event event (in_transport (turn item) b) = (b', Err e) ->
    wait_loop (item :: stream) b = Err (Failed e)).
Proof.
  split_and!.
  - intros k m id -> Hid. cbn [bridge_handle_event]. unfold mbind at 1, SM_bind at 1, check_session_id.
    by rewrite bool_decide_true.
  - by intros k m ->.
  - intros k m e -> He. cbn [bridge_handle_event]. unfold mbind at 1, SM_bind at 1, check_session_id.
    rewrite bool_decide_false by (intros H; by apply H). unfold mbind, SM_bind, sm_lift. by rewrite He.
  - intros Hev. destruct event; try done. exfalso. by eapply Hev.
  - intros k m x -> Hx r.
    pose proof (bridge_json k m _ x b eq_refl Hx) as Hj. rewrite handle_round_message_deliver in Hj.
    pose proof (deliver_spec (buffer b) r (into_incoming x)) as Hd. fold r in Hj.
    assert (len (held (buffer b) r ++ [into_incoming x]) = len (held (buffer b) r) + 1) as Hlen
      by by rewrite len_app.
    rewrite Hlen in Hd. split_and!.
    + intros Hnot. destruct (deliver _ r _) as [buf out] eqn:E. rewrite decide_False in Hd by done.
      destruct Hd as (_ & _ & _ & ->). rewrite Hj. revert E. unfold deliver.
      destruct (RoundBuffer.is_ready _ _); [by destruct (RoundBuffer.take _ _) | by intros [= <-]].
    + intros Hready. destruct (deliver _ r _) as [buf out]. rewrite decide_True in Hd by done.
      destruct Hd as (Hexp & Hne & Hh & ->).
      exists buf. split_and!; [done | done | | done]. intros r' Hr'. by apply Hne.
    + intros Hnone later. destruct (deliver _ r _) as [buf out].
      rewrite Hnone, decide_False in Hd by done. destruct Hd as (Hexp & Hne & Hh & ->).
      cbn [after_events foldl]. rewrite Hj. cbn [fst]. rewrite <- Hh.
      apply (events_keep_foreign later (set_buffer buf b) r). by cbn; rewrite Hexp.
  - intros e He. cbn [wait_loop]. unfold wait_item. by rewrite He.
  - intros b' e Hev Hh. cbn [wait_loop]. unfold wait_item. rewrite Hev.
    change (handle_event event ?x) with (bridge_handle_event event x). by rewrite Hh.
Qed.
End spec.

From S2P Require Import Recorder DriverRef.

(** Party b is a round ahead of party c. *)
Lemma bridge_runs_protocol_witness : exists buf rest t,
  RoundBuffer.new_fixed (I := Msg.t Z) (E := DriverError) 2 2 = Ok buf /\
  wait_for_driver (H := Bridge_driver (D := Collector))
    [round_item [Byte.x0b] 1 10; round_item [Byte.x0b] 2 20;
     round_item [Byte.x0c] 1 11; round_item [Byte.x0c] 2 21]
    {| transport := {| own_key := [Byte.x0a]; connected := true; calls := [] |};
       buffer := buf; driver := Some {| at_round := 0; collected := [] |};
       session := pair_session |}
  = Ok (rest, t, [10; 11; 20; 21]).
Proof.
  assert (exists buf, RoundBuffer.new_fixed (I := Msg.t Z) (E := DriverError) 2 2 = Ok buf) as [buf Hbuf]
    by (eexists; reflexivity).
  set (l := [([Byte.x0b], a_round_msg 1 10); ([Byte.x0b], a_round_msg 2 20);
             ([Byte.x0c], a_round_msg 1 11); ([Byte.x0c], a_round_msg 2 21)]).
  destruct (bridge_runs_protocol (PD := Collector_protocol) (fun _ => True)
    {| own_key := [Byte.x0a]; connected := true; calls := [] |} {| at_round := 0; collected := [] |}
    pair_session 2 [[Byte.x0b]; [Byte.x0c]] buf
    [round_item [Byte.x0b] 1 10; round_item [Byte.x0b] 2 20;
     round_item [Byte.x0c] 1 11; round_item [Byte.x0c] 2 21] l
    [10; 11; 20; 21] [[a_round_msg 1 1]; [a_round_msg 2 2]; []]) as (rest & t & H & _).
  - lia.
  - by vm_compute.
  - apply list.NoDup_cons. split; [|apply NoDup_singleton].
    rewrite list_elem_of_singleton. discriminate.
  - discriminate.
  - exact Hbuf.
  - unfold l. repeat (eapply (brings_message (PD := Collector_protocol)); [reflexivity | reflexivity | done |]).
    apply (brings_nil (PD := Collector_protocol)).
  - split.
    + repeat constructor.
    + intros k. rewrite !elem_of_cons, elem_of_nil. intros [->|[->|[]]]; by vm_compute.
  - reflexivity.
  - repeat (apply list.Forall_cons; split); [..|by apply list.Forall_nil];
      intros [] Hs _; cbn in *; subst; eexists; by split.
  - done.
  - by exists buf, rest, t.
Defined.

Lemma bridge_event_outcomes_witness :
  let b : Bridge Recorder Collector :=
    {| transport := {| own_key := [Byte.x0a]; connected := true; calls := [] |};
       buffer := {| RoundBuffer.expected := {[1 := 2]}; RoundBuffer.messages := {[1 := [RoundMsg.into_msg (a_round_msg 1 5)]]} |};
       driver := Some {| at_round := 0; collected := [] |}; session := pair_session |} in
  let event c id := Event.JsonMessage [Byte.x0b] {| contents := c |} id in
  bridge_handle_event (event [Byte.x01; Byte.x0a] None) b = (b, Err SessionIdRequired) /\
  bridge_handle_event (event [Byte.x01; Byte.x0a] (Some [])) b = (b, Err SessionIdMismatch) /\
  (exists e, bridge_handle_event (event [] (Some (zeros 16))) b = (b, Err (DriverClient e))) /\
  bridge_handle_event Event.Close b = (b, Ok None) /\
  (bridge_handle_event (event [Byte.x01; Byte.x0a] (Some (zeros 16))) b).2 = Ok (Some [5; 10]) /\
  forall later, RoundMsg.into_msg (a_round_msg 7 10) ∈
    held (buffer (after_events (event [Byte.x07; Byte.x0a] (Some (zeros 16)) :: later) b)) 7.
Proof.
  intros b event. pose (item := round_item [Byte.x0b] 1 10).
  split; [|split; [|split; [|split; [|split]]]].
  - by apply (bridge_event_outcomes b (event [Byte.x01; Byte.x0a] None) item []) with (1 := eq_refl).
  - by apply (bridge_event_outcomes b (event [Byte.x01; Byte.x0a] (Some [])) item []) with (1 := eq_refl).
  - destruct (bridge_event_outcomes b (event [] (Some (zeros 16))) item []) as (_ & _ & H & _).
    eexists. by apply (H [Byte.x0b] {| contents := [] |} _ eq_refl).
  - by apply (bridge_event_outcomes b Event.Close item []).
  - destruct (bridge_event_outcomes b (event [Byte.x01; Byte.x0a] (Some (zeros 16))) item []) as (_ & _ & _ & _ & H & _).
    destruct (H [Byte.x0b] {| contents := [Byte.x01; Byte.x0a] |} (a_round_msg 1 10) eq_refl eq_refl) as (_ & Hc & _).
    destruct Hc as (buf & He & _ & _ & ->); [by vm_compute |].
    destruct buf as [expected messages]. cbn in He. subst expected. by vm_compute.
  - intros later.
    destruct (bridge_event_outcomes b (event [Byte.x07; Byte.x0a] (Some (zeros 16))) item []) as (_ & _ & _ & _ & H & _).
    destruct (H [Byte.x0b] {| contents := [Byte.x07; Byte.x0a] |} (a_round_msg 7 10) eq_refl eq_refl) as (_ & _ & Hk).
    destruct (Hk ltac:(by vm_compute) later) as [more Hm].
    change (round_number (a_round_msg 7 10)) with 7 in Hm. rewrite Hm, elem_of_app. left. by left.
Defined.
