(* ===== verification/SessionHandlersSpec.v ===== *)
(** * Properties of the session handlers

    What the initiator and the participants ask of their transports over a
    whole run, and that this is what makes the session active. *)

From S2P Require Import Prelude Types Sessions SessionsFacts Net Client Transport Driver SessionHandlers Recorder.

Section spec.
Abbreviation Handler := (SessionHandler Recorder).

(** The events before the one that gives a result. *)
Definition feed (events : list Event.t) : SM Handler DriverError unit :=
  sm_for events (fun e => _ ← session_handle_event e; mret tt).

Lemma sm_for_app {S E A} (l l' : list A) (f : A -> SM S E unit) s s' :
  sm_for l f s = (s', Ok tt) -> sm_for (l ++ l') f s = sm_for l' f s'.
Proof.
  revert s. induction l as [|x l IH]; intros s H; [by injection H as -> |].
  cbn [sm_for app] in *. unfold mbind, SM_bind in *.
  destruct (f x s) as [s1 [[]| |]]; [by apply IH | done..].
Qed.

(** Connecting to a list of peers, or registering one. *)
Lemma participant_connects (keys : list bytes) (s : SessionParticipant Recorder) :
  sm_for keys (fun key => participant_call (transport_connect_peer key)) s =
  (set_participant_transport (add_calls (Call.ConnectPeer <$> keys) (participant_transport s)) s, Ok tt).
Proof.
  revert s. induction keys as [|k keys IH]; intros s; cbn [sm_for fmap list_fmap].
  - rewrite add_calls_nil. by destruct s.
  - unfold mbind, SM_bind. cbn [participant_call transport_connect_peer Recorder_network record map_err].
    unfold participant_call at 1. cbn. rewrite IH. unfold set_participant_transport, add_calls. cbn.
    by rewrite <- app_assoc.
Qed.

Lemma initiator_connects (keys : list bytes) (s : SessionInitiator Recorder) :
  sm_for keys (fun key => initiator_call (transport_connect_peer key)) s =
  (set_initiator_transport (add_calls (Call.ConnectPeer <$> keys) (initiator_transport s)) s, Ok tt).
Proof.
  revert s. induction keys as [|k keys IH]; intros s; cbn [sm_for fmap list_fmap].
  - rewrite add_calls_nil. by destruct s.
  - unfold mbind, SM_bind. unfold initiator_call at 1. cbn. rewrite IH.
    unfold set_initiator_transport, add_calls. cbn. by rewrite <- app_assoc.
Qed.

(** The peers reported as connected, and the registrations made for them. *)
Definition peers_connected (events : list Event.t) : list bytes :=
  omap (fun e => match e with Event.PeerConnected k => Some k | _ => None end) events.

Definition to_register (st : SessionState) (own : bytes) (events : list Event.t) : list bytes :=
  filter (fun k => k ∈ SessionStates.connections st own) (peers_connected events).

(** Events that do not change what a handler knows of its session. *)
Definition ordinary (e : Event.t) : Prop :=
  match e with
  | Event.SessionCreated _ | Event.SessionReady _ | Event.SessionActive _ => False
  | _ => True
  end.

(** The registration of one peer, when the connection to it was prescribed. *)
Definition registration (st : SessionState) (own k : bytes) : list Call.t :=
  if bool_decide (k ∈ SessionStates.connections st own)
  then [Call.RegisterConnection (session_id st) k] else [].

Lemma to_register_cons st own k events :
  Call.RegisterConnection (session_id st) <$> to_register st own (Event.PeerConnected k :: events) =
  registration st own k ++ (Call.RegisterConnection (session_id st) <$> to_register st own events).
Proof.
  unfold to_register, registration. cbn [peers_connected omap list_omap]. fold (peers_connected events).
  case_bool_decide; [by rewrite filter_cons_True | by rewrite filter_cons_False].
Qed.

Lemma participant_peer_connected st k (s : SessionParticipant Recorder) :
  participant_state s = Some st ->
  participant_handle_event (Event.PeerConnected k) s =
  (set_participant_transport (add_calls (registration st (own_key (participant_transport s)) k)
     (participant_transport s)) s, Ok None).
Proof.
  intros Hst. unfold registration, participant_handle_event, mbind, SM_bind. cbn [sm_gets]. rewrite Hst.
  cbn [transport_public_key Recorder_network]. case_bool_decide; [done |].
  rewrite add_calls_nil. by destruct s.
Qed.

Lemma initiator_peer_connected st k (s : SessionInitiator Recorder) :
  initiator_state s = Some st -> requested_session s = true ->
  initiator_handle_event (Event.PeerConnected k) s =
  (set_initiator_transport (add_calls (registration st (own_key (initiator_transport s)) k)
     (initiator_transport s)) s, Ok None).
Proof.
  intros Hst Hreq. unfold registration, initiator_handle_event, initiator_new_session, mbind, SM_bind.
  rewrite Hreq. cbn [negb andb sm_gets]. rewrite Hst. cbn [unwrap sm_lift].
  cbn [transport_public_key Recorder_network]. case_bool_decide; [done |].
  rewrite add_calls_nil. by destruct s.
Qed.

Lemma feed_cons e events h h' :
  session_handle_event e h = (h', Ok None) -> feed (e :: events) h = feed events h'.
Proof. intros H. unfold feed. cbn [sm_for]. unfold mbind, SM_bind. by rewrite H. Qed.

(** A participant that knows its session registers its connections. *)
Lemma participant_settled st events (s : SessionParticipant Recorder) :
  participant_state s = Some st -> Forall ordinary events ->
  feed events (Participant s) = (Participant (set_participant_transport (add_calls
    (Call.RegisterConnection (session_id st) <$> to_register st (own_key (participant_transport s)) events)
    (participant_transport s)) s), Ok tt).
Proof.
  intros Hst Hev. revert s Hst. induction Hev as [|e events He _ IH]; intros s Hst.
  { cbn. rewrite add_calls_nil. by destruct s. }
  destruct e; try done; try (by rewrite (feed_cons _ _ _ (Participant s)), IH).
  etransitivity; [apply feed_cons; cbn [session_handle_event];
    by rewrite (participant_peer_connected st) |]. rewrite IH by done.
  by rewrite to_register_cons, <- add_calls_app.
Qed.

(** So does an initiator that has asked for its session. *)
Lemma initiator_settled st events (s : SessionInitiator Recorder) :
  initiator_state s = Some st -> requested_session s = true -> Forall ordinary events ->
  feed events (Initiator s) = (Initiator (set_initiator_transport (add_calls
    (Call.RegisterConnection (session_id st) <$> to_register st (own_key (initiator_transport s)) events)
    (initiator_transport s)) s), Ok tt).
Proof.
  intros Hst Hreq Hev. revert s Hst Hreq. induction Hev as [|e events He _ IH]; intros s Hst Hreq.
  { cbn. rewrite add_calls_nil. by destruct s. }
  destruct e; try done; try (rewrite (feed_cons _ _ _ (Initiator s)), IH; [done..|];
    cbn; unfold initiator_handle_event, initiator_new_session, mbind, SM_bind; by rewrite Hreq).
  etransitivity; [apply feed_cons; cbn [session_handle_event];
    by rewrite (initiator_peer_connected st) |]. rewrite IH by done.
  by rewrite to_register_cons, <- add_calls_app.
Qed.

(** Nothing is registered before a handler knows its session. *)
Lemma participant_unsettled events (s : SessionParticipant Recorder) :
  participant_state s = None -> Forall ordinary events ->
  feed events (Participant s) = (Participant s, Ok tt).
Proof.
  intros Hst Hev. induction Hev as [|e events He _ IH]; [done |].
  rewrite (feed_cons e events _ (Participant s)); [done |].
  destruct e; try done. cbn. unfold participant_handle_event, mbind, SM_bind. cbn. by rewrite Hst.
Qed.

(** The first event makes the request for the session. *)
Lemma initiator_requests events own participants :
  events <> [] -> Forall ordinary events -> peers_connected events = [] ->
  feed events (Initiator (SessionInitiator_new
    {| own_key := own; connected := true; calls := [] |} participants)) =
  (Initiator {| initiator_transport := {| own_key := own; connected := true;
       calls := [Call.NewSession participants] |}; session_participants := participants;
     initiator_state := None; requested_session := true |}, Ok tt).
Proof.
  intros Hne Hev Hp. destruct Hev as [|e events He Hev]; [done |]. clear Hne.
  set (s1 := {| initiator_transport := {| own_key := own; connected := true;
       calls := [Call.NewSession participants] |}; session_participants := participants;
     initiator_state := None; requested_session := true |}).
  rewrite (feed_cons e events _ (Initiator s1)) by by destruct e.
  assert (peers_connected events = []) as Hp' by by destruct e. clear Hp He.
  induction Hev as [|e' events He' _ IH]; [done |].
  rewrite (feed_cons e' events _ (Initiator s1)) by by destruct e'.
  apply IH. by destruct e'.
Qed.

(** A handler with a transport that has recorded nothing. *)
Definition new_handler (owner own : bytes) (participants : list bytes) : Handler :=
  let r := {| own_key := own; connected := true; calls := [] |} in
  if bool_decide (own = owner) then Initiator (SessionInitiator_new r participants)
  else Participant (SessionParticipant_new r).

(** The events of a party: [before] its session is known, and [after] it is
    ready; only the initiator is told that the session was created. *)
Definition party_events (owner own : bytes) (st : SessionState) (before after : list Event.t) :
    list Event.t :=
  before ++ (if bool_decide (own = owner) then [Event.SessionCreated st] else []) ++
  Event.SessionReady st :: after.

(** What a party asked to be registered. *)
Definition registered (own : bytes) (l : list Call.t) : list (bytes * bytes) :=
  omap (fun c => match c with Call.RegisterConnection _ k => Some (own, k) | _ => None end) l.

(** A session becomes ready. *)
Lemma participant_ready st (s : SessionParticipant Recorder) :
  participant_handle_event (Event.SessionReady st) s =
  ({| participant_transport := add_calls (Call.ConnectPeer <$>
        SessionStates.connections st (own_key (participant_transport s))) (participant_transport s);
      participant_state := Some st |}, Ok None).
Proof. unfold participant_handle_event, mbind, SM_bind. cbn. by rewrite participant_connects. Qed.

Lemma initiator_ready st (s : SessionInitiator Recorder) : requested_session s = true ->
  initiator_handle_event (Event.SessionReady st) s =
  (set_initiator_transport (add_calls (Call.ConnectPeer <$>
     SessionStates.connections st (own_key (initiator_transport s))) (initiator_transport s)) s, Ok None).
Proof.
  intros Hreq. unfold initiator_handle_event, initiator_new_session, mbind, SM_bind. rewrite Hreq. cbn.
  by rewrite initiator_connects.
Qed.

Lemma initiator_created st (s : SessionInitiator Recorder) : requested_session s = true ->
  initiator_handle_event (Event.SessionCreated st) s = (set_initiator_state (Some st) s, Ok None).
Proof.
  intros Hreq. unfold initiator_handle_event, initiator_new_session, mbind, SM_bind. by rewrite Hreq.
Qed.

Lemma feed_app l l' h h' : feed l h = (h', Ok tt) -> feed (l ++ l') h = feed l' h'.
Proof. apply sm_for_app. Qed.

(** One handled event, its handler's equation given. *)
Ltac feed_step H := etransitivity; [apply feed_cons; cbn [session_handle_event]; by rewrite H |].

Lemma party_run owner own participants st before after :
  before <> [] -> Forall ordinary before -> peers_connected before = [] -> Forall ordinary after ->
  exists h, feed (party_events owner own st before after) (new_handler owner own participants) = (h, Ok tt) /\
    calls (session_transport h) =
      (if bool_decide (own = owner) then [Call.NewSession participants] else []) ++
      (Call.ConnectPeer <$> SessionStates.connections st own) ++
      (Call.RegisterConnection (session_id st) <$> to_register st own after).
Proof.
  intros Hne Hb Hbp Ha. unfold party_events, new_handler. case_bool_decide as Hown.
  - eexists. split.
    + rewrite (feed_app _ _ _ _ (initiator_requests before own participants Hne Hb Hbp)). cbn [app].
      feed_step initiator_created. feed_step initiator_ready. by apply (initiator_settled st).
    + done.
  - eexists. split.
    + rewrite (feed_app _ _ _ _ (participant_unsettled before (SessionParticipant_new _) eq_refl Hb)). cbn [app].
      feed_step participant_ready. by apply (participant_settled st).
    + done.
Qed.

Lemma registered_party own st participants owner after l :
  l = (if bool_decide (own = owner) then [Call.NewSession participants] else []) ++
      (Call.ConnectPeer <$> SessionStates.connections st own) ++
      (Call.RegisterConnection (session_id st) <$> to_register st own after) ->
  registered own l = pair own <$> to_register st own after.
Proof.
  intros ->. unfold registered. set (f := fun c => _).
  assert (forall ks : list bytes, omap f (Call.ConnectPeer <$> ks) = []) as Hc by by induction ks.
  assert (forall ks : list bytes, omap f (Call.RegisterConnection (session_id st) <$> ks) = pair own <$> ks) as Hr.
  { intros ks. induction ks as [|k ks IH]; [done |]. cbn. by rewrite IH. }
  rewrite !omap_app, Hc, Hr. by case_bool_decide.
Qed.

(** C34. The handlers of all parties make the session active.  Take a session
    of distinct parties, its owner driven by a [SessionInitiator] and the
    others by [SessionParticipant]s, and let each be told of the session, that
    it is ready, and then of peer connections.  Over the whole run the owner
    asks for the session once, every party connects to exactly the peers after
    it in the session, in order, and registers exactly those of them that are
    reported connected, whatever other connections are reported.  When the
    server registers all of these, the session is active if and only if every
    prescribed connection was reported to the party that made it.  An
    initiator that is told of a connection before its session panics. *)
Theorem session_handlers_activate {HO : HashOrder} {HL : HashOrderLaws HO} (sm : SessionManager.t)
    (id : Uuid) (now : SystemTime) (owner : bytes) (keys : list bytes)
    (before after : bytes -> list Event.t) (s : Session.t) :
  let st := {| session_id := id; all_participants := owner :: keys |} in
  NoDup (owner :: keys) ->
  (forall p, before p <> [] /\ Forall ordinary (before p) /\ peers_connected (before p) = [] /\
    Forall ordinary (after p)) ->
  SessionManager.get_session (SessionManager.new_session sm id now owner keys).1 id = Some s ->
  let run p := feed (party_events owner p st (before p) (after p)) (new_handler owner p keys) in
  let calls_of p := calls (session_transport (run p).1) in
  (forall p, (run p).2 = Ok tt /\
    calls_of p = (if bool_decide (p = owner) then [Call.NewSession keys] else []) ++
      (Call.ConnectPeer <$> SessionStates.connections st p) ++
      (Call.RegisterConnection id <$>
        filter (fun k => k ∈ SessionStates.connections st p) (peers_connected (after p)))) /\
  (Session.is_active (register_all s ((owner :: keys) ≫= (fun p => registered p (calls_of p)))) = true
    <-> forall p k, p ∈ owner :: keys -> k ∈ SessionStates.connections st p ->
      k ∈ peers_connected (after p)) /\
  (forall k, (feed (before owner ++ [Event.PeerConnected k]) (new_handler owner owner keys)).2 = Panic).
Proof.
  intros st Hnd Hev Hs run calls_of.
  assert (forall p, (run p).2 = Ok tt /\ calls_of p =
    (if bool_decide (p = owner) then [Call.NewSession keys] else []) ++
    (Call.ConnectPeer <$> SessionStates.connections st p) ++
    (Call.RegisterConnection id <$> to_register st p (after p))) as Hrun.
  { intros p. destruct (Hev p) as (H1 & H2 & H3 & H4). unfold calls_of, run.
    by destruct (party_run owner p keys st (before p) (after p) H1 H2 H3 H4) as (h & -> & ?). }
  split_and!; [exact Hrun | |].
  - assert (forall p k, (p, k) ∈ (owner :: keys) ≫= (fun p => registered p (calls_of p)) <->
      p ∈ owner :: keys /\ k ∈ SessionStates.connections st p /\ k ∈ peers_connected (after p)) as Hreg.
    { intros p k. rewrite list_elem_of_bind. split.
      - intros (q & Hl & Hq).
        rewrite (registered_party q st keys owner (after q)) in Hl by apply Hrun.
        apply list_elem_of_fmap in Hl as (k' & [= -> ->] & Hk'). unfold to_register in Hk'.
        by apply list_elem_of_filter in Hk' as [? ?].
      - intros (Hp & Hk & Hin). exists p. split; [|done].
        rewrite (registered_party p st keys owner (after p)) by apply Hrun.
        apply list_elem_of_fmap. exists k. split; [done |]. by apply list_elem_of_filter. }
    rewrite (activate_iff sm id now owner keys _ s Hnd Hs).
    + split.
      * intros H p k Hp Hk. by apply Hreg, H.
      * intros H p k Hk. apply Hreg. destruct (decide (p ∈ owner :: keys)) as [Hp|Hp].
        -- split_and!; [done.. | by apply H].
        -- destruct (connections_one_way st Hnd) as (_ & _ & Hout). fold st in Hk.
           rewrite Hout in Hk by done. by apply elem_of_nil in Hk.
    + intros p k Hpk. by apply Hreg in Hpk as (_ & ? & _).
  - intros k. destruct (Hev owner) as (H1 & H2 & H3 & _). unfold new_handler.
    rewrite bool_decide_true by done.
    by rewrite (feed_app _ _ _ _ (initiator_requests _ _ _ H1 H2 H3)).
Qed.
End spec.

#[local] Existing Instance ElementsOrder.

(** Two parties: the owner connects to the participant, and the session is
    active. *)
Lemma session_handlers_activate_witness :
  let owner := [Byte.x0a] in let other := [Byte.x0b] in
  let st := {| session_id := zeros 16; all_participants := [owner; other] |} in
  let events (p : bytes) := if bool_decide (p = owner) then [Event.PeerConnected other] else [] in
  let run p := feed (party_events owner p st [Event.ServerConnected []] (events p))
    (new_handler owner p [other]) in
  Session.is_active (register_all
    {| Session.owner_key := owner; Session.participant_keys := list_to_set [other];
       Session.connections := ∅; Session.last_access := 0 |}
    ([owner; other] ≫= (fun p => registered p (calls (session_transport (run p).1))))) = true.
Proof.
  intros owner other st events run.
  apply (session_handlers_activate (HO := ElementsOrder) SessionManager.default (zeros 16) 0 owner [other]
    (fun _ => [Event.ServerConnected []]) events).
  - apply list.NoDup_cons. split; [|apply NoDup_singleton].
    rewrite list_elem_of_singleton. discriminate.
  - intros p. split_and!; [done | by repeat constructor | done |]. unfold events.
    case_bool_decide; by repeat constructor.
  - apply lookup_insert_eq.
  - intros p k Hp Hk. rewrite !elem_of_cons, elem_of_nil in Hp. destruct Hp as [->|[->|[]]].
    + change (k ∈ [other]) in Hk. apply list_elem_of_singleton in Hk as ->. by left.
    + change (k ∈ @nil bytes) in Hk. by apply elem_of_nil in Hk.
Defined.
