(* ===== verification/SessionRun.v ===== *)
(** * Runs of the session handlers and of the closing waits

    What a party needs of its transport and of its event stream for the phases
    around a protocol to come to their end, over any transport: the transport
    is described by a predicate for every point of the stream, and an item of
    the stream takes one to the next. *)

From S2P Require Import Prelude Types Sessions Net Client Transport Driver SessionHandlers.

Section run.
Context {T : Type} {NT : NetworkTransport T}.

(** An operation succeeds wherever [P] holds, and [Q] holds then. *)
Definition performs {A} (m : SM T ClientError.t A) (P Q : T -> Prop) : Prop :=
  forall t, P t -> exists t' a, m t = (t', Ok a) /\ Q t'.

(** [P] before an item of a stream, and [Q] before its event is handled. *)
Definition turns (item : Item T) (P Q : T -> Prop) : Prop := forall t, P t -> Q (turn item t).

(** ** Opening a session *)

(** What a handler knows of its session; a participant asks for nothing. *)
Inductive Know := Unasked | Unknown | Known.

(** The handler of a party, which is the initiator when it names the other
    participants, of the session [s]. *)
Definition handler_of (role : option (list bytes)) (s : SessionState) (k : Know) (t : T) : SessionHandler T :=
  match role with
  | Some participants => Initiator {|
      initiator_transport := t; session_participants := participants;
      initiator_state := match k with Known => Some s | _ => None end;
      requested_session := match k with Unasked => false | _ => true end |}
  | None => Participant {|
      participant_transport := t; participant_state := match k with Known => Some s | _ => None end |}
  end.

Definition first_know (role : option (list bytes)) : Know :=
  match role with Some _ => Unasked | None => Unknown end.

(** An event of the session [s] that a handler takes in its stride: only the
    initiator is told that the session was created, and it must be told so
    before it is told of a connection. *)
Definition expected_event (role : option (list bytes)) (s : SessionState) (k : Know) (e : Event.t) : Prop :=
  match e with
  | Event.SessionCreated s' => s' = s
  | Event.SessionReady s' => s' = s
  | Event.SessionActive _ => False
  | Event.PeerConnected _ => is_Some role -> k = Known
  | _ => True
  end.

Definition next_know (role : option (list bytes)) (k : Know) (e : Event.t) : Know :=
  match e, role with
  | Event.SessionCreated _, Some _ => Known
  | Event.SessionReady _, None => Known
  | _, _ => k
  end.

(** What the party [own] asks of its transport on an event. *)
Definition asks (s : SessionState) (own : bytes) (k : Know) (e : Event.t) : SM T ClientError.t unit :=
  match e with
  | Event.SessionReady _ => sm_for (SessionStates.connections s own) transport_connect_peer
  | Event.PeerConnected p =>
      match k with
      | Known => if bool_decide (p ∈ SessionStates.connections s own)
                 then transport_register_connection (session_id s) p else mret tt
      | _ => mret tt
      end
  | _ => mret tt
  end.

(** A stream that opens the session [s] for the party [own], from a transport
    that satisfies [P], and ends when the session is active, with [I]. *)
Inductive opens_session (role : option (list bytes)) (s : SessionState) (own : bytes) (I : T -> Prop) :
    Know -> (T -> Prop) -> list (Item T) -> Prop :=
| opens_active k P item :
    k <> Unasked -> next item = Ok (Event.SessionActive s) -> turns item P I ->
    opens_session role s own I k P [item]
| opens_asking participants P P' item event stream :
    role = Some participants ->
    next item = Ok event -> (forall s', event <> Event.SessionActive s') ->
    (forall s', event <> Event.SessionCreated s') -> (forall s', event <> Event.SessionReady s') ->
    (forall p, event <> Event.PeerConnected p) ->
    turns item P (fun t => transport_is_connected t = true /\
      exists t' a, transport_new_session participants t = (t', Ok a) /\ P' t') ->
    opens_session role s own I Unknown P' stream ->
    opens_session role s own I Unasked P (item :: stream)
| opens_event k P P' item event stream :
    k <> Unasked -> next item = Ok event -> expected_event role s k event ->
    turns item P (fun t => transport_public_key t = own /\
      exists t' a, asks s own k event t = (t', Ok a) /\ P' t') ->
    opens_session role s own I (next_know role k event) P' stream ->
    opens_session role s own I k P (item :: stream).

Lemma initiator_call_ok {A} (m : SM T ClientError.t A) s t' a :
  m (initiator_transport s) = (t', Ok a) -> initiator_call m s = (set_initiator_transport t' s, Ok a).
Proof. intros H. unfold initiator_call. by rewrite H. Qed.

Lemma participant_call_ok {A} (m : SM T ClientError.t A) s t' a :
  m (participant_transport s) = (t', Ok a) -> participant_call m s = (set_participant_transport t' s, Ok a).
Proof. intros H. unfold participant_call. by rewrite H. Qed.

(** A loop of calls is a call of the loop. *)
Lemma initiator_call_for {A} (l : list A) (f : A -> SM T ClientError.t unit) s :
  sm_for l (fun x => initiator_call (f x)) s = initiator_call (sm_for l f) s.
Proof.
  revert s. induction l as [|x l IH]; intros s; cbn [sm_for].
  { unfold initiator_call. by destruct s. }
  unfold mbind at 1, SM_bind at 1. unfold initiator_call at 1 3, mbind, SM_bind.
  destruct (f x (initiator_transport s)) as [t [u| |]]; cbn [map_err]; [|done..].
  rewrite IH. unfold initiator_call. cbn [initiator_transport set_initiator_transport].
  by destruct (sm_for l f t).
Qed.

Lemma participant_call_for {A} (l : list A) (f : A -> SM T ClientError.t unit) s :
  sm_for l (fun x => participant_call (f x)) s = participant_call (sm_for l f) s.
Proof.
  revert s. induction l as [|x l IH]; intros s; cbn [sm_for].
  { unfold participant_call. by destruct s. }
  unfold mbind at 1, SM_bind at 1. unfold participant_call at 1 3, mbind, SM_bind.
  destruct (f x (participant_transport s)) as [t [u| |]]; cbn [map_err]; [|done..].
  rewrite IH. unfold participant_call. cbn [participant_transport set_participant_transport].
  by destruct (sm_for l f t).
Qed.

(** An expected event asks the transport for what it should, and nothing
    else. *)
Lemma initiator_event participants s k own event t t' a :
  k <> Unasked -> expected_event (Some participants) s k event -> transport_public_key t = own ->
  asks s own k event t = (t', Ok a) ->
  session_handle_event event (handler_of (Some participants) s k t) =
  (handler_of (Some participants) s (next_know (Some participants) k event) t', Ok None).
Proof.
  intros Hk He Hown Ha. cbn [session_handle_event handler_of]. unfold initiator_handle_event.
  unfold mbind at 1, SM_bind at 1, initiator_new_session. cbn [requested_session].
  replace (match k with Unasked => false | _ => true end) with true by by destruct k.
  cbn [negb andb]. destruct event; cbn in He |- *; cbn [asks] in Ha; try done;
    try (injection Ha as <- _; unfold set_initiator_state; cbn; subst; by destruct k).
  - rewrite He in * by by eexists. unfold mbind, SM_bind. cbn. rewrite Hown.
    case_bool_decide; [|by injection Ha as <- _].
    by rewrite (initiator_call_ok _ _ t' a).
  - subst. unfold mbind, SM_bind. cbn [sm_gets initiator_transport].
    rewrite initiator_call_for, (initiator_call_ok _ _ t' a) by exact Ha. by destruct k.
Qed.

Lemma participant_event s k own event t t' a :
  expected_event None s k event -> transport_public_key t = own ->
  asks s own k event t = (t', Ok a) ->
  session_handle_event event (handler_of None s k t) =
  (handler_of None s (next_know None k event) t', Ok None).
Proof.
  intros He Hown Ha. cbn [session_handle_event handler_of]. unfold participant_handle_event.
  destruct event; cbn in He |- *; cbn [asks] in Ha; try done; try (injection Ha as <- _; by destruct k).
  - unfold mbind, SM_bind. cbn [sm_gets participant_state]. destruct k.
    + by injection Ha as <- _.
    + by injection Ha as <- _.
    + cbn. rewrite Hown. case_bool_decide; [|by injection Ha as <- _].
      by rewrite (participant_call_ok _ _ t' a).
  - subst. unfold mbind, SM_bind. cbn [sm_modify sm_gets].
    cbn [participant_transport set_participant_state].
    rewrite participant_call_for, (participant_call_ok _ _ t' a) by exact Ha. by destruct k.
Qed.

Lemma handler_event role s k own event t t' a :
  k <> Unasked -> expected_event role s k event -> transport_public_key t = own ->
  asks s own k event t = (t', Ok a) ->
  session_handle_event event (handler_of role s k t) =
  (handler_of role s (next_know role k event) t', Ok None).
Proof. destruct role; [apply initiator_event | intros _; apply participant_event]. Qed.

Lemma handler_active role s k t : k <> Unasked ->
  session_handle_event (Event.SessionActive s) (handler_of role s k t) =
  (handler_of role s k t, Ok (Some s)).
Proof. intros Hk. destruct role; [|done]. by destruct k. Qed.

(** The first event an initiator is given with a connected transport. *)
Lemma handler_asking participants s event t t' a :
  (forall s', event <> Event.SessionActive s') -> (forall s', event <> Event.SessionCreated s') ->
  (forall s', event <> Event.SessionReady s') -> (forall p, event <> Event.PeerConnected p) ->
  transport_is_connected t = true -> transport_new_session participants t = (t', Ok a) ->
  session_handle_event event (handler_of (Some participants) s Unasked t) =
  (handler_of (Some participants) s Unknown t', Ok None).
Proof.
  intros H1 H2 H3 H4 Hc Hn. cbn [session_handle_event handler_of]. unfold initiator_handle_event.
  unfold mbind at 1, SM_bind at 1, initiator_new_session. cbn [requested_session initiator_transport].
  rewrite Hc. cbn [negb andb]. unfold mbind at 1, SM_bind at 1.
  rewrite (initiator_call_ok _ _ t' a) by exact Hn.
  destruct event; try done; exfalso;
    first [by eapply H1 | by eapply H2 | by eapply H3 | by eapply H4].
Qed.

Lemma session_transport_of role s k t : session_transport (handler_of role s k t) = t.
Proof. by destruct role. Qed.

Lemma session_in_transport_of role s k f t :
  session_in_transport f (handler_of role s k t) = handler_of role s k (f t).
Proof. by destruct role. Qed.

(** Waiting for a session on a stream that opens it. *)
Lemma wait_for_session_opens role s own I k P stream tail t :
  opens_session role s own I k P stream -> P t ->
  exists t', wait_for_session (stream ++ tail) (handler_of role s k t) = Ok (tail, t', s) /\ I t'.
Proof.
  intros H. revert t. unfold wait_for_session.
  induction H as [k P item Hk Hn Ht | participants P P' item event stream -> Hn H1 H2 H3 H4 Ht _ IH
    | k P P' item event stream Hk Hn He Ht _ IH]; intros t HP; cbn [app wait_loop]; unfold wait_item;
    cbn [handle_event in_transport SessionHandler_events]; rewrite session_in_transport_of, Hn.
  - rewrite handler_active by done. exists (turn item t). split; [|by apply Ht].
    unfold mbind, Res_bind. by rewrite session_transport_of.
  - destruct (Ht t HP) as (Hc & t' & a & Hnew & HP').
    rewrite (handler_asking participants s event _ t' a) by done. by apply IH.
  - destruct (Ht t HP) as (Hown & t' & a & Ha & HP').
    rewrite (handler_event role s k own event _ t' a) by done. by apply IH.
Qed.

(** ** Waiting for an event *)

(** Items that a wait can pass over without losing [I]. *)
Definition passes (I : T -> Prop) (stream : list (Item T)) : Prop :=
  Forall (fun item => (exists event, next item = Ok event) /\ turns item I I) stream.

(** A wait finds its event at the latest where it is known to be. *)
Lemma wait_event_finds found (I : T -> Prop) pre item event post t :
  passes I pre -> next item = Ok event -> found event = true -> turns item I I -> I t ->
  exists rest t', wait_event found (pre ++ item :: post) t = Ok (rest ++ post, t') /\
    passes I rest /\ I t'.
Proof.
  intros Hpre Hn Hf Ht. revert t. unfold wait_event.
  induction Hpre as [|item' pre [[event' Hn'] Ht'] Hpre IH]; intros t HI; cbn [app wait_loop]; unfold wait_item;
    cbn [handle_event in_transport watch].
  - rewrite Hn, Hf. exists [], (turn item t). split_and!; [done | by apply list.Forall_nil | by apply Ht].
  - rewrite Hn'. destruct (found event').
    + exists (pre ++ [item]), (turn item' t). split_and!.
      * by rewrite <- app_assoc.
      * apply Forall_app. split; [done |]. apply Forall_singleton. split; [by exists event | done].
      * by apply Ht'.
    + apply IH. by apply Ht'.
Qed.
End run.
