(* ===== verification/RelaySpec.v ===== *)
(** * Protocol messages over the relay client

    The bridge on the one transport there is: what it queues for its peers,
    and that they can open it. *)

From S2P Require Import Prelude Types Stream Encoding EncodingFacts Noise Channel ChannelSpec Sessions SessionsFacts Keypair Zlib Net.
From S2P Require Import Client ClientFacts Transport Round Driver DriverFacts.

Section relay.
Context {BS : BinaryStream encoding_options} {BL : BinaryStreamLaws encoding_options BS}.
Context {SC : StatusCodes} {SL : StatusCodesLaws SC} {HO : HashOrder} {HL : HashOrderLaws HO}.
Context {N : Noise} {NL : NoiseLaws N} {FL : Flate} {FLL : FlateLaws FL} {HX : Hex}.

(** A client that can send to the peers [keys]: it holds transports in step
    with the ones they hold for it, [theirs]. *)
Definition can_send (keys : list bytes) (theirs : bytes -> TransportState) (c : Client) : Prop :=
  receiver_open (outbound c) = true /\
  forall k, k ∈ keys -> exists a, peers c !! k = Some (Noise.Transport a) /\ in_step a (theirs k).

(** A queued request that the peer [k] opens to a payload. *)
Definition opens (theirs : bytes -> TransportState) (id : Uuid) (enc : Encoding.t) (bcast : bool)
    (send : bytes * bytes) (m : InternalMessage.t) : Prop :=
  exists env b, m = InternalMessage.Request (RequestMessage.Opaque
      (OpaqueMessage.PeerMessage send.1 (Some id) env)) /\
    wf_envelope env /\ broadcast env = bcast /\
    decrypt_peer_channel env (Noise.Transport (theirs send.1)) = (Noise.Transport b, Ok (enc, send.2)).

(** The client after it queued messages for peers. *)
Definition queued (c c' : Client) (l : list InternalMessage.t) : Prop :=
  queue (outbound c') = queue (outbound c) ++ l /\ options c' = options c.

(** Sending to a list of distinct peers. *)
Lemma client_relay_all (keys : list bytes) (theirs : bytes -> TransportState) (id : Uuid)
    (enc : Encoding.t) (bcast : bool) (sends : list (bytes * bytes)) (c : Client) :
  enc <> Encoding.Noop -> can_send keys theirs c -> NoDup sends.*1 ->
  Forall (fun x => x.1 ∈ keys /\ fits_envelope x.2) sends ->
  exists c' l theirs', sm_for sends (fun x => client_relay x.1 x.2 enc bcast (Some id)) c = (c', Ok tt) /\
    queued c c' l /\ Forall2 (opens theirs id enc bcast) sends l /\ can_send keys theirs' c'.
Proof.
  intros Henc Hc Hnd Hs. revert c theirs Hc Hnd.
  induction Hs as [|[k p] sends [Hk Hp] _ IH]; intros c theirs Hc Hnd; cbn [sm_for].
  { exists c, [], theirs. split_and!; [done | split; [by rewrite app_nil_r | done] | constructor | done]. }
  cbn in Hk, Hp, Hnd. apply list.NoDup_cons in Hnd as [Hnk Hnd]. destruct Hc as [Ho Hc].
  destruct (Hc k Hk) as (a & Ha & Hstep).
  destruct (peer_channel_in_step k p enc bcast (Some id) a (theirs k) Hstep Hp Henc)
    as (a' & b' & env & H1 & H2 & H3 & H4 & H5).
  set (c1 := set_outbound (chan_push (InternalMessage.Request (RequestMessage.Opaque
    (OpaqueMessage.PeerMessage k (Some id) env))) (outbound c)) (set_peers (<[k := Noise.Transport a']> (peers c)) c)).
  assert (client_relay k p enc bcast (Some id) c = (c1, Ok tt)) as Hrelay.
  { unfold client_relay, mbind, SM_bind, on_peer. rewrite Ha, H1. by rewrite outbound_send_ok. }
  set (theirs1 := fun k' => if decide (k' = k) then b' else theirs k').
  destruct (IH c1 theirs1) as (c' & l & theirs' & Hrun & [Hq Hopt] & Hall & Hc').
  { split; [done |]. intros k' Hk'. unfold theirs1. cbn [peers c1 set_outbound set_peers].
    destruct (decide (k' = k)) as [->|Hne].
    - exists a'. split; [apply lookup_insert_eq | done].
    - destruct (Hc k' Hk') as (a'' & ? & ?). exists a''. by rewrite lookup_insert_ne. }
  { done. }
  exists c', (InternalMessage.Request (RequestMessage.Opaque
    (OpaqueMessage.PeerMessage k (Some id) env)) :: l), theirs'.
  split_and!; [ | split; [|done] | constructor; [|] | done].
  - unfold mbind, SM_bind. cbn [fst snd]. by rewrite Hrelay.
  - rewrite Hq. cbn. by rewrite <- app_assoc.
  - by exists env, b'.
  - clear -Hall Hnk.
    induction Hall as [|x y sends l (e & b & -> & Hw & Hb & Hd) _ IH]; [constructor |].
    cbn in Hnk. apply not_elem_of_cons in Hnk as [Hne Hnk]. constructor; [|by apply IH].
    exists e, b. split_and!; try done. unfold theirs1 in Hd.
    by rewrite decide_False in Hd by congruence.
Qed.

Context {D : Type} {PD : ProtocolDriver D}.

(** ** Dispatch *)

(** The peers of a session, and the key a message is sent to. *)
Definition session_peers (s : SessionState) (own : bytes) : list bytes := SessionStates.recipients s own.

(** A list of messages a bridge sends, as peers and payloads: a single
    broadcast to every peer, or each message to its receiver. *)
Definition routed (s : SessionState) (own : bytes) (messages : list (Outgoing D))
    (bcast : bool) (sends : list (bytes * bytes)) : Prop :=
  if bcast then
    exists m p, messages = [m] /\ is_broadcast m = true /\ to_vec m = Ok p /\
      sends = (fun k => (k, p)) <$> session_peers s own
  else
    (forall m, messages = [m] -> is_broadcast m = false) /\
    Forall2 (fun m x => exists n, round_receiver m = Some n /\
      SessionStates.peer_key s n = Some x.1 /\ to_vec m = Ok x.2) messages sends.

Abbreviation RelayBridge := (Bridge Transport D).

Lemma send_to_peer_relay (m : Outgoing D) n k p c (b : RelayBridge) :
  transport b = Relay c -> round_receiver m = Some n ->
  SessionStates.peer_key (session b) n = Some k -> to_vec m = Ok p ->
  send_to_peer m b =
  let '(c', r) := client_relay k p Encoding.Json false (Some (session_id (session b))) c in
  (set_transport (Relay c') b, map_err perror_client r).
Proof.
  intros Ht Hn Hk Hp. unfold send_to_peer, mbind, SM_bind, sm_lift. rewrite Hn. cbn [unwrap].
  rewrite Hk. cbn [unwrap]. unfold on_transport. rewrite Ht.
  cbn [transport_send_json Transport_network]. unfold Transport_send_json, on_relay.
  rewrite (send_json_relay k m p) by done. by destruct (client_relay _ _ _ _ _ c).
Qed.

Lemma send_each_relay (messages : list (Outgoing D)) sends c c' (b : RelayBridge) :
  transport b = Relay c ->
  Forall2 (fun m x => exists n, round_receiver m = Some n /\
    SessionStates.peer_key (session b) n = Some x.1 /\ to_vec m = Ok x.2) messages sends ->
  sm_for sends (fun x => client_relay x.1 x.2 Encoding.Json false (Some (session_id (session b)))) c
    = (c', Ok tt) ->
  sm_for messages send_to_peer b = (set_transport (Relay c') b, Ok tt).
Proof.
  revert sends c b. induction messages as [|m messages IH]; intros sends c b Ht Hall Hrun.
  - apply Forall2_nil_inv_l in Hall as ->. cbn in Hrun. injection Hrun as <-.
    cbn. rewrite <- Ht. by destruct b.
  - apply Forall2_cons_inv_l in Hall as ([k p] & sends' & (n & Hn & Hk & Hp) & Hall & ->).
    cbn [sm_for] in *. unfold mbind at 1, SM_bind at 1. unfold mbind at 1, SM_bind at 1 in Hrun.
    rewrite (send_to_peer_relay m n k p c) by done. cbn [fst snd] in Hrun.
    destruct (client_relay k p _ _ _ c) as [c1 [[]| |]]; [|done..]. cbn [map_err].
    by apply (IH sends' c1 (set_transport (Relay c1) b)).
Qed.

Lemma sm_for_fmap {S E A B} (g : A -> B) (l : list A) (f : B -> SM S E unit) s :
  sm_for (g <$> l) f s = sm_for l (fun x => f (g x)) s.
Proof.
  revert s. induction l as [|x l IH]; intros s; [done |]. cbn [fmap list_fmap sm_for].
  unfold mbind, SM_bind. destruct (f (g x) s) as [s' []]; [apply IH | done..].
Qed.

(** The relay carries what can be routed to peers it can send to. *)
Lemma dispatch_relay (s : SessionState) (own : bytes) (messages : list (Outgoing D)) (bcast : bool)
    (sends : list (bytes * bytes)) (theirs : bytes -> TransportState) (c : Client) (b : RelayBridge) :
  routed s own messages bcast sends -> NoDup sends.*1 ->
  Forall (fun x => x.1 ∈ session_peers s own /\ fits_envelope x.2) sends ->
  session b = s -> transport b = Relay c -> client_public_key c = own ->
  can_send (session_peers s own) theirs c ->
  exists c' l theirs', dispatch_round_messages messages b = (set_transport (Relay c') b, Ok tt) /\
    queued c c' l /\ Forall2 (opens theirs (session_id s) Encoding.Json bcast) sends l /\
    can_send (session_peers s own) theirs' c'.
Proof.
  intros Hr Hnd Hfit Hs Ht Hown Hcan.
  destruct (client_relay_all _ theirs (session_id s) Encoding.Json bcast sends c ltac:(done) Hcan Hnd Hfit)
    as (c' & l & theirs' & Hrun & Hq & Hall & Hcan').
  exists c', l, theirs'. split_and!; try done.
  destruct bcast; unfold routed in Hr.
  - destruct Hr as (m & p & -> & Hb & Hp & ->). rewrite sm_for_fmap in Hrun. cbn [fst snd] in Hrun.
    unfold dispatch_round_messages. rewrite Hb, Hs, Ht. unfold on_transport. rewrite Ht.
    cbn [transport_broadcast_json transport_public_key Transport_network].
    unfold Transport_broadcast_json, on_relay, Transport_public_key, broadcast_json, lift_err, mbind, SM_bind,
      sm_lift. rewrite Hp. cbn [map_err]. unfold relay_broadcast. rewrite Hown.
    unfold session_peers in Hrun. by rewrite Hrun.
  - destruct Hr as [Hsingle Hall2].
    rewrite <- Hs in Hrun, Hall2. pose proof (send_each_relay messages sends c c' b Ht Hall2 Hrun) as Hsend.
    unfold dispatch_round_messages. destruct messages as [|m [|m' messages]]; [exact Hsend | | exact Hsend].
    rewrite Hsingle by done. cbn [sm_for] in Hsend. unfold mbind, SM_bind in Hsend.
    destruct (send_to_peer m b) as [b1 [[]| |]]; [exact Hsend | done..].
Qed.

(** A relay transport of the party [own] that can send to its peers. *)
Definition relay_ready (s : SessionState) (own : bytes) (t : Transport) : Prop :=
  match t with
  | Relay c => client_public_key c = own /\ exists theirs, can_send (session_peers s own) theirs c
  end.

(** C35. Protocol messages go to the right peers over the relay.  Let a party's
    client hold, for every other party of the session, a transport in step
    with that party's.  When the driver produces a single broadcast, the
    bridge queues one request for every other party of the session, in the
    session's order and marked as broadcast; otherwise, when no two messages
    are for the same party, it queues each message for the party whose number
    is the message's receiver.  Each request names
    the session, fits the wire format, and is opened by the party it is for to
    the JSON of the message.  The client can still send to every party, so a
    transport that is ready remains ready: the bridge can dispatch what a
    protocol produces, round after round. *)
Theorem bridge_sends_over_relay (s : SessionState) (own : bytes) (messages : list (Outgoing D))
    (bcast : bool) (sends : list (bytes * bytes)) :
  routed s own messages bcast sends -> NoDup sends.*1 ->
  Forall (fun x => x.1 ∈ session_peers s own /\ fits_envelope x.2) sends ->
  (forall (theirs : bytes -> TransportState) (c : Client) (b : RelayBridge),
    session b = s -> transport b = Relay c -> client_public_key c = own ->
    can_send (session_peers s own) theirs c ->
    exists c' l theirs', dispatch_round_messages messages b = (set_transport (Relay c') b, Ok tt) /\
      queued c c' l /\ Forall2 (opens theirs (session_id s) Encoding.Json bcast) sends l /\
      can_send (session_peers s own) theirs' c') /\
  dispatchable (relay_ready s own) s messages.
Proof.
  intros Hr Hnd Hfit. split.
  - intros theirs c b. by apply dispatch_relay.
  - intros b Hs Hready. unfold relay_ready in Hready.
    destruct (transport b) as [c] eqn:Ht. destruct Hready as [Hown [theirs Hcan]].
    destruct (dispatch_relay s own messages bcast sends theirs c b Hr Hnd Hfit Hs Ht Hown Hcan)
      as (c' & l & theirs' & Hdis & [_ Hopt] & _ & Hcan').
    exists (Relay c'). split; [done |]. split; [|by exists theirs'].
    unfold client_public_key. by rewrite Hopt.
Qed.
End relay.

(** ** Evaluation on the reference clients *)

From S2P Require Import ServerRef ClientRef DriverRef.

Lemma bridge_sends_over_relay_witness :
  let s := {| session_id := the_id; all_participants := [alice; bob] |} in
  let b : Bridge Transport Collector := {| transport := Relay ref_alice;
    buffer := {| RoundBuffer.expected := ∅; RoundBuffer.messages := ∅ |};
    driver := None; session := s |} in
  exists c' l, dispatch_round_messages (T := Transport) (PD := Collector_protocol) [a_round_msg 1 7] b = (set_transport (Relay c') b, Ok tt) /\
    queued ref_alice c' l /\
    Forall2 (opens (fun _ => ref_transport) the_id Encoding.Json true) [(bob, [Byte.x01; Byte.x07])] l.
Proof.
  intros s b.
  destruct (bridge_sends_over_relay (PD := Collector_protocol) s alice [a_round_msg 1 7] true
    [(bob, [Byte.x01; Byte.x07])]) as [H _].
  - exists (a_round_msg 1 7), [Byte.x01; Byte.x07]. by split_and!.
  - apply NoDup_singleton.
  - repeat constructor.
  - destruct (H (fun _ => ref_transport) ref_alice b) as (c' & l & theirs' & H1 & H2 & H3 & _);
      [done | done | done | | by exists c', l].
    split; [done |]. intros k Hk. change (k ∈ [bob]) in Hk. apply list_elem_of_singleton in Hk as ->.
    exists ref_transport. split; [done | apply ref_in_step].
Defined.
