(* ===== verification/GG20Facts.v ===== *)
(** * Facts about the GG20 drivers

    The exchange of key share indices that comes before signing, and the
    positions it gives the parties. *)

From stdpp Require Import sorting.
From S2P Require Import Prelude Types Net Sessions SessionsFacts Client Transport Round RoundSpec Driver DriverFacts GG20 GG20Run.

Section facts.
Context {GL : GG20Library} {HX : Hex}.

#[local] Instance Z_le_total : Total Z.le.
Proof. intros x y. lia. Qed.
#[local] Instance Z_le_trans : Transitive Z.le.
Proof. intros x y z. lia. Qed.
#[local] Instance Z_le_anti : AntiSymm eq Z.le.
Proof. intros x y. lia. Qed.

(** The list of key share indices the parties of a session agree on. *)
Definition agreed (indices : list Z) : list Z := merge_sort Z.le indices.

Lemma agreed_sorted l : Sorted Z.le (agreed l).
Proof. apply Sorted_merge_sort, _. Qed.

Lemma agreed_perm l : agreed l ≡ₚ l.
Proof. apply merge_sort_Permutation. Qed.

Lemma agreed_ext l l' : l ≡ₚ l' -> agreed l = agreed l'.
Proof.
  intros H. apply (Sorted_unique Z.le); [apply agreed_sorted.. |]. by rewrite !agreed_perm.
Qed.

(** Collecting the indices of the other parties. *)
Lemma participant_collects (batch : list (Msg.t Z)) (d : ParticipantProtocolDriver) :
  sm_for batch participant_handle_incoming d =
  ({| party_number := party_number d; participants := participants d ++ (Msg.body <$> batch);
      local_key_index := local_key_index d |}, Ok tt).
Proof.
  revert d. induction batch as [|m batch IH]; intros d; cbn [sm_for fmap list_fmap].
  - rewrite app_nil_r. by destruct d.
  - unfold mbind, SM_bind. cbn [participant_handle_incoming]. unfold participant_handle_incoming at 1.
    rewrite IH. cbn. by rewrite <- app_assoc.
Qed.

(** A party tells its index in the one round there is. *)
Lemma participant_proceeds_with n i : 1 <= n < 2 ^ 16 ->
  proceed (ParticipantProtocolDriver_new n i) = (ParticipantProtocolDriver_new n i,
    Ok [{| RoundMsg.round := 1; RoundMsg.sender := n; RoundMsg.receiver := None; RoundMsg.body := i |}]).
Proof.
  intros Hn. cbn. unfold participant_proceed, RoundMsg.from_round. cbn.
  unfold RoundMsg.wrap, NonZeroU16_new. cbn. by rewrite (proj2 (Z.eqb_neq n 0)) by lia.
Qed.

(** The exchange of indices, from the number of the party on. *)
Lemma participant_protocol n i (batch : list (Msg.t Z)) : 1 <= n < 2 ^ 16 ->
  run_protocol (D := ParticipantProtocolDriver) [batch] (ParticipantProtocolDriver_new n i) =
  Ok (agreed (i :: (Msg.body <$> batch)),
      [[{| RoundMsg.round := 1; RoundMsg.sender := n; RoundMsg.receiver := None; RoundMsg.body := i |}]]).
Proof.
  intros Hn. unfold run_protocol.
  rewrite participant_proceeds_with by done.
  cbn [run_rounds]. change (@handle_incoming _ ParticipantProtocolDriver_protocol)
    with participant_handle_incoming.
  rewrite participant_collects. done.
Qed.

Lemma position_agreed (l : list Z) i : i ∈ l ->
  exists n, position (fun j => bool_decide (j = i)) l = Some n /\ 0 <= n < len l /\
    l !! Z.to_nat n = Some i.
Proof.
  intros Hi. destruct (position (fun j => bool_decide (j = i)) l) as [n|] eqn:E.
  - destruct (position_Some _ _ _ E) as (Hn & x & Hx & Hp%bool_decide_eq_true). subst x. by exists n.
  - pose proof (position_None _ _ E i Hi) as H. by rewrite bool_decide_eq_false in H.
Qed.

Lemma peer_key_lookup st n k : SessionStates.peer_key st n = Some k <->
  0 < n /\ all_participants st !! Z.to_nat (n - 1) = Some k.
Proof.
  unfold SessionStates.peer_key. rewrite find_peer_spec by lia. rewrite Z.sub_0_r.
  destruct (Z.ltb_spec 0 n); naive_solver lia.
Qed.
End facts.
