(* ===== verification/GG20Ref.v ===== *)
(** * A reference cryptographic library

    Key shares are their indices and everything else is trivial: the phases of
    key generation and signing evaluated without cryptography. *)

From S2P Require Import Prelude Types Stream Sessions Net Client Transport Recorder Round Driver DriverRef GG20 GG20Run.

(** A state machine that has nothing to say. *)
#[export] Instance Silent {Out} (out : Out) : StateMachine unit unit Out := {|
  machine_handle_incoming := fun _ s => (s, Ok tt);
  machine_proceed := fun s => (s, Ok tt);
  machine_drain_queue := fun s => (s, []);
  machine_current_round := fun _ => 1;
  machine_pick_output := fun _ => Some (Ok out);
|}.

(** A message without a body is the number of its round. *)
#[export] Instance Unit_json : SerdeJson (RoundMsg.t unit) := {|
  to_vec := fun m => Ok [byte_of (RoundMsg.round m)];
  from_slice := fun b => match b with
    | [r] => Ok {| RoundMsg.round := byte_val r; RoundMsg.sender := 2;
                   RoundMsg.receiver := None; RoundMsg.body := tt |}
    | _ => Err "invalid length"%string
    end;
|}.

(** Key shares are their indices, and everything else is trivial. *)
#[export] Instance RefGG20 : GG20Library := {|
  LocalKey := Z; ProtocolMessage := unit; Keygen := unit; OfflineProtocolMessage := unit;
  OfflineStage := unit; CompletedOfflineStage := unit; PartialSignature := unit; SignManual := unit;
  SignatureRecid := unit; Point := unit; BigInt := bytes;
  Keygen_machine := Silent 1;
  Keygen_new := fun _ _ _ => Ok tt;
  local_key_i := fun k => k;
  local_key_public_key := fun _ => tt;
  OfflineStage_machine := Silent tt;
  OfflineStage_new := fun _ _ _ => Ok tt;
  offline_public_key := fun _ => tt;
  SignManual_new := fun _ _ => Ok (tt, tt);
  SignManual_complete := fun _ _ => Ok tt;
  bigint_from_bytes := fun b => b;
  point_to_bytes := fun _ _ => zeros 65;
  verify := fun _ _ _ => Ok tt;
  keccak256 := fun _ => zeros 32;
|}.

#[export] Instance RefHex : Hex := {| hex_encode := fun _ => "00"%string |}.

(** ** A session of two *)

Definition key_a : bytes := [Byte.x0a].
Definition key_b : bytes := [Byte.x0b].
Definition two_parties : SessionState := {| session_id := zeros 16; all_participants := [key_a; key_b] |}.

Definition event_item (e : Event.t) : Item Recorder := {| turn := fun t => t; next := Ok e |}.

(** A message from the second party. *)
Definition from_b (l : bytes) : Item Recorder :=
  event_item (Event.JsonMessage key_b {| contents := l |} (Some (zeros 16))).

(** What the first party, who asks for the session, is told. *)
Definition opening_a : list (Item Recorder) := event_item <$>
  [Event.ServerConnected []; Event.SessionCreated two_parties; Event.SessionReady two_parties;
   Event.PeerConnected key_b; Event.SessionActive two_parties].
Definition closing_a : list (Item Recorder) := event_item <$>
  [Event.SessionFinished (zeros 16); Event.Close].

Definition recorder_a : Recorder := {| own_key := key_a; connected := true; calls := [] |}.
