(* ===== verification/GG20Spec.v ===== *)
(** * Properties of the GG20 drivers

    What the parties of a signing session agree on before they sign, and how
    their messages are routed. *)

From stdpp Require Import sorting.
From S2P Require Import Prelude Types Net Sessions SessionsFacts Client Transport Round RoundSpec Driver DriverFacts GG20 GG20Run GG20Facts.

Section spec.
Context {GL : GG20Library} {HX : Hex} {T : Type} {NT : NetworkTransport T}.

(** C36. Signing parties agree, and when their messages are routed right.
    Let the parties of a session hold key shares with the indices [index].
    Whatever the order in which the indices of the others reach a party, the
    exchange of indices gives every party the same sorted list of all of
    them, so no party fails to find itself in it: its [PreSignDriver] starts
    the offline stage as the party at the position of its own index.  The
    state machine numbers parties by that position, but the bridge sends to
    the party with that number in the session: a message for each number goes
    to the party it is meant for if and only if the session lists the parties
    in the order of their indices. *)
Theorem signing_parties_agree (st : SessionState) (index : bytes -> Z) (parameters : Parameters)
    (transport : T) :
  len (all_participants st) < 2 ^ 16 -> is_u16 (threshold parameters) ->
  let indices := index <$> all_participants st in
  let list_of := agreed indices in
  (forall p others n (batch : list (Msg.t Z)),
    all_participants st ≡ₚ p :: others -> Msg.body <$> batch ≡ₚ index <$> others -> 1 <= n < 2 ^ 16 ->
    run_protocol (D := ParticipantProtocolDriver) [batch] (ParticipantProtocolDriver_new n (index p)) =
      Ok (list_of, [[{| RoundMsg.round := 1; RoundMsg.sender := n; RoundMsg.receiver := None;
                        RoundMsg.body := index p |}]])) /\
  Sorted Z.le list_of /\ list_of ≡ₚ indices /\
  (forall p key, p ∈ all_participants st -> local_key_i key = index p ->
    exists i buffer, list_of !! Z.to_nat (i - 1) = Some (index p) /\ 1 <= i <= len list_of /\
      PreSignDriver_new transport parameters st key list_of =
        (inner ← map_err SignOfflineError (OfflineStage_new i list_of key);
         mret (new_bridge transport {| offline_inner := inner |} buffer st))) /\
  ((forall r k, SessionStates.peer_key st r = Some k -> list_of !! Z.to_nat (r - 1) = Some (index k)) <->
    Sorted Z.le indices).
Proof.
  intros Hlen Hthr indices list_of.
  assert (len list_of = len (all_participants st)) as Hl.
  { unfold len, list_of, indices. by rewrite agreed_perm, length_fmap. }
  split_and!.
  - intros p others n batch Hp Hb Hn. rewrite participant_protocol by done. do 2 f_equal.
    apply agreed_ext. unfold indices. by rewrite Hb, Hp.
  - apply agreed_sorted.
  - apply agreed_perm.
  - intros p key Hp Hk.
    assert (index p ∈ list_of) as Hin by (unfold list_of; rewrite agreed_perm; by apply list_elem_of_fmap_2).
    destruct (position_agreed list_of (index p) Hin) as (n & Hpos & Hn & Hlook).
    destruct (new_fixed_spec (I := Incoming SignOfflineDriver) (E := GG20Error) 6 (threshold parameters))
      as (buf & Hbuf & _); [by vm_compute |].
    exists (n + 1), buf. split_and!; [by replace (n + 1 - 1) with n by lia | lia | lia |].
    unfold PreSignDriver_new, mbind, Res_bind. rewrite Hbuf, Hk, Hpos. cbn [fmap option_fmap option_map ok_or].
    unfold as_u16. rewrite Z.mod_small by lia. unfold SignOfflineDriver_new, mbind, Res_bind.
    by destruct (OfflineStage_new _ _ _).
  - split.
    + intros H. assert (indices = list_of) as Heq; [|rewrite Heq; apply agreed_sorted].
      apply list_eq_same_length with (length indices); [|done |].
      { unfold list_of. by rewrite agreed_perm. }
      intros i x y _ Hx Hy. unfold indices in Hx. rewrite list_lookup_fmap in Hx.
      destruct (all_participants st !! i) as [k|] eqn:Hk; [|done]. cbn in Hx. injection Hx as <-.
      specialize (H (Z.of_nat i + 1) k). replace (Z.of_nat i + 1 - 1) with (Z.of_nat i) in H by lia.
      rewrite Nat2Z.id in H. rewrite H in Hy; [by injection Hy |].
      apply peer_key_lookup. split; [lia |]. replace (Z.of_nat i + 1 - 1) with (Z.of_nat i) by lia.
      by rewrite Nat2Z.id.
    + intros Hs r k [Hr Hk]%peer_key_lookup.
      assert (list_of = indices) as Heq.
      { apply (Sorted_unique Z.le); [apply agreed_sorted | done | apply agreed_perm]. }
      rewrite Heq. unfold indices. by rewrite list_lookup_fmap, Hk.
Qed.
End spec.

(** ** Evaluation *)

From S2P Require Import Recorder GG20Ref.

(** A session whose first party holds share 3 and whose second holds share 1:
    they agree on [1; 3], but a message for number 1 goes to the party with
    share 3. *)
Lemma signing_parties_agree_witness :
  let st := {| session_id := zeros 16; all_participants := [[Byte.x0a]; [Byte.x0b]] |} in
  let index k := if bool_decide (k = [Byte.x0a]) then 3 else 1 in
  run_protocol (D := ParticipantProtocolDriver)
    [[{| Msg.sender := 2; Msg.receiver := None; Msg.body := 1 |}]] (ParticipantProtocolDriver_new 1 3) =
    Ok ([1; 3], [[{| RoundMsg.round := 1; RoundMsg.sender := 1; RoundMsg.receiver := None; RoundMsg.body := 3 |}]]) /\
  ~ (forall r k, SessionStates.peer_key st r = Some k -> [1; 3] !! Z.to_nat (r - 1) = Some (index k)).
Proof.
  intros st index.
  destruct (signing_parties_agree st index {| parties := 3; threshold := 1 |}
    {| own_key := [Byte.x0a]; connected := true; calls := [] |}) as (H1 & _ & _ & _ & H2);
    [by vm_compute | by vm_compute |]. split.
  - by apply (H1 [Byte.x0a] [[Byte.x0b]] 1).
  - intros H. change [1; 3] with (agreed (index <$> all_participants st)) in H.
    apply H2 in H. change (Sorted Z.le [3; 1]) in H.
    apply Sorted_StronglySorted, StronglySorted_inv in H as [_ H]; [|intros x y z; lia].
    apply list.Forall_cons in H as [H _]. lia.
Defined.
