(* ===== verification/GG20Flow.v ===== *)
(** * The phases of key generation and signing

    How one phase of [keygen] or [sign] hands its transport and its stream to
    the next, over any transport. *)

From S2P Require Import Prelude Types Stream Sessions SessionsFacts Net Client Transport Round RoundSpec Driver DriverFacts DriverRun.
From S2P Require Import SessionHandlers SessionRun GG20 GG20Run GG20Facts.

Section flow.
Context {T : Type} {NT : NetworkTransport T}.

(** What a bridge leaves on the stream brings nothing to any bridge. *)
Lemma brings_nothing {D D'} {PD : ProtocolDriver D} {PD' : ProtocolDriver D'} (I : T -> Prop) id rest :
  brings (D := D) I id rest [] -> brings (D := D') I id rest [].
Proof.
  intros H. remember [] as l eqn:El in H.
  induction H as [|item event stream l Hn He Ht _ IH|]; [constructor | | done].
  apply (brings_other _ _ _ event); auto.
Qed.

Lemma brings_passes {D} {PD : ProtocolDriver D} (I : T -> Prop) id rest :
  brings (D := D) I id rest [] -> passes I rest.
Proof.
  intros H. remember [] as l eqn:El in H.
  induction H as [|item event stream l Hn He Ht _ IH|]; [by apply list.Forall_nil | | done].
  apply list.Forall_cons. split; [by split; [exists event |] | by apply IH].
Qed.

(** ** Closing *)

(** A stream on which a party can close: the initiator is told that its
    session has finished, and everyone that the socket is closed. *)
Inductive closes (I : T -> Prop) (id : Uuid) : bool -> list (Item T) -> Prop :=
| closes_socket pre item post :
    passes I pre -> next item = Ok Event.Close -> turns item I I ->
    closes I id false (pre ++ item :: post)
| closes_session pre item post :
    passes I pre -> next item = Ok (Event.SessionFinished id) -> turns item I I ->
    closes I id false post -> closes I id true (pre ++ item :: post).

Lemma closes_passes I id rest stream : passes I rest -> closes I id false stream ->
  closes I id false (rest ++ stream).
Proof.
  intros Hr H. inversion H as [pre item post Hpre Hn Ht|]; subst.
  rewrite app_assoc. apply closes_socket; [by apply Forall_app | done..].
Qed.

Lemma performs_call {A} (m : SM T ClientError.t A) (P Q : T -> Prop) t : performs m P Q -> P t ->
  exists t' a, call m t = Ok (t', a) /\ Q t'.
Proof. intros H HP. destruct (H t HP) as (t' & a & Hm & HQ). exists t', a. unfold call. by rewrite Hm. Qed.

Lemma close_all_closes (I : T -> Prop) id initiator rest stream t :
  (initiator = true -> performs (transport_close_session id) I I) -> performs transport_close I I ->
  passes I rest -> closes I id initiator stream -> I t ->
  close_all initiator id (rest ++ stream) t = Ok tt.
Proof.
  intros Hsession Hclose Hrest Hs HI.
  assert (forall stream t, closes I id false stream -> I t ->
    (call transport_close t ≫= (fun '(t, _) => _ ← wait_for_close stream t; mret tt)) = Ok tt) as Hsocket.
  { clear -Hclose. intros stream t H HI. inversion H as [pre item post Hpre Hn Ht|]; subst.
    destruct (performs_call _ _ _ t Hclose HI) as (t' & [] & -> & HI').
    unfold mbind, Res_bind, wait_for_close.
    by destruct (wait_event_finds (fun event => match event with Event.Close => true | _ => false end)
      I pre item Event.Close post t' Hpre Hn eq_refl Ht HI')
      as (rest & t'' & -> & _). }
  unfold close_all. inversion Hs as [pre item post Hpre Hn Ht|pre item post Hpre Hn Ht Hpost]; subst.
  - unfold mbind at 1, Res_bind at 1. cbn [mret Res_ret]. apply Hsocket; [|done].
    by apply closes_passes; [|apply closes_socket].
  - destruct (performs_call _ _ _ t (Hsession eq_refl) HI) as (t' & [] & -> & HI').
    unfold mbind, Res_bind, wait_for_session_finish. rewrite app_assoc.
    destruct (wait_event_finds (fun event => match event with
      | Event.SessionFinished id' => bool_decide (id = id') | _ => false end) I (rest ++ pre) item
      (Event.SessionFinished id) post t') as (rest' & t'' & -> & Hrest' & HI'');
      [by apply Forall_app | done | by rewrite bool_decide_true | done.. |].
    by apply Hsocket; [apply closes_passes|].
Qed.

(** ** Drivers *)

(** The number of a party in its session. *)
Lemma own_party_number_ok {HX : Hex} (t : T) (s : SessionState) n :
  NoDup (all_participants s) -> SessionStates.len s < 2 ^ 16 ->
  SessionStates.peer_key s n = Some (transport_public_key t) -> own_party_number t s = Ok n.
Proof.
  intros Hnd Hlen Hn. unfold own_party_number.
  by rewrite (proj2 (proj1 (party_number_iff s _ n Hnd Hlen)) Hn).
Qed.

Lemma filter_not_in (k : bytes) (l : list bytes) : k ∉ l -> filter (fun x => x <> k) l = l.
Proof.
  induction l as [|x l IH]; [done |]. intros [Hne Hk]%not_elem_of_cons.
  rewrite filter_cons_True by congruence. by rewrite IH.
Qed.

(** The others of a session of distinct parties. *)
Lemma recipients_others (s : SessionState) (own : bytes) n :
  NoDup (all_participants s) -> SessionStates.peer_key s n = Some own ->
  NoDup (SessionStates.recipients s own) /\
  len (SessionStates.recipients s own) = SessionStates.len s - 1.
Proof.
  intros Hnd [_ Hn]%peer_key_lookup. split; [by apply list.NoDup_filter |].
  apply list_elem_of_lookup_2 in Hn. unfold SessionStates.recipients, SessionStates.len, len.
  induction Hnd as [|k l Hk Hnd IH]; [by apply elem_of_nil in Hn |].
  destruct (decide (k = own)) as [->|Hne].
  - rewrite filter_cons_False by by intros []. cbn [length]. rewrite filter_not_in by done. lia.
  - rewrite filter_cons_True by done. apply elem_of_cons in Hn as [?|Hn]; [congruence |].
    cbn [length]. specialize (IH Hn). lia.
Qed.

(** A new buffer of as many rounds as a phase has. *)
Lemma gg20_buffer {A} (rounds n : Z) : is_u16 rounds ->
  exists buf, RoundBuffer.new_fixed (I := A) (E := GG20Error) rounds n = Ok buf.
Proof. intros H. destruct (new_fixed_spec (I := A) (E := GG20Error) rounds n H) as (b & ? & _). by exists b. Qed.
End flow.
