(* ===== verification/GG20RunSpec.v ===== *)
(** * Key generation and signing, from connection to close

    The phases of [keygen] and [sign] composed: what a party needs to be given
    for them to come to their end, and what is true of every result. *)

From stdpp Require Import sorting.
From S2P Require Import Prelude Types Stream Sessions SessionsFacts Net Client Transport Round RoundSpec Driver DriverFacts DriverRun DriverOutput.
From S2P Require Import SessionHandlers SessionRun GG20 GG20Run GG20Facts GG20Flow.

Section spec.
Context {GL : GG20Library} {HX : Hex} {T : Type} {NT : NetworkTransport T}.

(** A party of the session [s] around its protocols: the transport connects,
    the session opens on the stream [opening], and everything closes on the
    stream [closing]; in between the transport satisfies [I]. *)
Record party (I : T -> Prop) (role : option (list bytes)) (s : SessionState) (own : bytes) (n : Z)
    (opening closing : list (Item T)) (t0 : T) : Prop := {
  party_distinct : NoDup (all_participants s);
  party_count : SessionStates.len s < 2 ^ 16;
  party_own_number : SessionStates.peer_key s n = Some own;
  party_others : SessionStates.recipients s own <> [];
  party_key : forall t, I t -> transport_public_key t = own;
  party_opens : exists P, performs transport_connect (eq t0) P /\
    opens_session role s own I (first_know role) P opening;
  party_close_session : is_Some role -> performs (transport_close_session (session_id s)) I I;
  party_close : performs transport_close I I;
  party_closes : closes I (session_id s) (bool_decide (is_Some role)) closing;
}.

Lemma session_handler_of role s (t : T) : session_handler t role = handler_of role s (first_know role) t.
Proof. by destruct role. Qed.

(** The opening phase, to the session and a transport that satisfies [I]. *)
Lemma party_opening I role s own n opening closing t0 tail : party I role s own n opening closing t0 ->
  exists t1 u t2, call transport_connect t0 = Ok (t1, u) /\
    wait_for_session (opening ++ tail) (session_handler t1 role) = Ok (tail, t2, s) /\ I t2.
Proof.
  intros H. destruct (party_opens _ _ _ _ _ _ _ _ H) as (P & Hconn & Hopen).
  destruct (performs_call _ _ _ t0 Hconn eq_refl) as (t1 & u & Hc & HP).
  destruct (wait_for_session_opens role s own I _ P opening tail t1 Hopen HP) as (t2 & Hw & HI).
  exists t1, u, t2. by rewrite (session_handler_of role s).
Qed.

Lemma party_closing {D} {PD : ProtocolDriver D} I role s own n opening closing t0 rest t :
  party I role s own n opening closing t0 -> brings (D := D) I (session_id s) rest [] -> I t ->
  close_all (bool_decide (is_Some role)) (session_id s) (rest ++ closing) t = Ok tt.
Proof.
  intros [? ? ? ? ? ? Hcs Hc Hcl] Hr HI. apply (close_all_closes I); try done.
  - intros H%bool_decide_eq_true. by apply Hcs.
  - by apply (brings_passes (D := D) I (session_id s)).
Qed.

Lemma party_number_of I role s own n opening closing t0 t :
  party I role s own n opening closing t0 -> I t -> own_party_number t s = Ok n.
Proof.
  intros [Hnd Hlen Hn _ Hkey _ _ _ _] HI. apply own_party_number_ok; [done.. |]. by rewrite Hkey.
Qed.

(** A phase of a party, from a new buffer for as many messages in each round as
    there are other parties. *)
Lemma party_phase {D D'} {PD : ProtocolDriver D} {PD' : ProtocolDriver D'} I role s own n opening closing
    t0 rounds d stream output rest0 tail t messages :
  party I role s own n opening closing t0 -> len (SessionStates.recipients s own) = messages ->
  runs (D := D) I s (SessionStates.recipients s own) rounds d stream output ->
  1 <= rounds -> is_u16 rounds -> brings (D := D') I (session_id s) rest0 [] -> I t ->
  exists buf rest t', RoundBuffer.new_fixed (I := Incoming D) (E := PError D) rounds messages = Ok buf /\
    wait_for_driver (rest0 ++ stream ++ tail)
      {| transport := t; buffer := buf; driver := Some d; session := s |} = Ok (rest ++ tail, t', output) /\
    brings (D := D) I (session_id s) rest [] /\ I t'.
Proof.
  intros [Hnds _ Hn Hne _ _ _ _ _] <- Hr H1 Hu Hrest HI.
  destruct (recipients_others s own n Hnds Hn) as [Hnd _].
  destruct (new_fixed_spec (I := Incoming D) (E := PError D) rounds (len (SessionStates.recipients s own)) Hu)
    as (buf & Hbuf & _).
  destruct (driver_phase I s _ rounds d stream output rest0 buf tail t Hr)
    as (rest & t' & H); [by apply (brings_nothing (D := D')) | done.. |].
  by exists buf, rest, t'.
Qed.

(** C6. Key generation completes.  Take a party whose transport connects,
    whose session opens, becomes ready and active in any of the orders its
    handler expects, and closes (for the initiator after the session is
    reported finished), and let the parameters ask for as many parties as the
    session has.  If the library starts a key generation for the party's
    number in the session and, given the messages the other parties send in the
    four rounds, in any interleaving, produces a key share, then [keygen] runs
    through all its phases on the concatenated stream and returns that share. *)
Theorem keygen_completes (I : T -> Prop) (role : option (list bytes)) (s : SessionState) (own : bytes)
    (n : Z) (opening rounds closing : list (Item T)) (t0 : T) (parameters : Parameters)
    (machine : Keygen) (share : LocalKey) :
  party I role s own n opening closing t0 ->
  parties parameters = SessionStates.len s ->
  Keygen_new n (threshold parameters) (parties parameters) = Ok machine ->
  runs I s (SessionStates.recipients s own) 4 {| keygen_inner := machine |} rounds share ->
  run_keygen parameters role (opening ++ rounds ++ closing) t0 = Ok share.
Proof.
  intros Hp Hpar Hnew Hruns.
  destruct (party_opening _ _ _ _ _ _ _ _ (rounds ++ closing) Hp) as (t1 & u & t2 & Hconn & Hopen & HI).
  destruct (recipients_others s own n) as [_ Hlen]; [apply Hp.. |].
  destruct (party_phase (PD := KeygenDriver_protocol) (PD' := KeygenDriver_protocol)
    I role s own n opening closing t0 4 _ rounds share [] closing t2 _ Hp eq_refl Hruns)
    as (buf & rest & t3 & Hbuf & Hw & Hrest & HI3); [done | by vm_compute | apply brings_nil | done |].
  unfold run_keygen, mbind, Res_bind. rewrite Hconn, Hopen.
  assert (KeyGenDriver_new t2 parameters s =
    Ok (new_bridge t2 {| keygen_inner := machine |} buf s)) as ->.
  { unfold KeyGenDriver_new, KeygenDriver_new. rewrite (party_number_of _ _ _ _ _ _ _ _ _ Hp HI).
    pose proof (party_count _ _ _ _ _ _ _ _ Hp). pose proof (len_nonneg (SessionStates.recipients s own)).
    unfold wrap16. rewrite Hpar, Z.mod_small, <- Hlen by lia.
    unfold mbind, Res_bind. cbn [PError KeygenDriver_protocol] in Hbuf. by rewrite Hbuf, <- Hpar, Hnew. }
  cbn [gg20 map_err]. unfold new_bridge. cbn [app Output PError KeygenDriver_protocol] in Hw. rewrite Hw. cbn [gg20_wait map_err].
  by rewrite (party_closing I role s own n opening closing t0 rest t3 Hp Hrest HI3).
Qed.

(** ** Signing *)

(** A signature of the message's hash under the key of a finished offline
    stage, with that key and its address. *)
Definition verified (message : bytes) (sig : GG20Signature) : Prop :=
  exists stage : CompletedOfflineStage,
    verify (signature sig) (offline_public_key stage) (bigint_from_bytes message) = Ok tt /\
    signature_public_key sig = point_to_bytes (offline_public_key stage) false /\
    address (E := GG20Error) (signature_public_key sig) = Ok (signature_address sig).

(** The last driver of signing signs the message under one key. *)
Definition signs (message : bytes) (d : SignOnlineDriver) : Prop :=
  data d = bigint_from_bytes message /\
  exists stage : CompletedOfflineStage, online_public_key d = offline_public_key stage.

Lemma finished_verified message sig : finished (signs message) sig -> verified message sig.
Proof.
  intros (d & [Hd [stage Hk]] & Hf). cbn in Hf. unfold online_finish, mbind, Res_bind in Hf.
  destruct (SignManual_complete _ _) as [r| |]; cbn in Hf; [|done..].
  destruct (verify r _ _) as [[]| |] eqn:Hv; cbn in Hf; [|done..].
  destruct (address _) as [a| |] eqn:Ha; cbn in Hf; [|done..]. injection Hf as <-.
  exists stage. rewrite Hk, Hd in *. by split_and!.
Qed.

Lemma signing_verifies (parameters : Parameters) (s : SessionState) stage message stream t rest t' sig d :
  SignatureDriver_new t parameters s stage message = Ok d ->
  wait_for_driver stream d = Ok (rest, t', sig) -> verified message sig.
Proof.
  intros Hd Hw. apply finished_verified.
  apply (wait_for_driver_finished (PD := SignOnlineDriver_protocol) (signs message))
    with (stream := stream) (rest := rest) (b := d) (t := t'); [ | | | exact Hw].
  - by intros x d' H.
  - by intros d' H.
  - unfold SignatureDriver_new, SignOnlineDriver_new, mbind, Res_bind in Hd.
    destruct (RoundBuffer.new_fixed _ _) as [buf| |]; [|done..].
    destruct (own_party_number t s) as [n| |]; [|done..].
    destruct (SignManual_new _ _) as [[sign part]| |]; cbn in Hd; [|done..].
    injection Hd as <-. intros d' [= <-]. split; [done |]. by exists stage.
Qed.
(** The message with which a party tells its key share's index. *)
Definition index_message (n i : Z) : RoundMsg.t Z :=
  {| RoundMsg.round := 1; RoundMsg.sender := n; RoundMsg.receiver := None; RoundMsg.body := i |}.

(** The phases of signing for a party: the indices of the others are exchanged,
    the offline stage is run as the party at the position of its own index, and
    the partial signatures are exchanged. *)
Record signing (I : T -> Prop) (s : SessionState) (own : bytes) (n : Z) (key : LocalKey) (message : bytes)
    (exchange offline online : list (Item T)) (sig : GG20Signature) : Prop := {
  signing_index : 1 <= local_key_i key < 2 ^ 16;
  signing_runs : exists indices stage0 stage d,
    runs I s (SessionStates.recipients s own) 1 (ParticipantProtocolDriver_new n (local_key_i key))
      exchange indices /\
    (forall i, 1 <= i -> indices !! Z.to_nat (i - 1) = Some (local_key_i key) ->
      OfflineStage_new i indices key = Ok stage0) /\
    runs I s (SessionStates.recipients s own) 6 {| offline_inner := stage0 |} offline stage /\
    SignOnlineDriver_new n stage message = Ok d /\
    runs I s (SessionStates.recipients s own) 1 d online sig;
}.

(** The exchange of indices ends with a list that holds the party's own. *)
Lemma exchange_indices (I : T -> Prop) s others n i stream indices : 1 <= n < 2 ^ 16 -> NoDup others ->
  runs (D := ParticipantProtocolDriver) I s others 1 (ParticipantProtocolDriver_new n i) stream indices ->
  i ∈ indices /\ len indices <= len others + 1.
Proof.
  intros Hn Hnd (l & all & _ & Harr & Hrun & _). change (batch_of l <$> seqZ 1 1) with [batch_of l 1] in Hrun.
  rewrite participant_protocol in Hrun by done. injection Hrun as <- _. split.
  - rewrite agreed_perm. by left.
  - unfold len. rewrite agreed_perm, <- (arrivals_length others l Hnd Harr). cbn [length].
    unfold batch_of. rewrite !length_fmap.
    pose proof (length_filter (fun m => round_number m = 1) l.*2) as H. rewrite length_fmap in H. lia.
Qed.

Lemma participant_driver_new (t : T) (parameters : Parameters) (s : SessionState) n i buf :
  own_party_number t s = Ok n ->
  RoundBuffer.new_fixed (E := GG20Error) 1 (threshold parameters) = Ok buf ->
  ParticipantDriver_new t parameters s i = Ok (new_bridge t (ParticipantProtocolDriver_new n i) buf s).
Proof. intros Hn Hb. unfold ParticipantDriver_new, mbind, Res_bind. by rewrite Hb, Hn. Qed.

Lemma pre_sign_driver_new (t : T) (parameters : Parameters) (s : SessionState) key indices stage0 buf :
  local_key_i key ∈ indices -> len indices < 2 ^ 16 ->
  (forall i, 1 <= i -> indices !! Z.to_nat (i - 1) = Some (local_key_i key) ->
    OfflineStage_new i indices key = Ok stage0) ->
  RoundBuffer.new_fixed (E := GG20Error) 6 (threshold parameters) = Ok buf ->
  PreSignDriver_new t parameters s key indices = Ok (new_bridge t {| offline_inner := stage0 |} buf s).
Proof.
  intros Hi Hlen Hnew Hb. destruct (position_agreed indices _ Hi) as (p & Hp & Hr & Hl).
  unfold PreSignDriver_new, mbind, Res_bind. rewrite Hb, Hp. cbn [fmap option_fmap option_map ok_or].
  unfold as_u16. rewrite Z.mod_small by lia. unfold SignOfflineDriver_new, mbind, Res_bind.
  rewrite Hnew; [done | lia | by replace (p + 1 - 1) with p by lia].
Qed.

Lemma signature_driver_new (t : T) (parameters : Parameters) (s : SessionState) n stage message d buf :
  own_party_number t s = Ok n -> SignOnlineDriver_new n stage message = Ok d ->
  RoundBuffer.new_fixed (E := GG20Error) 1 (threshold parameters) = Ok buf ->
  SignatureDriver_new t parameters s stage message = Ok (new_bridge t d buf s).
Proof. intros Hn Hd Hb. unfold SignatureDriver_new, mbind, Res_bind. by rewrite Hb, Hn, Hd. Qed.

(** Whatever arrives, the result is verified. *)
Lemma run_sign_verified (parameters : Parameters) role key message stream t0 sig :
  run_sign parameters role key message stream t0 = Ok sig -> verified message sig.
Proof.
  unfold run_sign, mbind, Res_bind, gg20, gg20_wait. intros H.
  destruct (call _ _) as [[t1 u]| |]; [|done..].
  destruct (wait_for_session _ _) as [[[s1 t2] s]| |]; [|done..].
  destruct (unwrap _) as [i| |]; [|done..].
  destruct (ParticipantDriver_new _ _ _ _) as [b1| |]; cbn in H; [|done..].
  destruct (wait_for_driver s1 b1) as [[[s2 t3] indices]| [] |]; cbn in H; [|done..].
  destruct (PreSignDriver_new _ _ _ _ _) as [b2| |]; cbn in H; [|done..].
  destruct (wait_for_driver s2 b2) as [[[s3 t4] stage]| [] |]; cbn in H; [|done..].
  destruct (SignatureDriver_new _ _ _ _ _) as [b3| |] eqn:Hd; cbn in H; [|done..].
  destruct (wait_for_driver s3 b3) as [[[s4 t5] sig']| [] |] eqn:Hw; cbn in H; [|done..].
  destruct (close_all _ _ _ _) as [[]| |]; [|done..]. injection H as <-.
  by apply (signing_verifies parameters s stage message s3 t4 s4 t5 sig' b3).
Qed.

Lemma nonzero_index i : 1 <= i < 2 ^ 16 -> unwrap (E := Stop DriverError) (NonZeroU16_new i) = Ok i.
Proof. intros H. unfold NonZeroU16_new. by rewrite (proj2 (Z.eqb_neq i 0)) by lia. Qed.

Lemma run_sign_completes (I : T -> Prop) s own n opening closing t0 parameters role key message
    exchange offline online sig :
  party I role s own n opening closing t0 ->
  len (SessionStates.recipients s own) = threshold parameters ->
  signing I s own n key message exchange offline online sig ->
  run_sign parameters role key message (opening ++ exchange ++ offline ++ online ++ closing) t0 = Ok sig.
Proof.
  intros Hp Hthr [Hkey (indices & stage0 & stage & d & Hr1 & Hoff & Hr2 & Hd & Hr3)].
  destruct (party_opening _ _ _ _ _ _ _ _ (exchange ++ offline ++ online ++ closing) Hp)
    as (t1 & u & t2 & Hconn & Hopen & HI).
  pose proof Hp as [Hnds Hcount Hn Hne _ _ _ _ _].
  destruct (recipients_others s own n Hnds Hn) as [Hnd Hlen].
  pose proof (proj2 (party_number_iff (E := GG20Error) s own n Hnds Hcount) Hn) as Hrange.
  destruct (exchange_indices I s _ n _ _ _ ltac:(lia) Hnd Hr1) as [Hin Hmax].
  destruct (party_phase (PD := ParticipantProtocolDriver_protocol) (PD' := ParticipantProtocolDriver_protocol)
    I role s own n opening closing t0 1 _ exchange indices [] (offline ++ online ++ closing) t2 _ Hp Hthr Hr1)
    as (buf1 & rest1 & t3 & Hb1 & Hw1 & Hrest1 & HI3); [done | by vm_compute | apply brings_nil | done |].
  destruct (party_phase (PD := SignOfflineDriver_protocol) (PD' := ParticipantProtocolDriver_protocol)
    I role s own n opening closing t0 6 _ offline stage rest1 (online ++ closing) t3 _ Hp Hthr Hr2)
    as (buf2 & rest2 & t4 & Hb2 & Hw2 & Hrest2 & HI4); [done | by vm_compute | done.. |].
  destruct (party_phase (PD := SignOnlineDriver_protocol) (PD' := SignOfflineDriver_protocol)
    I role s own n opening closing t0 1 _ online sig rest2 closing t4 _ Hp Hthr Hr3)
    as (buf3 & rest3 & t5 & Hb3 & Hw3 & Hrest3 & HI5); [done | by vm_compute | done.. |].
  pose proof (party_number_of _ _ _ _ _ _ _ _ _ Hp HI) as Hn2.
  pose proof (party_number_of _ _ _ _ _ _ _ _ _ Hp HI4) as Hn4.
  unfold run_sign, mbind, Res_bind. rewrite Hconn, Hopen, (nonzero_index _ Hkey).
  rewrite (participant_driver_new t2 parameters s n _ buf1 Hn2 Hb1). cbn [gg20 map_err].
  unfold new_bridge at 1. cbn [app Output PError ParticipantProtocolDriver_protocol] in Hw1. rewrite Hw1.
  cbn [gg20_wait map_err].
  rewrite (pre_sign_driver_new t3 parameters s key indices stage0 buf2 Hin ltac:(lia) Hoff Hb2).
  cbn [gg20 map_err]. unfold new_bridge at 1.
  cbn [Output PError SignOfflineDriver_protocol] in Hw2. rewrite Hw2. cbn [gg20_wait map_err].
  rewrite (signature_driver_new t4 parameters s n stage message d buf3 Hn4 Hd Hb3). cbn [gg20 map_err].
  unfold new_bridge. cbn [Output PError SignOnlineDriver_protocol] in Hw3. rewrite Hw3.
  cbn [gg20_wait map_err].
  by rewrite (party_closing I role s own n opening closing t0 rest3 t5 Hp Hrest3 HI5).
Qed.

(** A peer that is ahead. *)
Lemma run_sign_overtaken (I : T -> Prop) s own n opening closing t0 parameters role key message
    indices l item k msg e tail :
  party I role s own n opening closing t0 ->
  len (SessionStates.recipients s own) = threshold parameters -> 1 <= local_key_i key < 2 ^ 16 ->
  brings (D := ParticipantProtocolDriver) I (session_id s) indices l ->
  Forall (fun x => round_number x.2 = 1) l -> len l < threshold parameters ->
  dispatchable (D := ParticipantProtocolDriver) I s [index_message n (local_key_i key)] ->
  next item = Ok (Event.JsonMessage k msg (Some (session_id s))) ->
  deserialize (A := RoundMsg.t Z) msg = Err e ->
  run_sign parameters role key message (opening ++ indices ++ item :: tail) t0 =
    Err (Failed (Driver.GG20 (GG20Client e))).
Proof.
  intros Hp Hthr Hkey Hbr Hl Hlt Hdis Hn He.
  destruct (party_opening _ _ _ _ _ _ _ _ (indices ++ item :: tail) Hp)
    as (t1 & u & t2 & Hconn & Hopen & HI).
  pose proof Hp as [Hnds Hcount Hnum Hne _ _ _ _ _].
  pose proof (proj2 (party_number_iff (E := GG20Error) s own n Hnds Hcount) Hnum) as Hrange.
  destruct (new_fixed_spec (I := Incoming ParticipantProtocolDriver) (E := GG20Error) 1 (threshold parameters))
    as (buf & Hbuf & Hm & _ & Hexp); [by vm_compute |].
  pose proof (wait_for_driver_refuses I t2 _ _ s _ buf 1 (threshold parameters) indices l item k msg e tail
    (participant_proceeds_with n (local_key_i key) ltac:(lia)) Hdis HI Hbr Hl) as Hw.
  unfold run_sign, mbind, Res_bind. rewrite Hconn, Hopen, (nonzero_index _ Hkey).
  rewrite (participant_driver_new t2 parameters s n _ buf (party_number_of _ _ _ _ _ _ _ _ _ Hp HI) Hbuf).
  cbn [gg20 map_err]. unfold new_bridge. cbn [Output PError ParticipantProtocolDriver_protocol perror_client] in Hw.
  rewrite Hw; [done | by rewrite Hexp | | done..].
  unfold held. rewrite Hm, lookup_empty. cbn [default from_option]. rewrite len_nil. lia.
Qed.


(** C7. Signing completes, and only with verified signatures.  Whatever the
    transport and the stream do, a signature that [sign] returns verifies for
    the message under the key it carries, with that key's address.  For a party
    as in key generation, with one other party for each of the threshold, whose
    exchange of indices, offline stage and exchange of partial signatures each
    succeed in the library, [sign] runs through all its phases on the
    concatenated stream and returns the signature.  The phases are not told
    apart by their messages: when a peer is ahead, and a message of its offline
    stage arrives before the last index and does not deserialize as an index,
    [sign] fails with the JSON error. *)
Theorem signing_completes (parameters : Parameters) (role : option (list bytes)) (key : LocalKey)
    (message : bytes) :
  (forall stream t0 sig, run_sign parameters role key message stream t0 = Ok sig -> verified message sig) /\
  (forall (I : T -> Prop) s own n opening closing t0, party I role s own n opening closing t0 ->
    len (SessionStates.recipients s own) = threshold parameters ->
    (forall exchange offline online sig, signing I s own n key message exchange offline online sig ->
      run_sign parameters role key message (opening ++ exchange ++ offline ++ online ++ closing) t0 = Ok sig) /\
    (forall indices l item k msg e tail, 1 <= local_key_i key < 2 ^ 16 ->
      brings (D := ParticipantProtocolDriver) I (session_id s) indices l ->
      Forall (fun x => round_number x.2 = 1) l -> len l < threshold parameters ->
      dispatchable (D := ParticipantProtocolDriver) I s [index_message n (local_key_i key)] ->
      next item = Ok (Event.JsonMessage k msg (Some (session_id s))) ->
      deserialize (A := RoundMsg.t Z) msg = Err e ->
      run_sign parameters role key message (opening ++ indices ++ item :: tail) t0 =
        Err (Failed (Driver.GG20 (GG20Client e))))).
Proof.
  split; [by apply run_sign_verified |]. intros I s own n opening closing t0 Hp Hlen. split.
  - intros. by apply (run_sign_completes I s own n).
  - intros. by apply (run_sign_overtaken I s own n opening closing t0) with (l := l) (k := k) (msg := msg).
Qed.
End spec.

(** ** Evaluation *)

From S2P Require Import Recorder DriverRef GG20Ref.

(** The transport of the first party throughout. *)
Definition is_a (t : Recorder) : Prop := own_key t = key_a /\ connected t = true.

Lemma recorder_party : party is_a (Some [key_b]) two_parties key_a 1 opening_a closing_a recorder_a.
Proof.
  assert (forall c, performs (record c) is_a is_a) as Hrec.
  { intros c t [H1 H2]. by eexists _, tt. }
  assert (forall item : Event.t, turns (event_item item) is_a is_a) as Hturn by by intros e t H.
  constructor; try done.
  - apply list.NoDup_cons. split; [|apply NoDup_singleton]. rewrite list_elem_of_singleton. discriminate.
  - by intros t [H _].
  - exists is_a. split; [intros t <-; by eexists _, tt |]. unfold opening_a, fmap, list_fmap.
    eapply (opens_asking _ _ _ _ [key_b] _ is_a); [done.. | |].
    { intros t Ht. split; [apply Ht |]. by eexists _, tt. }
    eapply (opens_event _ _ _ _ _ _ is_a); [done | done | done | |].
    { intros t Ht. split; [apply Ht |]. by exists t, tt. }
    eapply (opens_event _ _ _ _ _ _ is_a); [done | done | done | |].
    { intros t Ht. split; [apply Ht |]. cbn. by eexists _, tt. }
    eapply (opens_event _ _ _ _ _ _ is_a); [done | done | done | |].
    { intros t Ht. split; [apply Ht |]. cbn. by eexists _, tt. }
    by apply opens_active.
  - intros _. apply Hrec.
  - apply Hrec.
  - apply (closes_session _ _ [] _ _); [by apply list.Forall_nil | done | done |].
    apply (closes_socket _ _ [] _ []); [by apply list.Forall_nil | done | done].
Qed.

(** A silent driver with no messages runs on the messages of the other party. *)
Lemma recorder_dispatches {D} {PD : ProtocolDriver D} : dispatchable (D := D) is_a two_parties [].
Proof. intros b _ Hb. exists (transport b). split; [by destruct b | done]. Qed.

Lemma recorder_broadcasts {D} {PD : ProtocolDriver D} (m : Outgoing D) b :
  is_broadcast m = true -> to_vec m = Ok b -> dispatchable (D := D) is_a two_parties [m].
Proof.
  intros Hm Hb br _ [H1 H2]. unfold dispatch_round_messages. rewrite Hm. unfold on_transport.
  cbn. unfold record_json, mbind, SM_bind, sm_lift. rewrite Hb. by eexists.
Qed.

Ltac from_other PD := cbn [fmap list_fmap];
  repeat (eapply (brings_message (PD := PD)); [reflexivity | reflexivity | done |]); apply (brings_nil (PD := PD)).
Ltac arrivals := split; [by repeat constructor | intros k Hk; apply list_elem_of_singleton in Hk as ->; by vm_compute].

Lemma keygen_completes_witness :
  run_keygen {| parties := 2; threshold := 1 |} (Some [key_b])
    (opening_a ++ (from_b <$> [[Byte.x01]; [Byte.x02]; [Byte.x03]; [Byte.x04]]) ++ closing_a) recorder_a = Ok 1.
Proof.
  apply (keygen_completes is_a (Some [key_b]) two_parties key_a 1) with (machine := tt);
    [apply recorder_party | done | done |].
  set (m r := {| RoundMsg.round := r; RoundMsg.sender := 2; RoundMsg.receiver := None; RoundMsg.body := tt |}).
  exists [(key_b, m 1); (key_b, m 2); (key_b, m 3); (key_b, m 4)], [[]; []; []; []; []].
  split_and!; [from_other KeygenDriver_protocol | arrivals | by vm_compute |].
  repeat (apply list.Forall_cons; split; [apply recorder_dispatches |]). by apply list.Forall_nil.
Defined.

Lemma reference_signing :
  signing is_a two_parties key_a 1 3 [] [from_b [Byte.x01; Byte.x01]]
    (from_b <$> [[Byte.x01]; [Byte.x02]; [Byte.x03]; [Byte.x04]; [Byte.x05]; [Byte.x06]]) [from_b [Byte.x01]]
    {| signature := tt; signature_public_key := zeros 65;
       signature_address := ("0x" +:+ "00")%string |}.
Proof.
  set (m r := {| RoundMsg.round := r; RoundMsg.sender := 2; RoundMsg.receiver := None; RoundMsg.body := tt |}).
  constructor; [done |].
  exists [1; 3], tt, tt, {| online_party_number := 1; data := bigint_from_bytes (GG20Library := RefGG20) []; online_public_key := tt; partial := tt;
    online_sign := tt; partials := [] |}.
  split_and!; [ | by intros | | done | ].
  - eexists [(key_b, _)], _. split_and!; [from_other ParticipantProtocolDriver_protocol | arrivals | by vm_compute |].
    apply list.Forall_cons. split; [by eapply recorder_broadcasts | by apply list.Forall_nil].
  - exists ((fun r => (key_b, m r)) <$> [1; 2; 3; 4; 5; 6]), [[]; []; []; []; []; []; []].
    split_and!; [from_other SignOfflineDriver_protocol | arrivals | by vm_compute |].
    repeat (apply list.Forall_cons; split; [apply recorder_dispatches |]). by apply list.Forall_nil.
  - eexists [(key_b, m 1)], _. split_and!; [from_other SignOnlineDriver_protocol | arrivals | by vm_compute |].
    apply list.Forall_cons. split; [by eapply recorder_broadcasts | by apply list.Forall_nil].
Qed.

(** Signing, and the error when the other party's offline stage overtakes its
    index. *)
Lemma signing_completes_witness :
  let run exchange := run_sign {| parties := 2; threshold := 1 |} (Some [key_b]) 3 []
    (opening_a ++ exchange ++
     (from_b <$> [[Byte.x01]; [Byte.x02]; [Byte.x03]; [Byte.x04]; [Byte.x05]; [Byte.x06]]) ++
     [from_b [Byte.x01]] ++ closing_a) recorder_a in
  run [from_b [Byte.x01; Byte.x01]] = Ok {| signature := tt; signature_public_key := zeros 65;
    signature_address := ("0x" +:+ "00")%string |} /\
  run [] = Err (Failed (Driver.GG20 (GG20Client (ClientError.Json "invalid length"%string)))).
Proof.
  intros run.
  destruct (signing_completes (GL := RefGG20) {| parties := 2; threshold := 1 |} (Some [key_b]) 3 []) as [_ H].
  destruct (H is_a two_parties key_a 1 opening_a closing_a recorder_a recorder_party eq_refl) as [H1 H2].
  split; [apply H1, reference_signing |].
  eapply (H2 [] []); [done | apply (brings_nil (PD := ParticipantProtocolDriver_protocol)) | by apply list.Forall_nil | done | | reflexivity | reflexivity].
  by eapply recorder_broadcasts.
Defined.
