(* ===== verification/BindingsSpec.v ===== *)
(** * Properties of the bindings

    What the entry points make of their arguments, what their promises settle
    with, and the key pairs they generate. *)

From S2P Require Import Prelude Types Stream Encoding Noise Channel Keypair ServerConfig Sessions Zlib Net.
From S2P Require Import Client Web Transport Round Driver SessionHandlers GG20 GG20Run Bindings.

Section arguments.
Context {HX : Hex} {HD : HexDecode} {HL : HexLaws}.

Lemma decode_all_app l l' acc :
  decode_all (l ++ l') acc = decode_all l acc ≫= decode_all l'.
Proof.
  revert acc. induction l as [|s l IH]; intros acc; cbn; [done |].
  unfold mbind, Res_bind. destruct (hex_decode s) as [b| |]; [apply IH | done..].
Qed.

Lemma decode_all_encoded ks acc : decode_all (hex_encode <$> ks) acc = Ok (acc ++ ks).
Proof.
  revert acc. induction ks as [|k ks IH]; intros acc; cbn; [by rewrite app_nil_r |].
  unfold mbind, Res_bind. rewrite hex_decode_encode, IH. by rewrite <- app_assoc.
Qed.

Lemma decode_all_bad pre s post e acc : hex_decode s = Err e ->
  decode_all ((hex_encode <$> pre) ++ s :: post) acc = Err e.
Proof.
  intros He. rewrite decode_all_app, decode_all_encoded. cbn. unfold mbind, Res_bind. by rewrite He.
Qed.
End arguments.

Section spec.
Context {JS : JavaScript} {HX : Hex} {HD : HexDecode} {HL : HexLaws} {DI : Display} {JT : JsTexts}.
Context {N : Noise} {G : KeyGen} {P : Pem} {PL : PemLaws P} {GL : GG20Library}.
Context {BS : BinaryStream encoding_options} {SC : StatusCodes} {HO : HashOrder} {FL : Flate}.
Context (Client_new : string -> ClientOptions -> Res (Stop ClientError.t) Client).
Context {J1 : JsSerde SessionOptions} {J2 : JsSerde (option (list string))}.
Context {J3 : JsSerde KeyShare} {J4 : JsSerde PrivateKey} {J5 : JsSerde string} {J6 : JsSerde Signature}.

Lemma parse_participants_encoded v ks : from_value v = Ok (Some (hex_encode <$> ks)) ->
  parse_participants v = Ok (Some ks).
Proof.
  intros H. unfold parse_participants, mbind, Res_bind. by rewrite H, decode_all_encoded.
Qed.

Lemma parse_participants_bad v pre s post e :
  from_value v = Ok (Some ((hex_encode <$> pre) ++ s :: post)) -> hex_decode s = Err e ->
  parse_participants v = Err e.
Proof.
  intros H He. unfold parse_participants, mbind, Res_bind. by rewrite H, (decode_all_bad _ _ _ e).
Qed.

Lemma parse_message_encoded v m : from_value v = Ok (hex_encode m) ->
  parse_message v = if len m =? 32 then Ok m else Err slice_error_string.
Proof. intros H. unfold parse_message, mbind, Res_bind. by rewrite H, hex_decode_encode. Qed.

(** C39. The entry points for JavaScript.  Participants and a message given in
    hexadecimal reach the driver as the bytes they stand for, and the promise
    settles with the driver's outcome: fulfilled only with the converted
    result, rejected with the text of the driver's error, pending as long as
    the driver waits.  A message of another length than 32 bytes, or a
    participant that is not hexadecimal, is refused with an exception before
    anything runs. *)
Theorem bindings_run_driver options participants signing_key message stream opts ks key m :
  from_value options = Ok opts -> from_value participants = Ok (Some (hex_encode <$> ks)) ->
  from_value signing_key = Ok key -> from_value message = Ok (hex_encode m) ->
  js_keygen Client_new options participants stream =
    Ok (settle (keygen Client_new opts (Some ks) stream)) /\
  js_sign Client_new options participants signing_key message stream =
    (if len m =? 32 then Ok (settle (sign Client_new opts (Some ks) key m stream))
     else Err slice_error_string) /\
  (forall bad pre s post e, from_value bad = Ok (Some ((hex_encode <$> pre) ++ s :: post)) ->
    hex_decode s = Err e ->
    js_keygen Client_new options bad stream = Err e /\
    js_sign Client_new options bad signing_key message stream = Err e) /\
  (forall (outcome : Res (Stop DriverError) KeyShare) v,
    (settle outcome = Ok v <-> exists share, outcome = Ok share /\ to_value share = Ok v) /\
    (settle outcome = Err Pending <-> outcome = Err Pending) /\
    (forall e, outcome = Err (Failed e) ->
      settle outcome = Err (Failed (js_from_str (DriverError_to_string e))))).
Proof.
  intros Ho Hp Hk Hm. unfold js_keygen, js_sign, mbind, Res_bind.
  rewrite Ho, (parse_participants_encoded _ _ Hp), Hk, (parse_message_encoded _ _ Hm).
  split_and!; [done | by destruct (len m =? 32) | |].
  - intros bad pre s post e Hb He. by rewrite (parse_participants_bad _ _ _ _ _ Hb He).
  - intros outcome v. split_and!.
    + split.
      * destruct outcome as [share|[e|]|]; cbn; [|done..]. intros H. exists share.
        split; [done |]. by destruct (to_value share); cbn in H; simplify_eq.
      * intros (share & -> & Hv). cbn. by rewrite Hv.
    + split; [|by intros ->]. destruct outcome as [share|[e|]|]; cbn; [|done..].
      by destruct (to_value share).
    + by intros e ->.
Qed.

(** C40. The key pairs generated for JavaScript.  [generateKeypair] gives the PEM
    text of a key pair made for the requested noise pattern, or for the
    standard one when none is given, and the text decodes to that key pair.
    The text does not keep the pattern: it is labelled with the standard one
    whatever was asked for, so that it is accepted as a key pair of the
    standard pattern. *)
Theorem bindings_generate_keypair (entropy : bytes) (pattern : option string) v :
  js_generate_keypair entropy pattern = Ok v ->
  exists params kp, parse_params (default PATTERN pattern) = Ok params /\
    builder_generate_keypair params entropy = Ok (Keypair.inner kp) /\
    to_value (encode_keypair kp) = Ok v /\
    decode_keypair (str_bytes (encode_keypair kp)) = Ok kp /\
    exists others, parse_many (str_bytes (encode_keypair kp)) =
      Ok ({| pem_tag := PEM_PATTERN; pem_contents := str_bytes PATTERN |} :: others).
Proof.
  unfold js_generate_keypair, mbind, Res_bind, Keypair.new, default, id, from_option.
  set (p := match pattern with Some x => x | None => PATTERN end).
  destruct (parse_params p) as [params| |] eqn:Hp; [|done..].
  destruct (builder_generate_keypair params entropy) as [k| |] eqn:Hk; [|done..].
  intros H. exists params, {| Keypair.inner := k |}. split_and!; [done | done | done | |].
  - apply decode_encode_keypair.
  - rewrite parse_encode_keypair. by eexists.
Qed.
End spec.

(** ** Hexadecimal text *)

Definition hex_digit (n : Z) : byte := byte_of (if n <? 10 then 48 + n else 87 + n).
Definition hex_value (b : byte) : option Z :=
  let v := byte_val b in
  if (48 <=? v) && (v <=? 57) then Some (v - 48)
  else if (65 <=? v) && (v <=? 70) then Some (v - 55)
  else if (97 <=? v) && (v <=? 102) then Some (v - 87)
  else None.

Definition hex_pair (b : byte) : bytes := [hex_digit (byte_val b / 16); hex_digit (byte_val b mod 16)].

Fixpoint unhex (l : bytes) : Res ExtError bytes :=
  match l with
  | [] => Ok []
  | [_] => Err "Odd number of digits"%string
  | x :: y :: l =>
      match hex_value x, hex_value y with
      | Some hi, Some lo => r ← unhex l; Ok (byte_of (16 * hi + lo) :: r)
      | _, _ => Err "Invalid character"%string
      end
  end.

Definition LowerHex : Hex := {| hex_encode := fun b => bytes_str (concat (hex_pair <$> b)) |}.
Definition LowerHexDecode : HexDecode := {| hex_decode := fun s => unhex (str_bytes s) |}.

Lemma unhex_pair b l : unhex (hex_pair b ++ l) = (cons b <$> unhex l).
Proof.
  assert (forall b, hex_value (hex_digit (byte_val b / 16)) = Some (byte_val b / 16) /\
    hex_value (hex_digit (byte_val b mod 16)) = Some (byte_val b mod 16) /\
    byte_of (16 * (byte_val b / 16) + byte_val b mod 16) = b) as H by by intros [].
  destruct (H b) as (H1 & H2 & H3). cbn [hex_pair app unhex]. rewrite H1, H2, H3.
  unfold mbind, Res_bind. by destruct (unhex l).
Qed.

Lemma unhex_no_panic n l : (length l <= n)%nat -> unhex l <> Panic.
Proof.
  revert l. induction n as [|n IH]; intros [|x [|y l]] Hl; cbn in *; try done; try lia.
  unfold mbind, Res_bind. destruct (hex_value x), (hex_value y); try done.
  assert (unhex l <> Panic) by (apply IH; lia). by destruct (unhex l).
Qed.

Lemma LowerHex_laws : @HexLaws LowerHex LowerHexDecode.
Proof.
  split; [|intros s; by eapply unhex_no_panic].
  intros b. unfold hex_decode, hex_encode, LowerHex, LowerHexDecode, str_bytes, bytes_str. rewrite String.list_byte_of_string_of_list_byte.
  induction b as [|x b IH]; [done |]. cbn [fmap list_fmap concat]. by rewrite unhex_pair, IH.
Qed.

(** ** Evaluations: values of JavaScript as a sum *)

From S2P Require Import StreamLE EncodingSpec NoiseRef ServerRef GG20Ref.

#[local] Existing Instance LowerHex | 0.
#[local] Existing Instance LowerHexDecode.
#[local] Existing Instance LowerHex_laws.
#[local] Existing Instance RefPem.
#[local] Existing Instance RefPem_laws.
#[local] Existing Instance RefKeyGen.

Inductive RefValue :=
| VText (s : string)
| VKeys (l : option (list string))
| VOptions (o : SessionOptions)
| VKey (k : PrivateKey)
| VShare (s : KeyShare)
| VSignature (s : Signature).

#[local] Instance SumJavaScript : JavaScript := {|
  JsVal := RefValue;
  js_as_string := fun v => match v with VText s => Some s | _ => None end;
  js_from_str := VText;
  js_to_json := fun _ => Ok "null"%string;
|}.

Definition js_case {A} (inject : A -> RefValue) (project : RefValue -> option A) : JsSerde A := {|
  from_value := fun v => ok_or (project v) "invalid type"%string;
  to_value := fun a => Ok (inject a);
|}.

#[local] Instance js_text : JsSerde string :=
  js_case VText (fun v => match v with VText s => Some s | _ => None end).
#[local] Instance js_keys : JsSerde (option (list string)) :=
  js_case VKeys (fun v => match v with VKeys l => Some l | _ => None end).
#[local] Instance js_options : JsSerde SessionOptions :=
  js_case VOptions (fun v => match v with VOptions o => Some o | _ => None end).
#[local] Instance js_key : JsSerde PrivateKey :=
  js_case VKey (fun v => match v with VKey k => Some k | _ => None end).
#[local] Instance js_share : JsSerde KeyShare :=
  js_case VShare (fun v => match v with VShare s => Some s | _ => None end).
#[local] Instance js_signature : JsSerde Signature :=
  js_case VSignature (fun v => match v with VSignature s => Some s | _ => None end).
#[local] Instance SumTexts : JsTexts :=
  {| status_string := fun _ => "404 Not Found"%string; js_error := VText |}.

Definition ref_session_options : SessionOptions :=
  {| protocol := ProtocolGG20; session_keypair := ref_keypair;
     server_options := {| server_url := "ws://localhost"%string; server_public_key := [Byte.x01];
                          server_pattern := None |};
     parameters := {| parties := 2; threshold := 1 |} |}.

Definition ref_key : PrivateKey (GL := RefGG20) := PrivateKeyGG20 3.

(** Keys whose second is not hexadecimal, and a message that is too short. *)
Lemma bindings_run_driver_witness :
  let client := fun _ _ => Err Pending in
  js_keygen client (VOptions ref_session_options) (VKeys (Some ["0a"; "zz"]%string)) []
    = Err "Invalid character"%string /\
  js_sign client (VOptions ref_session_options) (VKeys (Some ["0a"]%string))
    (VKey ref_key) (VText "ff"%string) [] = Err slice_error_string.
Proof.
  intros client.
  destruct (bindings_run_driver (JS := SumJavaScript) (HX := LowerHex) (HD := LowerHexDecode) (GL := RefGG20) (J1 := js_options) (J2 := js_keys)
    (J3 := js_share) (J4 := js_key) (J5 := js_text) (J6 := js_signature) client (VOptions ref_session_options) (VKeys (Some ["0a"]%string))
    (VKey ref_key) (VText "ff"%string) [] ref_session_options [[Byte.x0a]] ref_key
    [Byte.xff] eq_refl eq_refl eq_refl eq_refl) as (_ & H2 & H3 & _).
  split; [|exact H2]. by apply (H3 _ [[Byte.x0a]] "zz"%string []).
Defined.

Lemma bindings_generate_keypair_witness :
  exists v kp, js_generate_keypair [Byte.x07] (Some "Noise_NN_25519_ChaChaPoly_SHA256"%string) = Ok v /\
    decode_keypair (str_bytes (encode_keypair kp)) = Ok kp /\ to_value (encode_keypair kp) = Ok v.
Proof.
  destruct (bindings_generate_keypair (JS := SumJavaScript) [Byte.x07] (Some "Noise_NN_25519_ChaChaPoly_SHA256"%string)
    (VText (encode_keypair {| Keypair.inner := {| public := [Byte.x07]; private := [Byte.x07] |} |})))
    as (params & kp & _ & _ & H1 & H2 & _); [done |].
  eexists _, kp. split; [done |]. by split.
Defined.
