(* ===== verification/NetworkRun.v ===== *)
(** * Schedules of the network

    Between two stages of a schedule no task of the server is running.  A step
    of a schedule takes a stage to the next: a client connects, a request
    travels to the server and is handled, a message travels to a client and
    its event is handled, or a task of the server does an iteration. *)

From S2P Require Import Prelude Types Stream Encoding EncodingFacts Noise Channel ChannelSpec Keypair ServerConfig Zlib Prog Sessions Net.
From S2P Require Import Server ServerSystem ServerRun ServerTasksSpec Client ClientFacts Transport Round Driver Network EndToEnd.

Section run.
Context {BS : BinaryStream encoding_options} {BL : BinaryStreamLaws encoding_options BS}.
Context {SC : StatusCodes} {SL : StatusCodesLaws SC} {HO : HashOrder} {HL : HashOrderLaws HO}.
Context {N : Noise} {NL : NoiseLaws N} {FL : Flate} {FLL : FlateLaws FL} {HX : Hex} {DI : Display}.
Context {S A E : Type} {H : EventHandler S Transport A E}.

Implicit Types (n : Network S A E) (p : Side S A E).

(** ** A task alone *)

Lemma net_thread n th w r : running (system n) = [th] ->
  run (thread_prog th) (world (system n)) = (w, r) ->
  rtc net_step n (set_system {| world := ServerSystem.finish (thread_task th) r w; running := [] |} n).
Proof.
  destruct th as [task input p]. cbn [thread_prog thread_task]. revert n.
  induction p as [r0|m IH] using Prog_induction; intros n Hr Hrun; cbn [run] in Hrun.
  - injection Hrun as <- <-. apply rtc_once.
    pose proof (NetFinish n 0 {| thread_task := task; thread_input := input; thread_prog := Done r0 |} r0) as Hs.
    rewrite Hr in Hs. by apply Hs.
  - destruct (m (world (system n))) as [w1 p1] eqn:Em.
    specialize (IH (world (system n))). rewrite Em in IH. cbn [snd] in IH.
    eapply rtc_l.
    + apply (NetSection n 0 {| thread_task := task; thread_input := input; thread_prog := Atomic m |} m w1 p1);
        [by rewrite Hr | done | done].
    + rewrite Hr. cbn [list_insert insert]. apply (IH (set_system _ n)); done.
Qed.

(** Two worlds that differ at most in the tasks that wait. *)
Record same_state (w w' : World) : Prop := {
  same_server : server w' = server w;
  same_heap : heap w' = heap w;
  same_clock : clock w' = clock w;
  same_uuid : next_uuid w' = next_uuid w;
}.

Lemma take_task w t : t ∈ spawned w -> exists i, spawned w !! i = Some t /\ same_state w (taken i w) /\
  forall t', t' ∈ spawned w -> t' = t \/ t' ∈ spawned (taken i w).
Proof.
  intros Ht. apply list_elem_of_lookup in Ht as [i Hi]. exists i. split_and!; [done | done |].
  intros t' Ht'. cbn. rewrite (delete_Permutation _ _ _ Hi) in Ht'. by apply elem_of_cons in Ht'.
Qed.

(** ** Stages *)

Abbreviation Seat := (Side S A E * WebSocketConnection)%type.

Definition seat_conn (x : Seat) : Connection := side_conn x.1.

Definition socket_tasks (c : Connection) : list Task := [Listen c; Read c; Write c].

Record stage (n : Network S A E) (sv : ServerState) (now : SystemTime) (u : Uuid) (l : list Seat)
    (T : list Task) : Prop := {
  stage_running : running (system n) = [];
  stage_server : server (world (system n)) = sv;
  stage_clock : clock (world (system n)) = now;
  stage_uuid : next_uuid (world (system n)) = u;
  stage_sides : sides n = l.*1;
  stage_conns : Forall (fun x => heap (world (system n)) !! seat_conn x = Some x.2) l;
  stage_distinct : NoDup (seat_conn <$> l);
  stage_sockets : Forall (fun x => forall t, t ∈ socket_tasks (seat_conn x) -> t ∈ spawned (world (system n))) l;
  stage_tasks : forall t, t ∈ T -> t ∈ spawned (world (system n));
}.

Definition set_seat_side (j : nat) (p : Side S A E) (l : list Seat) : list Seat :=
  alter (fun x => (p, x.2)) j l.
Definition set_seat_conn (j : nat) (cn : WebSocketConnection) (l : list Seat) : list Seat :=
  alter (fun x => (x.1, cn)) j l.

Lemma Forall_alter_at {X} (P : X -> Prop) f (l : list X) i x :
  l !! i = Some x -> Forall P l -> P (f x) -> Forall P (alter f i l).
Proof. intros Hi Hall Hx. apply Forall_alter; [done |]. intros y Hy _. by rewrite Hi in Hy; simplify_eq. Qed.

Lemma fmap_alter_same {X Y} (g : X -> Y) f (l : list X) i x :
  l !! i = Some x -> g (f x) = g x -> g <$> alter f i l = g <$> l.
Proof.
  intros Hi Hg. apply list_eq. intros k. rewrite !list_lookup_fmap.
  destruct (decide (i = k)) as [<-|Hne]; [|by rewrite list_lookup_alter_ne].
  rewrite list_lookup_alter_eq, Hi. cbn. by rewrite Hg.
Qed.

Lemma stage_set_side n sv now u l T j p cn p' :
  stage n sv now u l T -> l !! j = Some (p, cn) -> side_conn p' = side_conn p ->
  stage (set_side j p' n) sv now u (set_seat_side j p' l) T.
Proof.
  intros [Hr Hs Hc Hu Hsd Hcn Hd Hso Ht] Hj Hp. split; try done.
  - cbn. rewrite Hsd. unfold set_seat_side. apply list_eq. intros k. rewrite list_lookup_fmap.
    destruct (decide (j = k)) as [<-|Hne].
    + rewrite list_lookup_alter_eq, Hj, list_lookup_insert_eq; [done |].
      rewrite length_fmap. by eapply lookup_lt_Some.
    + by rewrite list_lookup_alter_ne, list_lookup_insert_ne, list_lookup_fmap.
  - apply (Forall_alter_at _ _ _ _ _ Hj Hcn). unfold seat_conn. cbn. rewrite Hp.
    apply (Forall_lookup_1 _ _ _ _ Hcn Hj).
  - unfold set_seat_side. by rewrite (fmap_alter_same _ _ _ _ _ Hj).
  - apply (Forall_alter_at _ _ _ _ _ Hj Hso). unfold seat_conn. cbn. rewrite Hp.
    apply (Forall_lookup_1 _ _ _ _ Hso Hj).
Qed.

(** The world of the next stage: one connection is replaced, and tasks are
    only added. *)
Lemma stage_set_conn n sv now u l T j p cn cn' sv' w T' :
  stage n sv now u l T -> l !! j = Some (p, cn) -> server w = sv' ->
  heap w = <[side_conn p := cn']> (heap (world (system n))) ->
  clock w = now -> next_uuid w = u ->
  (forall t, t ∈ spawned (world (system n)) -> t ∈ spawned w) -> (forall t, t ∈ T' -> t ∈ spawned w) ->
  stage (set_system {| world := w; running := [] |} n) sv' now u (set_seat_conn j cn' l) (T ++ T').
Proof.
  intros [Hr Hs Hc Hu Hsd Hcn Hd Hso Ht] Hj Hsv Hh Hclk Hud Hsp HT'. split; try done.
  - cbn. rewrite Hsd. unfold set_seat_conn. by rewrite (fmap_alter_same _ _ _ _ _ Hj).
  - cbn. rewrite Hh. apply Forall_lookup. intros k [q cq] Hk. unfold set_seat_conn in Hk.
    destruct (decide (j = k)) as [<-|Hne].
    + rewrite list_lookup_alter_eq, Hj in Hk. cbn in Hk. simplify_eq. apply lookup_insert_eq.
    + rewrite list_lookup_alter_ne in Hk by done. cbn. rewrite lookup_insert_ne.
      { apply (Forall_lookup_1 _ _ _ _ Hcn Hk). }
      intros Heq. apply Hne. eapply NoDup_lookup; [exact Hd | |];
        rewrite list_lookup_fmap; [by rewrite Hj | rewrite Hk]. cbn. unfold seat_conn. cbn. by f_equal.
  - unfold set_seat_conn. by rewrite (fmap_alter_same _ _ _ _ _ Hj).
  - apply (Forall_alter_at _ _ _ _ _ Hj); [eapply list.Forall_impl; [exact Hso |] |]; cbn.
    + intros x Hx t Hin. by apply Hsp, Hx.
    + intros t Hin. apply Hsp. by apply (Forall_lookup_1 _ _ _ _ Hso Hj).
  - intros t [Hin|Hin]%elem_of_app; [by apply Hsp, Ht | by apply HT'].
Qed.

Lemma handle_item_conn p x : side_conn (handle_item p x) = side_conn p.
Proof.
  unfold handle_item. destruct (side_result p); [done |]. by destruct (wait_item _ _).
Qed.

(** The side once its handler has handled an event. *)
Definition handled (p : Side S A E) (event : Event.t) (h : S) (result : option A) : Side S A E :=
  {| side_conn := side_conn p; side_start := side_start p; side_handler := h; side_turns := fun t => t;
     side_stream := side_stream p ++ [{| turn := side_turns p; next := Ok event |}];
     side_result := Ok <$> result; side_open := side_open p;
     to_server := to_server p; to_client := to_client p |}.

Lemma handle_item_ok p event h result : side_result p = None ->
  handle_event event (in_transport (side_turns p) (side_handler p)) = (h, Ok result) ->
  handle_item p (Ok event) = handled p event h result.
Proof.
  intros Hr Hh. unfold handle_item, wait_item. rewrite Hr. cbn [next turn]. rewrite Hh. by destruct result.
Qed.

Lemma set_seats (l : list Seat) i j p cn q cq p' cn' : l !! j = Some (p, cn) -> l !! i = Some (q, cq) ->
  i <> j -> set_seat_conn i cn' (set_seat_side j p' l) = <[i := (q, cn')]> (<[j := (p', cn)]> l).
Proof.
  intros Hj Hi Hne. unfold set_seat_conn, set_seat_side. apply list_eq. intros k.
  destruct (decide (i = k)) as [<-|Hik].
  - rewrite list_lookup_alter_eq, list_lookup_alter_ne, Hi by done.
    rewrite list_lookup_insert_eq; [done |]. rewrite length_insert. by eapply lookup_lt_Some.
  - rewrite list_lookup_alter_ne, list_lookup_insert_ne by done.
    destruct (decide (j = k)) as [<-|Hjk].
    + rewrite list_lookup_alter_eq, Hj, list_lookup_insert_eq; [done |]. by eapply lookup_lt_Some.
    + by rewrite list_lookup_alter_ne, list_lookup_insert_ne.
Qed.

Lemma set_seat (l : list Seat) j p cn p' cn' : l !! j = Some (p, cn) ->
  set_seat_conn j cn' (set_seat_side j p' l) = <[j := (p', cn')]> l.
Proof.
  intros Hj. unfold set_seat_conn, set_seat_side. apply list_eq. intros k.
  destruct (decide (j = k)) as [<-|Hjk].
  - rewrite !list_lookup_alter_eq, Hj, list_lookup_insert_eq; [done |]. by eapply lookup_lt_Some.
  - by rewrite !list_lookup_alter_ne, list_lookup_insert_ne.
Qed.

(** A client that has nothing to do, knows the peer [k] by the transport [a],
    and has the connection [cn]. *)
Record resting (own k : bytes) (a : TransportState) (c : Client) (cn : WebSocketConnection) : Prop := {
  resting_key : client_public_key c = own;
  resting_peer : peers c !! k = Some (Noise.Transport a);
  resting_channels : outbound c = chan_new /\ inbound c = chan_new;
  resting_socket : conn_public_key cn = own /\ incoming cn = chan_new /\ outgoing cn = chan_new;
}.

(** ** Turns of a client *)

(** The side after a turn that yielded nothing yet. *)
Definition advance (r : Ready) (p : Side S A E) : Side S A E :=
  {| side_conn := side_conn p; side_start := side_start p; side_handler := side_handler p;
     side_turns := fun t => transport_turn r (side_turns p t); side_stream := side_stream p;
     side_result := side_result p; side_open := true; to_server := to_server p;
     to_client := to_client p |}.

Lemma advance_transport r p c c' items continue : side_transport p = Relay c ->
  run_turn r c = (c', items, continue) -> side_transport (advance r p) = Relay c'.
Proof.
  unfold side_transport. intros Hp Hr. cbn [advance side_turns side_handler]. rewrite Hp. cbn.
  by rewrite Hr.
Qed.

Lemma side_turn_quiet r p c c' fs : side_transport p = Relay c -> run_turn r c = (c', [], true) ->
  socket_out c' = socket_out c ++ fs -> side_turn r p = set_to_server (to_server p ++ fs) (advance r p).
Proof.
  intros Hp Hr Hs. unfold side_turn. rewrite Hp, Hr, Hs. cbn [foldl].
  by rewrite drop_app_length.
Qed.

Lemma side_turn_yields r p c c' x : side_transport p = Relay c -> run_turn r c = (c', [x], true) ->
  socket_out c' = socket_out c -> side_turn r p = handle_item (advance r p) x.
Proof.
  intros Hp Hr Hs. unfold side_turn. rewrite Hp, Hr, Hs. cbn [foldl].
  rewrite drop_all, app_nil_r. done.
Qed.

Lemma set_to_server_id p : set_to_server (to_server p) p = p.
Proof. by destruct p. Qed.

(** ** A request on its way to the server *)

(** The side once its frame has been read. *)
Definition sent_side (p : Side S A E) : Side S A E := advance write_turn p.

Lemma net_turn n j p r : sides n !! j = Some p -> waiting p ->
  (exists sent closed, r = OutboundRx sent closed) \/ r = InboundRx ->
  rtc net_step n (set_side j (side_turn r p) n).
Proof. intros. apply rtc_once. by eapply NetTurn. Qed.

Lemma set_side_twice j p p' n : set_side j p' (set_side j p n) = set_side j p' n.
Proof. unfold set_side. cbn. by rewrite list_insert_insert_eq. Qed.

Lemma lookup_set_side n j p p' : sides n !! j = Some p -> sides (set_side j p' n) !! j = Some p'.
Proof. intros Hj. cbn. apply list_lookup_insert_eq. by eapply lookup_lt_Some. Qed.

(** The reading task passes a frame to the listening one. *)
Lemma net_read n j p cn f buffer : running (system n) = [] -> sides n !! j = Some p ->
  to_server p = [f] -> inflate f = Ok buffer ->
  heap (world (system n)) !! side_conn p = Some cn -> incoming cn = chan_new ->
  Read (side_conn p) ∈ spawned (world (system n)) ->
  exists w, rtc net_step n (set_system {| world := w; running := [] |} (set_side j (set_to_server [] p) n)) /\
    server w = server (world (system n)) /\ clock w = clock (world (system n)) /\
    next_uuid w = next_uuid (world (system n)) /\
    heap w = <[side_conn p := set_incoming (chan_push buffer chan_new) cn]> (heap (world (system n))) /\
    (forall t, t ∈ spawned (world (system n)) -> t ∈ spawned w).
Proof.
  intros Hr Hj Hf Hi Hc Hin Ht.
  destruct (take_task _ _ Ht) as (i & Hti & [Hs Hh Hk Hu] & Hrest).
  set (th := {| thread_task := Some (Read (side_conn p)); thread_input := None;
                thread_prog := read (side_conn p) (Received (Binary f)) |}).
  set (n1 := set_side j (set_to_server [] p)
    (set_system (started_task (taken i (world (system n))) th (system n)) n)).
  set (w := put_conn (side_conn p) (set_incoming (chan_push buffer chan_new) cn) (taken i (world (system n)))).
  exists (set_spawned (spawned w ++ [Read (side_conn p)]) w). split.
  - apply (rtc_l _ _ n1); [by eapply NetRead |].
    pose proof (net_thread n1 th w (Ok true)) as Hrun. apply Hrun.
    + cbn. by rewrite Hr.
    + cbn [thread_prog th read]. rewrite Hi. rewrite (run_write_conn (side_conn p) cn) by done.
      unfold incoming_send. rewrite Hin. done.
  - split_and!; try done. cbn [spawned set_spawned].
    intros t [->|Ht']%Hrest; apply elem_of_app; [right; by left | by left].
Qed.


(** The listening task handles a request, as [run] says of the world it starts
    in. *)
Lemma net_listen n (c : Connection) cn buffer : running (system n) = [] ->
  heap (world (system n)) !! c = Some (set_incoming (chan_push buffer chan_new) cn) ->
  incoming cn = chan_new -> Listen c ∈ spawned (world (system n)) ->
  exists w1, server w1 = server (world (system n)) /\ clock w1 = clock (world (system n)) /\
    next_uuid w1 = next_uuid (world (system n)) /\
    heap w1 = <[c := cn]> (heap (world (system n))) /\
    (forall t, t ∈ spawned (world (system n)) -> t = Listen c \/ t ∈ spawned w1) /\
    (forall w, run (listen c buffer) w1 = (w, Ok tt) ->
      rtc net_step n (set_system {| world := set_spawned (spawned w ++ [Listen c]) w; running := [] |} n)).
Proof.
  intros Hr Hc Hin Ht.
  destruct (take_task _ _ Ht) as (i & Hti & [Hs Hh Hk Hu] & Hrest).
  set (w0 := taken i (world (system n))) in *.
  set (w1 := set_heap (<[c := set_incoming {| queue := []; receiver_open := true |}
    (set_incoming (chan_push buffer chan_new) cn)]> (heap w0)) w0).
  exists w1. split_and!; try done.
  { cbn. f_equal. destruct cn. cbn in *. by subst. }
  intros w Hw. eapply rtc_l.
  - eapply (NetStart n i (Listen c) w1); [done | done |]. eapply (StartListen w0 c); [exact Hc | done].
  - apply (net_thread (set_system _ n) {| thread_task := Some (Listen c); thread_input := Some buffer;
      thread_prog := (listen c buffer ;; mret true) |} w (Ok true)).
    + cbn. by rewrite Hr.
    + cbn [thread_prog set_system system started_task world]. rewrite run_bind. by rewrite Hw.
Qed.

(** A request leaves a waiting client and is handled: the listening task
    changes at most the connection of the seat [i], and spawns [T']. *)
Lemma stage_request n sv now u l T j p cn c m i pi cni sv' (Q : WebSocketConnection -> Prop) T' :
  stage n sv now u l T -> l !! j = Some (p, cn) -> waiting p -> to_server p = [] ->
  incoming cn = chan_new -> side_transport p = Relay c ->
  outbound c = chan_push (InternalMessage.Request m) chan_new -> wf_request m ->
  l !! i = Some (pi, cni) ->
  (forall w buffer, server w = sv -> clock w = now -> next_uuid w = u ->
    Forall (fun x => heap w !! seat_conn x = Some x.2) l -> decode buffer = Ok m ->
    exists w' cni', run (listen (side_conn p) buffer) w = (w', Ok tt) /\ server w' = sv' /\
      clock w' = now /\ next_uuid w' = u /\ heap w' = <[side_conn pi := cni']> (heap w) /\
      (forall t, t ∈ spawned w -> t ∈ spawned w') /\ (forall t, t ∈ T' -> t ∈ spawned w') /\ Q cni') ->
  exists n' cni' f, rtc net_step n n' /\ Q cni' /\
    stage n' sv' now u (set_seat_conn i cni' (set_seat_side j (sent_side p) l)) (T ++ T') /\
    side_transport (sent_side p) = Relay (set_socket_out (socket_out c ++ [f]) (set_outbound chan_new c)).
Proof.
  intros Hst Hj Hwait Hts Hin Hp Hout Hm Hi Hrun.
  destruct (turn_writes c m Hm Hout) as (f & Hturn & buffer & Hinf & Hdec).
  pose proof (advance_transport _ _ _ _ _ _ Hp Hturn) as Hp'.
  pose proof (side_turn_quiet _ _ _ _ [f] Hp Hturn eq_refl) as Hside. rewrite Hts in Hside.
  pose proof Hst as [Hr Hsv Hck Hud Hsd Hcn Hd Hso Ht].
  assert (sides n !! j = Some p) as Hnj by by rewrite Hsd, list_lookup_fmap, Hj.
  set (n1 := set_side j (side_turn write_turn p) n).
  assert (rtc net_step n n1) as H01 by (apply net_turn; [done | done | left; by eexists _, _]).
  assert (heap (world (system n)) !! side_conn p = Some cn) as Hhp by apply (Forall_lookup_1 _ _ _ _ Hcn Hj).
  assert (forall t, t ∈ socket_tasks (side_conn p) -> t ∈ spawned (world (system n))) as Hsock
    by apply (Forall_lookup_1 _ _ _ _ Hso Hj).
  destruct (net_read n1 j (side_turn write_turn p) cn f buffer) as
    (w2 & H12 & Hs2 & Hk2 & Hu2 & Hh2 & Hsp2); try done.
  { by apply (lookup_set_side n j p). }
  { by rewrite Hside. }
  { by rewrite Hside. }
  { rewrite Hside. apply Hsock. right. by left. }
  rewrite Hside in Hh2, H12. cbn [side_conn set_to_server advance] in Hh2.
  set (n2 := set_system _ _) in H12.
  destruct (net_listen n2 (side_conn p) cn buffer) as (w3 & Hs3 & Hk3 & Hu3 & Hh3 & Hsp3 & Hfin); try done.
  { cbn. rewrite Hh2. apply lookup_insert_eq. }
  { cbn. apply Hsp2, Hsock. by left. }
  cbn [n2 set_system system world] in Hs3, Hk3, Hu3, Hh3, Hsp3.
  change (world (system n1)) with (world (system n)) in *.
  assert (heap w3 = heap (world (system n))) as Hh3'.
  { rewrite Hh3, Hh2. cbn. by rewrite insert_insert_eq, insert_id. }
  destruct (Hrun w3 buffer) as (w' & cni' & Hl & Hs' & Hk' & Hu' & Hh' & Hsp' & HT' & HQ);
    [congruence.. | by rewrite Hh3' | done |].
  specialize (Hfin w' Hl).
  exists (set_system {| world := set_spawned (spawned w' ++ [Listen (side_conn p)]) w'; running := [] |} n2), cni', f.
  split_and!; [| done | | exact Hp'].
  - by do 2 (etransitivity; [eassumption |]).
  - assert (n2 = set_system {| world := w2; running := [] |} (set_side j (sent_side p) n)) as Hn2.
    { unfold n2, n1. rewrite set_side_twice. f_equal. unfold set_side, sent_side. f_equal.
      f_equal. unfold set_to_server, advance. cbn. by rewrite Hts. }
    rewrite Hn2. pose proof (stage_set_side _ _ _ _ _ _ _ _ _ (sent_side p) Hst Hj eq_refl) as Hst'.
    assert (exists pi', set_seat_side j (sent_side p) l !! i = Some (pi', cni) /\ side_conn pi' = side_conn pi)
      as (pi' & Hi' & Hpi').
    { unfold set_seat_side. destruct (decide (j = i)) as [<-|Hne].
      - rewrite list_lookup_alter_eq, Hi. rewrite Hi in Hj. simplify_eq. by eexists.
      - rewrite list_lookup_alter_ne by done. by eexists. }
    apply (stage_set_conn (set_side j (sent_side p) n) sv now u _ T i pi' cni cni' sv' _ T' Hst' Hi'); try done.
    + cbn. by rewrite Hh', Hh3', Hpi'.
    + intros t Hin'. cbn in Hin' |- *. apply Hsp2 in Hin'.
      apply elem_of_app. destruct (Hsp3 t Hin') as [->|]; [right; by left | left; by apply Hsp'].
    + intros t Hin'. cbn. apply elem_of_app. left. by apply HT'.
Qed.

(** ** A message on its way to a client *)

(** The side that has read a frame and is about to handle its event. *)
Definition received_side (f : bytes) (p : Side S A E) : Side S A E :=
  advance InboundRx (advance (read_turn f) p).

(** The writing task sends what is queued on the connection. *)
Lemma net_write n j p cn m : running (system n) = [] -> sides n !! j = Some p ->
  heap (world (system n)) !! side_conn p = Some cn -> outgoing cn = chan_push m chan_new ->
  Write (side_conn p) ∈ spawned (world (system n)) ->
  exists w, rtc net_step n
      (set_system {| world := w; running := [] |} (set_side j (set_to_client (to_client p ++ [m]) p) n)) /\
    server w = server (world (system n)) /\ clock w = clock (world (system n)) /\
    next_uuid w = next_uuid (world (system n)) /\
    heap w = <[side_conn p := set_outgoing chan_new cn]> (heap (world (system n))) /\
    (forall t, t ∈ spawned (world (system n)) -> t ∈ spawned w).
Proof.
  intros Hr Hj Hc Hout Ht.
  destruct (take_task _ _ Ht) as (i & Hti & _ & Hrest).
  set (th := {| thread_task := Some (Write (side_conn p)); thread_input := None;
                thread_prog := write (side_conn p) true |}).
  set (w := set_heap (<[side_conn p := set_outgoing {| queue := []; receiver_open := receiver_open (outgoing cn) |} cn]>
          (heap (world (system n)))) (taken i (world (system n)))).
  exists (set_spawned (spawned w ++ [Write (side_conn p)]) w). split.
  - eapply rtc_l; [eapply (NetWrite n i j p cn m []); [done | done | by rewrite Hout | done | done] |].
    pose proof (net_thread (set_side j (set_to_client (to_client p ++ [m]) p)
      (set_system (started_task w th (system n)) n)) th w (Ok true)) as Hrun. apply Hrun.
    + cbn. by rewrite Hr.
    + done.
  - split_and!; try done.
    + cbn. by rewrite Hout.
    + cbn [spawned set_spawned w set_heap].
      intros t [->|Ht']%Hrest; apply elem_of_app; [right; by left | by left].
Qed.

(** A message queued for a waiting client is sent, read, and its event is
    handled. *)
Lemma stage_event n sv now u l T j p cn c bs m c' event :
  stage n sv now u l T -> l !! j = Some (p, cn) -> waiting p -> to_client p = [] ->
  outgoing cn = chan_push (Binary bs) chan_new -> side_transport p = Relay c ->
  inbound c = chan_new -> carries bs m -> handle_incoming_message m c = (c', Ok (Some event)) ->
  socket_out c' = socket_out c ->
  exists n', rtc net_step n n' /\ side_transport (received_side bs p) = Relay c' /\
    stage n' sv now u (set_seat_conn j (set_outgoing chan_new cn)
      (set_seat_side j (handle_item (received_side bs p) (Ok event)) l)) T.
Proof.
  intros Hst Hj [Hopen Hres] Htc Hout Hp Hib (frame & Hinf & Hdec) Hh Hso'.
  pose proof Hst as [Hr Hsv Hck Hud Hsd Hcn Hd Hso Ht].
  assert (sides n !! j = Some p) as Hnj by by rewrite Hsd, list_lookup_fmap, Hj.
  assert (heap (world (system n)) !! side_conn p = Some cn) as Hhp by apply (Forall_lookup_1 _ _ _ _ Hcn Hj).
  destruct (net_write n j p cn (Binary bs)) as (w & H01 & Hs1 & Hk1 & Hu1 & Hh1 & Hsp1); try done.
  { apply (Forall_lookup_1 _ _ _ _ Hso Hj). right. right. by left. }
  rewrite Htc in H01. cbn [app] in H01. set (p1 := set_to_client [Binary bs] p) in *.
  set (n1 := set_system _ _) in H01.
  pose proof (turn_reads c bs frame m Hib Hinf Hdec) as Hread.
  pose proof (turn_handles c m c' (Ok (Some event)) Hib Hh) as Hturn. cbn [yielded] in Hturn.
  set (c1 := set_inbound (chan_push m chan_new) c) in *.
  set (p2 := set_to_client [] p1).
  assert (p2 = p) as Hp2.
  { unfold p2, p1, set_to_client. cbn. rewrite <- Htc. by destruct p. }
  pose proof (side_turn_quiet (read_turn bs) p2 c c1 [] ltac:(by rewrite Hp2) Hread ltac:(by rewrite app_nil_r)) as Hq.
  rewrite app_nil_r in Hq. change (to_server p2) with (to_server (advance (read_turn bs) p2)) in Hq.
  rewrite set_to_server_id in Hq. rewrite Hp2 in Hq at 2.
  assert (side_transport (advance (read_turn bs) p) = Relay c1) as Hp3 by by eapply advance_transport.
  pose proof (side_turn_yields InboundRx (advance (read_turn bs) p) c1 c' (Ok event) Hp3 Hturn Hso') as Hy.
  fold (received_side bs p) in Hy.
  set (n2 := set_side j (advance (read_turn bs) p) n1).
  set (n3 := set_side j (handle_item (received_side bs p) (Ok event)) n2).
  exists n3. split_and!.
  - etransitivity; [exact H01 |]. apply (rtc_l _ _ n2).
    + unfold n2. rewrite <- Hq. eapply (NetReceive n1 j p1 (Binary bs) []); try done.
      by apply (lookup_set_side n j p).
    + unfold n3. rewrite <- Hy. apply net_turn; [|done | by right].
      apply (lookup_set_side n1 j p1). by apply (lookup_set_side n j p).
  - by eapply advance_transport.
  - unfold n3, n2. rewrite set_side_twice.
    assert (set_side j (handle_item (received_side bs p) (Ok event)) n1 =
      set_system {| world := w; running := [] |} (set_side j (handle_item (received_side bs p) (Ok event)) n)) as ->.
    { unfold n1, set_side, set_system. cbn. by rewrite list_insert_insert_eq. }
    pose proof (handle_item_conn (received_side bs p) (Ok event)) as Hconn.
    pose proof (stage_set_side _ _ _ _ _ _ _ _ _ _ Hst Hj Hconn) as Hst'.
    rewrite <- (app_nil_r T).
    apply (stage_set_conn _ sv now u _ T j (handle_item (received_side bs p) (Ok event)) cn _ sv _ [] Hst');
      try done; try congruence.
    + unfold set_seat_side. by rewrite list_lookup_alter_eq, Hj.
    + cbn. by rewrite Hh1, Hconn.
    + by intros t ?%elem_of_nil.
Qed.

(** ** Connecting *)

(** The server admits a client with the key [k], and [r] is the responder it
    makes for it. *)
Definition accepts (sv : ServerState) (k : bytes) (r : HandshakeState) : Prop :=
  (bool_decide (is_Some (ServerConfig.allow (config sv))) || bool_decide (is_Some (ServerConfig.deny (config sv))))
    && negb (ServerConfig.is_allowed_access (config sv) k) = false /\
  exists q, parse_params (default PATTERN (ServerConfig.pattern (config sv))) = Ok q /\
    build_responder q (Keypair.private_key (keypair sv)) k = Ok r.

(** A connection that was just accepted. *)
Definition new_connection (u : Uuid) (k : bytes) (r : HandshakeState) : WebSocketConnection :=
  {| conn_id := u; conn_public_key := k; outgoing := chan_new; incoming := chan_new;
     conn_state := Some (Handshake r) |}.

Lemma stage_connect n sv now u l T k r h : stage n sv now u l T -> accepts sv k r ->
  transport_public_key (into_transport h) = k ->
  exists n' c, rtc net_step n n' /\
    stage n' (set_tables (<[u := c]> (pending sv)) (active sv) sv) now u
      (l ++ [(side_new c h, new_connection u k r)]) T.
Proof.
  intros [Hr Hsv Hck Hud Hsd Hcn Hd Hso Ht] (Hadm & q & Hq & Hb) Hk.
  set (w := world (system n)) in *. set (c := fresh (dom (heap w)) : Connection).
  set (sv' := set_tables (<[u := c]> (pending sv)) (active sv) sv).
  set (w1 := set_server sv' (set_heap (<[c := new_connection u k r]> (heap w)) w)).
  assert (upgrade k w = (w1, Ok c)) as Hup.
  { unfold upgrade. rewrite Hsv, Hadm. unfold mbind, Res_bind. rewrite Hq. cbn [map_err].
    rewrite Hb. cbn [map_err]. unfold w1, new_connection. rewrite Hud. by fold c. }
  set (w2 := set_spawned (((spawned w ++ [Listen c]) ++ [Write c]) ++ [Read c]) w1).
  assert (heap w !! c = None) as Hnone by apply not_elem_of_dom, is_fresh.
  set (th := {| thread_task := None; thread_input := None; thread_prog := (handle_socket c ;; mret false) |}).
  set (n1 := {| system := {| world := w1; running := running (system n) ++ [th] |};
                sides := sides n ++ [side_new c h] |}).
  exists (set_system {| world := w2; running := [] |} n1), c. split.
  - eapply rtc_l; [by eapply (NetConnect n k w1 c h) |].
    apply (net_thread n1 th w2 (Ok false)); [unfold n1; cbn; by rewrite Hr |]. done.
  - split; try done.
    + cbn. by rewrite fmap_app, Hsd.
    + cbn. apply Forall_app. split.
      * eapply list.Forall_impl; [exact Hcn |]. intros x Hx. cbn.
        rewrite lookup_insert_ne; [done |]. intros Heq. cbv beta in Hx. by rewrite <- Heq, Hnone in Hx.
      * apply Forall_singleton. apply lookup_insert_eq.
    + rewrite fmap_app. apply list.NoDup_app. split_and!; [done | | apply NoDup_singleton].
      intros d (x & -> & Hx)%list_elem_of_fmap Hin%list_elem_of_singleton.
      rewrite list.Forall_forall in Hcn. specialize (Hcn x Hx). unfold seat_conn in Hin at 2. cbn in Hin.
      by rewrite Hin, Hnone in Hcn.
    + cbn. apply Forall_app. split.
      * eapply list.Forall_impl; [exact Hso |]. intros x Hx t Hin.
        specialize (Hx t Hin). rewrite !elem_of_app. tauto.
      * apply Forall_singleton. unfold socket_tasks. intros t. unfold seat_conn. cbn. set_solver.
    + cbn. intros t Hin. specialize (Ht t Hin). rewrite !elem_of_app. tauto.
Qed.

(** Time passes, and another identifier will be drawn. *)
Lemma stage_env n sv now u l T now' u' : stage n sv now u l T ->
  exists n', rtc net_step n n' /\ stage n' sv now' u' l T.
Proof.
  intros [Hr Hsv Hck Hud Hsd Hcn Hd Hso Ht]. eexists. split.
  - apply rtc_once. apply (NetEnv n now' u').
  - by split.
Qed.

(** ** Iterations of waiting tasks *)

Lemma send_message_env c m b w :
  clock (run (send_message c m b) w).1 = clock w /\ next_uuid (run (send_message c m b) w).1 = next_uuid w.
Proof.
  unfold send_message, write_conn. rewrite run_atomically. unfold with_conn.
  destruct (heap w !! c) as [conn|]; [|done]. by case_match.
Qed.

Lemma notify_env table keys m w :
  clock (run (prog_for keys (notify_one table m)) w).1 = clock w /\
  next_uuid (run (prog_for keys (notify_one table m)) w).1 = next_uuid w.
Proof.
  revert w. induction keys as [|k keys IH]; intros w; [done |]. rewrite run_prog_for_cons.
  assert (clock (run (notify_one table m k) w).1 = clock w /\
    next_uuid (run (notify_one table m k) w).1 = next_uuid w) as [H1 H2].
  { unfold notify_one. destruct (table !! k); [apply send_message_env | done]. }
  destruct (run (notify_one table m k) w) as [w1 [[]| |]]; cbn in *; [|done..].
  destruct (IH w1). split; congruence.
Qed.

(** A seat whose client can be notified: its connection is the active one of
    its key. *)
Definition notifiable (sv : ServerState) (x : Seat) : Prop :=
  active sv !! conn_public_key x.2 = Some (seat_conn x) /\ exists b, connected x.2 b.

(** The seat once [m] has been queued on its connection. *)
Definition announced (m : ServerMessage.t) (x y : Seat) : Prop :=
  y.1 = x.1 /\ forall b, connected x.2 b -> exists bs b', delivers b bs m true b' /\ sent_to x.2 y.2 bs b'.

Lemma run_announce w l m : sendable m -> NoDup ((fun x => conn_public_key x.2) <$> l) ->
  Forall (fun x => heap w !! seat_conn x = Some x.2) l -> Forall (notifiable (server w)) l ->
  exists w' l', run (notify_peers ((fun x => conn_public_key x.2) <$> l) m) w = (w', Ok tt) /\
    server w' = server w /\ spawned w' = spawned w /\ clock w' = clock w /\ next_uuid w' = next_uuid w /\
    Forall (fun x => heap w' !! seat_conn x = Some x.2) l' /\ Forall2 (announced m) l l'.
Proof.
  intros Hm Hnd Hh Hn. set (keys := (fun x => conn_public_key x.2) <$> l) in *.
  rewrite list.Forall_forall in Hh, Hn.
  assert (reachable_peers (active (server w)) keys w) as Hreach.
  { intros k c (x & -> & Hx)%list_elem_of_fmap Hk. destruct (Hn x Hx) as [Ha [b Hb]].
    rewrite Hk in Ha. injection Ha as ->. exists x.2, b. split_and!; [by apply Hh | done | done]. }
  destruct (notify_loop (active (server w)) m keys w Hm Hnd Hreach) as (w' & Hrun & Hs & Hsp & _ & Hself).
  pose proof (notify_env (active (server w)) keys m w) as [Hck Hud]. rewrite Hrun in Hck, Hud.
  assert (forall x, x ∈ l -> exists cn', heap w' !! seat_conn x = Some cn' /\
    forall b, connected x.2 b -> exists bs b', delivers b bs m true b' /\ sent_to x.2 cn' bs b') as Hx.
  { intros x Hx. destruct (Hn x Hx) as [Ha [b Hb]].
    assert (conn_public_key x.2 ∈ keys) as Hk by (apply list_elem_of_fmap; by exists x).
    destruct (Hself _ _ _ b Hk Ha (Hh x Hx) Hb) as (bs & b' & cn' & Hc & _ & _). exists cn'. split; [done |].
    intros b1 Hb1. destruct (Hself _ _ _ b1 Hk Ha (Hh x Hx) Hb1) as (bs1 & b1' & cn1 & Hc1 & Hd1 & Hs1).
    rewrite Hc in Hc1. injection Hc1 as <-. by exists bs1, b1'. }
  exists w', ((fun x => (x.1, default x.2 (heap w' !! seat_conn x))) <$> l).
  split_and!; [by rewrite run_notify_peers | done..| |].
  - apply Forall_fmap, list.Forall_forall. intros x Hin. unfold seat_conn at 1 2. cbn.
    fold (seat_conn x). destruct (Hx x Hin) as (cn' & -> & _). done.
  - apply Forall2_fmap_r, Forall_Forall2_diag, list.Forall_forall. intros x Hin. split; [done |].
    destruct (Hx x Hin) as (cn' & Hc & Hb). cbn. by rewrite Hc.
Qed.

(** The tasks that wait for a session. *)
Definition session_task (t : Task) : bool :=
  match t with WaitSessionReady _ _ _ _ | WaitSessionActive _ _ _ _ => true | _ => false end.

(** The last iteration of a task that waits for a session. *)
Lemma stage_task n sv now u l T t th (R : list Seat -> Prop) T' :
  stage n sv now u l T -> t ∈ T -> session_task t = true -> (forall w, starts w t w th) ->
  thread_task th = Some t ->
  (forall w, server w = sv -> clock w = now -> next_uuid w = u ->
    Forall (fun x => heap w !! seat_conn x = Some x.2) l ->
    exists w' l', run (thread_prog th) w = (w', Ok false) /\ server w' = sv /\ clock w' = now /\
      next_uuid w' = u /\ Forall (fun x => heap w' !! seat_conn x = Some x.2) l' /\ l'.*1 = l.*1 /\
      (forall t, t ∈ spawned w -> t ∈ spawned w') /\ (forall t, t ∈ T' -> t ∈ spawned w') /\ R l') ->
  exists n' l', rtc net_step n n' /\ stage n' sv now u l' T' /\ R l'.
Proof.
  intros [Hr Hsv Hck Hud Hsd Hcn Hd Hso Ht] Hin Hst Hstarts Hth Hrun.
  destruct (take_task _ _ (Ht t Hin)) as (i & Hi & [Hs1 Hh1 Hc1 Hu1] & Hrest).
  set (w0 := taken i (world (system n))) in *.
  destruct (Hrun w0) as (w' & l' & Hw & Hs' & Hc' & Hu' & Hh' & Hl' & Hsp' & HT' & HR);
    [congruence.. | by rewrite Hh1 |].
  assert (seat_conn <$> l' = seat_conn <$> l) as Hconn.
  { assert (forall l0 : list Seat, seat_conn <$> l0 = side_conn <$> l0.*1) as Hf
      by (intros; by rewrite <- list_fmap_compose).
    by rewrite !Hf, Hl'. }
  exists (set_system {| world := w'; running := [] |} n), l'. split_and!; [| | done].
  - eapply rtc_l; [apply (NetStart n i t w0 th); [done | by destruct t | apply Hstarts] |].
    pose proof (net_thread (set_system (started_task w0 th (system n)) n) th w' (Ok false)) as H'.
    rewrite Hth in H'. replace (ServerSystem.finish (Some t) (Ok false) w') with w' in H' by by destruct t.
    apply H'; [cbn; by rewrite Hr | done].
  - split; try done.
    + cbn. congruence.
    + by rewrite Hconn.
    + apply (Forall_fmap seat_conn (fun c => forall t, t ∈ socket_tasks c -> t ∈ spawned w')).
      rewrite Hconn. apply Forall_fmap. eapply list.Forall_impl; [exact Hso |]. cbn. intros x Hx t' Ht'.
      apply Hsp'. destruct (Hrest t' (Hx t' Ht')) as [->|]; [|done].
      unfold socket_tasks in Ht'. set_unfold in Ht'. by destruct Ht' as [->|[->|[->|[]]]].
Qed.

(** Every participant of the session sits here, and is told that it is
    ready. *)
Lemma stage_ready n sv now u l T i owner start session :
  stage n sv now u l T -> WaitSessionReady i owner start session ∈ T -> 0 < i ->
  all_participants session = (fun x => conn_public_key x.2) <$> l -> NoDup (all_participants session) ->
  Forall (notifiable sv) l -> sendable (ServerMessage.SessionReady session) ->
  exists n' l', rtc net_step n n' /\ stage n' sv now u l' [WaitSessionActive i owner now session] /\
    Forall2 (announced (ServerMessage.SessionReady session)) l l'.
Proof.
  intros Hst Hin Hi Hall Hnd Hnot Hm.
  apply (stage_task n sv now u l T _ {| thread_task := Some (WaitSessionReady i owner start session);
    thread_input := None; thread_prog := wait_for_session_ready i owner start session |} _ _ Hst Hin);
    [done | constructor | done |].
  intros w Hs Hc Hu Hh.
  destruct (run_announce w l (ServerMessage.SessionReady session)) as
    (w1 & l' & Hrun & Hs1 & Hsp1 & Hc1 & Hu1 & Hh1 & Han); [done | by rewrite <- Hall | done | by rewrite Hs |].
  exists (set_spawned (spawned w1 ++ [WaitSessionActive i owner (clock w1) session]) w1), l'.
  assert (all_active w session) as Hact.
  { intros k Hk. rewrite Hall in Hk. apply list_elem_of_fmap in Hk as (x & -> & Hx).
    rewrite list.Forall_forall in Hnot. destruct (Hnot x Hx) as [Ha _]. rewrite Hs. by eexists. }
  split_and!; try done; try (cbn; congruence).
  - cbn [thread_prog]. unfold wait_for_session_ready. rewrite run_interval by done. rewrite run_read_state.
    rewrite (proj2 (all_active_bool w session) Hact), run_bind, run_log_err.
    unfold notify_session_ready. rewrite Hall, Hrun. done.
  - clear -Han. induction Han as [|x y l l' [H1 _] _ IH]; [done |]. cbn. by rewrite H1, IH.
  - cbn. rewrite Hsp1. intros t Ht. apply elem_of_app. by left.
  - cbn. intros t ->%list_elem_of_singleton. apply elem_of_app. right. rewrite Hc1, Hc. by left.
Qed.

(** The session is active, and every participant is told so. *)
Lemma stage_active n sv now u l T i owner start session s :
  stage n sv now u l T -> WaitSessionActive i owner start session ∈ T -> 0 < i ->
  all_participants session = (fun x => conn_public_key x.2) <$> l -> NoDup (all_participants session) ->
  Forall (notifiable sv) l -> sendable (ServerMessage.SessionActive session) ->
  SessionManager.get_session (sessions sv) (session_id session) = Some s -> Session.is_active s = true ->
  exists n' l', rtc net_step n n' /\ stage n' sv now u l' [] /\
    Forall2 (announced (ServerMessage.SessionActive session)) l l'.
Proof.
  intros Hst Hin Hi Hall Hnd Hnot Hm Hget Hact.
  apply (stage_task n sv now u l T _ {| thread_task := Some (WaitSessionActive i owner start session);
    thread_input := None; thread_prog := wait_for_session_active i start session |} _ _ Hst Hin);
    [done | constructor | done |].
  intros w Hs Hc Hu Hh.
  destruct (run_announce w l (ServerMessage.SessionActive session)) as
    (w1 & l' & Hrun & Hs1 & Hsp1 & Hc1 & Hu1 & Hh1 & Han); [done | by rewrite <- Hall | done | by rewrite Hs |].
  exists w1, l'. split_and!; try done; try congruence.
  - cbn [thread_prog]. unfold wait_for_session_active. rewrite run_interval by done. rewrite run_read_state.
    rewrite Hs, Hget, Hact, run_bind, run_log_err. unfold notify_session_active. rewrite Hall, Hrun. done.
  - clear -Han. induction Han as [|x y l l' [H1 _] _ IH]; [done |]. cbn. by rewrite H1, IH.
  - by intros t ?%elem_of_nil.
Qed.
End run.
