(* ===== verification/NetworkSession.v ===== *)
(** * Parties of a session on the network

    The steps of [NetworkRun] for clients that open a session: what each does
    to the handler, the stream and the server channel of the client it is
    about. *)

From S2P Require Import Prelude Types Stream Encoding EncodingFacts Noise Channel ChannelSpec Keypair ServerConfig Zlib Prog Sessions SessionsFacts Net.
From S2P Require Import Server ServerSystem ServerRun ServerSpec ServerTasksSpec Client ClientFacts Transport Round Driver SessionHandlers SessionRun.
From S2P Require Import Network EndToEnd NetworkRun.

Section session.
Context {BS : BinaryStream encoding_options} {BL : BinaryStreamLaws encoding_options BS}.
Context {SC : StatusCodes} {SL : StatusCodesLaws SC} {HO : HashOrder} {HL : HashOrderLaws HO}.
Context {N : Noise} {NL : NoiseLaws N} {FL : Flate} {FLL : FlateLaws FL} {HX : Hex} {DI : Display}.

Abbreviation Party := (Side (SessionHandler Transport) SessionState DriverError).
Abbreviation Chair := (Party * WebSocketConnection)%type.
Abbreviation Net := (Network (SessionHandler Transport) SessionState DriverError).

Implicit Types (n : Net) (p : Party).

(** ** The handler of a party *)

(** A party that waits for the session [s], knowing [k] of it, with nothing on
    its socket: its client is [c], and what its stream has yielded opens the
    session if the rest does. *)
Record seated (role : option (list bytes)) (s : SessionState) (own : bytes) (tstart : Transport)
    (k : Know) (p : Party) (c : Client) : Prop := {
  seated_waiting : waiting p;
  seated_transport : side_transport p = Relay c;
  seated_sockets : to_server p = [] /\ to_client p = [];
  seated_start : side_start p = handler_of role s (first_know role) tstart;
  seated_history : exists t0, side_handler p = handler_of role s k t0 /\
    forall I rest, opens_session role s own I k (eq t0) rest ->
      opens_session role s own I (first_know role) (eq tstart) (side_stream p ++ rest);
}.

Section party.
Context (role : option (list bytes)) (s : SessionState) (own : bytes) (tstart : Transport).

Lemma seated_new c conn : tstart = Relay c ->
  seated role s own tstart (first_know role) (side_new conn (handler_of role s (first_know role) tstart)) c.
Proof.
  intros ->. split; try done.
  - unfold side_transport. cbn. by rewrite session_transport_of.
  - by exists (Relay c).
Qed.

Lemma seated_advance k p c r c' items continue : seated role s own tstart k p c ->
  run_turn r c = (c', items, continue) -> seated role s own tstart k (advance r p) c'.
Proof.
  intros [[H1 H2] H3 H4 H5 H6] Hr. split; [by split | by eapply advance_transport | done | done | done].
Qed.

(** Where the party is when it handles an item. *)
Lemma seated_turns k p c : seated role s own tstart k p c -> exists t0,
  side_handler p = handler_of role s k t0 /\ side_turns p t0 = Relay c /\
  in_transport (side_turns p) (side_handler p) = handler_of role s k (Relay c) /\
  forall I rest, opens_session role s own I k (eq t0) rest ->
    opens_session role s own I (first_know role) (eq tstart) (side_stream p ++ rest).
Proof.
  intros [_ Ht _ _ (t0 & Hh & Hist)]. exists t0. unfold side_transport in Ht. rewrite Hh in Ht |- *.
  cbn [into_transport SessionHandler_events] in Ht. rewrite session_transport_of in Ht.
  split_and!; [done | done | | done]. cbn [in_transport SessionHandler_events].
  by rewrite session_in_transport_of, Ht.
Qed.

(** An event that the handler takes in its stride. *)
Lemma seated_event k p c c' event : seated role s own tstart k p c ->
  k <> Unasked -> expected_event role s k event -> client_public_key c = own ->
  asks s own k event (Relay c) = (Relay c', Ok tt) ->
  seated role s own tstart (next_know role k event) (handle_item p (Ok event)) c'.
Proof.
  intros Hp Hk He Hown Ha. destruct (seated_turns k p c Hp) as (t0 & Hh & Ht & Hin & Hist).
  destruct Hp as [[Hopen Hres] _ Hsock Hstart _]. unfold handle_item, wait_item. rewrite Hres. cbn [turn next]. rewrite Hin.
  cbn [handle_event SessionHandler_events].
  rewrite (handler_event role s k own event (Relay c) (Relay c') tt) by done.
  split; try done.
  - unfold side_transport. cbn. by rewrite session_transport_of.
  - exists (Relay c'). split; [done |]. intros I rest Hrest. cbn [side_stream].
    rewrite <- app_assoc. apply Hist. cbn [app].
    apply (opens_event _ _ _ _ k (eq t0) (eq (Relay c')) _ event); [done | done | done | | done].
    intros t <-. cbn [turn]. rewrite Ht. split; [done |]. by exists (Relay c'), tt.
Qed.

(** A party whose session is open, with the transport it has then. *)
Record settled (p : Party) (c : Client) : Prop := {
  settled_result : side_result p = Some (Ok s);
  settled_transport : side_transport p = Relay c;
  settled_start : side_start p = handler_of role s (first_know role) tstart;
  settled_opening : forall I : Transport -> Prop, I (Relay c) ->
    opens_session role s own I (first_know role) (eq tstart) (side_stream p);
}.

Lemma seated_settles k p c : seated role s own tstart k p c -> k <> Unasked ->
  settled (handle_item p (Ok (Event.SessionActive s))) c.
Proof.
  intros Hp Hk. destruct (seated_turns k p c Hp) as (t0 & Hh & Ht & Hin & Hist).
  destruct Hp as [[Hopen Hres] _ Hsock Hstart _]. unfold handle_item, wait_item. rewrite Hres. cbn [turn next]. rewrite Hin.
  cbn [handle_event SessionHandler_events]. rewrite handler_active by done. split; try done.
  - unfold side_transport. cbn. by rewrite session_transport_of.
  - intros I HI. cbn [side_stream]. apply Hist. apply opens_active; [done | done |].
    intros t <-. cbn [turn]. by rewrite Ht.
Qed.
End party.
(** The first event makes the initiator ask for the session. *)
Lemma seated_asks s own tstart participants p c c' key :
  seated (Some participants) s own tstart Unasked p c -> is_connected c = true ->
  new_session participants c = (c', Ok tt) ->
  seated (Some participants) s own tstart Unknown (handle_item p (Ok (Event.ServerConnected key))) c'.
Proof.
  intros Hp Hcon Hnew. destruct (seated_turns _ _ _ _ Unasked p c Hp) as (t0 & Hh & Ht & Hin & Hist).
  destruct Hp as [[Hopen Hres] _ Hsock Hstart _]. unfold handle_item, wait_item. rewrite Hres. cbn [turn next]. rewrite Hin.
  assert (transport_new_session (T := Transport) participants (Relay c) = (Relay c', Ok tt)) as Hnew'.
  { cbn. unfold Transport_new_session, on_relay. by rewrite Hnew. }
  cbn [handle_event SessionHandler_events].
  rewrite (handler_asking participants s _ (Relay c) (Relay c') tt) by done.
  split; try done. exists (Relay c'). split; [done |]. intros I rest Hrest. cbn [side_stream].
  rewrite <- app_assoc. apply Hist. cbn [app].
  apply (opens_asking _ _ _ _ participants (eq t0) (eq (Relay c')) _ (Event.ServerConnected key)); try done.
  intros t <-. cbn [turn]. rewrite Ht. split; [done |]. by exists (Relay c'), tt.
Qed.

(** A participant does not ask for anything. *)
Lemma seated_connected s own tstart p c key : seated None s own tstart Unknown p c ->
  client_public_key c = own ->
  seated None s own tstart Unknown (handle_item p (Ok (Event.ServerConnected key))) c.
Proof.
  intros Hp Hown. apply (seated_event None s own tstart Unknown p c c (Event.ServerConnected key)); done.
Qed.
End session.
