(* ===== verification/NetworkLines.v ===== *)
(** * Lines between parties and the server

    A party in a schedule sits at its client, whose line to the server is at
    rest or has one message on it, in one of the two directions.  The lemmas
    here take a message off a line: the server handles a request, the client is
    told a reply or an announcement, a handshake is passed to another party. *)

From S2P Require Import Prelude Types Stream Encoding EncodingFacts Noise Channel ChannelSpec Keypair ServerConfig Zlib Prog Sessions SessionsFacts Net.
From S2P Require Import Server ServerSystem ServerRun ServerSpec ServerTasksSpec Client ClientFacts Transport Round Driver SessionHandlers SessionRun.
From S2P Require Import Network EndToEnd NetworkRun NetworkSession.

Section lines.
Context {BS : BinaryStream encoding_options} {BL : BinaryStreamLaws encoding_options BS}.
Context {SC : StatusCodes} {SL : StatusCodesLaws SC} {HO : HashOrder} {HL : HashOrderLaws HO}.
Context {N : Noise} {NL : NoiseLaws N} {FL : Flate} {FLL : FlateLaws FL} {HX : Hex} {DI : Display}.

Abbreviation Party := (Side (SessionHandler Transport) SessionState DriverError).
Abbreviation Chair := (Party * WebSocketConnection)%type.
Abbreviation Net := (Network (SessionHandler Transport) SessionState DriverError).

(** ** A client and its connection *)

(** Both ends of the server channel are in step. *)
Definition in_touch (c : Client) (cn : WebSocketConnection) : Prop :=
  exists b, server_state c = Some (Noise.Transport b) /\ connected cn b.

(** The client has queued the request [m], which the connection can open. *)
Definition asking (m : ServerMessage.t) (c : Client) (cn : WebSocketConnection) : Prop :=
  receiver_open (outgoing cn) = true /\
  exists b t t1 env payload, server_state c = Some (Noise.Transport b) /\
    outbound c = chan_push (InternalMessage.Request (RequestMessage.Opaque (OpaqueMessage.ServerMessage env))) chan_new /\
    wf_envelope env /\ conn_state cn = Some (Noise.Transport t) /\
    decrypt_server_channel env (Noise.Transport t) = (Noise.Transport t1, Ok (Encoding.Blob, payload)) /\
    decode payload = Ok m /\ in_step t1 b.

(** The connection has queued the message [m], which the client can open. *)
Definition told (m : ServerMessage.t) (c : Client) (cn : WebSocketConnection) : Prop :=
  exists b bs bcast b', server_state c = Some (Noise.Transport b) /\ delivers b bs m bcast b' /\
    outgoing cn = chan_push (Binary bs) chan_new /\ connected cn b'.

(** What is on the line of a party. *)
Inductive Line :=
| Rest
| Asks (m : ServerMessage.t)
| IsTold (m : ServerMessage.t)
| Hails (k : bytes) (m : HandshakeMessage.t)
| IsHailed (k : bytes) (m : HandshakeMessage.t).

Definition on_line (y : Line) (c : Client) (cn : WebSocketConnection) : Prop :=
  match y with
  | Rest => outbound c = chan_new /\ outgoing cn = chan_new /\ in_touch c cn
  | Asks m => outgoing cn = chan_new /\ asking m c cn
  | IsTold m => outbound c = chan_new /\ told m c cn
  | Hails k m => outbound c = chan_push (InternalMessage.Request (peer_request k m)) chan_new /\
      wf_request (peer_request k m) /\ outgoing cn = chan_new /\ in_touch c cn
  | IsHailed k m => outbound c = chan_new /\ in_touch c cn /\
      exists f, outgoing cn = chan_push (Binary f) chan_new /\
        carries f (ResponseMessage.Transparent (TransparentMessage.PeerHandshake k m))
  end.

(** A request that can be sent is on the line once the client has made it. *)
Lemma request_asks m c cn : in_touch c cn -> sendable m -> outbound c = chan_new ->
  exists c', request m c = (c', Ok tt) /\ asking m c' cn /\ options c' = options c /\
    peers c' = peers c /\ inbound c' = inbound c.
Proof.
  intros (b & Hs & Ho & t & Ht & Hst) [Hm Hf] Hout.
  destruct (codec_encode_decode (C := ServerMessage_Codec) m Hm) as (payload & He & Hd).
  destruct (channel_in_step payload false b t (in_step_sym _ _ Hst) (Hf _ He))
    as (b1 & t1 & env & H1 & H2 & H3 & _ & _ & H6).
  exists (set_outbound (chan_push (InternalMessage.Request (RequestMessage.Opaque
    (OpaqueMessage.ServerMessage env))) chan_new) (set_server_state (Some (Noise.Transport b1)) c)).
  split_and!; [|split; [done |]|done..].
  - unfold request. rewrite Hs. unfold lift_err, mbind, SM_bind, sm_lift. rewrite He. cbn [map_err].
    unfold on_server. rewrite Hs, H1. cbn [map_err]. rewrite outbound_send_ok; cbn; by rewrite Hout.
  - exists b1, t, t1, env, payload. split_and!; try done. by apply in_step_sym.
Qed.

(** ** Seats *)

(** A party with the options [o] sits at its client [c], with the connection
    [d], knowing [k] of its session and [pe] of its peers, and [y] is on its
    line. *)
Section party.
Context (role : option (list bytes)) (s : SessionState) (tstart : Transport).
Context (o : ClientOptions) (d : Connection).

Abbreviation own := (Keypair.public_key (options_keypair o)).

Record sits (k : Know) (pe : gmap bytes ProtocolState) (y : Line) (x : Chair) (c : Client) : Prop := {
  sits_seated : seated role s own tstart k x.1 c;
  sits_conn : side_conn x.1 = d;
  sits_options : options c = o;
  sits_peers : peers c = pe;
  sits_inbound : inbound c = chan_new;
  sits_incoming : incoming x.2 = chan_new;
  sits_key : conn_public_key x.2 = own;
  sits_line : on_line y c x.2;
}.

Context {n : Net} {sv : ServerState} {now : SystemTime} {u : Uuid} {l : list Chair} {T : list Task}.

(** ** Requests to the server *)

(** What a call of [service] comes to, in a state and at a time. *)
Definition serves (k : bytes) (m : ServerMessage.t) (reply : option ServerMessage.t)
    (sv' : ServerState) (T' : list Task) : Prop :=
  forall w cn, server w = sv -> clock w = now -> next_uuid w = u -> heap w !! d = Some cn ->
    conn_public_key cn = k ->
    run (service d k m) w = (set_spawned (spawned w ++ T') (set_server sv' w), Ok reply).

Definition after_call (reply : option ServerMessage.t) : Line :=
  match reply with Some r => IsTold r | None => Rest end.

(** Listening to the request on a line answers it. *)
Lemma listen_asked m reply sv' T' c cn w buffer env :
  serves (conn_public_key cn) m reply sv' T' -> from_option sendable True reply ->
  asking m c cn -> outgoing cn = chan_new -> active sv !! conn_public_key cn = Some d ->
  outbound c = chan_push (InternalMessage.Request (RequestMessage.Opaque (OpaqueMessage.ServerMessage env))) chan_new ->
  server w = sv -> clock w = now -> next_uuid w = u -> heap w !! d = Some cn ->
  decode buffer = Ok (RequestMessage.Opaque (OpaqueMessage.ServerMessage env)) ->
  exists w' cn', run (listen d buffer) w = (w', Ok tt) /\ server w' = sv' /\ clock w' = now /\
    next_uuid w' = u /\ heap w' = <[d := cn']> (heap w) /\ spawned w' = spawned w ++ T' /\
    on_line (after_call reply) (set_outbound chan_new c) cn' /\
    incoming cn' = incoming cn /\ conn_public_key cn' = conn_public_key cn.
Proof.
  intros Hserve Hsend (Hro & b & t & t1 & env' & payload & Hs & Hout & Hw & Hcs & Hdec & Hm & Hstep)
    Hog Hact Henv Hsw Hcw Huw Hh Hb.
  rewrite Hout in Henv. injection Henv as ->.
  rewrite (run_listen_rpc d cn t t1 env buffer payload m w) by (done || by rewrite Hsw).
  set (cn1 := set_conn_state (Some (Noise.Transport t1)) cn). set (w1 := put_conn d cn1 w).
  assert (connected cn1 b) as Hcn1 by (split; [done | by exists t1]).
  pose proof (rpc_outcome d cn1 b (conn_public_key cn) m w1 (lookup_put_conn _ _ _) Hcn1) as Hrpc. cbv zeta in Hrpc.
  rewrite (Hserve w1 cn1) in Hrpc by (done || apply lookup_put_conn).
  destruct reply as [r|].
  - destruct Hrpc as [_ Hrep]. destruct (Hrep Hsend) as (bs & b' & cn' & Hrun & Hdel & Hsent).
    destruct (sent_to_connected cn1 cn' bs b b' Hcn1 Hsent) as (Hcn' & _ & Hk1 & Hi1 & _).
    eexists _, cn'. split_and!; [exact Hrun | done.. | apply insert_insert_eq | done | | done | done].
    split; [done |]. exists b, bs, false, b'. split_and!; try done. destruct Hsent as (t' & -> & _).
    cbn. by rewrite Hog.
  - destruct Hrpc as [_ Hrun]. eexists _, cn1. split_and!; [exact Hrun | done.. | | done | done].
    split_and!; [done.. | by exists b].
Qed.

(** The party whose request has left. *)
Lemma seated_sent k p c m c' : seated role s own tstart k p c -> wf_request m ->
  outbound c = chan_push (InternalMessage.Request m) chan_new ->
  side_transport (sent_side p) = Relay c' -> seated role s own tstart k (sent_side p) c'.
Proof.
  intros Hp Hm Hout Htr. destruct (turn_writes c m Hm Hout) as (f & Hturn & _).
  pose proof (seated_advance role s own tstart k p c write_turn _ _ _ Hp Hturn) as Hp'.
  pose proof (seated_transport _ _ _ _ _ _ _ Hp') as Htr'. fold (sent_side p) in Htr', Hp'.
  rewrite Htr in Htr'. by injection Htr' as ->.
Qed.

(** The server handles the request of a party and answers it. *)
Lemma sits_asks j x c k pe m reply sv' T' :
  stage n sv now u l T -> l !! j = Some x -> sits k pe (Asks m) x c -> active sv !! own = Some d ->
  serves own m reply sv' T' -> from_option sendable True reply ->
  exists n' x' c', rtc net_step n n' /\ stage n' sv' now u (<[j := x']> l) (T ++ T') /\
    sits k pe (after_call reply) x' c'.
Proof.
  intros Hst Hj [Hp Hd Ho Hpe Hin Hic Hk [Hog Hask]] Hact Hserve Hsend.
  destruct x as [p cn]. cbn [fst snd] in *. pose proof Hp as [Hwait Htr [Hts Htc] _].
  pose proof Hask as (_ & b & t & t1 & env & payload & _ & Hout & Hw & _).
  assert (wf_request (RequestMessage.Opaque (OpaqueMessage.ServerMessage env))) as Hw' by done.
  destruct (stage_request n sv now u l T j p cn c (RequestMessage.Opaque (OpaqueMessage.ServerMessage env)) j p cn sv' (fun cn' =>
    on_line (after_call reply) (set_outbound chan_new c) cn' /\
    incoming cn' = chan_new /\ conn_public_key cn' = own) T') as
    (n' & cn' & f & Hr & (Hl & Hi' & Hk') & Hst' & Htr'); [done.. | |].
  - intros w buffer Hsw Hcw Huw Hh Hb. rewrite Hd. rewrite <- Hk in Hserve, Hact.
    assert (heap w !! d = Some cn) as Hhp by (rewrite <- Hd; apply (Forall_lookup_1 _ _ _ _ Hh Hj)).
    destruct (listen_asked m reply sv' T' c cn w buffer env) as
      (w' & cn' & Hrun & H1 & H2 & H3 & H4 & H5 & H6 & H7 & H8); [done.. |].
    exists w', cn'. split_and!; try done; try congruence; rewrite H5; intros t' Ht'; apply elem_of_app; tauto.
  - exists n', (sent_side p, cn'), (set_socket_out (socket_out c ++ [f]) (set_outbound chan_new c)).
    rewrite (set_seat l j p cn) in Hst' by done. split_and!; [done.. |]. split; try done.
    by eapply seated_sent.
Qed.

(** ** Handshakes through the server *)

(** The server passes a handshake on to another party. *)
Lemma sits_hails j x c k pe key m i q cq : stage n sv now u l T -> l !! j = Some x ->
  sits k pe (Hails key m) x c -> wf_buffer own -> i <> j -> l !! i = Some (q, cq) ->
  active sv !! key = Some (side_conn q) -> outgoing cq = chan_new ->
  exists n' x' c' f, rtc net_step n n' /\
    stage n' sv now u (<[i := (q, push_out (Binary f) cq)]> (<[j := x']> l)) T /\
    carries f (ResponseMessage.Transparent (TransparentMessage.PeerHandshake own m)) /\
    sits k pe Rest x' c'.
Proof.
  intros Hst Hj [Hp Hd Ho Hpe Hin Hic Hk (Hout & Hw & Hog & Htouch)] Hown Hne Hi Hact Hoq.
  destruct x as [p cn]. cbn [fst snd] in *. pose proof Hp as [Hwait Htr [Hts Htc] _].
  destruct (stage_request n sv now u l T j p cn c (peer_request key m) i q cq sv (fun cn' => exists f,
    cn' = push_out (Binary f) cq /\
    carries f (ResponseMessage.Transparent (TransparentMessage.PeerHandshake own m))) []) as
    (n' & cn' & g & Hr & (f & -> & Hcar) & Hst' & Htr'); [done.. | |].
  - intros w buffer Hsw Hcw Huw Hh Hb.
    assert (heap w !! side_conn p = Some cn) as Hhp by apply (Forall_lookup_1 _ _ _ _ Hh Hj).
    assert (heap w !! side_conn q = Some cq) as Hhq by apply (Forall_lookup_1 _ _ _ _ Hh Hi).
    destruct (listen_relays_handshake (side_conn p) cn (side_conn q) cq key m w buffer) as (f & Hrun & Hcar);
      [done | by rewrite Hsw | done | by rewrite Hoq | by rewrite Hk | done | done |].
    rewrite Hk in Hcar.
    exists (put_conn (side_conn q) (push_out (Binary f) cq) w), (push_out (Binary f) cq).
    split_and!; try done; [|by exists f]. by intros t ?%elem_of_nil.
  - rewrite app_nil_r in Hst'. rewrite (set_seats l i j p cn q cq) in Hst' by done.
    exists n', (sent_side p, cn), (set_socket_out (socket_out c ++ [g]) (set_outbound chan_new c)), f.
    split_and!; [done.. |]. split; try done. by eapply seated_sent.
Qed.

(** ** Messages to a client *)

(** A party is given an event: what it will have handled, and the client as the
    handler finds it. *)
Lemma seated_hears j p cn c c' k f m event : stage n sv now u l T -> l !! j = Some (p, cn) ->
  seated role s own tstart k p c -> side_conn p = d -> inbound c = chan_new ->
  outgoing cn = chan_push (Binary f) chan_new -> carries f m ->
  handle_incoming_message m c = (c', Ok (Some event)) -> socket_out c' = socket_out c ->
  exists n' p', rtc net_step n n' /\ seated role s own tstart k p' c' /\ side_conn p' = d /\
    stage n' sv now u (<[j := (handle_item p' (Ok event), set_outgoing chan_new cn)]> l) T.
Proof.
  intros Hst Hj Hp Hd Hin Hog Hcar Hh Hso. pose proof Hp as [Hwait Htr [Hts Htc] _].
  destruct (stage_event n sv now u l T j p cn c f m c' event) as (n' & Hr & Htr' & Hst'); [done.. |].
  rewrite (set_seat l j p cn) in Hst' by done.
  exists n', (received_side f p). split_and!; [done | | done | done].
  destruct Hcar as (frame & Hinf & Hdec).
  pose proof (seated_advance role s own tstart k p c _ _ _ _ Hp (turn_reads c f frame m Hin Hinf Hdec)) as Hp1.
  exact (seated_advance role s own tstart k _ _ _ _ _ _ Hp1 (turn_handles c m c' _ Hin Hh)).
Qed.

(** A message of the server. *)
Lemma sits_told j x c k pe m event : stage n sv now u l T -> l !! j = Some x ->
  sits k pe (IsTold m) x c -> handle_server_channel_message m = Ok (Some event) ->
  exists n' p' cn' c', rtc net_step n n' /\ sits k pe Rest (p', cn') c' /\
    stage n' sv now u (<[j := (handle_item p' (Ok event), cn')]> l) T.
Proof.
  intros Hst Hj Hsit Hm. pose proof Hsit as [Hp Hd Ho Hpe Hin Hic Hk [Hout Htold]].
  destruct Htold as (b & bs & bcast & b' & Hs & Hdel & Hog & Hcn).
  destruct (handle_delivered m b bs bcast b' c Hs Hdel) as (rm & Hcar & Hh). rewrite Hm in Hh.
  destruct x as [p cn]. cbn [fst snd] in *.
  destruct (seated_hears j p cn c _ k bs rm event Hst Hj Hp Hd Hin Hog Hcar Hh) as (n' & p' & Hr & Hp' & Hd' & Hst'); [done |].
  exists n', p', (set_outgoing chan_new cn), (set_server_state (Some (Noise.Transport b')) c).
  split_and!; [done | | done]. split; try done. split_and!; [done.. |].
  exists b'. split; [done |]. by destruct Hcn as [_ Hcn].
Qed.

(** The handler takes an event in its stride, and asks the client for what is
    then on the line. *)
Lemma sits_handles k p cn c c' event pe y : seated role s own tstart k p c -> side_conn p = d ->
  options c = o -> k <> Unasked -> expected_event role s k event ->
  asks s own k event (Relay c) = (Relay c', Ok tt) ->
  options c' = o -> peers c' = pe -> inbound c' = chan_new ->
  incoming cn = chan_new -> conn_public_key cn = own -> on_line y c' cn ->
  sits (next_know role k event) pe y (handle_item p (Ok event), cn) c'.
Proof.
  intros Hp Hd Ho Hk He Ha Ho' Hpe Hin Hic Hck Hl. split; try done.
  - cbn [fst]. apply (seated_event role s own tstart k p c); try done.
    unfold client_public_key. by rewrite Ho.
  - cbn [fst]. by rewrite handle_item_conn.
Qed.
End party.
End lines.
