(* ===== verification/NetworkOpening.v ===== *)
(** * Opening a session on the network

    The stages of two parties that open a session: each connects to the server
    and shakes hands with it, the initiator asks for the session, the server
    finds both parties connected and tells them, they shake hands through the
    relay, and the server is told of their connection. *)

From S2P Require Import Prelude Types Stream Encoding EncodingFacts Noise Channel ChannelSpec Keypair ServerConfig Zlib Prog Sessions SessionsFacts Net.
From S2P Require Import Server ServerSystem ServerRun ServerSpec ServerTasksSpec Client ClientFacts Transport Round Driver SessionHandlers SessionRun.
From S2P Require Import Network EndToEnd NetworkRun NetworkSession NetworkLines.

Section opening.
Context {BS : BinaryStream encoding_options} {BL : BinaryStreamLaws encoding_options BS}.
Context {SC : StatusCodes} {SL : StatusCodesLaws SC} {HO : HashOrder} {HL : HashOrderLaws HO}.
Context {N : Noise} {NL : NoiseLaws N} {NH : NoiseHandshakeLaws N}.
Context {FL : Flate} {FLL : FlateLaws FL} {HX : Hex} {DI : Display}.

Abbreviation Party := (Side (SessionHandler Transport) SessionState DriverError).
Abbreviation Chair := (Party * WebSocketConnection)%type.
Abbreviation Net := (Network (SessionHandler Transport) SessionState DriverError).
Abbreviation key o := (Keypair.public_key (options_keypair o)).

Context {n : Net} {sv : ServerState} {now : SystemTime} {u : Uuid} {l : list Chair} {T : list Task}.

(** A client that has queued its half of the handshake with the server. *)
Definition greets (o : ClientOptions) (c : Client) : Prop :=
  default PATTERN (options_pattern o) = PATTERN /\
  exists c0, client_new o = Ok c0 /\ connect c0 = (c, Ok tt).

(** The server state once a client of the key [k] is connected through [d]. *)
Definition admits (k : bytes) (d : Connection) (sv' : ServerState) : Prop :=
  active sv' = <[k := d]> (active sv) /\ config sv' = config sv /\ keypair sv' = keypair sv /\
  sessions sv' = sessions sv.

(** The server's half of the handshake is on the socket, and completes that of
    the client. *)
Definition welcomed (o : ClientOptions) (c : Client) (cn : WebSocketConnection) : Prop :=
  exists f m b, outgoing cn = chan_push (Binary f) chan_new /\ carries f m /\ connected cn b /\
    incoming cn = chan_new /\ conn_public_key cn = key o /\
    forall c', server_state c' = server_state c -> options c' = options c ->
      handle_incoming_message m c' = (set_server_state (Some (Noise.Transport b)) c',
        Ok (Some (Event.ServerConnected (server_public_key o)))).

(** The handshake of a client and the connection it was given. *)
Lemma greets_accepted o c r : greets o c -> accepts sv (key o) r ->
  default PATTERN (ServerConfig.pattern (config sv)) = PATTERN ->
  exists m, options c = o /\ peers c = ∅ /\ inbound c = chan_new /\ wf_request m /\
    outbound c = chan_push (InternalMessage.Request m) chan_new /\
    forall w d buffer, let conn := new_connection u (key o) r in
      heap w !! d = Some conn -> decode buffer = Ok m ->
      exists cn, run (listen d buffer) w = (set_server (promoted d conn (server w)) (put_conn d cn w), Ok tt) /\
        welcomed o c cn.
Proof.
  intros (Hpo & c0 & Hnew & Hcon) (_ & q & Hq & Hr) Hps.
  unfold client_new, params in Hnew. rewrite Hpo in Hnew. rewrite Hps in Hq.
  rewrite Hq in Hnew. unfold mbind, Res_bind in Hnew. cbn [map_err] in Hnew.
  destruct (build_initiator q _ _) as [i| |] eqn:Hi; [|done..]. cbn in Hnew. injection Hnew as <-.
  destruct (handshake_exchange q _ _ _ _ i r Hq Hi Hr) as
    (i1 & n1 & m1 & r1 & l1 & r2 & n2 & m2 & ti & tr & H1 & Hm1 & Hn1 & H2 & H3 & H4 & Hm2 & Hn2
     & _ & H5 & Hstep).
  unfold connect, mbind, SM_bind in Hcon. cbn [server_state] in Hcon. rewrite H1 in Hcon.
  injection Hcon as <-.
  exists (RequestMessage.Transparent (TransparentMessage.ServerHandshake (HandshakeMessage.Initiator n1 m1))).
  split_and!; try done. intros w d buffer conn Hc Hdec.
  destruct (listen_handshake d conn r n1 m1 r1 l1 r2 n2 m2 tr w buffer) as (f & Hrun & Hcar); [done.. |].
  eexists. split; [exact Hrun |]. exists f, (ResponseMessage.Transparent
    (TransparentMessage.ServerHandshake (HandshakeMessage.Responder n2 m2))), ti.
  split_and!; try done.
  - split; [done |]. exists tr. split; [done | by apply in_step_sym].
  - intros c' Hs Ho. cbn [handle_incoming_message]. unfold client_server_handshake, mbind, SM_bind.
    rewrite Hs. cbn [server_state set_outbound set_server_state]. rewrite H5. cbn. by rewrite Ho.
Qed.

(** A party connects, and the server answers its half of the handshake. *)
Lemma party_welcomed role s o c r : stage n sv now u l T -> greets o c -> accepts sv (key o) r ->
  default PATTERN (ServerConfig.pattern (config sv)) = PATTERN ->
  exists n' sv' d p c' cn, rtc net_step n n' /\ admits (key o) d sv' /\
    seated role s (key o) (Relay c) (first_know role) p c' /\ side_conn p = d /\
    options c' = o /\ peers c' = ∅ /\ inbound c' = chan_new /\ outbound c' = chan_new /\
    welcomed o c' cn /\ stage n' sv' now u (l ++ [(p, cn)]) T.
Proof.
  intros Hst Hg Hacc Hps. set (h := handler_of role s (first_know role) (Relay c)).
  destruct (greets_accepted o c r Hg Hacc Hps) as (m & Ho & Hpe & Hin & Hm & Hout & Hlisten).
  destruct (stage_connect n sv now u l T (key o) r h Hst Hacc) as (n1 & d & Hr1 & Hst1).
  { unfold h. cbn [into_transport SessionHandler_events]. rewrite session_transport_of.
    cbn. unfold client_public_key. by rewrite Ho. }
  set (sv1 := set_tables _ _ sv) in Hst1. set (p0 := side_new d h) in Hst1. set (cn0 := new_connection _ _ _) in Hst1.
  pose proof (seated_new role s (key o) (Relay c) c d eq_refl) as Hp0. fold h p0 in Hp0.
  assert ((l ++ [(p0, cn0)]) !! length l = Some (p0, cn0)) as Hj by by apply list_lookup_middle.
  destruct (stage_request n1 sv1 now u (l ++ [(p0, cn0)]) T (length l) p0 cn0 c m (length l) p0 cn0
    (promoted d cn0 sv1) (welcomed o c) []) as (n2 & cn & f & Hr2 & Hw & Hst2 & Htr2); try done.
  { by apply Hp0. }
  { intros w buffer Hsw Hcw Huw Hh Hb. pose proof (Forall_lookup_1 _ _ _ _ Hh Hj) as Hhp.
    destruct (Hlisten w d buffer Hhp Hb) as (cn & Hrun & Hw). rewrite Hsw in Hrun.
    eexists _, cn. split_and!; [exact Hrun | try done..]. by intros t ?%elem_of_nil. }
  rewrite (set_seat _ _ p0 cn0), app_nil_r in Hst2 by done.
  rewrite insert_app_r_alt, Nat.sub_diag in Hst2 by done. cbn [list_insert insert] in Hst2.
  exists n2, (promoted d cn0 sv1), d, (sent_side p0), (set_socket_out (socket_out c ++ [f]) (set_outbound chan_new c)), cn.
  split_and!; try done; [by etransitivity | by eapply seated_sent].
Qed.

(** A party connects and shakes hands with the server. *)
Lemma party_connects role s o c r : stage n sv now u l T -> greets o c -> accepts sv (key o) r ->
  default PATTERN (ServerConfig.pattern (config sv)) = PATTERN ->
  exists n' sv' d p c' cn, rtc net_step n n' /\ admits (key o) d sv' /\
    seated role s (key o) (Relay c) (first_know role) p c' /\ side_conn p = d /\
    options c' = o /\ peers c' = ∅ /\ inbound c' = chan_new /\ on_line Rest c' cn /\
    incoming cn = chan_new /\ conn_public_key cn = key o /\
    stage n' sv' now u (l ++ [(handle_item p (Ok (Event.ServerConnected (server_public_key o))), cn)]) T.
Proof.
  intros Hst Hg Hacc Hps.
  destruct (party_welcomed role s o c r Hst Hg Hacc Hps) as
    (n1 & sv1 & d & p & c1 & cn & Hr1 & Had & Hp & Hd & Ho & Hpe & Hin & Hout & Hw & Hst1).
  destruct Hw as (f & m & b & Hog & Hcar & Hcn & Hic & Hck & Hh).
  destruct (seated_hears (n := n1) (sv := sv1) (now := now) (u := u) (l := l ++ [(p, cn)]) (T := T)
    role s (Relay c) o d (length l) p cn c1 (set_server_state (Some (Noise.Transport b)) c1) (first_know role) f m
    (Event.ServerConnected (server_public_key o)) Hst1) as (n2 & p2 & Hr2 & Hp2 & Hd2 & Hst2);
    [by apply list_lookup_middle | done | done | done | done | done | by apply Hh | done |].
  rewrite insert_app_r_alt, Nat.sub_diag in Hst2 by done. cbn [list_insert insert] in Hst2.
  eexists n2, sv1, d, p2, _, (set_outgoing chan_new cn).
  split_and!; [by etransitivity | done | exact Hp2 | done..| | done | done | done].
  split_and!; [done.. |]. exists b. split; [done |]. by destruct Hcn as [_ Hcn].
Qed.

(** The initiator asks for its session as soon as it is connected. *)
Lemma initiator_asks participants s ts o d p c cn k :
  seated (Some participants) s (key o) ts Unasked p c -> side_conn p = d -> options c = o -> peers c = ∅ ->
  inbound c = chan_new -> on_line Rest c cn -> incoming cn = chan_new -> conn_public_key cn = key o ->
  sendable (ServerMessage.NewSession {| request_participant_keys := participants |}) ->
  exists c', sits (Some participants) s ts o d Unknown ∅
    (Asks (ServerMessage.NewSession {| request_participant_keys := participants |}))
    (handle_item p (Ok (Event.ServerConnected k)), cn) c'.
Proof.
  intros Hp Hd Ho Hpe Hin (Hout & Hog & Hl) Hic Hck Hm.
  destruct (request_asks _ c cn Hl Hm Hout) as (c' & Hreq & Hask & Ho' & Hpe' & Hin').
  exists c'. split; try (by cbn; congruence); [| | by split].
  - cbn [fst]. apply (seated_asks s (key o) ts participants p c c' k Hp); [|done].
    destruct Hl as (b & Hs & _). unfold is_connected. by rewrite Hs.
  - cbn [fst]. by rewrite handle_item_conn.
Qed.

(** A participant waits to be told of one. *)
Lemma participant_attends s ts o d p c cn k :
  seated None s (key o) ts Unknown p c -> side_conn p = d -> options c = o -> peers c = ∅ ->
  inbound c = chan_new -> on_line Rest c cn -> incoming cn = chan_new -> conn_public_key cn = key o ->
  sits None s ts o d Unknown ∅ Rest (handle_item p (Ok (Event.ServerConnected k)), cn) c.
Proof.
  intros Hp Hd Ho Hpe Hin Hl Hic Hck. split; try done.
  - cbn [fst]. apply seated_connected; [done |]. unfold client_public_key. by rewrite Ho.
  - cbn [fst]. by rewrite handle_item_conn.
Qed.

(** ** Calls of the service *)

Lemma serves_new_session d k keys :
  let st := {| session_id := u; all_participants := k :: keys |} in
  serves d (sv := sv) (now := now) (u := u) k
    (ServerMessage.NewSession {| request_participant_keys := keys |})
    (Some (ServerMessage.SessionCreated st))
    (set_sessions (SessionManager.new_session (sessions sv) u now k keys).1 sv)
    [WaitSessionReady (wait_interval (ServerConfig.session (config sv))) d now st].
Proof.
  intros st w cn Hs Hc Hu Hh Hk. cbn [service request_participant_keys].
  rewrite run_write_state, Hs, Hc, Hu. cbn [SessionManager.new_session]. rewrite run_spawn.
  cbn [app clock set_server spawned]. by rewrite Hc.
Qed.

Lemma serves_connection d k id peer ss :
  SessionManager.get_session_mut (sessions sv) id (fun x => Session.register_connection x k peer) = Some ss ->
  serves d (sv := sv) (now := now) (u := u) k (ServerMessage.SessionConnection id peer) None
    (set_sessions ss sv) [].
Proof.
  intros Hss w cn Hs Hc Hu Hh Hk. cbn [service]. rewrite (run_read_conn d cn) by done.
  rewrite run_write_state_last, Hs, Hk, Hss. by rewrite app_nil_r.
Qed.

(** ** Announcements *)

(** A party at rest whose connection is the active one can be told of its
    session. *)
Lemma sits_notifiable role s ts o d k pe x c : sits role s ts o d k pe Rest x c ->
  active sv !! key o = Some d -> notifiable sv x.
Proof.
  intros [_ Hd _ _ _ _ Hck (_ & _ & b & _ & Hb)] Ha. split; [|by exists b].
  unfold seat_conn. by rewrite Hck, Hd.
Qed.

Lemma sits_announced role s ts o d k pe x y c m : sits role s ts o d k pe Rest x c -> announced m x y ->
  sits role s ts o d k pe (IsTold m) y c.
Proof.
  intros [Hp Hd Ho Hpe Hin Hic Hck (Hout & Hog & b & Hs & Hb)] [Hxy Hann].
  destruct (Hann b Hb) as (bs & b' & Hdel & Hsent).
  destruct (sent_to_connected x.2 y.2 bs b b' Hb Hsent) as (Hb' & _ & Hk & Hi & _).
  split; try done; try congruence. split; [done |]. exists b, bs, true, b'. split_and!; try done.
  destruct Hsent as (t' & -> & _). cbn. by rewrite Hog.
Qed.
End opening.
