(* ===== verification/NetworkDuo.v ===== *)
(** * Two parties open a session

    The phases of a session of two, the initiator [oa] and the participant
    [ob], from stage to stage, and the whole of them. *)

From S2P Require Import Prelude Types Stream Encoding EncodingFacts Noise Channel ChannelSpec Keypair ServerConfig Zlib Prog Sessions SessionsFacts Net.
From S2P Require Import Server ServerSystem ServerRun ServerTasksSpec Client ClientFacts Transport Round Driver SessionHandlers SessionRun.
From S2P Require Import RelaySpec Network EndToEnd NetworkRun NetworkSession NetworkLines NetworkOpening.

Section duo.
Context {BS : BinaryStream encoding_options} {BL : BinaryStreamLaws encoding_options BS}.
Context {SC : StatusCodes} {SL : StatusCodesLaws SC} {HO : HashOrder} {HL : HashOrderLaws HO}.
Context {N : Noise} {NL : NoiseLaws N} {NH : NoiseHandshakeLaws N}.
Context {FL : Flate} {FLL : FlateLaws FL} {HX : Hex} {DI : Display}.

Abbreviation Party := (Side (SessionHandler Transport) SessionState DriverError).
Abbreviation Chair := (Party * WebSocketConnection)%type.
Abbreviation Net := (Network (SessionHandler Transport) SessionState DriverError).
Abbreviation key o := (Keypair.public_key (options_keypair o)).

Context (oa ob : ClientOptions) (id : Uuid) (now : SystemTime).

(** The session the two open. *)
Definition duo : SessionState := {| session_id := id; all_participants := [key oa; key ob] |}.

Context (Hne : key oa <> key ob).
Context (ta tb : Transport) (da db : Connection).

Abbreviation sits_a := (sits (Some [key ob]) duo ta oa da).
Abbreviation sits_b := (sits None duo tb ob db).

(** Both connections are the active ones. *)
Definition both_active (sv : ServerState) : Prop :=
  active sv !! key oa = Some da /\ active sv !! key ob = Some db.

Lemma duo_connections :
  SessionStates.connections duo (key oa) = [key ob] /\ SessionStates.connections duo (key ob) = [].
Proof.
  unfold SessionStates.connections, duo. cbn [all_participants]. rewrite !bool_decide_false by done.
  cbn [position]. rewrite (bool_decide_true (key oa = key oa)) by done.
  rewrite (bool_decide_false (key oa = key ob)), (bool_decide_true (key ob = key ob)) by done. done.
Qed.

Lemma duo_peers_a : SessionStates.recipients duo (key oa) = [key ob].
Proof.
  unfold SessionStates.recipients, duo. cbn [all_participants].
  rewrite filter_cons_False by (intros Hn; by apply Hn). rewrite filter_cons_True by (by intros Heq; apply Hne). done.
Qed.

Lemma duo_peers_b : SessionStates.recipients duo (key ob) = [key oa].
Proof.
  unfold SessionStates.recipients, duo. cbn [all_participants].
  rewrite filter_cons_True by done. rewrite filter_cons_False by (intros Hn; by apply Hn). done.
Qed.

(** The initiator's request is handled, and it is told of its session. *)
Lemma duo_created (n : Net) sv xa xb ca :
  stage n sv now id [xa; xb] [] -> both_active sv ->
  sits_a Unknown ∅ (Asks (ServerMessage.NewSession {| request_participant_keys := [key ob] |})) xa ca ->
  sendable (ServerMessage.SessionCreated duo) ->
  exists n' xa' ca', rtc net_step n n' /\ sits_a Known ∅ Rest xa' ca' /\
    stage n' (set_sessions (SessionManager.new_session (sessions sv) id now (key oa) [key ob]).1 sv) now id
      [xa'; xb] [WaitSessionReady (wait_interval (ServerConfig.session (config sv))) da now duo].
Proof.
  intros Hst [Haa Hab] Ha Hm.
  destruct (sits_asks _ _ _ _ _ 0 xa ca _ _ _ _ _ _ Hst eq_refl Ha Haa
    (serves_new_session da (key oa) [key ob]) Hm) as (n1 & x1 & c1 & Hr1 & Hst1 & H1).
  cbn [list_insert insert] in Hst1.
  destruct (sits_told _ _ _ _ _ 0 x1 c1 _ _ _ _ Hst1 eq_refl H1 eq_refl) as (n2 & p2 & cn2 & c2 & Hr2 & H2 & Hst2).
  cbn [list_insert insert app] in Hst2.
  exists n2, (handle_item p2 (Ok (Event.SessionCreated duo)), cn2), c2. split_and!; [by etransitivity | | done].
  destruct H2 as [Hp Hd Ho Hpe Hin Hic Hck Hl].
  change Known with (next_know (Some [key ob]) Unknown (Event.SessionCreated duo)).
  by apply (sits_handles _ _ _ _ _ Unknown p2 cn2 c2 c2).
Qed.

(** Who sits where, for the announcements of the server. *)
Lemma duo_seats k k' pe pe' xa xb ca cb : sits_a k pe Rest xa ca -> sits_b k' pe' Rest xb cb ->
  all_participants duo = (fun x : Chair => conn_public_key x.2) <$> [xa; xb] /\ NoDup (all_participants duo) /\
  forall sv, both_active sv -> Forall (notifiable sv) [xa; xb].
Proof.
  intros Ha Hb. split_and!.
  - cbn. by rewrite (sits_key _ _ _ _ _ _ _ _ _ _ Ha), (sits_key _ _ _ _ _ _ _ _ _ _ Hb).
  - cbn. apply list.NoDup_cons. split; [|apply NoDup_singleton]. by intros ?%list_elem_of_singleton.
  - intros sv [Haa Hab]. repeat constructor; by eapply sits_notifiable.
Qed.

Lemma duo_told k k' pe pe' xa xb ca cb m l : sits_a k pe Rest xa ca -> sits_b k' pe' Rest xb cb ->
  Forall2 (announced m) [xa; xb] l ->
  exists ya yb, l = [ya; yb] /\ sits_a k pe (IsTold m) ya ca /\ sits_b k' pe' (IsTold m) yb cb.
Proof.
  intros Ha Hb (ya & l1 & H1 & (yb & l2 & H2 & ->%Forall2_nil_inv_l & ->)%Forall2_cons_inv_l & ->)%Forall2_cons_inv_l.
  exists ya, yb. split_and!; [done | by eapply sits_announced..].
Qed.

(** The server finds both connected, and both are told so. *)
Lemma duo_ready (n : Net) sv xa xb ca cb i owner t0 T :
  stage n sv now id [xa; xb] T -> both_active sv -> WaitSessionReady i owner t0 duo ∈ T -> 0 < i ->
  sits_a Known ∅ Rest xa ca -> sits_b Unknown ∅ Rest xb cb -> sendable (ServerMessage.SessionReady duo) ->
  exists n' xa' xb', rtc net_step n n' /\ stage n' sv now id [xa'; xb'] [WaitSessionActive i owner now duo] /\
    sits_a Known ∅ (IsTold (ServerMessage.SessionReady duo)) xa' ca /\
    sits_b Unknown ∅ (IsTold (ServerMessage.SessionReady duo)) xb' cb.
Proof.
  intros Hst Hact Hin Hi Ha Hb Hm. destruct (duo_seats _ _ _ _ _ _ _ _ Ha Hb) as (Hk & Hnd & Hnot).
  destruct (stage_ready n sv now id _ T i owner t0 duo Hst Hin Hi Hk Hnd (Hnot sv Hact) Hm) as (n' & l' & Hr & Hst' & Han).
  destruct (duo_told _ _ _ _ _ _ _ _ _ _ Ha Hb Han) as (ya & yb & -> & Ha' & Hb'). by exists n', ya, yb.
Qed.

(** The session is active, and both are told so. *)
Lemma duo_active (n : Net) sv xa xb ca cb i owner t0 ss pe pe' T :
  stage n sv now id [xa; xb] T -> both_active sv -> WaitSessionActive i owner t0 duo ∈ T -> 0 < i ->
  sits_a Known pe Rest xa ca -> sits_b Known pe' Rest xb cb -> sendable (ServerMessage.SessionActive duo) ->
  SessionManager.get_session (sessions sv) id = Some ss -> Session.is_active ss = true ->
  exists n' xa' xb', rtc net_step n n' /\ stage n' sv now id [xa'; xb'] [] /\
    sits_a Known pe (IsTold (ServerMessage.SessionActive duo)) xa' ca /\
    sits_b Known pe' (IsTold (ServerMessage.SessionActive duo)) xb' cb.
Proof.
  intros Hst Hact Hin Hi Ha Hb Hm Hss Has. destruct (duo_seats _ _ _ _ _ _ _ _ Ha Hb) as (Hk & Hnd & Hnot).
  destruct (stage_active n sv now id _ T i owner t0 duo ss Hst Hin Hi Hk Hnd (Hnot sv Hact) Hm Hss Has)
    as (n' & l' & Hr & Hst' & Han).
  destruct (duo_told _ _ _ _ _ _ _ _ _ _ Ha Hb Han) as (ya & yb & -> & Ha' & Hb'). by exists n', ya, yb.
Qed.

(** The participant is told that the session is ready, and has nobody to
    connect to. *)
Lemma duo_ready_b (n : Net) sv xa xb cb T : stage n sv now id [xa; xb] T ->
  sits_b Unknown ∅ (IsTold (ServerMessage.SessionReady duo)) xb cb ->
  exists n' xb' cb', rtc net_step n n' /\ sits_b Known ∅ Rest xb' cb' /\ stage n' sv now id [xa; xb'] T.
Proof.
  intros Hst Hb.
  destruct (sits_told _ _ _ _ _ 1 xb cb _ _ _ _ Hst eq_refl Hb eq_refl) as (n' & p & cn & c & Hr & H & Hst').
  cbn [list_insert insert] in Hst'.
  exists n', (handle_item p (Ok (Event.SessionReady duo)), cn), c. split_and!; [done | | done].
  destruct H as [Hp Hd Ho Hpe Hin Hic Hck Hl].
  change Known with (next_know None Unknown (Event.SessionReady duo)).
  apply (sits_handles _ _ _ _ _ Unknown p cn c c); try done.
  cbn [asks]. by rewrite (proj2 duo_connections).
Qed.

(** ** The handshake of the two *)

(** The two halves of the handshake. *)
Record duo_handshake (i1 : HandshakeState) (n1 : Z) (m1 : bytes) (n2 : Z) (m2 : bytes) (a b : TransportState) : Prop := {
  duo_initiates : forall c, options c = oa -> peers c = ∅ -> outbound c = chan_new ->
    connect_peer (key ob) c = (set_outbound (chan_push (InternalMessage.Request
      (peer_request (key ob) (HandshakeMessage.Initiator n1 m1))) chan_new)
      (set_peers {[key ob := Handshake i1]} c), Ok tt);
  duo_responds : forall c, options c = ob -> peers c = ∅ -> outbound c = chan_new ->
    peer_handshake_responder (key oa) n1 m1 c = (set_outbound (chan_push (InternalMessage.Request
      (peer_request (key oa) (HandshakeMessage.Responder n2 m2))) chan_new)
      (set_peers {[key oa := Noise.Transport b]} c), Ok (Some (Event.PeerConnected (key oa))));
  duo_completes : forall c, peers c = {[key ob := Handshake i1]} ->
    peer_handshake_ack (key ob) n2 m2 c = (set_peers {[key ob := Noise.Transport a]} c,
      Ok (Event.PeerConnected (key ob)));
  duo_requests : wf_request (peer_request (key ob) (HandshakeMessage.Initiator n1 m1)) /\
    wf_request (peer_request (key oa) (HandshakeMessage.Responder n2 m2));
  duo_in_step : in_step a b;
}.

(** The keys of the two can be used for a handshake. *)
Definition can_pair : Prop :=
  exists p i r, parse_params PATTERN = Ok p /\
    build_initiator p (Keypair.private_key (options_keypair oa)) (key ob) = Ok i /\
    build_responder p (Keypair.private_key (options_keypair ob)) (key oa) = Ok r.

Lemma duo_can_handshake : wf_buffer (key oa) -> wf_buffer (key ob) -> default PATTERN (options_pattern oa) = PATTERN ->
  default PATTERN (options_pattern ob) = PATTERN -> can_pair ->
  exists i1 n1 m1 n2 m2 a b, duo_handshake i1 n1 m1 n2 m2 a b.
Proof.
  intros Hwa Hwb Hpa Hpb (q & i & r & Hq & Hi & Hr).
  destruct (handshake_exchange q _ _ _ _ i r Hq Hi Hr) as
    (i1 & n1 & m1 & r1 & l1 & r2 & n2 & m2 & a & b & H1 & Hw1 & _ & _ & _ & _ & Hw2 & _ & H2 & H3 & H4).
  exists i1, n1, m1, n2, m2, a, b. split.
  - intros c Ho Hp Hout. rewrite (connect_peer_ok c (key ob) q i i1 n1 m1); try done.
    + by rewrite Hout, Hp.
    + unfold standard. by rewrite Ho.
    + by rewrite Ho.
    + by rewrite Hp.
    + by rewrite Hout.
  - intros c Ho Hp Hout. rewrite (peer_handshake_responder_ok c (key oa) q r b n1 m1 n2 m2); try done.
    + by rewrite Hout, Hp.
    + unfold standard. by rewrite Ho.
    + by rewrite Ho.
    + by rewrite Hp.
    + by rewrite Hout.
  - intros c Hp. rewrite (peer_handshake_ack_ok c (key ob) i1 a) by (done || by rewrite Hp; apply lookup_insert_eq).
    rewrite Hp. by rewrite insert_singleton_eq.
  - done.
  - done.
Qed.

(** The initiator is told that the session is ready, and hails the
    participant. *)
Lemma duo_ready_a (n : Net) sv xa xb ca T i1 n1 m1 n2 m2 a b : stage n sv now id [xa; xb] T ->
  duo_handshake i1 n1 m1 n2 m2 a b -> sits_a Known ∅ (IsTold (ServerMessage.SessionReady duo)) xa ca ->
  exists n' xa' ca', rtc net_step n n' /\ stage n' sv now id [xa'; xb] T /\
    sits_a Known {[key ob := Handshake i1]} (Hails (key ob) (HandshakeMessage.Initiator n1 m1)) xa' ca'.
Proof.
  intros Hst Hh Ha.
  destruct (sits_told _ _ _ _ _ 0 xa ca _ _ _ _ Hst eq_refl Ha eq_refl) as (n' & p & cn & c & Hr & H & Hst').
  cbn [list_insert insert] in Hst'.
  destruct H as [Hp Hd Ho Hpe Hin Hic Hck (Hout & Hog & Htouch)]. cbn [fst snd] in *.
  pose proof (duo_initiates _ _ _ _ _ _ _ Hh c Ho Hpe Hout) as Hcon. set (c1 := set_outbound _ _) in Hcon.
  exists n', (handle_item p (Ok (Event.SessionReady duo)), cn), c1. split_and!; [done | done |].
  change Known with (next_know (Some [key ob]) Known (Event.SessionReady duo)) at 1.
  apply (sits_handles _ _ _ _ _ Known p cn c c1); try done.
  - cbn [asks]. rewrite (proj1 duo_connections). cbn [sm_for transport_connect_peer Transport_network].
    unfold Transport_connect_peer, on_relay, mbind, SM_bind. by rewrite Hcon.
  - split; [done |]. split; [apply (duo_requests _ _ _ _ _ _ _ Hh) | done].
Qed.

(** The hail reaches the participant, which answers. *)
Lemma duo_hail (n : Net) sv xa xb ca cb T i1 n1 m1 n2 m2 a b pe : wf_buffer (key oa) -> stage n sv now id [xa; xb] T -> both_active sv ->
  duo_handshake i1 n1 m1 n2 m2 a b ->
  sits_a Known pe (Hails (key ob) (HandshakeMessage.Initiator n1 m1)) xa ca -> sits_b Known ∅ Rest xb cb ->
  exists n' xa' xb' ca' cb', rtc net_step n n' /\ stage n' sv now id [xa'; xb'] T /\
    sits_a Known pe Rest xa' ca' /\
    sits_b Known {[key oa := Noise.Transport b]} (Hails (key oa) (HandshakeMessage.Responder n2 m2)) xb' cb'.
Proof.
  intros Hwa Hst [Haa Hab] Hh Ha Hb. destruct xb as [q cq].
  destruct Hb as [Hp Hd Ho Hpe Hin Hic Hck (Hout & Hog & Htouch)]. cbn [fst snd] in *.
  destruct (sits_hails _ _ _ _ _ 0 xa ca Known pe (key ob) _ 1 q cq Hst eq_refl Ha Hwa) as
    (n3 & xa' & ca' & f & Hr & Hst' & Hcar & Ha'); [done | done | by rewrite Hd | done |].
  cbn [list_insert insert] in Hst'.
  pose proof (duo_responds _ _ _ _ _ _ _ Hh cb Ho Hpe Hout) as Hresp. set (c1 := set_outbound _ _) in Hresp.
  destruct (seated_hears None duo tb ob db 1 q (push_out (Binary f) cq) cb c1 Known f (ResponseMessage.Transparent
    (TransparentMessage.PeerHandshake (key oa) (HandshakeMessage.Initiator n1 m1))) (Event.PeerConnected (key oa)) Hst') as (n4 & p & Hr4 & Hp4 & Hd4 & Hst4);
    [done | done | done | done | by cbn; rewrite Hog | exact Hcar | exact Hresp | done |].
  cbn [list_insert insert] in Hst4.
  eexists n4, xa', _, ca', c1. split_and!; [by etransitivity | exact Hst4 | done |].
  change Known with (next_know None Known (Event.PeerConnected (key oa))).
  apply (sits_handles _ _ _ _ _ Known p _ c1 c1); try done.
  - cbn [asks]. rewrite (proj2 duo_connections). rewrite bool_decide_false by apply not_elem_of_nil. done.
  - split; [done |]. split; [apply (duo_requests _ _ _ _ _ _ _ Hh) |]. split; [done |].
    destruct Htouch as (b' & Hs & [_ Hb']). by exists b'.
Qed.

(** The answer reaches the initiator, which registers the connection. *)
Lemma duo_ack (n : Net) sv xa xb ca cb T i1 n1 m1 n2 m2 a b pe : wf_buffer (key ob) -> stage n sv now id [xa; xb] T -> both_active sv ->
  duo_handshake i1 n1 m1 n2 m2 a b ->
  sits_a Known {[key ob := Handshake i1]} Rest xa ca ->
  sits_b Known pe (Hails (key oa) (HandshakeMessage.Responder n2 m2)) xb cb ->
  sendable (ServerMessage.SessionConnection id (key ob)) ->
  exists n' xa' xb' ca' cb', rtc net_step n n' /\ stage n' sv now id [xa'; xb'] T /\
    sits_a Known {[key ob := Noise.Transport a]} (Asks (ServerMessage.SessionConnection id (key ob))) xa' ca' /\
    sits_b Known pe Rest xb' cb'.
Proof.
  intros Hwb Hst [Haa Hab] Hh Ha Hb Hm. destruct xa as [q cq].
  destruct Ha as [Hp Hd Ho Hpe Hin Hic Hck (Hout & Hog & Htouch)]. cbn [fst snd] in *.
  destruct (sits_hails _ _ _ _ _ 1 xb cb Known pe (key oa) _ 0 q cq Hst eq_refl Hb Hwb) as
    (n3 & xb' & cb' & f & Hr & Hst' & Hcar & Hb'); [done | done | by rewrite Hd | done |].
  cbn [list_insert insert] in Hst'.
  set (c1 := set_peers {[key ob := Noise.Transport a]} ca).
  destruct (seated_hears (Some [key ob]) duo ta oa da 0 q (push_out (Binary f) cq) ca c1 Known f (ResponseMessage.Transparent
    (TransparentMessage.PeerHandshake (key ob) (HandshakeMessage.Responder n2 m2))) (Event.PeerConnected (key ob)) Hst') as (n4 & p & Hr4 & Hp4 & Hd4 & Hst4);
    [done | done | done | done | by cbn; rewrite Hog | exact Hcar | | done |].
  { cbn [handle_incoming_message]. unfold mbind, SM_bind. by rewrite (duo_completes _ _ _ _ _ _ _ Hh). }
  cbn [list_insert insert] in Hst4. set (cn := set_outgoing chan_new _) in Hst4.
  assert (in_touch c1 cn) as Htouch1 by (destruct Htouch as (b' & Hs & [_ Hb1]); by exists b').
  destruct (request_asks _ c1 cn Htouch1 Hm Hout) as (c2 & Hreq & Hask & Ho2 & Hpe2 & Hin2).
  eexists n4, _, xb', c2, cb'. split_and!; [by etransitivity | exact Hst4 | | done].
  change Known with (next_know (Some [key ob]) Known (Event.PeerConnected (key ob))).
  apply (sits_handles _ _ _ _ _ Known p cn c1 c2); try done; try (by first [rewrite Ho2 | rewrite Hin2]).
  cbn [asks]. rewrite (proj1 duo_connections). rewrite bool_decide_true by by apply list_elem_of_singleton.
  cbn. unfold Transport_register_connection, on_relay, register_connection. by rewrite Hreq.
Qed.

(** ** The session on the server *)

(** The server once it knows of the session, and of its one connection. *)
Definition created (sv : ServerState) : ServerState :=
  set_sessions (SessionManager.new_session (sessions sv) id now (key oa) [key ob]).1 sv.

Definition duo_session (linked : bool) : Session.t :=
  {| Session.owner_key := key oa; Session.participant_keys := list_to_set [key ob];
     Session.connections := if linked then {[(key oa, key ob)]} ∪ ∅ else ∅; Session.last_access := now |}.

Lemma duo_session_active : Session.is_active (duo_session true) = true.
Proof.
  apply is_active_members. cbn. intros a b Hab Ha Hb. set_solver.
Qed.

Lemma duo_registered (n : Net) sv xa xb ca pe T : stage n (created sv) now id [xa; xb] T ->
  both_active sv -> sits_a Known pe (Asks (ServerMessage.SessionConnection id (key ob))) xa ca ->
  exists n' sv' xa' ca', rtc net_step n n' /\ stage n' sv' now id [xa'; xb] T /\ both_active sv' /\
    SessionManager.get_session (sessions sv') id = Some (duo_session true) /\
    sits_a Known pe Rest xa' ca'.
Proof.
  intros Hst Hact Ha.
  assert (SessionManager.get_session_mut (sessions (created sv)) id
    (fun x => Session.register_connection x (key oa) (key ob)) =
    Some {| SessionManager.sessions := <[id := duo_session true]> (SessionManager.sessions (sessions (created sv))) |}) as Hss.
  { unfold SessionManager.get_session_mut. cbn. by rewrite lookup_insert_eq. }
  destruct (sits_asks _ _ _ _ _ 0 xa ca Known pe _ _ _ _ Hst eq_refl Ha (proj1 Hact) (serves_connection da _ _ _ _ Hss) I)
    as (n' & x & c & Hr & Hst' & H). cbn [list_insert insert] in Hst'. rewrite app_nil_r in Hst'.
  eexists n', _, x, c. split; [done |]. split; [exact Hst' |]. split; [exact Hact |].
  split; [apply lookup_insert_eq | done].
Qed.

(** ** All of it *)

(** What the messages of the session need of the wire format. *)
Definition duo_sendable : Prop :=
  sendable (ServerMessage.NewSession {| request_participant_keys := [key ob] |}) /\
  sendable (ServerMessage.SessionCreated duo) /\ sendable (ServerMessage.SessionReady duo) /\
  sendable (ServerMessage.SessionConnection id (key ob)) /\ sendable (ServerMessage.SessionActive duo).

(** From the initiator's request to the hails. *)
Lemma duo_meets (n : Net) sv xa xb ca cb i1 n1 m1 n2 m2 a b : stage n sv now id [xa; xb] [] -> both_active sv ->
  0 < wait_interval (ServerConfig.session (config sv)) -> duo_sendable -> duo_handshake i1 n1 m1 n2 m2 a b ->
  sits_a Unknown ∅ (Asks (ServerMessage.NewSession {| request_participant_keys := [key ob] |})) xa ca ->
  sits_b Unknown ∅ Rest xb cb ->
  exists n' xa' xb' ca' cb', rtc net_step n n' /\
    stage n' (created sv) now id [xa'; xb'] [WaitSessionActive (wait_interval (ServerConfig.session (config sv))) da now duo] /\
    sits_a Known {[key ob := Handshake i1]} (Hails (key ob) (HandshakeMessage.Initiator n1 m1)) xa' ca' /\
    sits_b Known ∅ Rest xb' cb'.
Proof.
  intros Hst Hact Hi (Hm0 & Hm1 & Hm2 & Hm3 & Hm4) Hh Ha Hb.
  destruct (duo_created n sv xa xb ca Hst Hact Ha Hm1) as (k1 & xa1 & ca1 & Hr1 & Ha1 & Hst1).
  destruct (duo_ready k1 (created sv) xa1 xb ca1 cb _ da now _ Hst1 Hact ltac:(by left) Hi Ha1 Hb Hm2)
    as (k2 & xa2 & xb2 & Hr2 & Hst2 & Ha2 & Hb2).
  destruct (duo_ready_b k2 _ xa2 xb2 cb _ Hst2 Hb2) as (k3 & xb3 & cb3 & Hr3 & Hb3 & Hst3).
  destruct (duo_ready_a k3 _ xa2 xb3 ca1 _ _ _ _ _ _ _ _ Hst3 Hh Ha2) as (k4 & xa4 & ca4 & Hr4 & Hst4 & Ha4).
  exists k4, xa4, xb3, ca4, cb3. split_and!; [|done..].
  by do 3 (etransitivity; [eassumption |]).
Qed.

(** From the hails to a session that is active. *)
Lemma duo_connects (n : Net) sv xa xb ca cb i1 n1 m1 n2 m2 a b i :
  wf_buffer (key oa) -> wf_buffer (key ob) -> stage n (created sv) now id [xa; xb]
    [WaitSessionActive i da now duo] -> both_active sv -> 0 < i -> duo_sendable -> duo_handshake i1 n1 m1 n2 m2 a b ->
  sits_a Known {[key ob := Handshake i1]} (Hails (key ob) (HandshakeMessage.Initiator n1 m1)) xa ca ->
  sits_b Known ∅ Rest xb cb ->
  exists n' sv' xa' xb' ca' cb', rtc net_step n n' /\ stage n' sv' now id [xa'; xb'] [] /\ both_active sv' /\
    SessionManager.get_session (sessions sv') id = Some (duo_session true) /\
    sits_a Known {[key ob := Noise.Transport a]} (IsTold (ServerMessage.SessionActive duo)) xa' ca' /\
    sits_b Known {[key oa := Noise.Transport b]} (IsTold (ServerMessage.SessionActive duo)) xb' cb'.
Proof.
  intros Hwa Hwb Hst Hact Hi (Hm0 & Hm1 & Hm2 & Hm3 & Hm4) Hh Ha Hb.
  destruct (duo_hail n _ xa xb ca cb _ _ _ _ _ _ _ _ _ Hwa Hst Hact Hh Ha Hb) as
    (k1 & xa1 & xb1 & ca1 & cb1 & Hr1 & Hst1 & Ha1 & Hb1).
  destruct (duo_ack k1 _ xa1 xb1 ca1 cb1 _ _ _ _ _ _ _ _ _ Hwb Hst1 Hact Hh Ha1 Hb1 Hm3) as
    (k2 & xa2 & xb2 & ca2 & cb2 & Hr2 & Hst2 & Ha2 & Hb2).
  destruct (duo_registered k2 sv xa2 xb2 ca2 _ _ Hst2 Hact Ha2) as
    (k3 & sv3 & xa3 & ca3 & Hr3 & Hst3 & Hact3 & Hss & Ha3).
  destruct (duo_active k3 sv3 xa3 xb2 ca3 cb2 i da now _ _ _ _ Hst3 Hact3 ltac:(by left) Hi Ha3 Hb2 Hm4 Hss
    duo_session_active) as (k4 & xa4 & xb4 & Hr4 & Hst4 & Ha4 & Hb4).
  exists k4, sv3, xa4, xb4, ca3, cb2. split; [by do 3 (etransitivity; [eassumption |]) |]. done.
Qed.

(** Each reads that the session is active, and has its session. *)
Lemma duo_settles (n : Net) sv xa xb ca cb pe pe' : stage n sv now id [xa; xb] [] ->
  sits_a Known pe (IsTold (ServerMessage.SessionActive duo)) xa ca ->
  sits_b Known pe' (IsTold (ServerMessage.SessionActive duo)) xb cb ->
  exists n' qa qb pa pb cna cnb ca' cb', rtc net_step n n' /\ stage n' sv now id [(qa, cna); (qb, cnb)] [] /\
    settled (Some [key ob]) duo (key oa) ta qa ca' /\ settled None duo (key ob) tb qb cb' /\
    side_conn qa = da /\ side_conn qb = db /\
    sits_a Known pe Rest (pa, cna) ca' /\ sits_b Known pe' Rest (pb, cnb) cb'.
Proof.
  intros Hst Ha Hb.
  destruct (sits_told _ _ _ _ _ 0 xa ca _ _ _ _ Hst eq_refl Ha eq_refl) as (n1 & p1 & cn1 & c1 & Hr1 & Ha1 & Hst1).
  cbn [list_insert insert] in Hst1.
  destruct (sits_told _ _ _ _ _ 1 xb cb _ _ _ _ Hst1 eq_refl Hb eq_refl) as (n2 & p2 & cn2 & c2 & Hr2 & Hb2 & Hst2).
  cbn [list_insert insert] in Hst2.
  eexists n2, _, _, p1, p2, cn1, cn2, c1, c2. split; [by etransitivity |]. split; [exact Hst2 |].
  split; [by apply (seated_settles _ _ _ _ Known p1 c1); [apply Ha1 |] |].
  split; [by apply (seated_settles _ _ _ _ Known p2 c2); [apply Hb2 |] |].
  rewrite !handle_item_conn. by split_and!; [apply Ha1 | apply Hb2 | |].
Qed.
End duo.

(** ** Joining *)

Section joining.
Context {BS : BinaryStream encoding_options} {BL : BinaryStreamLaws encoding_options BS}.
Context {SC : StatusCodes} {SL : StatusCodesLaws SC} {HO : HashOrder} {HL : HashOrderLaws HO}.
Context {N : Noise} {NL : NoiseLaws N} {NH : NoiseHandshakeLaws N}.
Context {FL : Flate} {FLL : FlateLaws FL} {HX : Hex} {DI : Display}.

Abbreviation Net := (Network (SessionHandler Transport) SessionState DriverError).
Abbreviation key o := (Keypair.public_key (options_keypair o)).

(** The server takes whom it took before another client was connected. *)
Lemma accepts_admits sv sv' k r k' d : accepts sv k r -> admits (sv := sv) k' d sv' -> accepts sv' k r.
Proof. intros H (_ & Hc & Hk & _). unfold accepts. by rewrite Hc, Hk. Qed.

(** Both connect to the server, and the initiator asks for the session. *)
Lemma duo_joins (n : Net) sv now u (u' id : Uuid) oa ob a0 b0 ra rb : stage n sv now u [] [] ->
  greets oa a0 -> greets ob b0 -> accepts sv (key oa) ra -> accepts sv (key ob) rb ->
  default PATTERN (ServerConfig.pattern (config sv)) = PATTERN -> key oa <> key ob ->
  sendable (ServerMessage.NewSession {| request_participant_keys := [key ob] |}) ->
  exists n' sv' da db xa xb ca cb, rtc net_step n n' /\ stage n' sv' now id [xa; xb] [] /\
    config sv' = config sv /\ both_active oa ob da db sv' /\
    sits (Some [key ob]) (duo oa ob id) (Relay a0) oa da Unknown ∅
      (Asks (ServerMessage.NewSession {| request_participant_keys := [key ob] |})) xa ca /\
    sits None (duo oa ob id) (Relay b0) ob db Unknown ∅ Rest xb cb.
Proof.
  intros Hst Hga Hgb Haa Hab Hps Hne Hm.
  destruct (party_connects (Some [key ob]) (duo oa ob id) oa a0 ra Hst Hga Haa Hps) as
    (n1 & sv1 & da & pa & ca & cna & Hr1 & Had1 & Hp1 & Hd1 & Ho1 & Hpe1 & Hin1 & Hl1 & Hic1 & Hk1 & Hst1).
  destruct (initiator_asks _ _ _ _ _ _ _ _ (server_public_key oa) Hp1 Hd1 Ho1 Hpe1 Hin1 Hl1 Hic1 Hk1 Hm) as (ca' & Ha).
  destruct (stage_env _ _ _ _ _ _ now u' Hst1) as (n2 & Hr2 & Hst2).
  destruct (party_connects None (duo oa ob id) ob b0 rb Hst2 Hgb (accepts_admits _ _ _ _ _ _ Hab Had1)) as
    (n3 & sv3 & db & pb & cb & cnb & Hr3 & Had3 & Hp3 & Hd3 & Ho3 & Hpe3 & Hin3 & Hl3 & Hic3 & Hk3 & Hst3).
  { destruct Had1 as (_ & -> & _). done. }
  pose proof (participant_attends _ _ _ _ _ _ _ (server_public_key ob) Hp3 Hd3 Ho3 Hpe3 Hin3 Hl3 Hic3 Hk3) as Hb.
  destruct (stage_env _ _ _ _ _ _ now id Hst3) as (n4 & Hr4 & Hst4). cbn [app] in Hst4.
  destruct Had1 as (Hact1 & Hc1 & _ & _), Had3 as (Hact3 & Hc3 & _ & _).
  eexists n4, sv3, da, db, _, _, ca', cb. split; [by do 3 (etransitivity; [eassumption |]) |].
  split; [exact Hst4 |]. split; [congruence |]. split; [split |].
  - by rewrite Hact3, Hact1, lookup_insert_ne, lookup_insert_eq.
  - by rewrite Hact3, lookup_insert_eq.
  - done.
Qed.

(** What a party whose session is open has: its wait for the session, on the
    stream it was given and whatever follows, ends with it, and its transport
    [c] can send to the session's other parties. *)
Definition has_session (s : SessionState) (p : Side (SessionHandler Transport) SessionState DriverError)
    (own : bytes) (c : Client) : Prop :=
  (forall tail, wait_for_session (side_stream p ++ tail) (side_start p) = Ok (tail, Relay c, s)) /\
  is_connected c = true /\ relay_ready s own (Relay c).

Lemma settled_has_session role s ts o d k pe theirs p x c : settled role s (key o) ts p c ->
  sits role s ts o d k pe Rest x c ->
  (forall k', k' ∈ session_peers s (key o) -> exists a, pe !! k' = Some (Noise.Transport a) /\ in_step a (theirs k')) ->
  has_session s p (key o) c.
Proof.
  intros [_ _ Hstart Hop] [_ _ Ho Hpe _ _ _ (Hout & _ & b & Hs & _)] Hpeers. split; [|split; [|split]].
  - intros tail. rewrite Hstart.
    destruct (wait_for_session_opens role s (key o) (eq (Relay c)) _ (eq ts) _ tail ts
      (Hop (eq (Relay c)) eq_refl) eq_refl) as (t' & Hw & <-). done.
  - unfold is_connected. by rewrite Hs.
  - unfold client_public_key. by rewrite Ho.
  - exists theirs. split; [by rewrite Hout |]. rewrite Hpe. exact Hpeers.
Qed.

Lemma sits_resting role s ts o d k peer a p cn c :
  sits role s ts o d k {[peer := Noise.Transport a]} Rest (p, cn) c -> resting (key o) peer a c cn.
Proof.
  intros [_ _ Ho Hpe Hin Hic Hck (Hout & Hog & _)]. split; try done.
  - unfold client_public_key. by rewrite Ho.
  - rewrite Hpe. apply lookup_insert_eq.
Qed.

(** The session of two that has been opened, and where it leaves the network. *)
Record opened (cfg : ServerConfig.t) (kp : Keypair.t) (t : SystemTime) (u id : Uuid) (oa ob : ClientOptions) (a0 b0 : Client)
    (n : Net) (sv : ServerState) (pa pb : Side (SessionHandler Transport) SessionState DriverError)
    (ca cb : Client) (cna cnb : WebSocketConnection) (a b : TransportState) : Prop := {
  opened_run : rtc net_step (network_initial cfg kp t u) n;
  opened_stage : stage n sv t id [(pa, cna); (pb, cnb)] [];
  opened_start_a : side_start pa = Initiator (SessionInitiator_new (Relay a0) [key ob]);
  opened_start_b : side_start pb = Participant (SessionParticipant_new (Relay b0));
  opened_a : has_session (duo oa ob id) pa (key oa) ca;
  opened_b : has_session (duo oa ob id) pb (key ob) cb;
  opened_peers : peers ca = {[key ob := Noise.Transport a]} /\ peers cb = {[key oa := Noise.Transport b]};
  opened_step : in_step a b;
  opened_rest_a : resting (key oa) (key ob) a ca cna;
  opened_rest_b : resting (key ob) (key oa) b cb cnb;
  opened_active : both_active oa ob (side_conn pa) (side_conn pb) sv;
  opened_session : SessionManager.get_session (sessions sv) id = Some (duo_session oa ob t true);
}.

Lemma duo_opens cfg kp t u (u' id : Uuid) oa ob a0 b0 ra rb :
  default PATTERN (ServerConfig.pattern cfg) = PATTERN ->
  0 < wait_interval (ServerConfig.session cfg) ->
  greets oa a0 -> greets ob b0 ->
  accepts (RelayServer_new cfg kp) (key oa) ra -> accepts (RelayServer_new cfg kp) (key ob) rb ->
  key oa <> key ob -> wf_buffer (key oa) -> wf_buffer (key ob) -> can_pair oa ob -> duo_sendable oa ob id ->
  exists n sv pa pb ca cb cna cnb a b, opened cfg kp t u id oa ob a0 b0 n sv pa pb ca cb cna cnb a b.
Proof.
  intros Hps Hi Hga Hgb Haa Hab Hne Hwa Hwb Hpair Hsend.
  assert (stage (network_initial cfg kp t u : Net) (RelayServer_new cfg kp) t u [] []) as Hst0
    by (split; try done; try (by constructor); by intros ? ?%elem_of_nil).
  destruct (duo_joins _ _ t u u' id oa ob a0 b0 ra rb Hst0 Hga Hgb Haa Hab Hps Hne (proj1 Hsend)) as
    (n1 & sv1 & da & db & xa1 & xb1 & ca1 & cb1 & Hr1 & Hst1 & Hcfg & Hact & Ha1 & Hb1).
  destruct (duo_can_handshake oa ob Hwa Hwb (proj1 Hga) (proj1 Hgb) Hpair) as (i1 & q1 & m1 & q2 & m2 & a & b & Hh).
  assert (0 < wait_interval (ServerConfig.session (config sv1))) as Hi1 by by rewrite Hcfg.
  destruct (duo_meets oa ob id t Hne _ _ da db n1 sv1 xa1 xb1 ca1 cb1 _ _ _ _ _ _ _ Hst1 Hact Hi1 Hsend Hh Ha1 Hb1)
    as (n2 & xa2 & xb2 & ca2 & cb2 & Hr2 & Hst2 & Ha2 & Hb2).
  destruct (duo_connects oa ob id t Hne _ _ da db n2 sv1 xa2 xb2 ca2 cb2 _ _ _ _ _ _ _ _ Hwa Hwb Hst2 Hact Hi1 Hsend
    Hh Ha2 Hb2) as (n3 & sv3 & xa3 & xb3 & ca3 & cb3 & Hr3 & Hst3 & Hact3 & Hss & Ha3 & Hb3).
  destruct (duo_settles _ _ _ _ _ _ _ _ n3 sv3 xa3 xb3 ca3 cb3 _ _ Hst3 Ha3 Hb3) as
    (n4 & pa & pb & ya & yb & cna & cnb & ca & cb & Hr4 & Hst4 & Hsa & Hsb & Hda & Hdb & Ha4 & Hb4).
  pose proof (duo_in_step _ _ _ _ _ _ _ _ _ Hh) as Hstep.
  exists n4, sv3, pa, pb, ca, cb, cna, cnb, a, b. split.
  - by do 3 (etransitivity; [eassumption |]).
  - done.
  - by rewrite (settled_start _ _ _ _ _ _ Hsa).
  - by rewrite (settled_start _ _ _ _ _ _ Hsb).
  - apply (settled_has_session _ _ _ _ _ _ _ (fun _ => b) _ _ _ Hsa Ha4). intros k Hk.
    unfold session_peers in Hk. rewrite (duo_peers_a oa ob id Hne) in Hk. apply list_elem_of_singleton in Hk as ->.
    exists a. split; [apply lookup_insert_eq | done].
  - apply (settled_has_session _ _ _ _ _ _ _ (fun _ => a) _ _ _ Hsb Hb4). intros k Hk.
    unfold session_peers in Hk. rewrite (duo_peers_b oa ob id Hne) in Hk. apply list_elem_of_singleton in Hk as ->.
    exists b. split; [apply lookup_insert_eq | by apply in_step_sym].
  - split; [apply Ha4 | apply Hb4].
  - done.
  - by eapply sits_resting.
  - by eapply sits_resting.
  - by rewrite Hda, Hdb.
  - done.
Qed.
End joining.
