(* ===== verification/NetworkDialogue.v ===== *)
(** * A dialogue of two drivers

    What two parties that run a protocol with each other exchange: messages
    that are sealed before the other's have been opened, the rounds of the two
    drivers without a network, and the bridge of each in such a round. *)

From S2P Require Import Prelude Types Stream Encoding EncodingFacts Noise Channel ChannelSpec Keypair Zlib Sessions SessionsFacts Net.
From S2P Require Import Client ClientFacts Transport Round RoundSpec Driver DriverFacts DriverRun RelaySpec.

(** ** Messages that cross *)

Section sealing.
Context {BS : BinaryStream encoding_options} {BL : BinaryStreamLaws encoding_options BS}.
Context {SC : StatusCodes} {SL : StatusCodesLaws SC} {HO : HashOrder} {HL : HashOrderLaws HO}.
Context {N : Noise} {NL : NoiseLaws N} {FL : Flate} {FLL : FlateLaws FL} {HX : Hex}.

(** A transport that has sealed a payload: whoever reads what the old one
    sends can open it, also when it has sealed something since. *)
Definition sealed (a : TransportState) (env : SealedEnvelope) (payload : bytes) (a' : TransportState) : Prop :=
  wf_envelope env /\ (forall c, sends c a -> sends c a') /\
  forall b, sends a b -> exists b',
    decrypt_peer_channel env (Noise.Transport b) = (Noise.Transport b', Ok (Encoding.Json, payload)) /\
    sends a' b' /\ forall c, sends b c -> sends b' c.

Lemma seal_json a b payload key bcast session : sends a b -> fits_envelope payload ->
  exists a' env, encrypt_peer_channel key payload Encoding.Json bcast session (Noise.Transport a) =
      (Noise.Transport a', Ok (RequestMessage.Opaque (OpaqueMessage.PeerMessage key session env))) /\
    sealed a env payload a'.
Proof.
  intros Hab Hfit. unfold fits_envelope in Hfit.
  destruct (split_join_ok payload a b Hab) as (a' & b0 & cs & H1 & _ & H3 & H4 & _).
  exists a', {| encoding := Encoding.Json; chunks := cs; broadcast := bcast |}. split.
  { unfold encrypt_peer_channel, with_transport, mbind, SM_bind. by rewrite H1. }
  split; [|split].
  - split_and!; [done | | by apply chunks_wf]. cbn [chunks]. rewrite H3.
    apply Z.div_lt_upper_bound; unfold CHUNK_SIZE, TAGLEN in *; lia.
  - intros c Hc. pose proof (split_loop_keeps (chunks_of CHUNK_SIZE payload) [] a c Hc) as K.
    unfold split in H1. by rewrite H1 in K.
  - intros b1 Hb1. destruct (split_join_ok payload a b1 Hb1) as (a2 & b2 & cs2 & K1 & K2 & _ & _ & K5).
    rewrite H1 in K1. injection K1 as <- <-. exists b2. split_and!; [|done|].
    + unfold decrypt_peer_channel, with_transport, mbind, SM_bind. cbn [chunks]. by rewrite K2.
    + intros c Hc. pose proof (join_loop_keeps cs [] b1 c Hc) as K. unfold join in K2. by rewrite K2 in K.
Qed.

(** Messages that two transports in step sealed for each other cross. *)
Lemma sealed_cross a b ea eb pa pb a1 b1 : in_step a b -> sealed a ea pa a1 -> sealed b eb pb b1 ->
  exists a2 b2, decrypt_peer_channel eb (Noise.Transport a1) = (Noise.Transport a2, Ok (Encoding.Json, pb)) /\
    decrypt_peer_channel ea (Noise.Transport b1) = (Noise.Transport b2, Ok (Encoding.Json, pa)) /\ in_step a2 b2.
Proof.
  intros [Hab Hba] (_ & Ka & Oa) (_ & Kb & Ob).
  destruct (Ob a1 (Ka b Hba)) as (a2 & Ha2 & Hs2 & Hk2).
  destruct (Oa b1 (Kb a Hab)) as (b2 & Hb2 & Hs2' & Hk2').
  exists a2, b2. split_and!; [done | done | split; auto].
Qed.

(** A client that relays JSON to a peer it has a transport for. *)
Lemma client_relay_seals k p bcast session c a b : peers c !! k = Some (Noise.Transport a) -> sends a b ->
  fits_envelope p -> receiver_open (outbound c) = true ->
  exists a' env, client_relay k p Encoding.Json bcast session c =
      (set_outbound (chan_push (InternalMessage.Request (RequestMessage.Opaque
        (OpaqueMessage.PeerMessage k session env))) (outbound c))
        (set_peers (<[k := Noise.Transport a']> (peers c)) c), Ok tt) /\ sealed a env p a'.
Proof.
  intros Hp Hab Hfit Ho. destruct (seal_json a b p k bcast session Hab Hfit) as (a' & env & He & Hs).
  exists a', env. split; [|done]. unfold client_relay, mbind, SM_bind, on_peer. rewrite Hp, He.
  by rewrite outbound_send_ok.
Qed.

(** ** Rounds of two *)

Context {D : Type} {PD : ProtocolDriver D}.

(** A message of the round [r] for the peer [k], and its JSON, which reads back
    as the message. *)
Definition tells (s : SessionState) (k : bytes) (r : Z) (x : Outgoing D) (p : bytes) : Prop :=
  round_number x = r /\ to_vec x = Ok p /\ from_slice p = Ok x /\ fits_envelope p /\
  (is_broadcast x = true \/
   is_broadcast x = false /\ exists n, round_receiver x = Some n /\ SessionStates.peer_key s n = Some k).

(** What a driver makes of the one message of a round: the messages it sends,
    and its output after the last round. *)
Definition driver_round (rounds r : Z) (x : Outgoing D) (d : D) :
    Res (PError D) (D * list (Outgoing D) * option (Output D)) :=
  match handle_incoming (into_incoming x) d with
  | (d, Ok _) =>
      if bool_decide (rounds = 1) then output ← finish d; mret (d, [], Some output)
      else match proceed d with
           | (d, Ok sent) =>
               if bool_decide (r = rounds) then output ← finish d; mret (d, sent, Some output)
               else mret (d, sent, None)
           | (_, Err e) => Err e
           | (_, Panic) => Panic
           end
  | (_, Err e) => Err e
  | (_, Panic) => Panic
  end.

(** Two drivers that exchange one message each in every round, from the round
    [r] on, in which they send [xa] and [xb], to their outputs. *)
Inductive duet (s : SessionState) (ka kb : bytes) (rounds : Z) :
    Z -> D -> Outgoing D -> D -> Outgoing D -> Output D -> Output D -> Prop :=
| duet_last da xa pa db xb pb da' db' oa ob :
    tells s kb rounds xa pa -> tells s ka rounds xb pb ->
    driver_round rounds rounds xb da = Ok (da', [], Some oa) ->
    driver_round rounds rounds xa db = Ok (db', [], Some ob) ->
    duet s ka kb rounds rounds da xa db xb oa ob
| duet_round r da xa pa db xb pb da' xa' db' xb' oa ob :
    r < rounds -> tells s kb r xa pa -> tells s ka r xb pb ->
    driver_round rounds r xb da = Ok (da', [xa'], None) ->
    driver_round rounds r xa db = Ok (db', [xb'], None) ->
    duet s ka kb rounds (r + 1) da' xa' db' xb' oa ob ->
    duet s ka kb rounds r da xa db xb oa ob.

(** The bridge sends its one message to its one peer. *)
Lemma dispatch_one s own k r x p : tells s k r x p -> SessionStates.recipients s own = [k] ->
  exists bcast, forall (b : Bridge Transport D) c,
    session b = s -> transport b = Relay c -> client_public_key c = own ->
    dispatch_round_messages [x] b =
    let '(c', r) := client_relay k p Encoding.Json bcast (Some (session_id s)) c in
    (set_transport (Relay c') b, map_err perror_client r).
Proof.
  intros (_ & Hp & _ & _ & [Hb | (Hb & n & Hn & Hk)]) Hrec.
  - exists true. intros b c Hs Ht Hown. unfold dispatch_round_messages. rewrite Hb, Hs, Ht.
    unfold on_transport. rewrite Ht. cbn [transport_broadcast_json transport_public_key Transport_network].
    unfold Transport_broadcast_json, on_relay, Transport_public_key, broadcast_json, lift_err, mbind, SM_bind, sm_lift.
    rewrite Hp, Hown, Hrec. cbn [map_err relay_broadcast sm_for]. unfold mbind, SM_bind.
    by destruct (client_relay k p Encoding.Json true _ c) as [c' [[]| |]].
  - exists false. intros b c Hs Ht Hown. unfold dispatch_round_messages. rewrite Hb.
    rewrite (send_to_peer_relay x n k p c) by (done || by rewrite Hs). by rewrite Hs.
Qed.

(** Sending a message of a round to the one peer. *)
Lemma dispatch_seals s own k r x p c a b : tells s k r x p -> SessionStates.recipients s own = [k] ->
  client_public_key c = own -> peers c !! k = Some (Noise.Transport a) -> sends a b -> outbound c = chan_new ->
  exists c' a' env,
    (forall h : Bridge Transport D, session h = s -> transport h = Relay c ->
      dispatch_round_messages [x] h = (set_transport (Relay c') h, Ok tt)) /\
    c' = set_outbound (chan_push (InternalMessage.Request (RequestMessage.Opaque
      (OpaqueMessage.PeerMessage k (Some (session_id s)) env))) chan_new)
      (set_peers (<[k := Noise.Transport a']> (peers c)) c) /\ sealed a env p a'.
Proof.
  intros Hx Hrec Hown Hp Hab Hout. destruct (dispatch_one s own k r x p Hx Hrec) as (bcast & Hdis).
  destruct (client_relay_seals k p bcast (Some (session_id s)) c a b Hp Hab) as (a' & env & Hrel & Hs);
    [apply Hx | by rewrite Hout |].
  eexists _, a', env. split_and!; [|done|done]. intros h Hh Ht. rewrite (Hdis h c Hh Ht Hown), Hrel, Hout. done.
Qed.

(** ** A round at a bridge *)

(** A bridge that has processed [j] rounds, and holds no message. *)
Record between (s : SessionState) (rounds j : Z) (d : D) (b : Bridge Transport D) : Prop := {
  between_session : session b = s;
  between_driver : driver b = Some d;
  between_len : RoundBuffer.len (buffer b) = rounds;
  between_fixed : fixed rounds 1 (buffer b);
  between_held : forall r, j < r <= rounds -> held (buffer b) r = [];
}.

Lemma between_new s rounds d t buf : is_u16 rounds ->
  RoundBuffer.new_fixed (I := Incoming D) (E := PError D) rounds 1 = Ok buf ->
  between s rounds 0 d {| transport := t; buffer := buf; driver := Some d; session := s |}.
Proof.
  intros Hr Hb. destruct (new_fixed_spec (I := Incoming D) (E := PError D) rounds 1 Hr) as (b & Hb' & Hm & Hl & He).
  rewrite Hb in Hb'. injection Hb' as <-. split; try done. intros r _. unfold held. cbn. by rewrite Hm.
Qed.

(** The message of the next round completes it. *)
Lemma between_deliver s rounds j d b x : between s rounds j d b -> 0 <= j < rounds ->
  exists buf, deliver (buffer b) (j + 1) x = (buf, [(j + 1, [x])]) /\ RoundBuffer.len buf = rounds /\
    fixed rounds 1 buf /\ forall r, j + 1 < r <= rounds -> held buf r = [].
Proof.
  intros [_ _ Hlen Hfix Hheld] Hj. pose proof (deliver_spec (buffer b) (j + 1) x) as Hdel.
  destruct (deliver (buffer b) (j + 1) x) as [buf out]. destruct Hdel as (Hexp & Hother & Hself).
  rewrite Hheld in Hself by lia. rewrite decide_True in Hself by (rewrite Hfix, decide_True by lia; done).
  destruct Hself as [_ ->]. exists buf. split_and!; [done | | | ].
  - unfold RoundBuffer.len in *. by rewrite Hexp.
  - unfold fixed. by rewrite Hexp.
  - intros r Hr. destruct (Hother r) as [-> _]; [lia |]. apply Hheld. lia.
Qed.

(** What the handler of the bridge comes to on that message. *)
Lemma bridge_round s rounds j d b x k msg : between s rounds j d b -> 0 <= j < rounds ->
  deserialize (A := Outgoing D) msg = Ok x -> round_number x = j + 1 ->
  exists buf, RoundBuffer.len buf = rounds /\ fixed rounds 1 buf /\
    (forall r, j + 1 < r <= rounds -> held buf r = []) /\
    bridge_handle_event (Event.JsonMessage k msg (Some (session_id s))) b =
      process_round (j + 1) [into_incoming x] (set_buffer buf b).
Proof.
  intros Hb Hj Hm Hr. destruct (between_deliver s rounds j d b (into_incoming x) Hb Hj) as (buf & Hd & H1 & H2 & H3).
  exists buf. split_and!; [done.. |].
  rewrite (bridge_json k msg (session_id s) x b) by (done || by destruct Hb as [-> _]).
  rewrite handle_round_message_deliver, Hr, Hd. done.
Qed.

Lemma bridge_last s rounds j d b x k msg d' o : between s rounds j d b -> 0 <= j < rounds ->
  deserialize (A := Outgoing D) msg = Ok x -> round_number x = j + 1 -> j + 1 = rounds ->
  driver_round rounds (j + 1) x d = Ok (d', [], Some o) ->
  exists b', bridge_handle_event (Event.JsonMessage k msg (Some (session_id s))) b = (b', Ok (Some o)) /\
    transport b' = transport b.
Proof.
  intros Hb Hj Hm Hr Hlast Hround.
  destruct (bridge_round s rounds j d b x k msg Hb Hj Hm Hr) as (buf & Hlen & _ & _ & ->).
  unfold driver_round in Hround. pose proof Hb as [_ Hd _ _ _].
  destruct (handle_incoming (into_incoming x) d) as [d1 [u| |]] eqn:Hh; [|done..].
  assert (sm_for [into_incoming x] handle_incoming d = (d1, Ok tt)) as Hfor
    by (cbn [sm_for]; unfold mbind, SM_bind; by rewrite Hh).
  unfold mbind, Res_bind in Hround. case_bool_decide as H1.
  - destruct (finish d1) as [o1| |] eqn:Hf; [|done..]. injection Hround as _ ->.
    exists (set_driver None (set_buffer buf b)). split; [|done].
    by apply (process_round_single _ d d1); [| | cbn; congruence |].
  - destruct (proceed d1) as [d2 [sent| |]] eqn:Hp; [|done..]. rewrite bool_decide_true in Hround by done.
    destruct (finish d2) as [o1| |] eqn:Hf; [|done..]. injection Hround as _ -> ->.
    rewrite (process_round_several (set_buffer buf b) _ d d1 d2 (j + 1) _ [] Hd Hfor ltac:(by cbn; congruence) Hp eq_refl).
    cbn [buffer set_buffer]. rewrite Hlen, bool_decide_true by done.
    unfold mbind, SM_bind, take_finish. cbn [driver set_driver]. rewrite Hf. by eexists.
Qed.

Lemma bridge_next s rounds j d b x k msg d' sent t : between s rounds j d b -> 0 <= j -> j + 1 < rounds ->
  deserialize (A := Outgoing D) msg = Ok x -> round_number x = j + 1 ->
  driver_round rounds (j + 1) x d = Ok (d', sent, None) ->
  (forall b1, session b1 = s -> transport b1 = transport b ->
    dispatch_round_messages sent b1 = (set_transport t b1, Ok tt)) ->
  exists b', bridge_handle_event (Event.JsonMessage k msg (Some (session_id s))) b = (b', Ok None) /\
    transport b' = t /\ between s rounds (j + 1) d' b'.
Proof.
  intros Hb Hj0 Hj Hm Hr Hround Hdis.
  destruct (bridge_round s rounds j d b x k msg Hb ltac:(lia) Hm Hr) as (buf & Hlen & Hfix & Hheld & ->).
  unfold driver_round in Hround. pose proof Hb as [Hs Hd _ _ _].
  destruct (handle_incoming (into_incoming x) d) as [d1 [u| |]] eqn:Hh; [|done..].
  assert (sm_for [into_incoming x] handle_incoming d = (d1, Ok tt)) as Hfor
    by (cbn [sm_for]; unfold mbind, SM_bind; by rewrite Hh).
  unfold mbind, Res_bind in Hround. rewrite bool_decide_false in Hround by lia.
  destruct (proceed d1) as [d2 [sent1| |]] eqn:Hp; [|done..]. rewrite bool_decide_false in Hround by lia.
  injection Hround as -> ->.
  rewrite (process_round_several (set_buffer buf b) _ d d1 d' (j + 1) _ sent Hd Hfor ltac:(by cbn; lia) Hp
    (Hdis (set_driver (Some d') (set_buffer buf b)) Hs eq_refl)).
  cbn [buffer set_buffer]. rewrite Hlen, bool_decide_false by lia.
  eexists. split; [reflexivity |]. split; [done |]. by split.
Qed.
End sealing.
