(* ===== verification/NetworkProtocol.v ===== *)
(** * A protocol on the network

    Two parties of an open session run the rounds of a protocol: what one
    sends, the relay passes on to the other, and the bridge of each hands it
    to its driver. *)

From S2P Require Import Prelude Types Stream Encoding EncodingFacts Noise Channel ChannelSpec Keypair ServerConfig Zlib Prog Sessions SessionsFacts Net.
From S2P Require Import Server ServerSystem ServerRun ServerSpec ServerTasksSpec Client ClientFacts Transport Round Driver DriverFacts RelaySpec.
From S2P Require Import Network NetworkFacts EndToEnd NetworkRun NetworkDialogue.

(** The next phase of a network: the same server, with other parties on the
    connections. *)
Definition next_phase {N : Noise} {S A E S' A' E'} (l : list (Side S' A' E')) (n : Network S A E) : Network S' A' E' :=
  {| system := system n; sides := l |}.

Section protocol.
Context {BS : BinaryStream encoding_options} {BL : BinaryStreamLaws encoding_options BS}.
Context {SC : StatusCodes} {SL : StatusCodesLaws SC} {HO : HashOrder} {HL : HashOrderLaws HO}.
Context {N : Noise} {NL : NoiseLaws N} {FL : Flate} {FLL : FlateLaws FL} {HX : Hex} {DI : Display}.
Context {D : Type} {PD : ProtocolDriver D}.

Abbreviation Player := (Side (Bridge Transport D) (Output D) (PError D)).
Abbreviation Seat := (Player * WebSocketConnection)%type.
Abbreviation Net := (Network (Bridge Transport D) (Output D) (PError D)).

(** The server knows the session of the two, whose connections are active. *)
Definition hosts (id : Uuid) (ka kb : bytes) (da db : Connection) (sv : ServerState) : Prop :=
  active sv !! ka = Some da /\ active sv !! kb = Some db /\
  exists ss, SessionManager.sessions (sessions sv) !! id = Some ss /\
    Session.owner_key ss = ka /\ kb ∈ Session.participant_keys ss.

(** The server once a message of the session was relayed. *)
Definition visited (now : SystemTime) (id : Uuid) (sv : ServerState) : ServerState :=
  set_sessions (SessionManager.touch_session (sessions sv) now id).1 sv.

Lemma visited_hosts now id ka kb da db sv : hosts id ka kb da db sv -> hosts id ka kb da db (visited now id sv).
Proof.
  intros (Ha & Hb & ss & Hss & Ho & Hp). split; [done |]. split; [done |].
  unfold visited, SessionManager.touch_session. rewrite Hss. eexists. cbn. by rewrite lookup_insert_eq.
Qed.

Lemma hosts_may_relay id ka kb da db w : hosts id ka kb da db (server w) ->
  may_relay w (Some id) ka /\ may_relay w (Some id) kb.
Proof. intros (_ & _ & ss & Hss & Ho & Hp). split; exists ss; (split; [done |]); [by left | by right]. Qed.

(** ** A party of the protocol *)

(** The party [own] plays against [peer] on the connection [dc], from the
    handler [start]: it has processed [j] rounds, its driver is [d], its
    transport for the peer is [a], [out] is queued for the server and [said]
    for the client. *)
Section player.
Context (s : SessionState) (rounds : Z) (own peer : bytes) (dc : Connection) (start : Bridge Transport D).

Record plays (j : Z) (d : D) (a : TransportState) (out : Chan InternalMessage.t) (said : Chan WsMessage)
    (x : Seat) (c : Client) : Prop := {
  plays_waiting : waiting x.1;
  plays_transport : side_transport x.1 = Relay c;
  plays_sockets : to_server x.1 = [] /\ to_client x.1 = [];
  plays_start : side_start x.1 = start;
  plays_history : replays x.1;
  plays_conn : side_conn x.1 = dc;
  plays_round : between s rounds j d (side_handler x.1);
  plays_key : client_public_key c = own;
  plays_peer : peers c !! peer = Some (Noise.Transport a);
  plays_channels : outbound c = out /\ inbound c = chan_new;
  plays_socket : conn_public_key x.2 = own /\ incoming x.2 = chan_new /\ outgoing x.2 = said;
}.

(** A party that has its output. *)
Record played (o : Output D) (p : Player) (c : Client) : Prop := {
  played_result : side_result p = Some (Ok o);
  played_transport : transport (side_handler p) = Relay c;
  played_key : client_public_key c = own;
  played_start : side_start p = start;
  played_history : replays p;
}.

(** The request on the wire for the peer. *)
Definition message_for (k : bytes) (env : SealedEnvelope) : RequestMessage.t :=
  RequestMessage.Opaque (OpaqueMessage.PeerMessage k (Some (session_id s)) env).

Context {n : Net} {sv : ServerState} {now : SystemTime} {u : Uuid} {l : list Seat} {T : list Task}.

(** The server passes a message on to the other party. *)
Lemma plays_sends i k p cn c j d a env said q cq : stage n sv now u l T -> l !! i = Some (p, cn) ->
  plays j d a (chan_push (InternalMessage.Request (message_for peer env)) chan_new) said (p, cn) c ->
  wf_request (message_for peer env) -> wf_buffer own -> i <> k -> l !! k = Some (q, cq) ->
  active sv !! peer = Some (side_conn q) -> receiver_open (outgoing cq) = true ->
  (forall w, server w = sv -> may_relay w (Some (session_id s)) peer) ->
  exists n' p' c' f, rtc net_step n n' /\
    stage n' (visited now (session_id s) sv) now u (<[k := (q, push_out (Binary f) cq)]> (<[i := (p', cn)]> l)) T /\
    carries f (ResponseMessage.Opaque (OpaqueMessage.PeerMessage own (Some (session_id s)) env)) /\
    plays j d a chan_new said (p', cn) c'.
Proof.
  intros Hst Hi [Hw Htr [Hts Htc] Hstart Hrep Hd Hb Hown Hp [Hout Hin] (Hk & Hic & Hog)] Hm Hwo Hne Hq Hact Hopen Hmay.
  cbn [fst snd] in *.
  destruct (stage_request n sv now u l T i p cn c (message_for peer env) k q cq (visited now (session_id s) sv)
    (fun cn' => exists f, cn' = push_out (Binary f) cq /\
      carries f (ResponseMessage.Opaque (OpaqueMessage.PeerMessage own (Some (session_id s)) env))) []) as
    (n' & cn' & g & Hr & (f & -> & Hcar) & Hst' & Htr'); [done.. | |].
  - intros w buffer Hsw Hcw Huw Hh Hdec.
    assert (heap w !! side_conn p = Some cn) as Hhp by apply (Forall_lookup_1 _ _ _ _ Hh Hi).
    assert (heap w !! side_conn q = Some cq) as Hhq by apply (Forall_lookup_1 _ _ _ _ Hh Hq).
    destruct (run_relay_ok (side_conn p) (side_conn q) cn cq peer (Some (session_id s)) env w) as (f & Hrun & Hcar);
      [done | done | by rewrite Hk | by rewrite Hsw | done | done | by apply Hmay |].
    rewrite Hk in Hcar. eexists _, (push_out (Binary f) cq). split_and!; [| | | | | | |by exists f].
    + unfold listen. rewrite run_pure, Hdec. cbn [lift_io map_err]. rewrite run_on_err. unfold message_for. rewrite Hrun. reflexivity.
    + cbn. by rewrite Hsw, Hcw.
    + done.
    + done.
    + done.
    + done.
    + by intros t ?%elem_of_nil.
  - rewrite app_nil_r in Hst'.
    exists n', (sent_side p), (set_socket_out (socket_out c ++ [g]) (set_outbound chan_new c)), f.
    split_and!; [done | | done |].
    + rewrite (set_seats l k i p cn q cq) in Hst' by done. done.
    + split; try done. by destruct Hw.
Qed.

(** A message of the peer arrives: the party about to handle it. *)
Lemma plays_hears i p cn c j d a a' f env payload : stage n sv now u l T -> l !! i = Some (p, cn) ->
  plays j d a chan_new (chan_push (Binary f) chan_new) (p, cn) c ->
  carries f (ResponseMessage.Opaque (OpaqueMessage.PeerMessage peer (Some (session_id s)) env)) ->
  decrypt_peer_channel env (Noise.Transport a) = (Noise.Transport a', Ok (Encoding.Json, payload)) ->
  exists n' p' c' cn', rtc net_step n n' /\ plays j d a' chan_new chan_new (p', cn') c' /\
    stage n' sv now u (<[i := (handle_item p' (Ok (Event.JsonMessage peer {| contents := payload |}
      (Some (session_id s)))), cn')]> l) T.
Proof.
  intros Hst Hi [Hw Htr [Hts Htc] Hstart Hrep Hd Hb Hown Hp [Hout Hin] (Hk & Hic & Hog)] Hcar Hdec.
  cbn [fst snd] in *. set (c' := set_peers (<[peer := Noise.Transport a']> (peers c)) c).
  destruct (stage_event n sv now u l T i p cn c f (ResponseMessage.Opaque
    (OpaqueMessage.PeerMessage peer (Some (session_id s)) env)) c'
    (Event.JsonMessage peer {| contents := payload |} (Some (session_id s)))) as (n' & Hr & Htr' & Hst'); [done.. | | done |].
  { cbn [handle_incoming_message]. unfold handle_relayed_message, mbind, SM_bind, on_peer. by rewrite Hp, Hdec. }
  rewrite (set_seat l i p cn) in Hst' by done.
  exists n', (received_side f p), c', (set_outgoing chan_new cn). split_and!; [done | | done].
  split; try done.
  - by destruct Hw.
  - apply lookup_insert_eq.
Qed.

(** The handler of a party that is given a message. *)
Lemma plays_handler j d a out said x c : plays j d a out said x c ->
  let b := in_transport (side_turns x.1) (side_handler x.1) in
  between s rounds j d b /\ transport b = Relay c.
Proof.
  intros [_ Htr _ _ _ _ Hb _ _ _ _]. cbn. unfold side_transport in Htr. cbn in Htr.
  split; [|done]. destruct Hb as [? ? ? ? ?]. by split.
Qed.

(** The message completes a round, and the party sends that of the next. *)
Lemma plays_next j d a b p cn c x y q d' payload : plays j d a chan_new chan_new (p, cn) c -> 0 <= j -> j + 1 < rounds ->
  tells s own (j + 1) x payload -> driver_round rounds (j + 1) x d = Ok (d', [y], None) ->
  tells s peer (j + 2) y q -> SessionStates.recipients s own = [peer] -> sends a b ->
  exists c' a' env, plays (j + 1) d' a' (chan_push (InternalMessage.Request (message_for peer env)) chan_new) chan_new
      (handle_item p (Ok (Event.JsonMessage peer {| contents := payload |} (Some (session_id s)))), cn) c' /\
    sealed a env q a'.
Proof.
  intros Hpl Hj0 Hj (Hrx & _ & Hx & _) Hround Hy Hrec Hab. destruct (plays_handler _ _ _ _ _ _ _ Hpl) as [Hb Ht].
  destruct Hpl as [[Hop Hres] Htr Hso Hstart Hrep Hd _ Hown Hp [Hout Hin] Hcn]. cbn [fst snd] in *.
  set (b0 := in_transport (side_turns p) (side_handler p)) in *.
  destruct (dispatch_seals s own peer (j + 2) y q c a b Hy Hrec Hown Hp Hab Hout) as (c' & a' & env & Hdis & Hc' & Hseal).
  destruct (bridge_next s rounds j d b0 x peer {| contents := payload |} d' [y] (Relay c') Hb Hj0 Hj) as
    (b' & Hev & Ht' & Hb'); [by unfold deserialize; cbn; rewrite Hx | done | done | |].
  { intros h Hs Hth. apply Hdis; [done |]. by rewrite Hth. }
  exists c', a', env. split; [|done].
  set (event := Event.JsonMessage peer _ _) in *.
  assert (handle_item p (Ok event) = handled p event b' None) as Hit by by apply handle_item_ok.
  pose proof (handle_item_replays p (Ok event) Hrep) as Hrep'. rewrite Hit in Hrep' |- *.
  split; try (by subst c').
  subst c'. apply lookup_insert_eq.
Qed.

(** The message completes the last round, and the party has its output. *)
Lemma plays_last j d a p cn c x d' o payload : plays j d a chan_new chan_new (p, cn) c -> 0 <= j -> j + 1 = rounds ->
  tells s own (j + 1) x payload -> driver_round rounds (j + 1) x d = Ok (d', [], Some o) ->
  played o (handle_item p (Ok (Event.JsonMessage peer {| contents := payload |} (Some (session_id s))))) c.
Proof.
  intros Hpl Hj0 Hj (Hrx & _ & Hx & _) Hround. destruct (plays_handler _ _ _ _ _ _ _ Hpl) as [Hb Ht].
  destruct Hpl as [[Hop Hres] Htr Hso Hstart Hrep Hd _ Hown Hp [Hout Hin] Hcn]. cbn [fst snd] in *.
  destruct (bridge_last s rounds j d _ x peer {| contents := payload |} d' o Hb ltac:(lia)) as (b' & Hev & Ht');
    [by unfold deserialize; cbn; rewrite Hx | done | done | done |].
  set (event := Event.JsonMessage peer _ _) in *.
  assert (handle_item p (Ok event) = handled p event b' (Some o)) as Hit by by apply handle_item_ok.
  pose proof (handle_item_replays p (Ok event) Hrep) as Hrep'. rewrite Hit in Hrep' |- *.
  split; try done. cbn. by rewrite Ht'.
Qed.
End player.

(** ** Two parties *)

Section duet.
Context (s : SessionState) (rounds : Z) (ka kb : bytes) (dca dcb : Connection) (sa sb : Bridge Transport D).
Context (Hwa : wf_buffer ka) (Hwb : wf_buffer kb) (Hid : is_uuid (session_id s)).
Context (Hra : SessionStates.recipients s ka = [kb]) (Hrb : SessionStates.recipients s kb = [ka]).
Context {now : SystemTime} {u : Uuid} {T : list Task}.

Abbreviation plays_a := (plays s rounds ka kb dca sa).
Abbreviation plays_b := (plays s rounds kb ka dcb sb).
Abbreviation hosted := (hosts (session_id s) ka kb dca dcb).
Abbreviation queued k env := (chan_push (InternalMessage.Request (message_for s k env)) chan_new).

(** A party with a message on its socket. *)
Lemma plays_pushed own peer dc start j d a out f p cn c :
  plays s rounds own peer dc start j d a out chan_new (p, cn) c ->
  plays s rounds own peer dc start j d a out (chan_push (Binary f) chan_new) (p, push_out (Binary f) cn) c.
Proof.
  intros [? ? ? ? ? ? ? ? ? ? (? & ? & Hog)]. split; try done. split_and!; [done | done |].
  cbn in Hog |- *. by rewrite Hog.
Qed.

Lemma plays_seat own peer dc start j d a out said p cn c :
  plays s rounds own peer dc start j d a out said (p, cn) c -> side_conn p = dc /\ outgoing cn = said.
Proof. by intros [_ _ _ _ _ ? _ _ _ _ (_ & _ & ?)]. Qed.

(** Both messages of a round leave, cross and arrive. *)
Lemma duet_exchange (n : Net) sv xa xb ca cb j da db a a1 ea pa b b1 eb pb : stage n sv now u [xa; xb] T -> hosted sv ->
  plays_a j da a1 (queued kb ea) chan_new xa ca -> plays_b j db b1 (queued ka eb) chan_new xb cb ->
  in_step a b -> sealed a ea pa a1 -> sealed b eb pb b1 ->
  exists n' sv' qa qb cna cnb ca' cb' a2 b2, rtc net_step n n' /\ hosted sv' /\ in_step a2 b2 /\
    plays_a j da a2 chan_new chan_new (qa, cna) ca' /\ plays_b j db b2 chan_new chan_new (qb, cnb) cb' /\
    stage n' sv' now u
      [(handle_item qa (Ok (Event.JsonMessage kb {| contents := pb |} (Some (session_id s)))), cna);
       (handle_item qb (Ok (Event.JsonMessage ka {| contents := pa |} (Some (session_id s)))), cnb)] T.
Proof.
  intros Hst Hh Ha Hb Hstep Hea Heb. destruct xa as [ya cna], xb as [yb cnb].
  destruct (sealed_cross a b ea eb pa pb a1 b1 Hstep Hea Heb) as (a2 & b2 & Hda & Hdb & Hstep2).
  destruct (plays_sends s rounds ka kb dca sa 0 1 ya cna ca j da a1 ea chan_new yb cnb Hst eq_refl Ha) as
    (n1 & ya1 & ca1 & fa & Hr1 & Hst1 & Hca1 & Ha1); [by split_and!; [..|apply Hea] | done | done | done | | | |].
  { destruct (plays_seat _ _ _ _ _ _ _ _ _ _ _ _ Hb) as [-> _]. apply Hh. }
  { by destruct (plays_seat _ _ _ _ _ _ _ _ _ _ _ _ Hb) as [_ ->]. }
  { intros w Hw. rewrite <- Hw in Hh. by apply (hosts_may_relay _ _ _ _ _ _ Hh). }
  cbn [list_insert insert] in Hst1. pose proof (visited_hosts now (session_id s) _ _ _ _ _ Hh) as Hh1.
  apply (plays_pushed _ _ _ _ _ _ _ _ fa) in Hb.
  destruct (plays_sends s rounds kb ka dcb sb 1 0 yb _ cb j db b1 eb _ ya1 cna Hst1 eq_refl Hb) as
    (n2 & yb2 & cb2 & fb & Hr2 & Hst2 & Hcb2 & Hb2); [by split_and!; [..|apply Heb] | done | done | done | | | |].
  { destruct (plays_seat _ _ _ _ _ _ _ _ _ _ _ _ Ha1) as [-> _]. apply Hh1. }
  { by destruct (plays_seat _ _ _ _ _ _ _ _ _ _ _ _ Ha1) as [_ ->]. }
  { intros w Hw. rewrite <- Hw in Hh1. by apply (hosts_may_relay _ _ _ _ _ _ Hh1). }
  cbn [list_insert insert] in Hst2. pose proof (visited_hosts now (session_id s) _ _ _ _ _ Hh1) as Hh2.
  apply (plays_pushed _ _ _ _ _ _ _ _ fb) in Ha1.
  destruct (plays_hears s rounds ka kb dca sa 0 ya1 _ ca1 j da a1 a2 fb eb pb Hst2 eq_refl Ha1 Hcb2 Hda) as
    (n3 & ya3 & ca3 & cna3 & Hr3 & Ha3 & Hst3). cbn [list_insert insert] in Hst3.
  destruct (plays_hears s rounds kb ka dcb sb 1 yb2 _ cb2 j db b1 b2 fa ea pa Hst3 eq_refl Hb2 Hca1 Hdb) as
    (n4 & yb4 & cb4 & cnb4 & Hr4 & Hb4 & Hst4). cbn [list_insert insert] in Hst4.
  exists n4, (visited now (session_id s) (visited now (session_id s) sv)), ya3, yb4, cna3, cnb4, ca3, cb4, a2, b2.
  split; [by do 3 (etransitivity; [eassumption |]) |]. done.
Qed.

Lemma duet_tells r da xa db xb oa ob : duet s ka kb rounds r da xa db xb oa ob ->
  exists pa pb, tells s kb r xa pa /\ tells s ka r xb pb.
Proof. by destruct 1 as [? ? pa ? ? pb | ? ? ? pa ? ? pb]; exists pa, pb. Qed.

(** The rounds that are left. *)
Lemma duet_plays r da xa db xb oa ob : duet s ka kb rounds r da xa db xb oa ob ->
  forall (n : Net) sv ya yb ca cb a a1 ea pa b b1 eb pb, 1 <= r -> stage n sv now u [ya; yb] T -> hosted sv ->
  plays_a (r - 1) da a1 (queued kb ea) chan_new ya ca -> plays_b (r - 1) db b1 (queued ka eb) chan_new yb cb ->
  in_step a b -> tells s kb r xa pa -> sealed a ea pa a1 -> tells s ka r xb pb -> sealed b eb pb b1 ->
  exists n' qa qb ca' cb', rtc net_step n n' /\ sides n' = [qa; qb] /\
    played ka sa oa qa ca' /\ played kb sb ob qb cb'.
Proof.
  induction 1 as [da xa pa0 db xb pb0 da' db' oa ob Hxa Hxb Hra' Hrb'
    | r da xa pa0 db xb pb0 da' xa' db' xb' oa ob Hr Hxa Hxb Hra' Hrb' Hd IH];
    intros n sv ya yb ca cb a a1 ea pa b b1 eb pb H1 Hst Hh Ha Hb Hstep Hpa Hea Hpb Heb;
    destruct (duet_exchange n sv ya yb ca cb _ da db a a1 ea pa b b1 eb pb Hst Hh Ha Hb Hstep Hea Heb) as
      (n1 & sv1 & qa & qb & cna & cnb & ca1 & cb1 & a2 & b2 & Hr1 & Hh1 & Hstep1 & Ha1 & Hb1 & Hst1).
  - exists n1, (handle_item qa (Ok (Event.JsonMessage kb {| contents := pb |} (Some (session_id s))))),
      (handle_item qb (Ok (Event.JsonMessage ka {| contents := pa |} (Some (session_id s))))), ca1, cb1.
    split; [done |]. split; [by apply (stage_sides _ _ _ _ _ _ Hst1) |].
    replace rounds with (rounds - 1 + 1) in Hpa, Hpb by lia.
    split; (eapply plays_last; [eassumption | lia | lia | eassumption |]);
      by replace (rounds - 1 + 1) with rounds by lia.
  - destruct (duet_tells _ _ _ _ _ _ _ Hd) as (pa' & pb' & Hxa' & Hxb').
    assert (forall x k p, tells s k r x p -> tells s k (r - 1 + 1) x p) as Hshift
      by (intros x k p; by replace (r - 1 + 1) with r by lia).
    replace r with (r - 1 + 1) in Hra', Hrb' by lia. replace (r + 1) with (r - 1 + 2) in Hxa', Hxb' by lia.
    destruct (plays_next s rounds ka kb dca sa (r - 1) da a2 b2 qa cna ca1 xb xa' pa' da' pb Ha1) as
      (ca2 & a3 & ea' & Ha2 & Hea'); [lia | lia | by apply Hshift | done | done | done | apply Hstep1 |].
    destruct (plays_next s rounds kb ka dcb sb (r - 1) db b2 a2 qb cnb cb1 xa xb' pb' db' pa Hb1) as
      (cb2 & b3 & eb' & Hb2 & Heb'); [lia | lia | by apply Hshift | done | done | done | apply Hstep1 |].
    replace (r - 1 + 1) with (r + 1 - 1) in Ha2, Hb2 by lia. replace (r - 1 + 2) with (r + 1) in Hxa', Hxb' by lia.
    destruct (IH n1 sv1 _ _ ca2 cb2 a2 a3 ea' pa' b2 b3 eb' pb' ltac:(lia) Hst1 Hh1 Ha2 Hb2 Hstep1 Hxa' Hea' Hxb' Heb')
      as (n' & pa1 & pb1 & ca' & cb' & Hr' & Hres).
    exists n', pa1, pb1, ca', cb'. split; [by etransitivity | done].
Qed.
End duet.

(** ** From an open session *)

(** The bridge a party begins with. *)
Definition bridge_of (s : SessionState) (buf : RoundBuffer.t (Incoming D)) (c : Client) (d : D) : Bridge Transport D :=
  {| transport := Relay c; buffer := buf; driver := Some d; session := s |}.

(** A party begins: its driver's first message is sealed and queued. *)
Lemma plays_begins s rounds own k dc buf c d d1 x p a b cn : is_u16 rounds ->
  RoundBuffer.new_fixed (I := Incoming D) (E := PError D) rounds 1 = Ok buf ->
  SessionStates.recipients s own = [k] -> resting own k a c cn -> sends a b ->
  proceed d = (d1, Ok [x]) -> tells s k 1 x p ->
  exists h c' a' env, execute (bridge_of s buf c d) = (h, Ok tt) /\
    plays s rounds own k dc h 0 d1 a' (chan_push (InternalMessage.Request (message_for s k env)) chan_new) chan_new
      (side_new dc h, cn) c' /\ sealed a env p a'.
Proof.
  intros Hu Hbuf Hrec [Hown Hp [Hout Hin] Hcn] Hab Hpro Hx.
  destruct (dispatch_seals s own k 1 x p c a b Hx Hrec Hown Hp Hab Hout) as (c' & a' & env & Hdis & Hc' & Hseal).
  set (b0 := bridge_of s buf c d). exists (set_transport (Relay c') (set_driver (Some d1) b0)), c', a', env.
  split; [|split; [|done]].
  - unfold execute. cbn [Bridge_driver]. unfold bridge_execute, proceed_and_dispatch, mbind, SM_bind, on_driver.
    cbn [driver b0 bridge_of]. rewrite Hpro. by apply Hdis.
  - split; try (by subst c').
    + by apply (between_new s rounds d1 (Relay c') buf).
    + subst c'. apply lookup_insert_eq.
Qed.

(** What a party that has its output can say of its wait. *)
Lemma played_waits own start o p c b0 tail : played own start o p c -> execute b0 = (start, Ok tt) ->
  wait_for_driver (side_stream p ++ tail) b0 = Ok (tail, Relay c, o).
Proof.
  intros [Hres Htr _ Hstart Hrep] Hex. unfold wait_for_driver. rewrite Hex.
  specialize (Hrep tail). unfold outcome in Hrep. rewrite Hres, Hstart in Hrep.
  change (wait_loop (H := @Driver_events (Bridge Transport D) Transport (Output D) (PError D) Bridge_driver)
    (side_stream p ++ tail) start = Ok (tail, side_handler p, o)) in Hrep.
  rewrite Hrep. cbn. by rewrite Htr.
Qed.

(** The rounds of two parties of a session, from where it is open. *)
Lemma session_plays {S A E} {EH : EventHandler S Transport A E} (n : Network S A E) sv now u T s rounds ka kb
    pa pb cna cnb ca cb a b buf da da1 xa db db1 xb oa ob :
  stage n sv now u [(pa, cna); (pb, cnb)] T -> hosts (session_id s) ka kb (side_conn pa) (side_conn pb) sv ->
  wf_buffer ka -> wf_buffer kb -> is_uuid (session_id s) ->
  SessionStates.recipients s ka = [kb] -> SessionStates.recipients s kb = [ka] ->
  resting ka kb a ca cna -> resting kb ka b cb cnb -> in_step a b -> is_u16 rounds ->
  RoundBuffer.new_fixed (I := Incoming D) (E := PError D) rounds 1 = Ok buf ->
  proceed da = (da1, Ok [xa]) -> proceed db = (db1, Ok [xb]) -> duet s ka kb rounds 1 da1 xa db1 xb oa ob ->
  exists n' qa qb ca' cb',
    rtc net_step (next_phase [side_new (side_conn pa) (execute (bridge_of s buf ca da)).1;
      side_new (side_conn pb) (execute (bridge_of s buf cb db)).1] n) n' /\ sides n' = [qa; qb] /\
    (forall tail, wait_for_driver (side_stream qa ++ tail) (bridge_of s buf ca da) = Ok (tail, Relay ca', oa)) /\
    (forall tail, wait_for_driver (side_stream qb ++ tail) (bridge_of s buf cb db) = Ok (tail, Relay cb', ob)).
Proof.
  intros Hst Hh Hwa Hwb Hid Hra Hrb Hca Hcb Hstep Hu Hbuf Hpa Hpb Hduet.
  destruct (duet_tells s rounds ka kb 1 _ _ _ _ _ _ Hduet) as (ja & jb & Hxa & Hxb).
  destruct (plays_begins s rounds ka kb (side_conn pa) buf ca da da1 xa ja a b cna Hu Hbuf Hra Hca (proj1 Hstep) Hpa Hxa)
    as (ha & ca1 & a1 & ea & Hea & Ha & Hsa).
  destruct (plays_begins s rounds kb ka (side_conn pb) buf cb db db1 xb jb b a cnb Hu Hbuf Hrb Hcb (proj2 Hstep) Hpb Hxb)
    as (hb & cb1 & b1 & eb & Heb & Hb & Hsb).
  rewrite Hea, Heb. cbn [fst].
  set (n0 := next_phase [side_new (side_conn pa) ha; side_new (side_conn pb) hb] n).
  assert (stage n0 sv now u [(side_new (side_conn pa) ha, cna); (side_new (side_conn pb) hb, cnb)] T) as Hst0.
  { destruct Hst as [H1 H2 H3 H4 H5 H6 H7 H8 H9]. split; try done.
    - apply list.Forall_cons in H6 as [H6 H6']. apply list.Forall_cons in H6' as [H6' _]. by repeat constructor.
    - apply list.Forall_cons in H8 as [H8 H8']. apply list.Forall_cons in H8' as [H8' _]. by repeat constructor. }
  destruct (duet_plays s rounds ka kb (side_conn pa) (side_conn pb) ha hb Hwa Hwb Hid Hra Hrb 1 _ _ _ _ _ _ Hduet
    n0 sv _ _ ca1 cb1 a a1 ea ja b b1 eb jb ltac:(lia) Hst0 Hh Ha Hb Hstep Hxa Hsa Hxb Hsb) as
    (n' & qa & qb & ca' & cb' & Hr & Hsides & Hqa & Hqb).
  exists n', qa, qb, ca', cb'. split; [done |]. split; [done |].
  split; intros tail; by eapply played_waits.
Qed.
End protocol.
