(* ===== verification/NetworkSpec.v ===== *)
(** * Specification of the network

    On sockets that lose nothing there is a run of clients and server from
    nothing to a session of two that both parties have, and one that goes on
    from there through the rounds of a protocol, to the output of either
    party. *)

From S2P Require Import Prelude Types Stream Encoding EncodingFacts Noise Channel ChannelSpec Keypair ServerConfig Zlib Prog Sessions SessionsFacts Net.
From S2P Require Import Server ServerSystem ServerRun ServerSafety ServerTasksSpec Client ClientFacts Transport Round RoundSpec Driver SessionHandlers SessionRun.
From S2P Require Import RelaySpec Network NetworkFacts EndToEnd NetworkRun NetworkSession NetworkLines NetworkOpening NetworkDuo NetworkDialogue NetworkProtocol.

Section sessions.
Context {BS : BinaryStream encoding_options} {BL : BinaryStreamLaws encoding_options BS}.
Context {SC : StatusCodes} {SL : StatusCodesLaws SC} {HO : HashOrder} {HL : HashOrderLaws HO}.
Context {N : Noise} {NL : NoiseLaws N} {NH : NoiseHandshakeLaws N}.
Context {FL : Flate} {FLL : FlateLaws FL} {HX : Hex} {DI : Display}.

Abbreviation Net := (Network (SessionHandler Transport) SessionState DriverError).
Abbreviation Party := (Side (SessionHandler Transport) SessionState DriverError).
Abbreviation key o := (Keypair.public_key (options_keypair o)).

(** C3. Two clients open a session over the network.  Let the server's
    configuration and the options of two clients ask for the standard pattern,
    its wait interval be positive (with 0 the waiting tasks panic), the server
    admit the keys of both and the messages of their session fit the wire
    format.  From a server that nobody is connected to there is a run of the
    network in which both connect, each shakes hands with the server, the first
    asks for a session with the second, and their waiting loops and the
    server's tasks do the rest: both are told of the session, shake hands
    through the relay, their connection is registered, and the server announces
    the session as active.  In the end the wait for the session of either
    party, on the items its event loop yielded, returns the session under the
    identifier drawn for it, with the initiator first; the server holds it as
    active; both clients are connected, each knows just the other, with
    transports in step; and either transport is ready for a protocol. *)
Theorem session_opens_over_network (cfg : ServerConfig.t) (kp : Keypair.t) (t : SystemTime) (u u' id : Uuid)
    (oa ob : ClientOptions) (a0 b0 : Client) (ra rb : HandshakeState) :
  default PATTERN (ServerConfig.pattern cfg) = PATTERN ->
  0 < wait_interval (ServerConfig.session cfg) ->
  greets oa a0 -> greets ob b0 ->
  accepts (RelayServer_new cfg kp) (key oa) ra -> accepts (RelayServer_new cfg kp) (key ob) rb ->
  key oa <> key ob -> wf_buffer (key oa) -> wf_buffer (key ob) -> can_pair oa ob -> duo_sendable oa ob id ->
  let s := {| session_id := id; all_participants := [key oa; key ob] |} in
  exists (n : Net) pa pb ca cb a b ss,
    rtc net_step (network_initial cfg kp t u) n /\ sides n = [pa; pb] /\
    side_start pa = Initiator (SessionInitiator_new (Relay a0) [key ob]) /\
    side_start pb = Participant (SessionParticipant_new (Relay b0)) /\
    has_session s pa (key oa) ca /\ has_session s pb (key ob) cb /\
    peers ca = {[key ob := Noise.Transport a]} /\ peers cb = {[key oa := Noise.Transport b]} /\ in_step a b /\
    SessionManager.get_session (sessions (server (world (system n)))) id = Some ss /\ Session.is_active ss = true.
Proof.
  intros Hps Hi Hga Hgb Haa Hab Hne Hwa Hwb Hpair Hsend s.
  destruct (duo_opens cfg kp t u u' id oa ob a0 b0 ra rb Hps Hi Hga Hgb Haa Hab Hne Hwa Hwb Hpair Hsend) as
    (n & sv & pa & pb & ca & cb & cna & cnb & a & b & Hop).
  destruct Hop as [Hr Hst Hsa Hsb Ha Hb [Hpa Hpb] Hstep _ _ _ Hss].
  exists n, pa, pb, ca, cb, a, b, (duo_session oa ob t true).
  split; [done |]. split; [by apply (stage_sides _ _ _ _ _ _ Hst) |]. split; [done |]. split; [done |].
  split; [done |]. split; [done |]. rewrite (stage_server _ _ _ _ _ _ Hst).
  split; [done |]. split; [done |]. split; [done |]. split; [done | by apply duo_session_active].
Qed.

(** C4. A protocol runs over the network, from nothing to its output.  Let two
    clients be able to open a session, and let two protocol drivers, given the
    messages of each other one round after the other, exchange one message
    each in every round, to their outputs; the messages fit an envelope and
    their JSON reads back.  Then there is a run of the network that opens the
    session for both, and, with a bridge to its driver in place of the handler
    of either, a run that goes on from there, in which either party's wait for
    its driver, on the items its event loop yielded, returns just that output:
    the messages of the two are sealed, relayed, opened and buffered for the
    rounds they belong to, also when they cross. *)
Theorem protocol_runs_over_network {D} {PD : ProtocolDriver D} (cfg : ServerConfig.t) (kp : Keypair.t)
    (t : SystemTime) (u u' id : Uuid) (oa ob : ClientOptions) (a0 b0 : Client) (ra rb : HandshakeState)
    (rounds : Z) (buf : RoundBuffer.t (Incoming D)) (da da1 db db1 : D) (xa xb : Outgoing D) (outa outb : Output D) :
  default PATTERN (ServerConfig.pattern cfg) = PATTERN ->
  0 < wait_interval (ServerConfig.session cfg) ->
  greets oa a0 -> greets ob b0 ->
  accepts (RelayServer_new cfg kp) (key oa) ra -> accepts (RelayServer_new cfg kp) (key ob) rb ->
  key oa <> key ob -> wf_buffer (key oa) -> wf_buffer (key ob) -> can_pair oa ob -> duo_sendable oa ob id ->
  let s := {| session_id := id; all_participants := [key oa; key ob] |} in
  is_u16 rounds -> RoundBuffer.new_fixed (E := PError D) rounds 1 = Ok buf ->
  proceed da = (da1, Ok [xa]) -> proceed db = (db1, Ok [xb]) ->
  duet s (key oa) (key ob) rounds 1 da1 xa db1 xb outa outb ->
  let bridge c d := {| transport := Relay c; buffer := buf; driver := Some d; session := s |} in
  exists (n : Net) pa pb ca cb n' qa qb ca' cb',
    rtc net_step (network_initial cfg kp t u) n /\ sides n = [pa; pb] /\
    side_start pa = Initiator (SessionInitiator_new (Relay a0) [key ob]) /\
    side_start pb = Participant (SessionParticipant_new (Relay b0)) /\
    has_session s pa (key oa) ca /\ has_session s pb (key ob) cb /\
    rtc net_step (next_phase [side_new (side_conn pa) (execute (bridge ca da)).1;
      side_new (side_conn pb) (execute (bridge cb db)).1] n) n' /\ sides n' = [qa; qb] /\
    (forall tail, wait_for_driver (side_stream qa ++ tail) (bridge ca da) = Ok (tail, Relay ca', outa)) /\
    (forall tail, wait_for_driver (side_stream qb ++ tail) (bridge cb db) = Ok (tail, Relay cb', outb)).
Proof.
  intros Hps Hi Hga Hgb Haa Hab Hne Hwa Hwb Hpair Hsend s Hu Hbuf Hpa Hpb Hduet bridge.
  destruct (duo_opens cfg kp t u u' id oa ob a0 b0 ra rb Hps Hi Hga Hgb Haa Hab Hne Hwa Hwb Hpair Hsend) as
    (n & sv & pa & pb & ca & cb & cna & cnb & a & b & Hop).
  destruct Hop as [Hr Hst Hsa Hsb Ha Hb _ Hstep Hca Hcb [Hacta Hactb] Hss].
  assert (is_uuid id) as Hid by apply (proj1 (proj1 (proj2 Hsend))).
  destruct (session_plays n sv t id [] s rounds (key oa) (key ob) pa pb cna cnb ca cb a b buf da da1 xa db db1 xb outa outb
    Hst) as (n' & qa & qb & ca' & cb' & Hr' & Hsides & Hqa & Hqb); try done.
  { split; [done |]. split; [done |]. exists (duo_session oa ob t true). split; [done |]. split; [done |].
    by apply elem_of_list_to_set, list_elem_of_singleton. }
  { by apply duo_peers_a. }
  { by apply duo_peers_b. }
  exists n, pa, pb, ca, cb, n', qa, qb, ca', cb'.
  split; [done |]. split; [by apply (stage_sides _ _ _ _ _ _ Hst) |]. done.
Qed.
End sessions.

(** ** Evaluation on the reference instances *)

From S2P Require Import StreamLE EncodingSpec NoiseRef ServerRef ClientRef DriverRef.

Lemma ref_duo_sendable : duo_sendable (ref_options alice) (ref_options bob) the_id.
Proof.
  assert (wf_buffer alice /\ wf_buffer bob /\ is_uuid the_id) as (Ha & Hb & Hid) by (by split_and!; vm_compute).
  assert (wf_keys [bob] /\ wf_keys [alice; bob]) as [H1 H2]
    by (split; (split; [by vm_compute | by repeat constructor])).
  unfold duo_sendable. split; [|split; [|split; [|split]]];
    (eapply sendable_small; [first [done | by split] | by vm_compute | by vm_compute]).
Qed.

(** Alice opens a session with Bob. *)
Lemma session_opens_over_network_witness :
  exists (n : Network (SessionHandler Transport) SessionState DriverError) pa pb ca cb,
  rtc net_step (network_initial ServerConfig.default ref_keypair 0 (zeros 16)) n /\ sides n = [pa; pb] /\
  has_session {| session_id := the_id; all_participants := [alice; bob] |} pa alice ca /\
  has_session {| session_id := the_id; all_participants := [alice; bob] |} pb bob cb.
Proof.
  edestruct (session_opens_over_network (NH := RefNoise_handshake_laws) ServerConfig.default ref_keypair 0
    (zeros 16) (zeros 16) the_id (ref_options alice) (ref_options bob))
    as (n & pa & pb & ca & cb & a & b & ss & Hr & Hs & _ & _ & Ha & Hb & _).
  - reflexivity.
  - by vm_compute.
  - split; [reflexivity |]. eexists. split; reflexivity.
  - split; [reflexivity |]. eexists. split; reflexivity.
  - split; [reflexivity |]. eexists. split; reflexivity.
  - split; [reflexivity |]. eexists. split; reflexivity.
  - by vm_compute.
  - by vm_compute.
  - by vm_compute.
  - eexists _, _, _. split_and!; reflexivity.
  - exact ref_duo_sendable.
  - by exists n, pa, pb, ca, cb.
Defined.

(** The two collectors of a session of two. *)
Lemma ref_duet : duet {| session_id := the_id; all_participants := [alice; bob] |} alice bob 2 1
  {| at_round := 1; collected := [] |} (a_round_msg 1 1) {| at_round := 1; collected := [] |} (a_round_msg 1 1)
  [1; 2] [1; 2].
Proof.
  eapply (duet_round (PD := Collector_protocol) _ _ _ _ 1 _ _ [Byte.x01; Byte.x01] _ _ [Byte.x01; Byte.x01] _ (a_round_msg 2 2) _ (a_round_msg 2 2)).
  - done.
  - split_and!; [done | done | done | by vm_compute | by left].
  - split_and!; [done | done | done | by vm_compute | by left].
  - reflexivity.
  - reflexivity.
  - eapply (duet_last (PD := Collector_protocol) _ _ _ _ _ _ [Byte.x02; Byte.x02] _ _ [Byte.x02; Byte.x02]).
    + split_and!; [done | done | done | by vm_compute | by left].
    + split_and!; [done | done | done | by vm_compute | by left].
    + reflexivity.
    + reflexivity.
Qed.

(** The bridge of a collector. *)
Definition ref_bridge (c : Client) : Bridge Transport Collector :=
  {| transport := Relay c;
     buffer := {| RoundBuffer.expected := <[2 := 1]> (<[1 := 1]> ∅); RoundBuffer.messages := ∅ |};
     driver := Some {| at_round := 0; collected := [] |};
     session := {| session_id := the_id; all_participants := [alice; bob] |} |}.

(** Alice and Bob collect the numbers of their rounds. *)
Lemma protocol_runs_over_network_witness :
  exists (ca cb ca' cb' : Client) (qa qb : Side (Bridge Transport Collector) (list Z) DriverError),
  (forall tail, wait_for_driver (H := Bridge_driver (PD := Collector_protocol)) (side_stream qa ++ tail) (ref_bridge ca)
    = Ok (tail, Relay ca', [1; 2])) /\
  (forall tail, wait_for_driver (H := Bridge_driver (PD := Collector_protocol)) (side_stream qb ++ tail) (ref_bridge cb)
    = Ok (tail, Relay cb', [1; 2])).
Proof.
  edestruct (protocol_runs_over_network (NH := RefNoise_handshake_laws) (PD := Collector_protocol)) with
    (cfg := ServerConfig.default) (kp := ref_keypair) (t := 0) (u := zeros 16) (u' := zeros 16) (id := the_id)
    (oa := ref_options alice) (ob := ref_options bob) (rounds := 2)
    (buf := {| RoundBuffer.expected := <[2 := 1]> (<[1 := 1]> (∅ : gmap Z Z));
              RoundBuffer.messages := (∅ : gmap Z (list (Incoming Collector))) |})
    (da := {| at_round := 0; collected := [] |}) (da1 := {| at_round := 1; collected := [] |})
    (db := {| at_round := 0; collected := [] |}) (db1 := {| at_round := 1; collected := [] |})
    (xa := a_round_msg 1 1) (xb := a_round_msg 1 1) (outa := [1; 2]) (outb := [1; 2])
    as (n & pa & pb & ca & cb & n' & qa & qb & ca' & cb' & _ & _ & _ & _ & _ & _ & _ & _ & Ha & Hb).
  - reflexivity.
  - by vm_compute.
  - split; [reflexivity |]. eexists. split; reflexivity.
  - split; [reflexivity |]. eexists. split; reflexivity.
  - split; [reflexivity |]. eexists. split; reflexivity.
  - split; [reflexivity |]. eexists. split; reflexivity.
  - by vm_compute.
  - by vm_compute.
  - by vm_compute.
  - eexists _, _, _. split_and!; reflexivity.
  - exact ref_duo_sendable.
  - by vm_compute.
  - reflexivity.
  - reflexivity.
  - reflexivity.
  - exact ref_duet.
  - by exists ca, cb, ca', cb', qa, qb.
Defined.
